(* ===== verification/_CoqProject ===== *)
-Q . S2P
Prelude.v
GoStrings.v
StringFacts.v
Json.v
GoTime.v
Effects.v
Paths.v
SshKeys.v
Durations.v
Net.v
Sql.v
Schema.v
Names.v
Migrations.v
Host.v
HostFacts.v
StoreUsers.v
StoreOIDC.v
StoreTargets.v
StoreAccess.v
StoreAudit.v
StoreWf.v
StoreCalls.v
StoreWhole.v
StoreAdmin.v
StoreAuthz.v
StoreAuthn.v
StoreLog.v
Policy.v
PolicyProps.v
MigrationProps.v
Crypto.v
Totp.v
Sessions.v
Auth.v
AuthProps.v
Scp.v
Routing.v
RoutingProps.v
Input.v
InputProps.v
InputSession.v
InputSessionProps.v
Config.v
ConfigProps.v
OidcDevice.v
OidcDeviceProps.v
Downstream.v
DownstreamProps.v
ProxyShell.v
ProxyShellProps.v
ProxyShellEnds.v
MenuState.v
MenuModel.v
MenuCommands.v
MenuForms.v
MenuKeys.v
MenuView.v
MenuRemote.v
MenuSamples.v
MenuWf.v
MenuFormsWf.v
MenuProps.v
MenuLine.v
MenuViewProps.v
MenuSafe.v
MenuExit.v
MenuAccess.v
Secrets.v
Flags.v
Proxies.v
Commands.v
CommandsProps.v
Setup.v
SetupProps.v
Startup.v
Install.v
InstallProps.v
InstallService.v
SetupSamples.v
