(* ===== verification/Prelude.v ===== *)
(** * SSHGateW: a verification library

    SSHGateW ([src/], Go) is an SSH gateway: users log in to it, and it opens
    SSH connections to targets for them with credentials only it holds.  This
    library models the parts of it that decide who may do what, translates the
    code to executable definitions and proves what the code guarantees.

    ** The program and the files that model it

    - The database ([internal/store]).  [Schema] has the tables of schema version
      7 as lists of rows, and [wf_db], their constraints; [Sql] what the
      statements do (insert, update, delete, unique keys, order); [Names],
      [StoreUsers], [StoreOIDC], [StoreTargets], [StoreAccess] and [StoreAudit]
      have one definition per Go function of store.go, under its name, and one
      per SQL statement.  A function that makes several statements is a [prog] of
      [Effects], one step per statement or transaction, so that concurrent calls
      interleave as they do in the gateway.  [StoreCalls] lists every call.
      [Migrations] opens a database file of any version, over [Paths].
    - Logging in ([internal/gateway/auth.go]).  [Auth] has the public key
      callback, the second factor, the OIDC login and the state a session reads
      back from the database; [OidcDevice] the device flow
      ([internal/oidcdevice]); [Totp] the codes, the provisioning URI and the QR
      text ([internal/totp]), over the SHA-1, HMAC and base32 of [Crypto].
    - Sessions ([internal/gateway/server.go], routing.go).  [Sessions] counts and
      limits them; [Routing] has the handlers of a session, of a routed session
      and of a TCP forwarding with its two copying goroutines, with the checks,
      audit events and slots in the
      order of the code; what they do outside is a trace of [action]s, and what
      the network answers is an environment.  [Scp] is the filter of SCP commands
      ([internal/downstream/protocols.go]), [Downstream] the pinned connection to
      a target (downstream.go), [Secrets] the encryption of credentials
      ([internal/secrets]).
    - The menu ([internal/tui]).  [Input] parses what is typed; [MenuState] is the
      model, its pending operation and its forms; [MenuModel] the helpers;
      [MenuCommands] every closure the handlers return, as a [command] and the
      program it runs on the database; [MenuForms] and [MenuKeys] the handlers of
      forms, keys and messages; [MenuLine] the command line; [MenuView] every
      line that is drawn; [MenuRemote] the loop on the SSH channel.  A handler is
      a [menu_step]: a program that ends with the next model and a command, or
      with [None] where the code would panic.
    - What is typed reaches the menu and the shells through one reader
      ([internal/gateway/input.go]): [InputSession] is a step relation of the
      reader, its two consumers and the code that starts and stops them, all
      concurrent.
    - Shells and transfers ([internal/downstream]): [ProxyShell] has the five
      goroutines of [ProxyShell], its stack of deferred calls and the library's
      copying as steps that interleave with those of the target, the client and
      the context; [Proxies] the transfers of [ProxySubsystem], [ProxySCP] and
      [proxySession], and [Connect].
    - The configuration ([internal/config]) is [Config]; the text of its timeouts,
      [time.ParseDuration] and [Duration.String], is [Durations].
    - The command line ([cmd/sshgatew/main.go], install.go).  [Flags] is package
      flag; [Commands] has every command on the database, with its flags, files,
      prompts and output.  [Host] is a machine: files and directories with modes
      and owners, and system calls each of which can fail, done in part or not at
      all; [Setup] has [run], [init] and [serve] on it, with the files they write
      and read ([secrets.Generate], [config.Write], [store.Open] and
      [gateway.New]); [Install] the installer.

    Underneath are this file, [GoStrings] and [StringFacts] (UTF-8, package
    strings, strconv), [Json] (encoding/json for audit details), [GoTime], [Net]
    (addresses), [Paths] (path/filepath) and [Effects] (errors, programs over a shared state and their
    interleavings).  Strings are byte strings, as in Go; 64-bit and 32-bit
    integers are [Z] with their wrap-around or range written out; a Go error is a
    value of [Effects.error].

    ** What is proved

    - Authorization ([StoreAuthz], [RoutingProps]): the access decision is
      exactly the documented rule, stated over the tables with a table of the four
      capabilities of its own; grants, revocations, deletions and forwarding
      rules change it as they should; whatever a session or a forwarding does
      outside was permitted in the database at that moment, and what a routed
      session does for a shell, an SFTP or an SCP request is the one sequence of
      steps that belongs to the request; the slots of the limits are returned
      ([Sessions] proves that the limits hold); a forwarding logs the bytes that
      reached either side, also when a copy fails, and comes to its end.
    - Logging in ([StoreAuthn], [AuthProps], [OidcDeviceProps], [Totp]): key and
      OIDC logins succeed exactly for the users they should, but for a bound
      subject whose new name at the provider another identity still has; a
      one-time code is valid in its window and is consumed once, also by
      concurrent logins, and no login accepts it again whatever other logins and
      calls, a new enrollment apart, come between; a device login uses and shows
      trusted endpoints only.
    - The access policy ([Policy], [PolicyProps]): an abstract specification, by
      names, of what every call of the store means for who may do what; the store
      refines it call by call ([calls_refine_policy]), so that the access query
      answers by the history of the calls alone ([access_follows_history]).
    - The store ([StoreWf], [StoreCalls], [StoreAdmin], [StoreLog]): every
      interleaving of calls keeps the constraints; sequential calls keep a usable
      administrator; the audit log is appended to, listed and pruned as stated.
      [MigrationProps], with the rely-guarantee logic of [Effects]: a file of any
      older version opens as version 7 with its rows unchanged, also when several
      processes open it at once.  [StoreWhole]: a call that fails
      changes nothing, and calls leave the rows they are not about as they are.
    - Connections and secrets ([DownstreamProps], [Secrets], [Scp]): the host
      key is the pinned one, the credential is the target's, the agent is closed;
      associated data separates owners; a filtered SCP command reaches the
      target's shell as the arguments that were checked, whatever words the
      library split the request into.
    - The menu ([MenuWf], [MenuFormsWf], [MenuProps], [MenuSafe]): an invariant of
      the model rules out every panic - of handlers and of drawing, where every
      index, slice and repetition is partial -, in all interleavings with other
      sessions, and chains of commands end.  [MenuAccess]: the menu of a member changes
      nothing but the member's own OIDC identity and the log; what a
      change of an administrator does and logs, error by error, and that a target
      is added with its credential, as the form had it, or not at all.  [MenuViewProps]: no secret is
      drawn, frames have the terminal's height, the cursor is on screen.
      [MenuExit]: four keys leave the menu from every state but two.
      [MenuSamples] has the instances and users of the examples.
    - Input and configuration ([InputProps], [ConfigProps]): how input is cut into
      reads makes no difference; [Load] accepts the configurations that
      are valid as documented, and of the others only those with blanks around a
      scope; what is written of a duration is read back ([Durations]).
      [InputSessionProps]: the channel has one reader at a time, no byte is lost
      or reordered between menu and shell, and a shell that ends lets go.
    - Shells and transfers ([ProxyShellProps], [ProxyShellEnds], [Proxies]): an invariant of the goroutines gives what
      the result is, by the state in which the library's wait returned: an exit
      status comes first, then the context's error, then the others; the input is
      passed on in order and left alone after the return; and once the session is
      over the proxy's own steps end, with every goroutine ended.
    - The command line ([Flags], [CommandsProps]): the documented flags of a
      command, in whatever order and spelling, mean what the manual says; a command changes the database and reports it, or changes nothing;
      a host key is pinned only when it was confirmed.  Setting up ([HostFacts],
      [SetupProps], [Startup], with a machine and runs of [init] and [install] in [SetupSamples]): [init]
      overwrites nothing, leaves nothing when it fails, and what it leaves
      otherwise lets [serve] start and the administrator log in.  The installer
      ([InstallProps], [InstallService]): a file it replaces is
      the old one or the complete new one at every moment; an installed service
      owns its files and is not root, and its unit, read as systemd reads it, says
      so and confines it; an existing installation is refused.

    Some theorems show behaviour that is not what the documentation says:
    [StoreAdmin.concurrent_disables_lock_out],
    [StoreAuthn.renamed_provider_user_locked_out],
    [StoreLog.prune_deletes_by_day], [RoutingProps.disabled_user_keeps_menu],
    [Scp.quoted_tilde_is_expanded], [Input.parse_ctrl_right],
    [ConfigProps.padded_scope_loads],
    [MigrationProps.failed_check_is_forgotten], [MenuAccess.mutations_are_audited] (an
    administrator who deletes their own account),
    [MenuViewProps.edited_field_is_not_shown],
    [ProxyShellEnds.late_window_is_taken],
    [SetupSamples.unfinished_installation],
    [SetupSamples.consent_is_not_asked] and
    [InstallService.path_is_not_quoted].

    ** Parameters, bounds and fuel

    Libraries are type classes, with what the code relies on as laws in a class
    of their own: the case tables from U+0080 up ([UnicodeTables]), the row id an
    INSERT without one takes ([Rowids], [RowidsLaws]), time.Parse ([TimeParser]),
    go-shlex ([Shlex]), the ciphers ([CipherOps], [SealOps], [Aead],
    [PayloadCodec]), the key formats of x/crypto/ssh ([KeyFormats] of [SshKeys])
    and its connections ([Ssh], [SshLaws]), the widths of terminal text
    and local time ([Ansi]), url.Parse and
    net.ParseIP ([NetText]), go-oidc, oauth2 and HTTP ([Services]), the texts
    of the driver's and SQLite's errors ([DriverTexts], [SqliteTexts]), the
    printable characters ([PrintTables]), TOML ([TomlCodec]), the generation and
    PEM text of host keys ([HostKeys]), the file URLs of the driver ([FileUrls]),
    and what a machine answers to a call and when it fails ([Host.machine],
    [Install.installRuntime]).  The answers of the SSH library to a proxy are a
    record of them ([ProxyShell.shell_calls]).  Each has an instance for the
    examples.  A loop of the code that is not structural takes fuel that its file
    proves enough: [Input.parse_loop] the length of the data
    ([InputProps.parse_loop_fuel]), [MenuKeys.applyCommand] three units of which
    two are enough ([MenuSafe.commands_end]), [MenuView.wrap_runes] the number of
    runes, one of which at least leaves in a step, [Json.scan_value] two units a byte
    ([Json.Unmarshal_fuel]), [Crypto.sha1_blocks] the length of the message
    ([Crypto.sha1_blocks_fuel]),
    [Durations.parse_terms] the length of the text ([Durations.parse_terms_fuel]).

    The steps of a proxy's own goroutines decrease a measure
    ([ProxyShellEnds.shell_weight], [RoutingProps.forwarding_weight]).

    ** Not modelled

    Log output; symbolic links, the kernel's permission checks and an in-memory
    database on the machine of [Host]; indexes of the database; the wiping of
    secrets in memory; what the SSH library does with the configuration it is
    given ([ListenAndServe], [Shutdown]). *)

From Stdlib Require Export ZArith Lia Bool Ascii.
From Stdlib Require String.
From stdpp Require Export base list strings gmap sorting relations pretty.

#[global] Open Scope Z_scope.

#[global] Arguments String.append !s1 s2 : simpl nomatch.

Declare Scope go_scope.
Delimit Scope go_scope with go.
Infix "=s" := String.eqb (at level 70, no associativity) : go_scope.
#[global] Open Scope go_scope.

(** ** Automation *)

Create HintDb sql.
Create HintDb gateway.

(** [bool_simp] turns the boolean tests of the code into propositions. *)
Ltac bool_simp :=
  repeat match goal with
  | H : _ && _ = true |- _ => apply andb_true_iff in H as [? ?]
  | H : _ || _ = false |- _ => apply orb_false_iff in H as [? ?]
  | H : negb _ = true |- _ => apply negb_true_iff in H
  | H : negb _ = false |- _ => apply negb_false_iff in H
  | H : String.eqb _ _ = true |- _ => apply String.eqb_eq in H
  | H : String.eqb _ _ = false |- _ => apply String.eqb_neq in H
  | H : Z.eqb _ _ = true |- _ => apply Z.eqb_eq in H
  | H : Z.eqb _ _ = false |- _ => apply Z.eqb_neq in H
  | H : Z.leb _ _ = true |- _ => apply Z.leb_le in H
  | H : Z.leb _ _ = false |- _ => apply Z.leb_gt in H
  | H : Z.ltb _ _ = true |- _ => apply Z.ltb_lt in H
  | H : Z.ltb _ _ = false |- _ => apply Z.ltb_ge in H
  | H : true = false |- _ => discriminate H
  | H : false = true |- _ => discriminate H
  end.

(** [split_matches] walks the branches of a handler: it destructs whatever
    the goal or a hypothesis is matching on. *)
Ltac split_matches :=
  repeat match goal with
  | H : context [match ?x with _ => _ end] |- _ =>
      let E := fresh "E" in destruct x eqn:E; try discriminate H
  | |- context [match ?x with _ => _ end] => let E := fresh "E" in destruct x eqn:E
  end.

(** ** Generic list facts *)

Lemma existsb_true {A} (p : A → bool) (l : list A) :
  existsb p l = true ↔ ∃ x, x ∈ l ∧ p x = true.
Proof. rewrite existsb_exists. by setoid_rewrite list_elem_of_In. Qed.

Lemma existsb_false {A} (p : A → bool) (l : list A) :
  existsb p l = false ↔ ∀ x, x ∈ l → p x = false.
Proof.
  split.
  - intros H x Hx. destruct (p x) eqn:E; [|done].
    enough (existsb p l = true) by congruence.
    apply existsb_true. eauto.
  - intros H. destruct (existsb p l) eqn:E; [|done].
    apply existsb_true in E as (x & Hx & Ep). rewrite H in Ep; done.
Qed.

Lemma forallb_true {A} (p : A → bool) (l : list A) :
  forallb p l = true ↔ ∀ x, x ∈ l → p x = true.
Proof. rewrite forallb_forall. by setoid_rewrite list_elem_of_In. Qed.

Lemma NoDup_fmap_eq {A B} (f : A → B) (l : list A) x y :
  NoDup (f <$> l) → x ∈ l → y ∈ l → f x = f y → x = y.
Proof.
  induction l as [|z l IH]; intros Hnd Hx Hy Hf; [by apply not_elem_of_nil in Hx|].
  cbn in Hnd. apply NoDup_cons in Hnd as [Hz Hnd].
  apply elem_of_cons in Hx as [->|Hx], Hy as [->|Hy]; auto.
  - destruct Hz. rewrite Hf. by apply list_elem_of_fmap_2.
  - destruct Hz. rewrite <- Hf. by apply list_elem_of_fmap_2.
Qed.
