(* ===== verification/GoStrings.v ===== *)
(** * The part of Go's string library the program uses

    Go strings and byte slices are both byte sequences; they are modelled as
    [string], one [ascii] per byte.  The functions below follow the packages
    [unicode/utf8], [unicode], [strings] and [strconv] of the Go standard
    library.  The case tables of [package unicode] beyond ASCII are a parameter
    ([UnicodeTables]); everything else is concrete and executable. *)

From S2P Require Import Prelude.

(** ** Bytes *)

Definition byte (c : ascii) : Z := Z.of_N (N_of_ascii c).
Definition chr (z : Z) : ascii := ascii_of_N (Z.to_N z).

(** [len(s)] *)
Definition len (s : string) : Z := Z.of_nat (String.length s).

(** A one-byte string. *)
Definition str1 (c : ascii) : string := String c EmptyString.

Fixpoint concat_strings (l : list string) : string :=
  match l with
  | [] => ""
  | s :: r => s +:+ concat_strings r
  end.

Definition bytes_of (s : string) : list Z := byte <$> String.list_ascii_of_string s.
Definition of_bytes (l : list Z) : string := String.string_of_list_ascii (chr <$> l).

(** ** [unicode/utf8] *)

Definition RuneError : Z := 0xFFFD.

Definition in_range (lo hi b : Z) : bool := (lo <=? b) && (b <=? hi).
Definition cont_byte (b : Z) : bool := in_range 0x80 0xBF b.

(** The table [first] of [unicode/utf8]: the size announced by a leading byte
    and the range its second byte must lie in. *)
Inductive lead := L1 | L2 | L3 (lo hi : Z) | L4 (lo hi : Z) | LInvalid.

Definition lead_of (b : Z) : lead :=
  if b <? 0x80 then L1
  else if in_range 0xC2 0xDF b then L2
  else if b =? 0xE0 then L3 0xA0 0xBF
  else if b =? 0xED then L3 0x80 0x9F
  else if in_range 0xE1 0xEF b then L3 0x80 0xBF
  else if b =? 0xF0 then L4 0x90 0xBF
  else if in_range 0xF1 0xF3 b then L4 0x80 0xBF
  else if b =? 0xF4 then L4 0x80 0x8F
  else LInvalid.

Definition rune2 (a b : Z) : Z := Z.lor (Z.shiftl (Z.land a 0x1F) 6) (Z.land b 0x3F).
Definition rune3 (a b c : Z) : Z :=
  Z.lor (Z.lor (Z.shiftl (Z.land a 0x0F) 12) (Z.shiftl (Z.land b 0x3F) 6)) (Z.land c 0x3F).
Definition rune4 (a b c d : Z) : Z :=
  Z.lor (Z.lor (Z.shiftl (Z.land a 0x07) 18) (Z.shiftl (Z.land b 0x3F) 12))
        (Z.lor (Z.shiftl (Z.land c 0x3F) 6) (Z.land d 0x3F)).

(** A string cut the way [for _, r := range s] walks it: each rune with the
    bytes it was decoded from.  An invalid byte is [RuneError] of width one. *)
Fixpoint runes (s : string) : list (Z * string) :=
  match s with
  | EmptyString => []
  | String a t =>
    match lead_of (byte a), t with
    | L1, _ => (byte a, str1 a) :: runes t
    | L2, String b t2 =>
      if cont_byte (byte b)
      then (rune2 (byte a) (byte b), String a (str1 b)) :: runes t2
      else (RuneError, str1 a) :: runes t
    | L3 lo hi, String b (String c t3) =>
      if in_range lo hi (byte b) && cont_byte (byte c)
      then (rune3 (byte a) (byte b) (byte c), String a (String b (str1 c))) :: runes t3
      else (RuneError, str1 a) :: runes t
    | L4 lo hi, String b (String c (String d t4)) =>
      if in_range lo hi (byte b) && cont_byte (byte c) && cont_byte (byte d)
      then (rune4 (byte a) (byte b) (byte c) (byte d),
            String a (String b (String c (str1 d)))) :: runes t4
      else (RuneError, str1 a) :: runes t
    | _, _ => (RuneError, str1 a) :: runes t
    end
  end.

(** [utf8.DecodeRune] *)
Definition DecodeRune (s : string) : Z * Z :=
  match runes s with
  | [] => (RuneError, 0)
  | (r, raw) :: _ => (r, len raw)
  end.

(** [utf8.FullRune] *)
Definition FullRune (s : string) : bool :=
  match s with
  | EmptyString => false
  | String a t =>
    match lead_of (byte a), t with
    | L1, _ | LInvalid, _ => true
    | L2, EmptyString => false
    | L2, _ => true
    | L3 lo hi, String b EmptyString => negb (in_range lo hi (byte b))
    | L3 _ _, String _ (String _ _) => true
    | L4 lo hi, String b EmptyString => negb (in_range lo hi (byte b))
    | L4 lo hi, String b (String c EmptyString) =>
      negb (in_range lo hi (byte b)) || negb (cont_byte (byte c))
    | L4 lo hi, String b (String c (String _ _)) => true
    | _, EmptyString => false
    end
  end.

(** [utf8.ValidString]: no byte decodes to an error of width one. *)
Definition ValidString (s : string) : bool :=
  forallb (λ '(r, raw), negb ((r =? RuneError) && (len raw =? 1))) (runes s).

Definition valid_rune (r : Z) : bool :=
  in_range 0 0xD7FF r || in_range 0xE000 0x10FFFF r.

(** [string(rune)], [utf8.AppendRune] *)
Definition encode_rune (r : Z) : string :=
  let r := if valid_rune r then r else RuneError in
  if r <? 0x80 then str1 (chr r)
  else if r <? 0x800 then
    of_bytes [Z.lor 0xC0 (Z.shiftr r 6); Z.lor 0x80 (Z.land r 0x3F)]
  else if r <? 0x10000 then
    of_bytes [Z.lor 0xE0 (Z.shiftr r 12); Z.lor 0x80 (Z.land (Z.shiftr r 6) 0x3F);
              Z.lor 0x80 (Z.land r 0x3F)]
  else
    of_bytes [Z.lor 0xF0 (Z.shiftr r 18); Z.lor 0x80 (Z.land (Z.shiftr r 12) 0x3F);
              Z.lor 0x80 (Z.land (Z.shiftr r 6) 0x3F); Z.lor 0x80 (Z.land r 0x3F)].

(** ** [unicode] *)

(** The simple case mappings of the runes from 0x80 up. *)
Class UnicodeTables := {
  lower_table : Z → Z;
  upper_table : Z → Z;
}.

Definition is_upper_ascii (b : Z) : bool := in_range 0x41 0x5A b.
Definition is_lower_ascii (b : Z) : bool := in_range 0x61 0x7A b.

Definition lower_byte (c : ascii) : ascii :=
  if is_upper_ascii (byte c) then chr (byte c + 32) else c.
Definition upper_byte (c : ascii) : ascii :=
  if is_lower_ascii (byte c) then chr (byte c - 32) else c.

(** Tables that leave the runes from 0x80 up as they are. *)
Definition ascii_tables : UnicodeTables := {| lower_table := λ r, r; upper_table := λ r, r |}.

Section unicode.
Context `{UnicodeTables}.
Definition to_lower (r : Z) : Z :=
  if r <? 0x80 then (if is_upper_ascii r then r + 32 else r) else lower_table r.
Definition to_upper (r : Z) : Z :=
  if r <? 0x80 then (if is_lower_ascii r then r - 32 else r) else upper_table r.
End unicode.

(** [unicode.IsSpace] (the White_Space property) *)
Definition IsSpace (r : Z) : bool :=
  in_range 0x09 0x0D r || (r =? 0x20) || (r =? 0x85) || (r =? 0xA0) || (r =? 0x1680)
  || in_range 0x2000 0x200A r || (r =? 0x2028) || (r =? 0x2029) || (r =? 0x202F)
  || (r =? 0x205F) || (r =? 0x3000).

(** [unicode.IsControl] (category Cc) *)
Definition IsControl (r : Z) : bool := in_range 0x00 0x1F r || in_range 0x7F 0x9F r.

(** ** [strings] *)

Fixpoint smap (f : ascii → ascii) (s : string) : string :=
  match s with
  | EmptyString => EmptyString
  | String c t => String (f c) (smap f t)
  end.

Fixpoint sforall (p : ascii → bool) (s : string) : bool :=
  match s with
  | EmptyString => true
  | String c t => p c && sforall p t
  end.

Definition ascii_byte (c : ascii) : bool := byte c <? 0x80.
Definition is_ascii (s : string) : bool := sforall ascii_byte s.

(** [strings.Map]: a negative result drops the rune. *)
Definition Map (f : Z → Z) (s : string) : string :=
  concat_strings ((λ '(r, _), let r' := f r in if r' <? 0 then "" else encode_rune r') <$> runes s).

Section case.
Context `{UnicodeTables}.
Definition ToLower (s : string) : string :=
  if is_ascii s then smap lower_byte s else Map to_lower s.
Definition ToUpper (s : string) : string :=
  if is_ascii s then smap upper_byte s else Map to_upper s.
End case.

Fixpoint drop_while {A} (p : A → bool) (l : list A) : list A :=
  match l with
  | [] => []
  | x :: l' => if p x then drop_while p l' else l
  end.

Definition trim_func (p : Z → bool) (s : string) : string :=
  let sp := λ x : Z * string, p x.1 in
  concat_strings (snd <$> rev (drop_while sp (rev (drop_while sp (runes s))))).

Definition TrimSpace (s : string) : string := trim_func IsSpace s.

(** [strings.TrimRight(s, cutset)] for an ASCII cutset *)
Definition TrimRight_ascii (s : string) (cutset : list ascii) : string :=
  String.string_of_list_ascii
    (rev (drop_while (λ c, existsb (Ascii.eqb c) cutset) (rev (String.list_ascii_of_string s)))).

(** [strings.Split(s, sep)] for a one-byte separator *)
Fixpoint split_byte (sep : ascii) (s : string) : list string :=
  match s with
  | EmptyString => [EmptyString]
  | String c t =>
    if Ascii.eqb c sep then EmptyString :: split_byte sep t
    else match split_byte sep t with
         | [] => [str1 c]
         | h :: r => String c h :: r
         end
  end.

Definition Join (l : list string) (sep : string) : string := String.concat sep l.

Definition HasPrefix (s p : string) : bool := String.prefix p s.

Fixpoint drop_str (n : nat) (s : string) : string :=
  match n, s with
  | O, _ => s
  | S n', String _ t => drop_str n' t
  | S _, EmptyString => EmptyString
  end.

Fixpoint take_str (n : nat) (s : string) : string :=
  match n, s with
  | O, _ => EmptyString
  | S n', String c t => String c (take_str n' t)
  | S _, EmptyString => EmptyString
  end.

Definition TrimPrefix (s p : string) : string :=
  if HasPrefix s p then drop_str (String.length p) s else s.

(** [strings.Index], [None] for -1 *)
Fixpoint Index (s sub : string) : option nat :=
  if HasPrefix s sub then Some O
  else match s with
       | EmptyString => None
       | String _ t => S <$> Index t sub
       end.

Definition Contains (s sub : string) : bool :=
  match Index s sub with Some _ => true | None => false end.

Fixpoint mem_byte (c : ascii) (s : string) : bool :=
  match s with
  | EmptyString => false
  | String d t => Ascii.eqb c d || mem_byte c t
  end.

(** [strings.ContainsAny(s, chars)] for ASCII [chars] *)
Fixpoint ContainsAny (s chars : string) : bool :=
  match s with
  | EmptyString => false
  | String c t => mem_byte c chars || ContainsAny t chars
  end.

(** [strings.ReplaceAll(s, old, new)] for a one-byte [old] *)
Fixpoint replace_byte (old : ascii) (new s : string) : string :=
  match s with
  | EmptyString => EmptyString
  | String c t => (if Ascii.eqb c old then new else str1 c) +:+ replace_byte old new t
  end.

(** [strings.Fields] *)
Fixpoint fields_go (rs : list (Z * string)) (cur : string) : list string :=
  match rs with
  | [] => if cur =s "" then [] else [cur]
  | (r, raw) :: t =>
    if IsSpace r then (if cur =s "" then fields_go t "" else cur :: fields_go t "")
    else fields_go t (cur +:+ raw)
  end.
Definition Fields (s : string) : list string := fields_go (runes s) "".

(** [n] copies of a text; none, when [n] is negative *)
Definition copies (s : string) (n : Z) : string := concat_strings (replicate (Z.to_nat n) s).

(** [strings.Repeat]; a negative count is a panic ([None]). *)
Definition Repeat (s : string) (n : Z) : option string := if n <? 0 then None else Some (copies s n).

(** [fmt]'s [%-Ns] *)
Definition pad_right (n : Z) (s : string) : string :=
  s +:+ copies " " (n - Z.of_nat (length (runes s))).

(** ** [strconv] *)

Definition max_int64 : Z := 2 ^ 63 - 1.
Definition min_int64 : Z := - 2 ^ 63.
Definition in_int64 (z : Z) : bool := in_range min_int64 max_int64 z.

(** [strconv.Itoa], [%d] *)
Definition Itoa (z : Z) : string := pretty z.

Definition is_digit (c : ascii) : bool := in_range 0x30 0x39 (byte c).

Fixpoint digits_value (acc : Z) (s : string) : option Z :=
  match s with
  | EmptyString => Some acc
  | String c t => if is_digit c then digits_value (10 * acc + (byte c - 0x30)) t else None
  end.

Definition unsigned_value (s : string) : option Z :=
  if s =s "" then None else digits_value 0 s.

(** [strconv.Atoi] on a 64-bit platform *)
Definition Atoi (s : string) : option Z :=
  let v := match s with
           | String c t =>
             if Ascii.eqb c "-" then Z.opp <$> unsigned_value t
             else if Ascii.eqb c "+" then unsigned_value t
             else unsigned_value s
           | EmptyString => None
           end in
  match v with
  | Some z => if in_int64 z then Some z else None
  | None => None
  end.

(** ** Facts about bytes *)

Definition all_ascii : list ascii := map (λ n, ascii_of_nat n) (List.seq 0 256).

Lemma elem_of_all_ascii c : c ∈ all_ascii.
Proof.
  unfold all_ascii. apply list_elem_of_In, in_map_iff. exists (nat_of_ascii c).
  split; [apply ascii_nat_embedding|]. apply in_seq. pose proof (nat_ascii_bounded c). lia.
Qed.

(** A decidable property of one byte holds when it holds of the 256 bytes. *)
Lemma ascii_forall (p : ascii → bool) : forallb p all_ascii = true → ∀ c, p c = true.
Proof. intros H c. rewrite forallb_true in H. apply H, elem_of_all_ascii. Qed.

Lemma byte_range c : 0 <= byte c < 256.
Proof.
  pose proof (ascii_forall (λ c, in_range 0 255 (byte c)) ltac:(vm_compute; reflexivity) c) as H.
  cbn beta in H. unfold in_range in H. bool_simp. lia.
Qed.

Lemma chr_byte c : chr (byte c) = c.
Proof.
  pose proof (ascii_forall (λ c, Ascii.eqb (chr (byte c)) c) ltac:(vm_compute; reflexivity) c) as H.
  by apply Ascii.eqb_eq in H.
Qed.

Lemma byte_inj c d : byte c = byte d → c = d.
Proof. intros H. by rewrite <- (chr_byte c), <- (chr_byte d), H. Qed.

Lemma byte_chr z : 0 <= z < 256 → byte (chr z) = z.
Proof.
  intros Hz. unfold byte, chr. rewrite N_ascii_embedding by lia. lia.
Qed.

(** ** Facts about strings *)

Lemma append_nil_r s : s +:+ "" = s.
Proof. induction s; cbn; congruence. Qed.

Lemma append_assoc a b c : (a +:+ b) +:+ c = a +:+ (b +:+ c).
Proof. induction a; cbn; congruence. Qed.

Lemma length_append a b : String.length (a +:+ b) = (String.length a + String.length b)%nat.
Proof. induction a as [|c a IH]; cbn; congruence. Qed.

Lemma len_append a b : len (a +:+ b) = len a + len b.
Proof. unfold len. rewrite length_append. lia. Qed.

Lemma append_cons c a b : String c a +:+ b = String c (a +:+ b).
Proof. done. Qed.

Lemma concat_strings_app l1 l2 :
  concat_strings (l1 ++ l2) = concat_strings l1 +:+ concat_strings l2.
Proof. induction l1 as [|s l1 IH]; cbn; [done|]. by rewrite IH, append_assoc. Qed.

Lemma string_length_ind (P : string → Prop) :
  (∀ s, (∀ t, (String.length t < String.length s)%nat → P t) → P s) → ∀ s, P s.
Proof.
  intros H s. remember (String.length s) as n eqn:E. revert s E.
  induction n as [n IH] using (well_founded_induction lt_wf). intros s ->.
  apply H. intros t Ht. by eapply IH.
Qed.

Lemma sforall_app p a b : sforall p (a +:+ b) = sforall p a && sforall p b.
Proof. induction a as [|c a IH]; cbn; [done|]. by rewrite IH, andb_assoc. Qed.

Lemma sforall_impl p q s :
  (∀ c, p c = true → q c = true) → sforall p s = true → sforall q s = true.
Proof. intros H. induction s; cbn; [done|]. intros. bool_simp. rewrite H, IHs; done. Qed.

Lemma smap_id f s : sforall (λ c, Ascii.eqb (f c) c) s = true → smap f s = s.
Proof.
  induction s as [|c s IH]; cbn; [done|]. intros H. bool_simp.
  apply Ascii.eqb_eq in H. rewrite H, IH; done.
Qed.

(** Walking a string rune by rune: what each step sees. *)
Definition rune_shape (x : Z * string) : Prop :=
  (∃ c, x = (byte c, str1 c) ∧ byte c < 0x80) ∨
  (0x80 <= x.1 ∧ sforall (λ c, 0x80 <=? byte c) x.2 = true ∧ x.2 ≠ "").

Lemma lor_ge_l a b : 0 <= a → 0 <= b → a <= Z.lor a b.
Proof.
  intros Ha Hb. assert (Z.lor a b = a + Z.ldiff b a) as ->.
  { symmetry. rewrite Z.add_nocarry_lxor.
    - apply Z.bits_inj'. intros n Hn. rewrite Z.lxor_spec, Z.ldiff_spec, Z.lor_spec.
      by destruct (Z.testbit a n), (Z.testbit b n).
    - apply Z.bits_inj'. intros n Hn. rewrite Z.land_spec, Z.ldiff_spec, Z.bits_0.
      by destruct (Z.testbit a n), (Z.testbit b n). }
  assert (0 <= Z.ldiff b a) by (apply Z.ldiff_nonneg; lia). lia.
Qed.

Lemma land_nonneg a m : 0 <= m → 0 <= Z.land a m.
Proof. intros. apply Z.land_nonneg. by right. Qed.

(** The five leading-byte classes, as ranges. *)
Lemma lead_of_cases a :
  match lead_of (byte a) with
  | L1 => byte a < 0x80
  | L2 => 0x80 <= byte a ∧ 2 <= Z.land (byte a) 0x1F
  | L3 lo hi => 0x80 <= byte a ∧ 0x80 <= lo ∧
                (1 <= Z.land (byte a) 0x0F ∨ lo = 0xA0 ∧ hi = 0xBF)
  | L4 lo hi => 0x80 <= byte a ∧ 0x80 <= lo ∧
                (1 <= Z.land (byte a) 0x07 ∨ lo = 0x90 ∧ hi = 0xBF)
  | LInvalid => 0x80 <= byte a
  end.
Proof.
  pose proof (ascii_forall (λ a, match lead_of (byte a) with
  | L1 => byte a <? 0x80
  | L2 => (0x80 <=? byte a) && (2 <=? Z.land (byte a) 0x1F)
  | L3 lo hi => (0x80 <=? byte a) && (0x80 <=? lo) &&
                ((1 <=? Z.land (byte a) 0x0F) || ((lo =? 0xA0) && (hi =? 0xBF)))
  | L4 lo hi => (0x80 <=? byte a) && (0x80 <=? lo) &&
                ((1 <=? Z.land (byte a) 0x07) || ((lo =? 0x90) && (hi =? 0xBF)))
  | LInvalid => 0x80 <=? byte a
  end) ltac:(vm_compute; reflexivity) a) as H.
  cbn beta in H. destruct (lead_of (byte a)); bool_simp; repeat split; try lia.
  all: match goal with H : _ || _ = true |- _ => apply orb_true_iff in H as [?|?] end;
    bool_simp; lia.
Qed.

Lemma shiftl_ge x k y : 0 <= k → y <= x → 0 <= y → y * 2 ^ k <= Z.shiftl x k.
Proof. intros. rewrite Z.shiftl_mul_pow2 by lia. apply Z.mul_le_mono_nonneg_r; lia. Qed.

Lemma second_byte_high b lo : (0x90 <= lo) → in_range lo 0xBF (byte b) = true → 16 <= Z.land (byte b) 0x3F.
Proof.
  intros Hlo H.
  pose proof (ascii_forall (λ b, negb (in_range 0x90 0xBF (byte b)) || (16 <=? Z.land (byte b) 0x3F))
    ltac:(vm_compute; reflexivity) b) as Hb. cbn beta in Hb.
  unfold in_range in *. bool_simp.
  apply orb_true_iff in Hb as [Hb|Hb]; bool_simp; [|lia].
  apply andb_false_iff in Hb as [Hb|Hb]; bool_simp; lia.
Qed.

Lemma second_byte_A0 b lo : (0xA0 <= lo) → in_range lo 0xBF (byte b) = true → 32 <= Z.land (byte b) 0x3F.
Proof.
  intros Hlo H.
  pose proof (ascii_forall (λ b, negb (in_range 0xA0 0xBF (byte b)) || (32 <=? Z.land (byte b) 0x3F))
    ltac:(vm_compute; reflexivity) b) as Hb. cbn beta in Hb.
  unfold in_range in *. bool_simp.
  apply orb_true_iff in Hb as [Hb|Hb]; bool_simp; [|lia].
  apply andb_false_iff in Hb as [Hb|Hb]; bool_simp; lia.
Qed.

Ltac bit_nonneg :=
  repeat match goal with
  | |- 0 <= Z.lor _ _ => apply Z.lor_nonneg; split
  | |- 0 <= Z.shiftl _ _ => apply Z.shiftl_nonneg
  | |- 0 <= Z.land _ _ => apply land_nonneg; lia
  end.

Lemma rune2_high a b : 2 <= Z.land a 0x1F → 0x80 <= rune2 a b.
Proof.
  intros H. unfold rune2.
  pose proof (shiftl_ge (Z.land a 0x1F) 6 2 ltac:(lia) H ltac:(lia)).
  etrans; [|apply lor_ge_l; bit_nonneg]. lia.
Qed.

Lemma rune3_high a b c :
  1 <= Z.land a 0x0F ∨ 32 <= Z.land b 0x3F → 0x80 <= rune3 a b c.
Proof.
  intros H. unfold rune3. etrans; [|apply lor_ge_l; bit_nonneg]. destruct H as [H|H].
  - pose proof (shiftl_ge _ 12 1 ltac:(lia) H ltac:(lia)).
    etrans; [|apply lor_ge_l; bit_nonneg]. lia.
  - pose proof (shiftl_ge _ 6 32 ltac:(lia) H ltac:(lia)).
    rewrite Z.lor_comm. etrans; [|apply lor_ge_l; bit_nonneg]. lia.
Qed.

Lemma rune4_high a b c d :
  1 <= Z.land a 0x07 ∨ 16 <= Z.land b 0x3F → 0x80 <= rune4 a b c d.
Proof.
  intros H. unfold rune4. etrans; [|apply lor_ge_l; bit_nonneg]. destruct H as [H|H].
  - pose proof (shiftl_ge _ 18 1 ltac:(lia) H ltac:(lia)).
    etrans; [|apply lor_ge_l; bit_nonneg]. lia.
  - pose proof (shiftl_ge _ 12 16 ltac:(lia) H ltac:(lia)).
    rewrite Z.lor_comm. etrans; [|apply lor_ge_l; bit_nonneg]. lia.
Qed.

(** [runes] walks the string from left to right and loses no byte. *)
Lemma runes_spec s : Forall rune_shape (runes s) ∧ concat_strings (map snd (runes s)) = s.
Proof.
  induction s as [s IH] using string_length_ind.
  assert (∀ r raw t, rune_shape (r, raw) → (String.length t < String.length s)%nat → s = raw +:+ t →
    Forall rune_shape ((r, raw) :: runes t) ∧ concat_strings (map snd ((r, raw) :: runes t)) = s)
    as Hcons.
  { intros r raw t Hr Ht ->. destruct (IH t Ht) as [H1 H2].
    split; [by constructor|]. cbn. by rewrite H2. }
  assert (∀ a, 0x80 <= byte a → rune_shape (RuneError, str1 a)) as Herr.
  { intros a Ha. right. cbn. split; [unfold RuneError; lia|]. rewrite andb_true_r.
    split; [by apply Z.leb_le|done]. }
  destruct s as [|a t]; [done|]. cbn [runes].
  pose proof (lead_of_cases a) as Ha.
  destruct (lead_of (byte a)) as [| |lo hi|lo hi|].
  - apply Hcons; [left; by eexists|cbn; lia|done].
  - destruct Ha as [Ha1 Ha2]. destruct t as [|b t2]; [apply Hcons; cbn; auto; lia|].
    destruct (cont_byte (byte b)) eqn:Eb; [|apply Hcons; cbn; auto; lia].
    apply Hcons; [|cbn; lia|done].
    right. unfold cont_byte, in_range in Eb. bool_simp. cbn.
    repeat split; [by apply rune2_high| |done].
    by rewrite !andb_true_iff, !Z.leb_le.
  - destruct Ha as (Ha1 & Ha2 & Ha3). destruct t as [|b [|c t3]]; try (apply Hcons; cbn; auto; lia).
    destruct (in_range lo hi (byte b) && cont_byte (byte c)) eqn:Eb; [|apply Hcons; cbn; auto; lia].
    apply Hcons; [|cbn; lia|done].
    apply andb_true_iff in Eb as [Eb Ec].
    right. cbn. split; [apply rune3_high; destruct Ha3 as [|[-> ->]]; [by left|right];
      by apply (second_byte_A0 b 0xA0)|].
    unfold cont_byte, in_range in Eb, Ec. bool_simp. split; [|done].
    rewrite !andb_true_iff, !Z.leb_le. lia.
  - destruct Ha as (Ha1 & Ha2 & Ha3). destruct t as [|b [|c [|e t4]]]; try (apply Hcons; cbn; auto; lia).
    destruct (in_range lo hi (byte b) && cont_byte (byte c) && cont_byte (byte e)) eqn:Eb;
      [|apply Hcons; cbn; auto; lia].
    apply Hcons; [|cbn; lia|done].
    apply andb_true_iff in Eb as [Eb Ee]. apply andb_true_iff in Eb as [Eb Ec].
    right. cbn. split; [apply rune4_high; destruct Ha3 as [|[-> ->]]; [by left|right];
      by apply (second_byte_high b 0x90)|].
    unfold cont_byte, in_range in Eb, Ec, Ee. bool_simp. split; [|done].
    rewrite !andb_true_iff, !Z.leb_le. lia.
  - destruct t; apply Hcons; cbn; auto; lia.
Qed.

Lemma runes_shape s : Forall rune_shape (runes s).
Proof. apply runes_spec. Qed.

Lemma runes_raw s : concat_strings (map snd (runes s)) = s.
Proof. apply runes_spec. Qed.

(** ** ASCII strings *)

Lemma runes_ascii s :
  is_ascii s = true → runes s = map (λ c, (byte c, str1 c)) (String.list_ascii_of_string s).
Proof.
  induction s as [|c s IH]; [done|]. unfold is_ascii. cbn. intros H. bool_simp.
  pose proof (lead_of_cases c) as Hc. unfold ascii_byte in *.
  destruct (lead_of (byte c)) eqn:E; bool_simp; try lia.
  by rewrite IH.
Qed.

Section case_facts.
Context `{UnicodeTables}.

Lemma lower_byte_ascii c : ascii_byte c = true → ascii_byte (lower_byte c) = true.
Proof.
  intros Hc. pose proof (ascii_forall (λ c, negb (ascii_byte c) || ascii_byte (lower_byte c))
    ltac:(vm_compute; reflexivity) c) as Hl. cbn beta in Hl. by rewrite Hc in Hl.
Qed.

Lemma lower_byte_idem c : lower_byte (lower_byte c) = lower_byte c.
Proof.
  pose proof (ascii_forall (λ c, Ascii.eqb (lower_byte (lower_byte c)) (lower_byte c))
    ltac:(vm_compute; reflexivity) c) as Hl. by apply Ascii.eqb_eq in Hl.
Qed.

Lemma ToLower_ascii s : is_ascii s = true → ToLower s = smap lower_byte s.
Proof. unfold ToLower. by intros ->. Qed.

Lemma is_ascii_lower s : is_ascii s = true → is_ascii (smap lower_byte s) = true.
Proof.
  unfold is_ascii. induction s as [|c s IH]; [done|]. cbn. intros Hs. bool_simp.
  by rewrite lower_byte_ascii, IH.
Qed.

End case_facts.

Lemma drop_while_false {A} (p : A → bool) l : (∀ x, x ∈ l → p x = false) → drop_while p l = l.
Proof. destruct l as [|x l]; [done|]. intros H. cbn. by rewrite H by left. Qed.

(** Trimming a string without space runes leaves it alone. *)
Lemma TrimSpace_id s : (∀ x, x ∈ runes s → IsSpace x.1 = false) → TrimSpace s = s.
Proof.
  intros Hs. unfold TrimSpace, trim_func.
  rewrite (drop_while_false _ (runes s)) by done.
  rewrite drop_while_false.
  - rewrite rev_involutive. apply runes_raw.
  - intros x Hx. apply Hs. rewrite list_elem_of_In in *. by apply in_rev.
Qed.

Lemma TrimSpace_ascii_id s :
  sforall (λ c, ascii_byte c && negb (IsSpace (byte c))) s = true → TrimSpace s = s.
Proof.
  intros Hs. apply TrimSpace_id. intros x Hx.
  rewrite runes_ascii in Hx by (eapply sforall_impl; [|exact Hs]; intros c Hc;
    by apply andb_true_iff in Hc as [? _]).
  apply list_elem_of_In, in_map_iff in Hx as (c & <- & Hc). cbn.
  clear -Hs Hc. induction s as [|d s IH]; [done|]. cbn in *. bool_simp.
  destruct Hc as [->|Hc]; auto.
Qed.

(** ** Decimal numerals *)

Lemma pretty_N_char_digit x : (x < 10)%N →
  is_digit (pretty_N_char x) = true ∧ byte (pretty_N_char x) - 0x30 = Z.of_N x.
Proof.
  intros Hx. assert (x = 0 ∨ x = 1 ∨ x = 2 ∨ x = 3 ∨ x = 4 ∨ x = 5 ∨ x = 6 ∨ x = 7 ∨ x = 8 ∨ x = 9)%N
    as Hc by lia.
  repeat (destruct Hc as [->|Hc]; [by vm_compute|]). subst x. by vm_compute.
Qed.

Lemma pretty_N_go_value x s : digits_value 0 (pretty_N_go x s) = digits_value (Z.of_N x) s.
Proof.
  revert s. induction (N.lt_wf_0 x) as [x _ IH]; intros s.
  destruct (N.eq_dec x 0%N) as [->|Hx]; [by rewrite pretty_N_go_0|].
  rewrite pretty_N_go_step by lia. rewrite IH by (apply N.div_lt; lia). cbn [digits_value].
  destruct (pretty_N_char_digit (x mod 10)%N) as [-> ->]; [by apply N.mod_lt|].
  f_equal. rewrite N2Z.inj_div, N2Z.inj_mod. pose proof (Z.div_mod (Z.of_N x) 10). lia.
Qed.

Lemma pretty_N_go_digits x s :
  sforall is_digit s = true → sforall is_digit (pretty_N_go x s) = true.
Proof.
  revert s. induction (N.lt_wf_0 x) as [x _ IH]; intros s Hs.
  destruct (N.eq_dec x 0%N) as [->|Hx]; [by rewrite pretty_N_go_0|].
  rewrite pretty_N_go_step by lia. apply IH; [apply N.div_lt; lia|]. cbn.
  destruct (pretty_N_char_digit (x mod 10)%N) as [-> _]; [by apply N.mod_lt|done].
Qed.

(** The first digit of a positive number is not 0. *)
Definition leading_nonzero (s : string) : Prop :=
  match s with String c _ => c ≠ "0"%char | EmptyString => False end.

Lemma pretty_N_go_leading x s : (0 < x)%N → leading_nonzero (pretty_N_go x s).
Proof.
  revert s. induction (N.lt_wf_0 x) as [x _ IH]; intros s Hx.
  rewrite pretty_N_go_step by lia.
  destruct (N.eq_dec (x / 10)%N 0%N) as [E|E].
  - rewrite E, pretty_N_go_0. cbn. apply N.div_small_iff in E; [|done].
    rewrite N.mod_small by done. intros Hc.
    apply (pretty_N_char_inj x 0) in Hc; lia.
  - apply IH; [apply N.div_lt; lia|]. by apply N.neq_0_lt_0.
Qed.

Lemma pretty_N_spec x :
  digits_value 0 (pretty x) = Some (Z.of_N x) ∧ sforall is_digit (pretty x) = true ∧
  ((x = 0%N ∧ pretty x = "0") ∨ leading_nonzero (pretty x)).
Proof.
  unfold pretty, pretty_N. case_decide as E; [subst; repeat split; by auto|].
  rewrite pretty_N_go_value. repeat split; [by apply pretty_N_go_digits|].
  right. apply pretty_N_go_leading. lia.
Qed.

(** [Itoa] of a non-negative number: its digits denote it. *)
Lemma Itoa_nonneg z : 0 <= z →
  digits_value 0 (Itoa z) = Some z ∧ sforall is_digit (Itoa z) = true ∧
  ((z = 0 ∧ Itoa z = "0") ∨ leading_nonzero (Itoa z)).
Proof.
  intros Hz. unfold Itoa. destruct z as [|p|p]; [by repeat split; auto| |lia].
  change (pretty (Z.pos p)) with (pretty (N.pos p)).
  destruct (pretty_N_spec (N.pos p)) as (H1 & H2 & H3). repeat split; [done|done|].
  destruct H3 as [[? _]|H3]; [done|by right].
Qed.

Lemma Itoa_neg z : z < 0 → Itoa z = String "-" (Itoa (- z)).
Proof. by destruct z. Qed.

Lemma Itoa_inj z1 z2 : Itoa z1 = Itoa z2 → z1 = z2.
Proof. apply (inj pretty). Qed.

Lemma unsigned_value_Itoa z : 0 <= z → unsigned_value (Itoa z) = Some z.
Proof.
  intros Hz. destruct (Itoa_nonneg z Hz) as (H1 & _ & H3). unfold unsigned_value.
  destruct H3 as [[-> ->]|H3]; [done|]. by destruct (Itoa z).
Qed.

(** [strconv.Atoi(strconv.Itoa(z)) = z] on 64-bit integers. *)
Lemma Atoi_Itoa z : in_int64 z = true → Atoi (Itoa z) = Some z.
Proof.
  intros Hz. unfold Atoi. destruct (Z.lt_ge_cases z 0) as [Hneg|Hpos].
  - rewrite Itoa_neg by done. cbn. rewrite unsigned_value_Itoa by lia. cbn.
    by rewrite Z.opp_involutive, Hz.
  - pose proof (unsigned_value_Itoa z Hpos) as Hv.
    destruct (Itoa_nonneg z Hpos) as (_ & H2 & H3).
    destruct (Itoa z) as [|c t]; [by destruct H3 as [[_ ?]|?]|]. cbn in H2. bool_simp.
    assert (Ascii.eqb c "-" = false) as -> by (apply Ascii.eqb_neq; by intros ->).
    assert (Ascii.eqb c "+" = false) as -> by (apply Ascii.eqb_neq; by intros ->).
    by rewrite Hv, Hz.
Qed.

(** The value of a numeral is at least its leading digit in its place. *)
Lemma digits_value_lower acc s v : 0 <= acc → digits_value acc s = Some v →
  acc * 10 ^ len s <= v.
Proof.
  revert acc. induction s as [|c s IH]; intros acc Ha Hv; cbn [digits_value] in Hv.
  - injection Hv as <-. unfold len. cbn. lia.
  - destruct (is_digit c) eqn:Ec; [|done]. unfold is_digit, in_range in Ec. bool_simp.
    apply IH in Hv; [|lia].
    assert (len (String c s) = len s + 1) as -> by (unfold len; cbn [String.length]; lia).
    assert (0 < 10 ^ len s) by (apply Z.pow_pos_nonneg; unfold len; lia).
    rewrite Z.pow_add_r by (unfold len; lia). nia.
Qed.

(** A number below 10^n has at most n digits. *)
Lemma Itoa_len v n : 0 <= v < 10 ^ n → 1 <= n → len (Itoa v) <= n.
Proof.
  intros Hv Hn. destruct (Itoa_nonneg v) as (Hd & Hs & [[-> ->]|Hl]); [lia|unfold len; cbn; lia|].
  destruct (Itoa v) as [|c s]; [done|]. cbn in Hl, Hs. bool_simp. cbn [digits_value] in Hd.
  rewrite H in Hd. apply digits_value_lower in Hd; [|unfold is_digit, in_range in H; bool_simp; lia].
  assert (1 <= 10 * 0 + (byte c - 0x30)) as Hc.
  { unfold is_digit, in_range in H. bool_simp. enough (byte c ≠ 0x30) by lia. intros E. apply Hl.
    by rewrite <- (chr_byte c), E. }
  assert (len (String c s) = len s + 1) as -> by (unfold len; cbn [String.length]; lia).
  destruct (Z.lt_ge_cases (len s) n) as [|Hge]; [lia|].
  assert (10 ^ n <= 10 ^ len s) by (apply Z.pow_le_mono_r; lia). nia.
Qed.
