(* ===== verification/StringFacts.v ===== *)
(** * Prefixes and cuts of strings

    Lemmas the parsers' and the encodings' proofs share. *)

From S2P Require Import Prelude GoStrings.

(** ** Prefixes and cuts of strings *)

Lemma len_nonneg s : 0 <= len s.
Proof. unfold len. lia. Qed.

Lemma prefix_split s p : HasPrefix s p = true → ∃ t, s = p +:+ t.
Proof.
  unfold HasPrefix. revert s. induction p as [|c p IH]; intros s Hp.
  - by exists s.
  - destruct s as [|d s]; [discriminate|]. cbn in Hp.
    destruct (ascii_dec c d) as [->|]; [|discriminate].
    destruct (IH s Hp) as [t ->]. by exists t.
Qed.

Lemma prefix_append p t : HasPrefix (p +:+ t) p = true.
Proof.
  unfold HasPrefix. induction p as [|c p IH]; [by destruct t|].
  rewrite append_cons. cbn. by destruct (ascii_dec c c).
Qed.

Lemma prefix_app s t p : HasPrefix s p = true → HasPrefix (s +:+ t) p = true.
Proof. intros [u ->]%prefix_split. rewrite append_assoc. apply prefix_append. Qed.

Lemma prefix_app_cases s t p :
  HasPrefix (s +:+ t) p = true → HasPrefix s p = true ∨ HasPrefix p s = true.
Proof.
  unfold HasPrefix. revert s. induction p as [|c p IH]; intros s; [by left; destruct s|].
  destruct s as [|d s]; [by right|]. rewrite append_cons. cbn.
  destruct (ascii_dec c d) as [->|]; [|discriminate].
  intros [?|?]%IH; [by left|right]. by destruct (ascii_dec d d).
Qed.

Lemma prefix_of_app s t p : HasPrefix p (s +:+ t) = true → HasPrefix p s = true.
Proof. intros [u ->]%prefix_split. rewrite append_assoc. apply prefix_append. Qed.

Lemma prefix_length s p : HasPrefix s p = true → (String.length p ≤ String.length s)%nat.
Proof. intros [t ->]%prefix_split. rewrite length_append. lia. Qed.

Lemma prefix_app_long s t p :
  (String.length p ≤ String.length s)%nat → HasPrefix (s +:+ t) p = HasPrefix s p.
Proof.
  intros Hl. destruct (HasPrefix s p) eqn:E; [by apply prefix_app|].
  destruct (HasPrefix (s +:+ t) p) eqn:E'; [|done].
  destruct (prefix_app_cases _ _ _ E') as [?|[u ->]%prefix_split]; [congruence|].
  rewrite length_append in Hl. destruct u as [|? u]; [|cbn in Hl; lia].
  rewrite append_nil_r in E. pose proof (prefix_append s "") as Es.
  rewrite append_nil_r in Es. congruence.
Qed.

Lemma drop_str_app n s t :
  (n ≤ String.length s)%nat → drop_str n (s +:+ t) = drop_str n s +:+ t.
Proof.
  revert s. induction n as [|n IH]; intros s Hl; [done|].
  destruct s as [|c s]; cbn in Hl; [lia|]. rewrite append_cons. cbn. apply IH. lia.
Qed.

Lemma take_str_app n s t :
  (n ≤ String.length s)%nat → take_str n (s +:+ t) = take_str n s.
Proof.
  revert s. induction n as [|n IH]; intros s Hl; [done|].
  destruct s as [|c s]; cbn in Hl; [lia|]. rewrite append_cons. cbn. f_equal. apply IH. lia.
Qed.

Lemma length_drop_str n s : String.length (drop_str n s) = (String.length s - n)%nat.
Proof. revert s. induction n as [|n IH]; intros [|c s]; cbn; auto. Qed.

Lemma Index_bound s p e : Index s p = Some e → (e + String.length p ≤ String.length s)%nat.
Proof.
  revert e. induction s as [|c s IH]; intros e; cbn [Index].
  - destruct (HasPrefix "" p) eqn:E; [|discriminate]. intros [= <-].
    by apply prefix_length in E.
  - destruct (HasPrefix (String c s) p) eqn:E.
    + intros [= <-]. apply prefix_length in E. lia.
    + destruct (Index s p) as [e'|] eqn:Ei; [|discriminate]. intros [= <-].
      specialize (IH e' eq_refl). cbn. lia.
Qed.

Lemma Index_app s t p e : Index s p = Some e → Index (s +:+ t) p = Some e.
Proof.
  revert e. induction s as [|c s IH]; intros e; cbn [Index].
  - destruct (HasPrefix "" p) eqn:E; [|discriminate]. intros [= <-].
    destruct p; [|discriminate E]. by destruct t.
  - rewrite append_cons. cbn [Index]. rewrite <-append_cons.
    destruct (HasPrefix (String c s) p) eqn:E; [by rewrite (prefix_app _ t _ E)|].
    destruct (Index s p) as [e'|] eqn:Ei; [|discriminate]. intros [= <-].
    pose proof (Index_bound _ _ _ Ei). rewrite prefix_app_long by (cbn; lia).
    by rewrite E, (IH e' eq_refl).
Qed.

Lemma append_inv_head a s t : a +:+ s = a +:+ t → s = t.
Proof. induction a as [|c a IH]; [done|]. rewrite !append_cons. intros [= ?]. by apply IH. Qed.
