(* ===== verification/Json.v ===== *)
(** * The JSON the audit log is written in

    [json.Marshal] of the maps the gateway puts in the details of an audit
    event, and the test [json.Unmarshal(details, &map[string]any)] that
    [Store.Audit] makes, after the scanner and decoder of encoding/json. *)

From S2P Require Import Prelude GoStrings.

Definition dquote : ascii := chr 0x22.
Definition backslash : ascii := chr 0x5C.

(** ** Marshal *)

(** The values the details hold. *)
Inductive jvalue := JString (s : string) | JInt (z : Z).

Definition hex_digit (d : Z) : ascii := if d <? 10 then chr (0x30 + d) else chr (0x57 + d).

(** \u00XX *)
Definition u_escape (b : Z) : string :=
  String backslash ("u00" +:+ String (hex_digit (b / 16)) (str1 (hex_digit (b mod 16)))).

Definition short_escape (c : ascii) : string := String backslash (str1 c).

(** One rune of a JSON string; the default encoder escapes HTML too. *)
Definition escape_rune (r : Z) (raw : string) : string :=
  if r <? 0x80 then
    if (r =? 0x22) || (r =? 0x5C) then String backslash raw
    else if r =? 0x08 then short_escape "b"
    else if r =? 0x0C then short_escape "f"
    else if r =? 0x0A then short_escape "n"
    else if r =? 0x0D then short_escape "r"
    else if r =? 0x09 then short_escape "t"
    else if (r <? 0x20) || (r =? 0x3C) || (r =? 0x3E) || (r =? 0x26) then u_escape r
    else raw
  else if (r =? RuneError) && (len raw =? 1) then String backslash "ufffd"
  else if r =? 0x2028 then String backslash "u2028"
  else if r =? 0x2029 then String backslash "u2029"
  else raw.

Definition quote_json (s : string) : string :=
  String dquote (concat_strings (map (λ '(r, raw), escape_rune r raw) (runes s)) +:+ str1 dquote).

Definition marshal_value (v : jvalue) : string :=
  match v with JString s => quote_json s | JInt z => Itoa z end.

Definition marshal_entry (kv : string * jvalue) : string :=
  quote_json kv.1 +:+ ":" +:+ marshal_value kv.2.

(** The entries of a map, in the order of their keys. *)
Definition marshal_map (m : list (string * jvalue)) : string :=
  "{" +:+ Join (map marshal_entry m) "," +:+ "}".

(** gateway/server.go: jsonString (the maps it is given always marshal) *)
Definition jsonString (m : list (string * jvalue)) : string := marshal_map m.

(** ** Unmarshal *)

Definition is_ws (c : ascii) : bool :=
  let b := byte c in (b =? 0x20) || (b =? 0x09) || (b =? 0x0A) || (b =? 0x0D).

Fixpoint skip_ws (s : string) : string :=
  match s with
  | String c t => if is_ws c then skip_ws t else s
  | EmptyString => s
  end.

Definition is_hex (c : ascii) : bool :=
  is_digit c || in_range 0x61 0x66 (byte c) || in_range 0x41 0x46 (byte c).

Definition escapable (c : ascii) : bool :=
  mem_byte c (String dquote (String backslash "/bfnrt")).

(** The rest of the input after a string whose opening quote was read. *)
Fixpoint scan_string (s : string) : option string :=
  match s with
  | EmptyString => None
  | String c t =>
    if Ascii.eqb c dquote then Some t
    else if Ascii.eqb c backslash then
      match t with
      | String e t2 =>
        if escapable e then scan_string t2
        else if Ascii.eqb e "u" then
          match t2 with
          | String h1 (String h2 (String h3 (String h4 t6))) =>
            if is_hex h1 && is_hex h2 && is_hex h3 && is_hex h4 then scan_string t6 else None
          | _ => None
          end
        else None
      | EmptyString => None
      end
    else if byte c <? 0x20 then None
    else scan_string t
  end.

(** A run of digits and what follows it. *)
Fixpoint span_digits (s : string) : string * string :=
  match s with
  | String c t =>
    if is_digit c then let '(ds, r) := span_digits t in (String c ds, r) else ("", s)
  | EmptyString => ("", "")
  end.

(** A number literal: integer, fraction and exponent parts, and the rest. *)
Definition scan_int (s : string) : option (string * string) :=
  let '(ds, r) := span_digits s in
  match ds with
  | EmptyString => None
  | String "0" (String _ _) => Some ("0", drop_str 1 s)
  | _ => Some (ds, r)
  end.

Definition scan_frac (s : string) : option (string * string) :=
  match s with
  | String "." t => let '(ds, r) := span_digits t in if ds =s "" then None else Some (ds, r)
  | _ => Some ("", s)
  end.

Definition digits_Z (ds : string) : Z := match digits_value 0 ds with Some z => z | None => 0 end.

Definition scan_exp (s : string) : option (Z * string) :=
  match s with
  | String c t =>
    if (byte c =? 0x65) || (byte c =? 0x45) then
      let '(sg, u) := match t with
                      | String d v => if Ascii.eqb d "-" then (-1, v)
                                      else if Ascii.eqb d "+" then (1, v) else (1, t)
                      | EmptyString => (1, t)
                      end in
      let '(ds, r) := span_digits u in
      if ds =s "" then None else Some (sg * digits_Z ds, r)
    else Some (0, s)
  | EmptyString => Some (0, s)
  end.

(** The literal m * 10^e rounds to 2^1024 or more: it overflows a float64. *)
Definition float_limit : Z := 2 ^ 1024 - 2 ^ 970.

Definition float_overflow (m e ndigits : Z) : bool :=
  if m =? 0 then false
  else if 309 <=? e then true
  else if 0 <=? e then float_limit <=? m * 10 ^ e
  else if ndigits + e <? 0 then false
  else float_limit * 10 ^ (- e) <=? m.

Definition scan_number (s : string) : option string :=
  let s1 := match s with String "-" t => t | _ => s end in
  match scan_int s1 with
  | None => None
  | Some (ds, r1) =>
    match scan_frac r1 with
    | None => None
    | Some (fs, r2) =>
      match scan_exp r2 with
      | None => None
      | Some (e, r3) =>
        if float_overflow (digits_Z (ds +:+ fs)) (e - len fs) (len ds + len fs) then None
        else Some r3
      end
    end
  end.

Definition maxNestingDepth : Z := 10000.

Fixpoint scan_value (fuel : nat) (depth : Z) (s : string) : option string :=
  match fuel with
  | O => None
  | S f =>
    match skip_ws s with
    | EmptyString => None
    | String c t =>
      if Ascii.eqb c "{" then
        if maxNestingDepth <=? depth then None
        else match skip_ws t with
             | String "}" r => Some r
             | _ => scan_members f (depth + 1) t
             end
      else if Ascii.eqb c "[" then
        if maxNestingDepth <=? depth then None
        else match skip_ws t with
             | String "]" r => Some r
             | _ => scan_elements f (depth + 1) t
             end
      else if Ascii.eqb c dquote then scan_string t
      else if HasPrefix (String c t) "true" then Some (drop_str 4 (String c t))
      else if HasPrefix (String c t) "false" then Some (drop_str 5 (String c t))
      else if HasPrefix (String c t) "null" then Some (drop_str 4 (String c t))
      else scan_number (String c t)
    end
  end
with scan_members (fuel : nat) (depth : Z) (s : string) : option string :=
  match fuel with
  | O => None
  | S f =>
    match skip_ws s with
    | EmptyString => None
    | String c t =>
      if negb (Ascii.eqb c dquote) then None
      else match scan_string t with
           | None => None
           | Some r1 =>
             match skip_ws r1 with
             | String ":" r2 =>
               match scan_value f depth r2 with
               | None => None
               | Some r3 =>
                 match skip_ws r3 with
                 | String "," r4 => scan_members f depth r4
                 | String "}" r4 => Some r4
                 | _ => None
                 end
               end
             | _ => None
             end
           end
    end
  end
with scan_elements (fuel : nat) (depth : Z) (s : string) : option string :=
  match fuel with
  | O => None
  | S f =>
    match scan_value f depth s with
    | None => None
    | Some r1 =>
      match skip_ws r1 with
      | String "," r2 => scan_elements f depth r2
      | String "]" r2 => Some r2
      | _ => None
      end
    end
  end.

(** [json.Unmarshal] into a [map[string]any] succeeds: the input is one JSON
    text, an object or null. *)
Definition Unmarshal_map (s : string) : bool :=
  match scan_value (S (2 * String.length s)) 0 s with
  | Some rest =>
    (skip_ws rest =s "")
    && (HasPrefix (skip_ws s) "{" || HasPrefix (skip_ws s) "null")
  | None => false
  end.

(** ** What is marshalled can be unmarshalled *)

Lemma scan_string_high raw tail :
  sforall (λ c, 0x80 <=? byte c) raw = true → scan_string (raw +:+ tail) = scan_string tail.
Proof.
  induction raw as [|c raw IH]; [done|]. cbn [sforall]. intros H. bool_simp.
  rewrite <- IH by done. rewrite append_cons. cbn [scan_string].
  assert (Ascii.eqb c dquote = false) as -> by (apply Ascii.eqb_neq; by intros ->).
  assert (Ascii.eqb c backslash = false) as -> by (apply Ascii.eqb_neq; by intros ->).
  assert ((byte c <? 0x20) = false) as -> by (apply Z.ltb_ge; lia). done.
Qed.

(** One unit of the inside of a JSON string: a plain byte, a short escape or a
    four-digit escape. *)
Definition string_unit (e : string) : bool :=
  match e with
  | String c EmptyString => negb (Ascii.eqb c dquote) && negb (Ascii.eqb c backslash) && (0x20 <=? byte c)
  | String c (String d EmptyString) => Ascii.eqb c backslash && escapable d
  | String c (String d (String h1 (String h2 (String h3 (String h4 EmptyString))))) =>
    Ascii.eqb c backslash && negb (escapable d) && Ascii.eqb d "u"
    && is_hex h1 && is_hex h2 && is_hex h3 && is_hex h4
  | _ => false
  end.

Lemma scan_string_unit e tail : string_unit e = true → scan_string (e +:+ tail) = scan_string tail.
Proof.
  destruct e as [|c [|d [|h1 [|h2 [|h3 [|h4 [|? ?]]]]]]]; cbn [string_unit]; intros H; try discriminate H;
    bool_simp; rewrite ?append_cons; cbn [scan_string String.append].
  - rewrite H, H1. by assert ((byte c <? 0x20) = false) as -> by (apply Z.ltb_ge; lia).
  - apply Ascii.eqb_eq in H as ->. change (Ascii.eqb backslash dquote) with false.
    change (Ascii.eqb backslash backslash) with true. cbn iota. by rewrite H0.
  - apply Ascii.eqb_eq in H as ->. change (Ascii.eqb backslash dquote) with false.
    change (Ascii.eqb backslash backslash) with true. cbn iota.
    repeat match goal with E : _ = _ |- _ => rewrite E; clear E end. done.
Qed.

Lemma escape_ascii_unit c :
  implb (byte c <? 0x80) (string_unit (escape_rune (byte c) (str1 c))) = true.
Proof.
  apply (ascii_forall (λ c, implb (byte c <? 0x80) (string_unit (escape_rune (byte c) (str1 c))))).
  by vm_compute.
Qed.

Lemma scan_string_escape x tail :
  rune_shape x → scan_string (escape_rune x.1 x.2 +:+ tail) = scan_string tail.
Proof.
  intros [(c & -> & Hc)|(Hr & Hs & Hn)]; cbn [fst snd].
  - apply scan_string_unit. pose proof (escape_ascii_unit c) as E.
    apply Z.ltb_lt in Hc. by rewrite Hc in E.
  - destruct x as [r raw]; cbn [fst snd] in *. unfold escape_rune.
    assert ((r <? 0x80) = false) as -> by (apply Z.ltb_ge; lia).
    destruct ((r =? RuneError) && (len raw =? 1)); [by apply scan_string_unit|].
    destruct (r =? 0x2028); [by apply scan_string_unit|].
    destruct (r =? 0x2029); [by apply scan_string_unit|].
    by apply scan_string_high.
Qed.

Lemma scan_string_quoted l tail :
  Forall rune_shape l →
  scan_string (concat_strings (map (λ '(r, raw), escape_rune r raw) l) +:+ String dquote tail) = Some tail.
Proof.
  induction 1 as [|[r raw] l Hx _ IH]; [done|].
  cbn [map concat_strings]. rewrite append_assoc.
  by rewrite (scan_string_escape (r, raw)).
Qed.

Lemma quote_json_app s tail :
  quote_json s +:+ tail =
  String dquote (concat_strings (map (λ '(r, raw), escape_rune r raw) (runes s)) +:+ String dquote tail).
Proof. unfold quote_json. cbn. by rewrite append_assoc. Qed.

Lemma scan_quote_json s tail :
  scan_string (concat_strings (map (λ '(r, raw), escape_rune r raw) (runes s)) +:+ String dquote tail)
  = Some tail.
Proof. apply scan_string_quoted, runes_shape. Qed.

(** A tail that ends a number literal. *)
Definition ends_number (t : string) : Prop :=
  match t with
  | EmptyString => True
  | String c _ => is_digit c = false ∧ c ≠ "."%char ∧ byte c ≠ 0x65 ∧ byte c ≠ 0x45
  end.

Lemma span_digits_app ds t :
  sforall is_digit ds = true → ends_number t → span_digits (ds +:+ t) = (ds, t).
Proof.
  intros Hd Ht. induction ds as [|c ds IH]; cbn in *.
  - destruct t as [|c t]; [done|]. cbn. by destruct Ht as [-> _].
  - bool_simp. by rewrite H, IH.
Qed.

Lemma scan_tail t : ends_number t → scan_frac t = Some ("", t) ∧ scan_exp t = Some (0, t).
Proof.
  destruct t as [|c t]; [done|]. intros (Hd & Hdot & He & HE). split.
  - cbn. destruct c as [[] [] [] [] [] [] [] []]; done.
  - cbn. apply Z.eqb_neq in He, HE. by rewrite He, HE.
Qed.

Lemma scan_int_Itoa z t : 0 <= z → ends_number t → scan_int (Itoa z +:+ t) = Some (Itoa z, t).
Proof.
  intros Hz Ht. destruct (Itoa_nonneg z Hz) as (_ & Hd & Hl). unfold scan_int.
  rewrite span_digits_app by done.
  destruct Hl as [[-> ->]|Hl]; [done|].
  destruct (Itoa z) as [|c ds]; [done|]. cbn in Hl.
  destruct c as [[] [] [] [] [] [] [] []]; done.
Qed.

Lemma float_overflow_int64 z n : 0 <= z <= 2 ^ 63 → float_overflow z 0 n = false.
Proof.
  intros Hz. unfold float_overflow. destruct (z =? 0); [done|]. cbn [Z.leb].
  change (309 <=? 0) with false. change (0 <=? 0) with true. cbn iota. apply Z.leb_gt.
  rewrite Z.pow_0_r, Z.mul_1_r. eapply Z.le_lt_trans; [apply Hz|]. by vm_compute.
Qed.

Lemma scan_number_nonneg z t : 0 <= z <= 2 ^ 63 → ends_number t →
  match scan_int (Itoa z +:+ t) with
  | None => None
  | Some (ds, r1) =>
    match scan_frac r1 with
    | None => None
    | Some (fs, r2) =>
      match scan_exp r2 with
      | None => None
      | Some (e, r3) =>
        if float_overflow (digits_Z (ds +:+ fs)) (e - len fs) (len ds + len fs) then None else Some r3
      end
    end
  end = Some t.
Proof.
  intros Hz Ht. rewrite scan_int_Itoa by (done || lia).
  destruct (scan_tail t Ht) as [-> ->]. rewrite append_nil_r. unfold digits_Z.
  destruct (Itoa_nonneg z) as (-> & _); [lia|]. change (0 - len "") with 0.
  by rewrite float_overflow_int64.
Qed.

Lemma scan_number_Itoa z t : in_int64 z = true → ends_number t → scan_number (Itoa z +:+ t) = Some t.
Proof.
  unfold in_int64, in_range, min_int64, max_int64. intros Hz Ht. bool_simp.
  destruct (Z.lt_ge_cases z 0) as [Hneg|Hpos].
  - rewrite Itoa_neg by done. apply (scan_number_nonneg (- z)); [lia|done].
  - unfold scan_number. destruct (Itoa_nonneg z Hpos) as (_ & Hd & Hl).
    pose proof (scan_number_nonneg z t ltac:(lia) Ht) as Hs.
    destruct (Itoa z) as [|c ds] eqn:E; [by destruct Hl as [[_ ?]|?]|]. cbn in Hd. bool_simp.
    rewrite append_cons in *.
    by destruct c as [[] [] [] [] [] [] [] []].
Qed.

Definition marshallable (v : jvalue) : Prop :=
  match v with JString _ => True | JInt z => in_int64 z = true end.

Lemma skip_ws_cons c t : is_ws c = false → skip_ws (String c t) = String c t.
Proof. cbn. by intros ->. Qed.

Lemma scan_value_marshal f depth v t :
  marshallable v → ends_number t → scan_value (S f) depth (marshal_value v +:+ t) = Some t.
Proof.
  destruct v as [s|z]; cbn [marshal_value]; intros Hv Ht.
  - rewrite quote_json_app. cbn. apply scan_quote_json.
  - pose proof (scan_number_Itoa z t Hv Ht) as Hn. cbn [scan_value].
    assert (∃ c r, Itoa z = String c r ∧ (is_digit c = true ∨ c = "-"%char)) as (c & r & E & Hc).
    { destruct (Z.lt_ge_cases z 0) as [Hneg|Hpos]; [rewrite Itoa_neg by done; eauto|].
      destruct (Itoa_nonneg z Hpos) as (_ & Hd & Hl).
      destruct (Itoa z) as [|c r]; [by destruct Hl as [[_ ?]|?]|]. cbn in Hd. bool_simp. eauto. }
    rewrite E in *. rewrite append_cons in *.
    destruct c as [[] [] [] [] [] [] [] []]; destruct Hc as [Hc|Hc]; try done.
Qed.

Lemma marshal_entry_scan f depth kv t :
  marshallable kv.2 → ends_number t →
  scan_members (S (S f)) depth (marshal_entry kv +:+ t) =
    match skip_ws t with
    | String "," r4 => scan_members (S f) depth r4
    | String "}" r4 => Some r4
    | _ => None
    end.
Proof.
  intros Hv Ht. pose proof (scan_value_marshal f depth kv.2 t Hv Ht) as Hs.
  generalize dependent (S f). intros g Hs.
  unfold marshal_entry. rewrite append_assoc, quote_json_app.
  cbn [scan_members]. rewrite skip_ws_cons by done. change (Ascii.eqb dquote dquote) with true.
  cbn [negb]. rewrite scan_quote_json. cbn [String.append].
  rewrite skip_ws_cons by done. cbn iota. by rewrite Hs.
Qed.

Lemma marshal_members_scan m kv fuel depth :
  Forall (λ kv : string * jvalue, marshallable kv.2) (kv :: m) → (2 * S (length m) <= fuel)%nat →
  scan_members fuel depth (Join (map marshal_entry (kv :: m)) "," +:+ "}") = Some "".
Proof.
  revert kv fuel. induction m as [|kv' m IH]; intros kv fuel Hm Hf;
    apply Forall_cons in Hm as [Hkv Hm]; destruct fuel as [|[|fuel]]; try (cbn in Hf; lia).
  - unfold Join. cbn [map String.concat]. rewrite marshal_entry_scan by (done || by vm_compute). done.
  - specialize (IH kv' (S fuel) Hm ltac:(cbn in *; lia)).
    unfold Join in *. cbn [map String.concat] in *. rewrite !append_assoc.
    rewrite marshal_entry_scan by (done || by vm_compute). exact IH.
Qed.

Lemma Join_entries_length m :
  (length m <= String.length (Join (map marshal_entry m) ","))%nat.
Proof.
  induction m as [|kv m IH]; [done|].
  assert (∀ s, (1 <= String.length (marshal_entry kv +:+ s))%nat) as Hkv.
  { intros s. unfold marshal_entry. rewrite append_assoc, quote_json_app. cbn. lia. }
  destruct m as [|kv' m].
  - specialize (Hkv ""). rewrite append_nil_r in Hkv. exact Hkv.
  - change (Join (map marshal_entry (kv :: kv' :: m)) ",")
      with (marshal_entry kv +:+ "," +:+ Join (map marshal_entry (kv' :: m)) ",").
    specialize (Hkv ""). rewrite append_nil_r in Hkv. rewrite !length_append. cbn [length] in *. lia.
Qed.

(** What [Audit] marshals, its check accepts. *)
Lemma Unmarshal_marshal m :
  Forall (λ kv : string * jvalue, marshallable kv.2) m → Unmarshal_map (marshal_map m) = true.
Proof.
  intros Hm. unfold Unmarshal_map, marshal_map. destruct m as [|kv m]; [by vm_compute|].
  pose proof (Join_entries_length (kv :: m)) as Hl.
  rewrite append_cons. cbn [String.length scan_value]. rewrite skip_ws_cons by done.
  change (Ascii.eqb "{" "{") with true. cbn iota. change (maxNestingDepth <=? 0) with false. cbn iota.
  cbn [String.append]. rewrite marshal_members_scan; [|done|].
  2:{ cbn [length] in *. rewrite !length_append. cbn [String.length String.append] in *. lia. }
  destruct (Join (map marshal_entry (kv :: m)) ",") as [|c r] eqn:E.
  { cbn [length] in Hl. cbn in Hl. lia. }
  assert (c = dquote) as ->.
  { unfold Join in E. cbn [map] in E. destruct (map marshal_entry m); cbn in E; by injection E. }
  cbn [String.append]. rewrite skip_ws_cons by done. cbn.
  done.
Qed.

(** ** The fuel of the scanner is enough

    Every scanner leaves less than it was given, so twice the length of the
    text bounds the calls and more fuel changes nothing. *)

Definition slen : string → nat := String.length.

Lemma skip_ws_le s : (slen (skip_ws s) <= slen s)%nat.
Proof. unfold slen. induction s as [|c s IH]; cbn; [done|]. destruct (is_ws c); cbn; lia. Qed.

Lemma scan_string_lt s r : scan_string s = Some r → (slen r < slen s)%nat.
Proof.
  unfold slen. induction s as [s IH] using string_length_ind. destruct s as [|c t]; [discriminate|].
  cbn [scan_string String.length]. destruct (Ascii.eqb c dquote); [intros [= <-]; lia|].
  destruct (Ascii.eqb c backslash).
  - destruct t as [|e t2]; [discriminate|]. destruct (escapable e).
    + intros Hr. apply IH in Hr; cbn [String.length] in *; lia.
    + destruct (Ascii.eqb e "u"); [|discriminate].
      destruct t2 as [|h1 [|h2 [|h3 [|h4 t6]]]]; try discriminate.
      destruct (_ && _); [|discriminate]. intros Hr. apply IH in Hr; cbn [String.length] in *; lia.
  - destruct (byte c <? 0x20); [discriminate|]. intros Hr. apply IH in Hr; cbn [String.length] in *; lia.
Qed.

Lemma span_digits_le s ds r : span_digits s = (ds, r) →
  (slen r <= slen s)%nat ∧ (ds ≠ "" → (slen r < slen s)%nat).
Proof.
  unfold slen. revert ds r. induction s as [|c s IH]; cbn; intros ds r; [by intros [= <- <-]|].
  destruct (is_digit c); [|by intros [= <- <-]]. destruct (span_digits s) as [ds' r'].
  intros [= <- <-]. destruct (IH ds' r' eq_refl). split; intros; lia.
Qed.

Lemma scan_int_lt s ds r : scan_int s = Some (ds, r) → (slen r < slen s)%nat.
Proof.
  unfold scan_int. destruct (span_digits s) as [ds' r'] eqn:E.
  destruct (span_digits_le _ _ _ E) as [_ Hl]. destruct ds' as [|c ds']; [discriminate|].
  intros Hs. specialize (Hl ltac:(discriminate)).
  assert (r = r' ∨ r = drop_str 1 s) as [->| ->]; [|done|].
  - revert Hs. destruct c as [[] [] [] [] [] [] [] []]; destruct ds'; intros [= _ <-]; auto.
  - destruct s; [cbn in *; lia|]. cbn. unfold slen. cbn. lia.
Qed.

Lemma scan_frac_le s ds r : scan_frac s = Some (ds, r) → (slen r <= slen s)%nat.
Proof.
  unfold scan_frac. destruct s as [|c t]; [by intros [= _ <-]|].
  destruct (Ascii.eqb c ".") eqn:Ec.
  - apply Ascii.eqb_eq in Ec as ->. destruct (span_digits t) as [ds' r'] eqn:E.
    destruct (span_digits_le _ _ _ E) as [Hl _]. destruct (ds' =s ""); [discriminate|].
    intros [= _ <-]. unfold slen in *. cbn. lia.
  - intros Hs. assert (r = String c t) as ->; [|done].
    apply Ascii.eqb_neq in Ec. destruct c as [[] [] [] [] [] [] [] []]; try (by injection Hs); done.
Qed.

Lemma scan_exp_le s e r : scan_exp s = Some (e, r) → (slen r <= slen s)%nat.
Proof.
  unfold scan_exp, slen. destruct s as [|c t]; [by intros [= _ <-]|].
  destruct (_ || _); [|by intros [= _ <-]].
  assert (∀ sg u, (String.length u <= String.length t)%nat →
    (let '(ds, r) := span_digits u in if ds =s "" then None else Some (sg * digits_Z ds, r)) = Some (e, r) →
    (String.length r <= String.length (String c t))%nat) as Hu.
  { intros sg u Hl. destruct (span_digits u) as [ds r'] eqn:E.
    destruct (span_digits_le _ _ _ E) as [Hr _]. destruct (ds =s ""); [discriminate|].
    intros [= _ <-]. unfold slen in Hr. cbn. lia. }
  destruct t as [|d v]; [by apply (Hu 1 "")|].
  destruct (Ascii.eqb d "-"); [|destruct (Ascii.eqb d "+")]; apply Hu; cbn; lia.
Qed.

Lemma scan_number_lt s r : scan_number s = Some r → (slen r < slen s)%nat.
Proof.
  unfold scan_number. set (s1 := match s with String "-" t => t | _ => s end).
  assert (slen s1 <= slen s)%nat as H1.
  { unfold s1, slen. destruct s as [|[[] [] [] [] [] [] [] []] t]; cbn; lia. }
  destruct (scan_int s1) as [[ds r1]|] eqn:E1; [|discriminate].
  destruct (scan_frac r1) as [[fs r2]|] eqn:E2; [|discriminate].
  destruct (scan_exp r2) as [[e r3]|] eqn:E3; [|discriminate].
  destruct (float_overflow _ _ _); [discriminate|]. intros [= <-].
  apply scan_int_lt in E1. apply scan_frac_le in E2. apply scan_exp_le in E3. lia.
Qed.

(** One step of each scanner, over what the other two do: [value], [members]
    and [elements] are called with one unit of fuel less. *)
Section Steps.
Variables value members elements : Z → string → option string.

Definition value_step (depth : Z) (s : string) : option string :=
  match skip_ws s with
  | EmptyString => None
  | String c t =>
    if Ascii.eqb c "{" then
      if maxNestingDepth <=? depth then None
      else match skip_ws t with
           | String "}" r => Some r
           | _ => members (depth + 1) t
           end
    else if Ascii.eqb c "[" then
      if maxNestingDepth <=? depth then None
      else match skip_ws t with
           | String "]" r => Some r
           | _ => elements (depth + 1) t
           end
    else if Ascii.eqb c dquote then scan_string t
    else if HasPrefix (String c t) "true" then Some (drop_str 4 (String c t))
    else if HasPrefix (String c t) "false" then Some (drop_str 5 (String c t))
    else if HasPrefix (String c t) "null" then Some (drop_str 4 (String c t))
    else scan_number (String c t)
  end.

Definition members_step (depth : Z) (s : string) : option string :=
  match skip_ws s with
  | EmptyString => None
  | String c t =>
    if negb (Ascii.eqb c dquote) then None
    else match scan_string t with
         | None => None
         | Some r1 =>
           match skip_ws r1 with
           | String ":" r2 =>
             match value depth r2 with
             | None => None
             | Some r3 =>
               match skip_ws r3 with
               | String "," r4 => members depth r4
               | String "}" r4 => Some r4
               | _ => None
               end
             end
           | _ => None
           end
         end
  end.

Definition elements_step (depth : Z) (s : string) : option string :=
  match value depth s with
  | None => None
  | Some r1 =>
    match skip_ws r1 with
    | String "," r2 => elements depth r2
    | String "]" r2 => Some r2
    | _ => None
    end
  end.
End Steps.

Lemma scan_steps f d s :
  scan_value (S f) d s = value_step (scan_members f) (scan_elements f) d s ∧
  scan_members (S f) d s = members_step (scan_value f) (scan_members f) d s ∧
  scan_elements (S f) d s = elements_step (scan_value f) (scan_elements f) d s.
Proof. done. Qed.

(** A match on the next byte after the blanks *)
Lemma next_byte_le s c t : skip_ws s = String c t → (S (slen t) <= slen s)%nat.
Proof. intros E. pose proof (skip_ws_le s). rewrite E in H. unfold slen in *. cbn in H. lia. Qed.

Lemma drop_le k t : (slen (drop_str k t) <= slen t)%nat.
Proof.
  unfold slen. revert t. induction k as [|k IH]; intros [|d t]; cbn; try lia. specialize (IH t). lia.
Qed.

Definition shrinks (p : Z → string → option string) : Prop :=
  ∀ d s r, p d s = Some r → (slen r < slen s)%nat.

Lemma value_step_shrinks m e : shrinks m → shrinks e → shrinks (value_step m e).
Proof.
  intros Hm He d s r. unfold value_step. destruct (skip_ws s) as [|c t] eqn:E; [discriminate|].
  pose proof (next_byte_le _ _ _ E) as Hl.
  destruct (Ascii.eqb c "{"); [|destruct (Ascii.eqb c "[")].
  - destruct (maxNestingDepth <=? d); [discriminate|].
    destruct (skip_ws t) as [|b u] eqn:Et; [intros Hr%Hm; lia|].
    destruct b as [[] [] [] [] [] [] [] []]; try (intros Hr%Hm; lia).
    intros [= <-]. apply next_byte_le in Et. lia.
  - destruct (maxNestingDepth <=? d); [discriminate|].
    destruct (skip_ws t) as [|b u] eqn:Et; [intros Hr%He; lia|].
    destruct b as [[] [] [] [] [] [] [] []]; try (intros Hr%He; lia).
    intros [= <-]. apply next_byte_le in Et. lia.
  - destruct (Ascii.eqb c dquote); [intros Hr%scan_string_lt; lia|].
    destruct (HasPrefix _ "true"); [|destruct (HasPrefix _ "false"); [|destruct (HasPrefix _ "null")]].
    1-3: intros Hr; apply (inj Some) in Hr as <-; eapply Nat.le_lt_trans;
      [first [exact (drop_le 3 t)|exact (drop_le 4 t)]|lia].
    intros Hr%scan_number_lt. unfold slen in *. cbn in Hr. lia.
Qed.

Lemma members_step_shrinks v m : shrinks v → shrinks m → shrinks (members_step v m).
Proof.
  intros Hv Hm d s r. unfold members_step. destruct (skip_ws s) as [|c t] eqn:E; [discriminate|].
  apply next_byte_le in E. destruct (negb _); [discriminate|].
  destruct (scan_string t) as [r1|] eqn:E1; [|discriminate]. apply scan_string_lt in E1.
  destruct (skip_ws r1) as [|b r2] eqn:E2; [discriminate|]. apply next_byte_le in E2.
  destruct b as [[] [] [] [] [] [] [] []]; try discriminate.
  destruct (v d r2) as [r3|] eqn:E3; [|discriminate]. apply Hv in E3.
  destruct (skip_ws r3) as [|b r4] eqn:E4; [discriminate|]. apply next_byte_le in E4.
  destruct b as [[] [] [] [] [] [] [] []]; try discriminate;
    first [intros Hr%Hm; lia|intros [= <-]; lia].
Qed.

Lemma elements_step_shrinks v e : shrinks v → shrinks e → shrinks (elements_step v e).
Proof.
  intros Hv He d s r. unfold elements_step. destruct (v d s) as [r1|] eqn:E1; [|discriminate].
  apply Hv in E1. destruct (skip_ws r1) as [|b r2] eqn:E2; [discriminate|]. apply next_byte_le in E2.
  destruct b as [[] [] [] [] [] [] [] []]; try discriminate;
    first [intros Hr%He; lia|intros [= <-]; lia].
Qed.

Lemma scanners_shrink f : shrinks (scan_value f) ∧ shrinks (scan_members f) ∧ shrinks (scan_elements f).
Proof.
  induction f as [|f (Hv & Hm & He)]; [by split_and!; intros ???|].
  split_and!; intros d s r; destruct (scan_steps f d s) as (Ev & Em & Ee).
  - rewrite Ev. by apply value_step_shrinks.
  - rewrite Em. by apply members_step_shrinks.
  - rewrite Ee. by apply elements_step_shrinks.
Qed.

(** Two scanners that agree on what is shorter *)
Definition agree (n : nat) (p q : Z → string → option string) : Prop :=
  ∀ d s, (slen s < n)%nat → p d s = q d s.

Lemma value_step_agree n m m' e e' d s : agree n m m' → agree n e e' → (slen s <= n)%nat →
  value_step m e d s = value_step m' e' d s.
Proof.
  intros Hm He Hl. unfold value_step. destruct (skip_ws s) as [|c t] eqn:E; [done|].
  apply next_byte_le in E. rewrite (Hm (d + 1) t), (He (d + 1) t) by lia. done.
Qed.

Lemma members_step_agree n v v' m m' d s : agree n v v' → agree n m m' → shrinks v' →
  (slen s <= n)%nat → members_step v m d s = members_step v' m' d s.
Proof.
  intros Hv Hm Hs Hl. unfold members_step. destruct (skip_ws s) as [|c t] eqn:E; [done|].
  apply next_byte_le in E. destruct (negb _); [done|].
  destruct (scan_string t) as [r1|] eqn:E1; [|done]. apply scan_string_lt in E1.
  destruct (skip_ws r1) as [|b r2] eqn:E2; [done|]. apply next_byte_le in E2.
  rewrite (Hv d r2) by lia. destruct b as [[] [] [] [] [] [] [] []]; try done.
  destruct (v' d r2) as [r3|] eqn:E3; [|done]. apply Hs in E3.
  destruct (skip_ws r3) as [|b r4] eqn:E4; [done|]. apply next_byte_le in E4.
  by rewrite (Hm d r4) by lia.
Qed.

Lemma elements_step_agree n v e e' d s : agree n e e' → shrinks v → (slen s <= n)%nat →
  elements_step v e d s = elements_step v e' d s.
Proof.
  intros He Hs Hl. unfold elements_step. destruct (v d s) as [r1|] eqn:E1; [|done].
  apply Hs in E1. destruct (skip_ws r1) as [|b r2] eqn:E2; [done|]. apply next_byte_le in E2.
  by rewrite (He d r2) by lia.
Qed.

(** The fuel a scanner needs: two units a byte, one more for a list. *)
Lemma scan_enough f g d s :
  ((2 * slen s < f)%nat → (2 * slen s < g)%nat → scan_value f d s = scan_value g d s) ∧
  ((2 * slen s + 1 < f)%nat → (2 * slen s + 1 < g)%nat → scan_members f d s = scan_members g d s) ∧
  ((2 * slen s + 1 < f)%nat → (2 * slen s + 1 < g)%nat → scan_elements f d s = scan_elements g d s).
Proof.
  revert g d s. induction f as [|f IH]; intros [|g] d s; [split_and!; lia..|].
  destruct (scan_steps f d s) as (Ev & Em & Ee), (scan_steps g d s) as (Ev' & Em' & Ee').
  split_and!; intros Hf Hg.
  - rewrite Ev, Ev'. apply (value_step_agree (slen s)); [| |done]; intros d' s' Hl; apply IH; lia.
  - rewrite Em, Em'. apply (members_step_agree (slen s)); [..|apply scanners_shrink|done];
      intros d' s' Hl; apply IH; lia.
  - rewrite Ee, Ee'. transitivity (elements_step (scan_value g) (scan_elements f) d s).
    + unfold elements_step. by rewrite (proj1 (IH g d s)) by lia.
    + apply (elements_step_agree (slen s)); [|apply scanners_shrink|done]. intros d' s' Hl. apply IH; lia.
Qed.

(** [Unmarshal_map] never fails for want of fuel: with any more it answers the
    same. *)
Lemma Unmarshal_fuel s f : (2 * String.length s < f)%nat →
  scan_value f 0 s = scan_value (S (2 * String.length s)) 0 s.
Proof. intros Hf. apply scan_enough; unfold slen; lia. Qed.
