(* ===== verification/GoTime.v ===== *)
(** * Instants and their text forms

    A [time.Time] in UTC with whole seconds is its civil date and clock
    reading.  [CURRENT_TIMESTAMP] of SQLite and [Format(time.RFC3339)] of Go
    write it as text; [time.Parse] is an interface ([TimeParser]). *)

From S2P Require Import Prelude GoStrings.

Record time := Time {
  year : Z; month : Z; day : Z; hour : Z; minute : Z; second : Z;
}.

#[export] Instance time_eq_dec : EqDecision time.
Proof. solve_decision. Defined.

(** The range in which the text forms have fixed width. *)
Definition valid_time (t : time) : Prop :=
  (0 <= year t < 10000) ∧ (1 <= month t <= 12) ∧ (1 <= day t <= 31) ∧
  (0 <= hour t < 24) ∧ (0 <= minute t < 60) ∧ (0 <= second t < 60).

(** An instant for the examples. *)
Definition noon : time := Time 2026 1 15 12 0 0.

(** Go's zero [time.Time]. *)
Definition zero_time : time := Time 1 1 1 0 0 0.

Definition digit (d : Z) : ascii := chr (0x30 + d).
Definition pad2 (z : Z) : string := String (digit (z / 10)) (str1 (digit (z mod 10))).
Definition pad4 (z : Z) : string := pad2 (z / 100) +:+ pad2 (z mod 100).

Definition date_text (t : time) : string :=
  pad4 (year t) +:+ "-" +:+ pad2 (month t) +:+ "-" +:+ pad2 (day t).
Definition clock_text (t : time) : string :=
  pad2 (hour t) +:+ ":" +:+ pad2 (minute t) +:+ ":" +:+ pad2 (second t).

(** What CURRENT_TIMESTAMP evaluates to. *)
Definition sqlite_text (t : time) : string := date_text t +:+ " " +:+ clock_text t.

(** [t.UTC().Format(time.RFC3339)] *)
Definition rfc3339_text (t : time) : string := date_text t +:+ "T" +:+ clock_text t +:+ "Z".

(** Chronological order. *)
Definition date_before (a b : time) : Prop :=
  year a < year b ∨ (year a = year b ∧ (month a < month b ∨ (month a = month b ∧ day a < day b))).
Definition same_date (a b : time) : Prop :=
  year a = year b ∧ month a = month b ∧ day a = day b.
Definition time_before (a b : time) : Prop :=
  date_before a b ∨
  (same_date a b ∧
   (hour a < hour b ∨ (hour a = hour b ∧
     (minute a < minute b ∨ (minute a = minute b ∧ second a < second b))))).

(** [time.Parse(layout, value)], converted to UTC. *)
Class TimeParser := { time_Parse : string → string → option time }.

Definition RFC3339Nano : string := "2006-01-02T15:04:05.999999999Z07:00".
Definition sqlite_layout : string := "2006-01-02 15:04:05".

Section parse.
Context `{TimeParser}.

Fixpoint parse_layouts (layouts : list string) (v : string) : time :=
  match layouts with
  | [] => zero_time
  | layout :: rest =>
    match time_Parse layout v with
    | Some t => t
    | None => parse_layouts rest v
    end
  end.

(** store.go: parseTime *)
Definition parseTime (v : string) : time := parse_layouts [RFC3339Nano; sqlite_layout] v.

End parse.

(** ** A parser of the layout SQLite writes *)

Definition parse_num (s : string) : Z := match unsigned_value s with Some z => z | None => 0 end.

(** The fields of a text of the form sqlite_text produces. *)
Definition parse_sqlite (v : string) : time :=
  Time (parse_num (take_str 4 v)) (parse_num (take_str 2 (drop_str 5 v)))
    (parse_num (take_str 2 (drop_str 8 v))) (parse_num (take_str 2 (drop_str 11 v)))
    (parse_num (take_str 2 (drop_str 14 v))) (parse_num (take_str 2 (drop_str 17 v))).

Definition sqlite_parser : TimeParser := {|
  time_Parse layout v :=
    if (layout =s sqlite_layout) && (sqlite_text (parse_sqlite v) =s v)
    then Some (parse_sqlite v) else None |}.

(** ** Comparing instants by their text *)

Lemma compare_app p q s t : String.length p = String.length q →
  String.compare (p +:+ s) (q +:+ t) =
    match String.compare p q with Eq => String.compare s t | c => c end.
Proof.
  revert q. induction p as [|c p IH]; intros [|d q] Hl; try discriminate Hl; [done|].
  cbn. destruct (Ascii.compare c d); [|done|done]. apply IH. by injection Hl.
Qed.

Definition two_digits : list Z := Z.of_nat <$> seq 0 100.

Lemma elem_of_two_digits z : 0 <= z < 100 → z ∈ two_digits.
Proof.
  intros Hz. apply list_elem_of_fmap. exists (Z.to_nat z). split; [lia|].
  apply elem_of_seq. lia.
Qed.

Lemma pad2_compare a b : 0 <= a < 100 → 0 <= b < 100 →
  String.compare (pad2 a) (pad2 b) = (a ?= b).
Proof.
  intros Ha Hb.
  assert (forallb (λ a, forallb (λ b, bool_decide (String.compare (pad2 a) (pad2 b) = (a ?= b)))
            two_digits) two_digits = true) as Hc by (by vm_compute).
  rewrite forallb_true in Hc. specialize (Hc a (elem_of_two_digits a Ha)).
  rewrite forallb_true in Hc. specialize (Hc b (elem_of_two_digits b Hb)).
  by apply bool_decide_eq_true in Hc.
Qed.

Lemma pad4_compare a b : 0 <= a < 10000 → 0 <= b < 10000 →
  String.compare (pad4 a) (pad4 b) = (a ?= b).
Proof.
  intros Ha Hb. unfold pad4. rewrite compare_app by done.
  assert (∀ z, 0 <= z < 10000 → 0 <= z / 100 < 100 ∧ 0 <= z mod 100 < 100) as Hr.
  { intros z Hz. split; [|by apply Z.mod_pos_bound]. split; [by apply Z.div_pos; lia|].
    apply Z.div_lt_upper_bound; lia. }
  destruct (Hr a Ha), (Hr b Hb). rewrite !pad2_compare by done.
  pose proof (Z.div_mod a 100 ltac:(done)). pose proof (Z.div_mod b 100 ltac:(done)).
  destruct (Z.compare_spec (a / 100) (b / 100)), (Z.compare_spec (a mod 100) (b mod 100)),
    (Z.compare_spec a b); try done; nia.
Qed.

(** The date part, then the rest. *)
Lemma date_compare a b s t : valid_time a → valid_time b →
  String.compare (date_text a +:+ s) (date_text b +:+ t) =
    match year a ?= year b with
    | Eq => match month a ?= month b with
            | Eq => match day a ?= day b with Eq => String.compare s t | c => c end
            | c => c
            end
    | c => c
    end.
Proof.
  intros (Hy & Hm & Hd & _) (Hy' & Hm' & Hd' & _). unfold date_text.
  rewrite !append_assoc, compare_app, pad4_compare by done.
  destruct (year a ?= year b); [|done..].
  rewrite (compare_app "-" "-") by done. change (String.compare "-" "-") with Eq. cbn iota.
  rewrite compare_app, pad2_compare by (done || lia).
  destruct (month a ?= month b); [|done..].
  rewrite (compare_app "-" "-") by done. change (String.compare "-" "-") with Eq. cbn iota.
  by rewrite compare_app, pad2_compare by (done || lia).
Qed.

(** A text SQLite wrote is below an RFC 3339 text exactly when its date is not
    after the other's date: on the same day the blank is below the letter T. *)
Lemma sqlite_below_rfc3339 a b : valid_time a → valid_time b →
  String.ltb (sqlite_text a) (rfc3339_text b) = true ↔ ¬ date_before b a.
Proof.
  intros Ha Hb. unfold String.ltb, sqlite_text, rfc3339_text. rewrite date_compare by done.
  rewrite (compare_app " " "T") by done. change (String.compare " " "T") with Lt. cbn iota.
  unfold date_before.
  destruct (Z.compare_spec (year a) (year b)), (Z.compare_spec (month a) (month b)),
    (Z.compare_spec (day a) (day b)); (split; intros; [|try done]); try done; lia.
Qed.
