(* ===== verification/Effects.v ===== *)
(** * Errors, atomic steps and their interleavings

    A Go function of the program that talks to the database is modelled as a
    [prog S A]: a sequence of steps, each of which reads and changes the shared
    state [S] atomically (one SQL statement, one transaction, one critical
    section), ending with a value.  [run] executes a program alone; [pool_step]
    interleaves the steps of several programs, as concurrent sessions do.  At the
    end: reasoning about one program among others by what they may do. *)

From S2P Require Import Prelude.

(** ** Errors *)

(** The constraints of the database schema whose violation a statement
    reports. *)
Inductive violation := Unique | CheckFailed | ForeignKey.

(** Go's [error] values.  [ErrNoRows] is [sql.ErrNoRows]; [Msg] is
    [errors.New]; [Wrap p e] is [fmt.Errorf("p: %w", e)]; [Sql] is what a
    statement fails with; [Ext] is an error of a library, by its text. *)
Inductive error :=
  | ErrNoRows
  | Msg (text : string)
  | Wrap (prefix : string) (e : error)
  | Sql (v : violation)
  | Ext (text : string).

#[export] Instance violation_eq_dec : EqDecision violation.
Proof. solve_decision. Defined.
#[export] Instance error_eq_dec : EqDecision error.
Proof. solve_decision. Defined.

(** The texts of the database driver's errors. *)
Class DriverTexts := { violation_text : violation → string }.

(** [err.Error()] *)
Fixpoint error_text `{DriverTexts} (e : error) : string :=
  match e with
  | ErrNoRows => "sql: no rows in result set"
  | Msg t | Ext t => t
  | Wrap p e => p +:+ ": " +:+ error_text e
  | Sql v => violation_text v
  end.

Inductive result (A : Type) := Ok (a : A) | Err (e : error).
Arguments Ok {A} a.
Arguments Err {A} e.

Definition is_ok {A} (r : result A) : bool := match r with Ok _ => true | Err _ => false end.

Definition rbind {A B} (r : result A) (k : A → result B) : result B :=
  match r with Ok a => k a | Err e => Err e end.

Notation "'let!' x := r 'in' k" := (rbind r (λ x, k))
  (at level 10, x name, r at level 100, k at level 200).

(** ** Programs over a shared state *)

Inductive prog (S A : Type) :=
  | Ret (a : A)
  | Step {X : Type} (f : S → X * S) (k : X → prog S A).
Arguments Ret {S A} a.
Arguments Step {S A X} f k.

Fixpoint bind {S A B} (p : prog S A) (k : A → prog S B) : prog S B :=
  match p with
  | Ret a => k a
  | Step f h => Step f (λ x, bind (h x) k)
  end.

Fixpoint run {S A} (p : prog S A) (s : S) : A * S :=
  match p with
  | Ret a => (a, s)
  | Step f k => let '(x, s') := f s in run (k x) s'
  end.

Definition atomic {S X} (f : S → X * S) : prog S X := Step f Ret.
Definition query {S X} (f : S → X) : prog S X := Step (λ s, (f s, s)) Ret.

(** Sequencing, and sequencing with Go's [if err != nil { return err }]. *)
Notation "'let*' x := p 'in' k" := (bind p (λ x, k))
  (at level 10, x name, p at level 100, k at level 200).

Definition bind_ok {S A B} (p : prog S (result A)) (k : A → prog S (result B)) :
    prog S (result B) :=
  bind p (λ r, match r with Ok a => k a | Err e => Ret (Err e) end).

Notation "'let?' x := p 'in' k" := (bind_ok p (λ x, k))
  (at level 10, x name, p at level 100, k at level 200).

Definition lift {S A} (r : result A) : prog S (result A) := Ret r.
Definition guard {S} (b : bool) (e : error) : prog S (result unit) :=
  Ret (if b then Ok tt else Err e).

(** The value a program ends with, and the state it leaves. *)
Definition value {S A} (p : prog S A) (s : S) : A := (run p s).1.
Definition final {S A} (p : prog S A) (s : S) : S := (run p s).2.

Lemma run_bind {S A B} (p : prog S A) (k : A → prog S B) s :
  run (bind p k) s = run (k (value p s)) (final p s).
Proof.
  unfold value, final. revert s. induction p as [a|X f h IH]; intros s; cbn; [done|].
  destruct (f s) as [x s']. apply IH.
Qed.

Lemma run_bind_ok {S A B} (p : prog S (result A)) (k : A → prog S (result B)) s :
  run (bind_ok p k) s =
    match run p s with
    | (Ok a, s') => run (k a) s'
    | (Err e, s') => (Err e, s')
    end.
Proof.
  unfold bind_ok. rewrite run_bind. unfold value, final.
  by destruct (run p s) as [[a|e] s'].
Qed.

(** [BeginTx ... Commit]: the body runs as one step, and [defer tx.Rollback()]
    undoes it when it fails. *)
Definition transaction {S A} (p : prog S (result A)) : prog S (result A) :=
  atomic (λ s, match run p s with
               | (Ok a, s') => (Ok a, s')
               | (Err e, _) => (Err e, s)
               end).

(** A program over a part of the state. *)
Fixpoint zoom {W S A} (get : W → S) (put : S → W → W) (p : prog S A) : prog W A :=
  match p with
  | Ret a => Ret a
  | Step f k => Step (λ w, let '(x, s') := f (get w) in (x, put s' w)) (λ x, zoom get put (k x))
  end.

Lemma run_zoom {W S A} (get : W → S) (put : S → W → W) (p : prog S A) w :
  (∀ s w, get (put s w) = s) → (∀ s s' w, put s (put s' w) = put s w) → (∀ w, put (get w) w = w) →
  run (zoom get put p) w = (value p (get w), put (final p (get w)) w).
Proof.
  intros Hgp Hpp Hpg. unfold value, final. revert w. induction p as [a|X f k IH]; intros w; cbn.
  - by rewrite Hpg.
  - destruct (f (get w)) as [x s']. by rewrite IH, Hgp, Hpp.
Qed.

(** ** Invariants of every step *)

(** [keeps I p]: each step of [p] preserves [I], whatever the state it starts
    in, so the steps of other programs may come in between. *)
Fixpoint keeps {S A} (I : S → Prop) (p : prog S A) : Prop :=
  match p with
  | Ret _ => True
  | Step f k => (∀ s, I s → I (f s).2) ∧ ∀ x, keeps I (k x)
  end.

Lemma keeps_bind {S A B} (I : S → Prop) (p : prog S A) (k : A → prog S B) :
  keeps I p → (∀ a, keeps I (k a)) → keeps I (bind p k).
Proof.
  intros Hp Hk. induction p as [a|X f h IH]; cbn in *; [done|].
  destruct Hp as [Hf Hh]. split; auto.
Qed.

Lemma keeps_bind_ok {S A B} (I : S → Prop) (p : prog S (result A)) (k : A → prog S (result B)) :
  keeps I p → (∀ a, keeps I (k a)) → keeps I (bind_ok p k).
Proof. intros Hp Hk. apply keeps_bind; [done|]. by intros [a|e]; cbn. Qed.

Lemma keeps_query {S X} (I : S → Prop) (f : S → X) : keeps I (query f).
Proof. by split. Qed.

Lemma keeps_atomic {S X} (I : S → Prop) (f : S → X * S) :
  (∀ s, I s → I (f s).2) → keeps I (atomic f).
Proof. by split. Qed.

Lemma keeps_final {S A} (I : S → Prop) (p : prog S A) s : keeps I p → I s → I (final p s).
Proof.
  unfold final. revert s. induction p as [a|X f k IH]; intros s Hk Hs; cbn in *; [done|].
  destruct Hk as [Hf Hk]. specialize (Hf s Hs). destruct (f s) as [x s']. by apply IH.
Qed.

Lemma keeps_transaction {S A} (I : S → Prop) (p : prog S (result A)) :
  keeps I p → keeps I (transaction p).
Proof.
  intros Hp. apply keeps_atomic. intros s Hs. pose proof (keeps_final I p s Hp Hs) as H.
  unfold final in H. by destruct (run p s) as [[a|e] s'].
Qed.

(** The next step of one program. *)
Definition advance {S A} (p : prog S A) (s : S) : prog S A * S :=
  match p with
  | Ret a => (Ret a, s)
  | Step f k => let '(x, s') := f s in (k x, s')
  end.

(** ** What a program guarantees while others interfere

    [guarantees I G Q p]: whenever [I] holds before a step of [p], the step
    relates the states by [G], and the value [p] ends with satisfies [Q] - even
    when other programs change the state between the steps, as long as they keep
    [I]. *)
Fixpoint guarantees {S A} (I : S → Prop) (G : S → S → Prop) (Q : A → Prop) (p : prog S A) : Prop :=
  match p with
  | Ret a => Q a
  | Step f k => ∀ s, I s → G s (f s).2 ∧ guarantees I G Q (k (f s).1)
  end.

(** Steps that keep the invariant they rely on *)
Definition ensures {S A} (I : S → Prop) (Q : A → Prop) (p : prog S A) : Prop :=
  guarantees I (λ _ s, I s) Q p.

Lemma guarantees_bind {S A B} I G (Q : A → Prop) (R : B → Prop) (p : prog S A) (k : A → prog S B) :
  guarantees I G Q p → (∀ a, Q a → guarantees I G R (k a)) → guarantees I G R (bind p k).
Proof.
  intros Hp Hk. induction p as [a|X f h IH]; cbn in *; [auto|].
  intros s Hs. destruct (Hp s Hs) as [Hg Hh]. auto.
Qed.

Lemma guarantees_bind_ok {S A B} I G (Q : A → Prop) (R : result B → Prop) (p : prog S (result A))
    (k : A → prog S (result B)) :
  guarantees I G (λ r, match r with Ok a => Q a | Err e => R (Err e) end) p →
  (∀ a, Q a → guarantees I G R (k a)) → guarantees I G R (bind_ok p k).
Proof. intros Hp Hk. eapply guarantees_bind; [exact Hp|]. intros [a|e]; cbn; auto. Qed.

Lemma guarantees_mono {S A} I (G G' : S → S → Prop) (Q Q' : A → Prop) (p : prog S A) :
  guarantees I G Q p → (∀ s s', G s s' → G' s s') → (∀ a, Q a → Q' a) → guarantees I G' Q' p.
Proof.
  intros Hp HG HQ. induction p as [a|X f h IH]; cbn in *; [auto|].
  intros s Hs. destruct (Hp s Hs). auto.
Qed.

(** What a program's value satisfies whatever the state: [always Q p]. *)
Definition always {S A} (Q : A → Prop) (p : prog S A) : Prop := guarantees (λ _, True) (λ _ _, True) Q p.

Lemma always_any {S A} (p : prog S A) : always (λ _, True) p.
Proof. unfold always. induction p; cbn; auto. Qed.

Lemma always_bind {S A B} (R : B → Prop) (p : prog S A) (k : A → prog S B) :
  (∀ a, always R (k a)) → always R (bind p k).
Proof. intros Hk. eapply guarantees_bind; [apply always_any|]. intros a _. apply Hk. Qed.

Lemma guarantees_always {S A} I G (Q R : A → Prop) (p : prog S A) :
  guarantees I G Q p → always R p → guarantees I G (λ a, Q a ∧ R a) p.
Proof.
  unfold always. induction p as [a|X f h IH]; cbn; [done|]. intros Hp Hr s Hs.
  destruct (Hp s Hs), (Hr s Logic.I). auto.
Qed.

Lemma always_value {S A} (Q : A → Prop) (p : prog S A) s : always Q p → Q (value p s).
Proof.
  unfold always, value. revert s. induction p as [a|X f h IH]; intros s Hp; cbn in *; [done|].
  destruct (Hp s Logic.I) as [_ Hk]. destruct (f s) as [x s']; cbn in *. auto.
Qed.

Lemma keeps_ensures {S A} (I : S → Prop) (p : prog S A) : keeps I p → ensures I (λ _, True) p.
Proof.
  unfold ensures. induction p as [a|X f h IH]; cbn; [done|]. intros [Hf Hh] s Hs. auto.
Qed.

Lemma ensures_advance {S A} (I : S → Prop) (Q : A → Prop) (p : prog S A) s :
  ensures I Q p → I s → ensures I Q (advance p s).1 ∧ I (advance p s).2.
Proof.
  destruct p as [a|X f k]; cbn; [done|]. intros Hp Hs. destruct (Hp s Hs) as [Hi Hk].
  destruct (f s) as [x s']; cbn in *. auto.
Qed.

Lemma ensures_run {S A} (I : S → Prop) (Q : A → Prop) (p : prog S A) s :
  ensures I Q p → I s → Q (value p s) ∧ I (final p s).
Proof.
  unfold value, final, ensures. revert s. induction p as [a|X f k IH]; intros s Hp Hs; cbn in *; [done|].
  destruct (Hp s Hs) as [Hi Hk]. destruct (f s) as [x s']; cbn in *. auto.
Qed.

Lemma guarantees_final {S A} (I : S → Prop) (G : S → S → Prop) `{!PreOrder G} (Q : A → Prop)
    (p : prog S A) s :
  guarantees I G Q p → (∀ s s', I s → G s s' → I s') → I s → Q (value p s) ∧ G s (final p s).
Proof.
  unfold value, final. intros Hp HI. revert s. induction p as [a|X f k IH]; intros s Hs; cbn in *; [done|].
  destruct (Hp s Hs) as [Hg Hk]. specialize (HI s (f s).2 Hs Hg) as Hi.
  destruct (f s) as [x s']; cbn in *. destruct (IH x Hk s' Hi). split; [done|]. by etrans.
Qed.

(** ** Concurrent programs *)

(** One step of one of the programs of a pool. *)
Inductive pool_step {S A} : list (prog S A) * S → list (prog S A) * S → Prop :=
  | pool_step_at ps1 ps2 X (f : S → X * S) k s x s' :
      f s = (x, s') →
      pool_step (ps1 ++ Step f k :: ps2, s) (ps1 ++ k x :: ps2, s').

Definition interleaves {S A} := rtc (@pool_step S A).

Lemma pool_step_keeps {S A} (I : S → Prop) (c c' : list (prog S A) * S) :
  pool_step c c' → Forall (keeps I) c.1 → I c.2 → Forall (keeps I) c'.1 ∧ I c'.2.
Proof.
  destruct 1 as [ps1 ps2 X f k s x s' Hf]; cbn. intros HF HI.
  apply Forall_app in HF as [H1 H2]. apply Forall_cons in H2 as [[Hs Hk] H3].
  split; [|specialize (Hs s HI); by rewrite Hf in Hs].
  apply Forall_app. split; [done|]. by constructor.
Qed.

Lemma interleaves_keeps {S A} (I : S → Prop) (c c' : list (prog S A) * S) :
  interleaves c c' → Forall (keeps I) c.1 → I c.2 → Forall (keeps I) c'.1 ∧ I c'.2.
Proof.
  induction 1 as [c|c1 c2 c3 Hstep _ IH]; [done|]. intros HF HI.
  destruct (pool_step_keeps I c1 c2 Hstep HF HI). auto.
Qed.

Lemma pool_step_advance {S A} (ps ps' : list (prog S A)) s s' :
  pool_step (ps, s) (ps', s') →
  ∃ i p, ps !! i = Some p ∧ ps' = <[i := (advance p s).1]> ps ∧ s' = (advance p s).2.
Proof.
  intros Hs. inversion Hs as [ps1 ps2 X f k s0 x s1 Hf E1 E2]; subst.
  exists (length ps1), (Step f k). rewrite list_lookup_middle by done.
  cbn. rewrite Hf. split_and!; [done| |done].
  rewrite insert_app_r_alt by lia. by rewrite Nat.sub_diag.
Qed.

(** An invariant of the programs of a pool and their state together. *)
Lemma interleaves_invariant {S A} (Inv : list (prog S A) → S → Prop) ps s ps' s' :
  (∀ qs t i p, Inv qs t → qs !! i = Some p →
     Inv (<[i := (advance p t).1]> qs) (advance p t).2) →
  interleaves (ps, s) (ps', s') → Inv ps s → Inv ps' s'.
Proof.
  intros Hstep Hi. remember (ps, s) as c1 eqn:E1. remember (ps', s') as c2 eqn:E2.
  revert ps s E1. induction Hi as [c|c1 [qs t] c2 Hs _ IH]; intros ps s -> HI.
  - by simplify_eq.
  - apply pool_step_advance in Hs as (i & p & Hp & -> & ->). eapply IH; [done|done|]. by apply Hstep.
Qed.

Lemma keeps_advance {S A} (I : S → Prop) (p : prog S A) s :
  keeps I p → I s → keeps I (advance p s).1 ∧ I (advance p s).2.
Proof.
  destruct p as [a|X f k]; cbn; [done|]. intros [Hf Hk] Hs. specialize (Hf s Hs).
  destruct (f s) as [x s']; cbn in *. auto.
Qed.

(** Programs that each ensure [Q] of their value do so together. *)
Lemma interleaves_ensures {S A} (I : S → Prop) (Q : A → Prop) ps s ps' s' :
  interleaves (ps, s) (ps', s') → Forall (ensures I Q) ps → I s → Forall (ensures I Q) ps' ∧ I s'.
Proof.
  intros Hi HF Hs. apply (interleaves_invariant (λ ps s, Forall (ensures I Q) ps ∧ I s) ps s); auto.
  intros qs t i p [Hqs Ht] Hp. assert (ensures I Q p) as Hq.
  { rewrite Forall_forall in Hqs. by apply Hqs, list_elem_of_lookup_2 with i. }
  destruct (ensures_advance I Q p t Hq Ht). split; [|done]. by apply Forall_insert.
Qed.

(** A scheduler: the list of the indices of the programs that step.  It makes
    interleavings executable. *)
Fixpoint step_at {S A} (i : nat) (ps : list (prog S A)) (s : S) : list (prog S A) * S :=
  match ps, i with
  | [], _ => ([], s)
  | Step f k :: ps', O => let '(x, s') := f s in (k x :: ps', s')
  | Ret a :: ps', O => (ps, s)
  | p :: ps', Datatypes.S i' => let '(qs, s') := step_at i' ps' s in (p :: qs, s')
  end.

Fixpoint schedule {S A} (order : list nat) (ps : list (prog S A)) (s : S) : list (prog S A) * S :=
  match order with
  | [] => (ps, s)
  | i :: order' => let '(qs, s') := step_at i ps s in schedule order' qs s'
  end.

Lemma step_at_steps {S A} i (ps : list (prog S A)) s :
  ∀ pre, interleaves (pre ++ ps, s) (pre ++ (step_at i ps s).1, (step_at i ps s).2).
Proof.
  revert i. induction ps as [|p ps IH]; intros i pre; [by destruct i|].
  destruct i as [|i]; cbn.
  - destruct p as [a|X f k]; [done|]. destruct (f s) as [x s'] eqn:E. cbn.
    apply rtc_once. by constructor.
  - specialize (IH i (pre ++ [p])). destruct p, (step_at i ps s); cbn in *;
      by rewrite <- !(assoc_L app) in IH.
Qed.

Lemma schedule_interleaves {S A} order (ps : list (prog S A)) s :
  interleaves (ps, s) (schedule order ps s).
Proof.
  revert ps s. induction order as [|i order IH]; intros ps s; [done|]. cbn.
  pose proof (step_at_steps i ps s []) as H. cbn in H.
  destruct (step_at i ps s) as [qs s']. etrans; [exact H|]. apply IH.
Qed.

#[export] Hint Resolve keeps_query : sql.

(** [keeps_tac] reduces [keeps I p] to its atomic steps. *)
Ltac keeps_tac :=
  repeat match goal with
  | |- keeps _ (bind _ _) => apply keeps_bind; [|intros]
  | |- keeps _ (bind_ok _ _) => apply keeps_bind_ok; [|intros]
  | |- keeps _ (Ret _) => exact I
  | |- keeps _ (lift _) => exact I
  | |- keeps _ (guard _ _) => exact I
  | |- keeps _ (query _) => apply keeps_query
  | |- keeps _ (transaction _) => apply keeps_transaction
  | |- keeps _ (match ?x with _ => _ end) => destruct x
  end.

(** ** Programs among others: rely and guarantee

    [assures Q p s]: started when the state is [s], or later, [p] ends in a state
    that satisfies [Q] with its value - while other programs change the state
    between its steps, as long as they keep [I] and change it by [R] only, which
    is also what the steps of [p] do.  [R] is a preorder: facts about the state
    that it preserves stay known. *)

Section rely.
Context {S : Type} (I : S → Prop) (R : S → S → Prop) `{!PreOrder R}.

Fixpoint assures {A} (Q : A → S → Prop) (p : prog S A) (s : S) : Prop :=
  match p with
  | Ret a => ∀ s0, R s s0 → I s0 → Q a s0
  | Step f k => ∀ s0, R s s0 → I s0 → I (f s0).2 ∧ R s0 (f s0).2 ∧ assures Q (k (f s0).1) (f s0).2
  end.

Lemma assures_later {A} (Q : A → S → Prop) p s s' : assures Q p s → R s s' → assures Q p s'.
Proof. destruct p; cbn; intros Hp HR s0 H0; apply Hp; by etrans. Qed.

Lemma assures_now {A} (Q : A → S → Prop) p s :
  (∀ s', R s s' → I s' → assures Q p s') → assures Q p s.
Proof. destruct p; cbn; intros Hp s0 H0 Hi; by apply (Hp s0 H0 Hi s0). Qed.

Lemma assures_bind {A B} (Q : A → S → Prop) (T : B → S → Prop) p (k : A → prog S B) s :
  assures Q p s → (∀ a s', R s s' → I s' → Q a s' → assures T (k a) s') → assures T (bind p k) s.
Proof.
  revert s. induction p as [a|X f h IH]; intros s Hp Hk; cbn in *.
  - apply assures_now. auto.
  - intros s0 H0 Hi. destruct (Hp s0 H0 Hi) as (Hi' & HR & Hq). split_and!; [done..|].
    apply IH; [done|]. intros a s' Hs'. apply Hk. do 2 (etrans; [done|]). done.
Qed.

Lemma assures_bind_ok {A B} (Q : A → S → Prop) (T : result B → S → Prop) p (k : A → prog S (result B)) s :
  assures (λ r s', match r with Ok a => Q a s' | Err e => T (Err e) s' end) p s →
  (∀ e s' s'', T (Err e) s' → R s' s'' → I s'' → T (Err e) s'') →
  (∀ a s', R s s' → I s' → Q a s' → assures T (k a) s') → assures T (bind_ok p k) s.
Proof.
  intros Hp Hs Hk. eapply assures_bind; [exact Hp|]. intros [a|e] s' HR Hi Hq; cbn; eauto.
Qed.

Lemma assures_mono {A} (Q T : A → S → Prop) p s :
  (∀ a s', R s s' → I s' → Q a s' → T a s') → assures Q p s → assures T p s.
Proof.
  revert s. induction p as [a|X f h IH]; intros s Hm Hp; cbn in *; [auto|].
  intros s0 H0 Hi. destruct (Hp s0 H0 Hi) as (Hi' & HR & Hq). split_and!; [done..|].
  apply IH; [|done]. intros a s' Hs'. apply Hm. do 2 (etrans; [done|]). done.
Qed.

(** Alone, and in a pool of programs that assure the same *)
Lemma assures_run {A} (Q : A → S → Prop) p s : I s → assures Q p s →
  I (final p s) ∧ R s (final p s) ∧ Q (value p s) (final p s).
Proof.
  unfold final, value. revert s. induction p as [a|X f k IH]; intros s Hi Hp; cbn in *.
  { split_and!; [done..|by apply Hp]. }
  destruct (Hp s ltac:(done) Hi) as (Hi' & HR & Hq). destruct (f s) as [x s']; cbn in *.
  destruct (IH x s' Hi' Hq) as (? & ? & ?). split_and!; [done|by etrans|done].
Qed.

Lemma assures_pool {A} (Q : A → S → Prop) (ps ps' : list (prog S A)) s s' :
  interleaves (ps, s) (ps', s') → I s → Forall (λ p, assures Q p s) ps →
  I s' ∧ R s s' ∧ Forall (λ p, assures Q p s') ps'.
Proof.
  intros Hi HI Hall.
  apply (interleaves_invariant (λ qs t, I t ∧ R s t ∧ Forall (λ p, assures Q p t) qs) ps s ps' s');
    [|done|split_and!; done].
  intros qs t i p (Ht & HR & Hqs) Hp.
  pose proof (Forall_lookup_1 _ _ _ _ Hqs Hp) as Ha.
  assert (I (advance p t).2 ∧ R t (advance p t).2 ∧ assures Q (advance p t).1 (advance p t).2) as (H1 & H2 & H3).
  { destruct p as [a|X f k]; cbn; [done|]. destruct (Ha t ltac:(done) Ht) as (? & ? & ?).
    by destruct (f t). }
  split_and!; [done|by etrans|]. apply Forall_insert; [|done].
  eapply Forall_impl; [done|]. cbn. intros q Hq. by eapply assures_later.
Qed.

End rely.
