(* ===== verification/Paths.v ===== *)
(** * Paths ([path/filepath] on Unix), and what [os.Lstat] answers *)

From S2P Require Import Prelude GoStrings.
From S2P Require Import Effects.

(** [Clean]: the stack of components, the last one first *)
Definition clean_step (rooted : bool) (stack : list string) (component : string) : list string :=
  if (component =s "") || (component =s ".") then stack
  else if component =s ".." then
    match stack with
    | top :: below => if top =s ".." then component :: stack else below
    | [] => if rooted then [] else [component]
    end
  else component :: stack.

Definition components (path : string) : list string := split_byte "/" path.

Definition Clean (path : string) : string :=
  let rooted := HasPrefix path "/" in
  let names := Join (rev (fold_left (clean_step rooted) (components path) [])) "/" in
  if rooted then "/" +:+ names else if names =s "" then "." else names.

(** [filepath.Join] of two elements *)
Definition JoinPath (dir name : string) : string :=
  if (dir =s "") && (name =s "") then ""
  else if dir =s "" then Clean name
  else if name =s "" then Clean dir
  else Clean (dir +:+ "/" +:+ name).

(** Up to and with the last slash *)
Fixpoint through_slash (s : string) : string :=
  match s with
  | EmptyString => ""
  | String c t =>
    if mem_byte "/" t then String c (through_slash t)
    else if Ascii.eqb c "/" then str1 c else ""
  end.

Definition Dir (path : string) : string := Clean (through_slash path).

(** The proper ancestors of a clean rooted path, the nearest first: [path] is cut
    at each slash but the first byte's. *)
Fixpoint ancestors_from (prefix rest : string) (found : list string) : list string :=
  match rest with
  | EmptyString => found
  | String c t =>
    ancestors_from (prefix +:+ str1 c) t
      (if Ascii.eqb c "/" && negb (prefix =s "") then prefix :: found else found)
  end.
Definition ancestors (path : string) : list string := ancestors_from "" path [].

(** The path a process in [cwd] means, in one spelling.  Symbolic links are not
    modelled. *)
Definition absolute (cwd path : string) : string :=
  if HasPrefix path "/" then Clean path else Clean (cwd +:+ "/" +:+ path).

Example cleaned :
  Clean <$> [""; "/"; "a//b/./c/.."; "../x/.."; "/../a/"; "./"] = ["."; "/"; "a/b"; ".."; "/a"; "."].
Proof. reflexivity. Qed.

Example parts :
  (Dir <$> ["/etc/sshgatew/config.toml"; "config.toml"; "/x"; "a/b/"], ancestors "/var/lib/sshgatew",
   JoinPath "/var/lib/" "sshgatew.db") =
  (["/etc/sshgatew"; "."; "/"; "a/b"], ["/var/lib"; "/var"], "/var/lib/sshgatew.db").
Proof. reflexivity. Qed.

(** ** Files

    What [os.Lstat] says of a path, and the text of a permission. *)

(** [fmt]'s [%04o] of a permission *)
Definition octal4 (z : Z) : string :=
  of_bytes [0x30 + z / 512 mod 8; 0x30 + z / 64 mod 8; 0x30 + z / 8 mod 8; 0x30 + z mod 8].

(** [os.Lstat]: the mode of what is there, nothing there ([os.ErrNotExist]), or
    another error *)
Inductive lstat_answer :=
  | Found (regular : bool) (perm : Z)
  | NotExist
  | LstatError (e : error).

(** [perm&0077 != 0] *)
Definition too_open (perm : Z) : bool := negb (Z.land perm 0x3F =? 0).
