(* ===== verification/SshKeys.v ===== *)
(** * SSH keys as the program uses them ([golang.org/x/crypto/ssh])

    The key types and their text formats, a parameter of the components that
    parse, print and compare keys: [internal/downstream] and [internal/tui]. *)

From S2P Require Import Prelude GoStrings Effects.

(** [gossh.PublicKey]: its type and its wire form *)
Record SshKey := MkKey { Key_Type : string; Key_Marshal : string }.

#[export] Instance key_eq_dec : EqDecision SshKey.
Proof. solve_decision. Defined.

(** [gossh.Signer], of which the program uses the public key *)
Record Signer := MkSigner { Signer_PublicKey : SshKey }.

(** [PassphraseMissing] tells whether an error of [ParsePrivateKey] is a
    [*gossh.PassphraseMissingError] ([errors.As]). *)
Class KeyFormats := {
  ParseAuthorizedKey : string → result (SshKey * string * string);   (* key, comment, rest *)
  MarshalAuthorizedKey : SshKey → string;
  FingerprintSHA256 : SshKey → string;
  ParsePrivateKey : string → result Signer;
  ParsePrivateKeyWithPassphrase : string → string → result Signer;
  PassphraseMissing : error → bool }.

(** The comparison of keys the program writes in two places *)
Definition same_key (a b : SshKey) : bool :=
  (Key_Type a =s Key_Type b) && (Key_Marshal a =s Key_Marshal b).
