(* ===== verification/Durations.v ===== *)
(** * Durations as text: [time.ParseDuration] and [time.Duration.String]

    Package time of Go, which config.go calls to read and write its timeouts.
    A duration is a number of nanoseconds, an int64; the sums are uint64 and wrap
    around, and the fraction of a unit is computed in float64: [round_int] and
    [round_ratio] round to the nearest number of 53 bits, ties to even.  At the
    end, that what [String] writes [ParseDuration] reads back. *)

From S2P Require Import Prelude GoStrings StringFacts Effects.

(** ** float64 arithmetic on positive numbers

    No number here is subnormal; a scale beyond the largest float64 makes both
    this quotient and Go's round to less than one nanosecond. *)

Definition nearest_even (a b : Z) : Z :=
  let q := a / b in let r := a mod b in
  if 2 * r <? b then q else if b <? 2 * r then q + 1 else if Z.even q then q else q + 1.

(** The float64 nearest to an integer, which is an integer *)
Definition round_int (z : Z) : Z :=
  if z <? 2 ^ 53 then z else let s := Z.log2 z - 52 in nearest_even z (2 ^ s) * 2 ^ s.

(** [a / 2^e] as a fraction, for [e] of any sign *)
Definition unscale (a b e : Z) : Z * Z := if e <? 0 then (a * 2 ^ (- e), b) else (a, b * 2 ^ e).

(** The float64 nearest to [a / b], as a mantissa and an exponent of two *)
Definition round_ratio (a b : Z) : Z * Z :=
  let e := Z.log2 a - Z.log2 b - 52 in
  let '(n, d) := unscale a b e in
  let '(e, n, d) := if n <? 2 ^ 52 * d then let '(n, d) := unscale a b (e - 1) in (e - 1, n, d) else (e, n, d) in
  (nearest_even n d, e).

(** [uint64(float64(f) * (float64(unit) / scale))] *)
Definition float_part (f unit scale : Z) : Z :=
  let '(q, e) := round_ratio unit scale in
  let p := round_int (round_int f * q) in
  if e <? 0 then p / 2 ^ (- e) else p * 2 ^ e.

(** ** [ParseDuration] *)

(** A byte of the text in an error message: [quote] of package time *)
Definition quote_byte (c : ascii) : string :=
  if (byte c <? 0x20) || (0x80 <=? byte c)
  then let h d := if d <? 10 then chr (0x30 + d) else chr (0x57 + d) in
       String "\" (String "x" (String (h (byte c / 16)) (String (h (byte c mod 16)) "")))
  else if (byte c =? 0x22) || (byte c =? 0x5c) then String "\" (String c "")
  else String c "".

Fixpoint quote_bytes (s : string) : string :=
  match s with EmptyString => "" | String c t => quote_byte c +:+ quote_bytes t end.

Definition time_quote (s : string) : string :=
  String (chr 0x22) (quote_bytes s +:+ String (chr 0x22) "").

Fixpoint leadingInt (x : Z) (s : string) : option (Z * string) :=
  match s with
  | String c t =>
    if is_digit c then
      if 2 ^ 63 / 10 <? x then None
      else let x := x * 10 + (byte c - 0x30) in
           if 2 ^ 63 <? x then None else leadingInt x t
    else Some (x, s)
  | EmptyString => Some (x, s)
  end.

Fixpoint leadingFraction (x scale : Z) (overflow : bool) (s : string) : Z * Z * string :=
  match s with
  | String c t =>
    if is_digit c then
      if overflow then leadingFraction x scale overflow t
      else if (2 ^ 63 - 1) / 10 <? x then leadingFraction x scale true t
      else let y := x * 10 + (byte c - 0x30) in
           if 2 ^ 63 <? y then leadingFraction x scale true t
           else leadingFraction y (round_int (scale * 10)) overflow t
    else (x, scale, s)
  | EmptyString => (x, scale, s)
  end.

(** [s[:i]] and [s[i:]] at the end of the unit *)
Fixpoint split_unit (s : string) : string * string :=
  match s with
  | String c t => if Ascii.eqb c "." || is_digit c then ("", s)
                  else let '(u, rest) := split_unit t in (String c u, rest)
  | EmptyString => ("", "")
  end.

Definition micro : string := String (chr 0xc2) (String (chr 0xb5) "s").   (* U+00B5 *)
Definition mu : string := String (chr 0xce) (String (chr 0xbc) "s").      (* U+03BC *)

Definition unitMap (u : string) : option Z :=
  if u =s "ns" then Some 1
  else if (u =s "us") || (u =s micro) || (u =s mu) then Some (10 ^ 3)
  else if u =s "ms" then Some (10 ^ 6)
  else if u =s "s" then Some (10 ^ 9)
  else if u =s "m" then Some (60 * 10 ^ 9)
  else if u =s "h" then Some (3600 * 10 ^ 9)
  else None.

Section parse.
Variable orig : string.

Definition invalid {A} : result A := Err (Msg ("time: invalid duration " +:+ time_quote orig)).

(** One number with its unit, added to [d]: the sum and the rest of the text *)
Definition parse_term (d : Z) (s : string) : result (Z * string) :=
  if negb (match s with String c _ => Ascii.eqb c "." || is_digit c | EmptyString => false end) then invalid
  else match leadingInt 0 s with
  | None => invalid
  | Some (v, s1) =>
    let pre := negb (len s =? len s1) in
    let '(f, scale, s2, post) :=
      match s1 with
      | String c t => if Ascii.eqb c "."
                      then let '(f, scale, s2) := leadingFraction 0 1 false t in (f, scale, s2, negb (len t =? len s2))
                      else (0, 1, s1, false)
      | EmptyString => (0, 1, s1, false)
      end in
    if negb pre && negb post then invalid
    else let '(u, rest) := split_unit s2 in
    if u =s "" then Err (Msg ("time: missing unit in duration " +:+ time_quote orig))
    else match unitMap u with
    | None => Err (Msg ("time: unknown unit " +:+ time_quote u +:+ " in duration " +:+ time_quote orig))
    | Some unit =>
      if 2 ^ 63 / unit <? v then invalid
      else let v := v * unit in
           let v := if 0 <? f then v + float_part f unit scale else v in
           if 2 ^ 63 <? v then invalid
           else let d := (d + v) mod 2 ^ 64 in
                if 2 ^ 63 <? d then invalid else Ok (d, rest)
    end
  end.

(** [for s != ""], with the length of the text as fuel *)
Fixpoint parse_terms (fuel : nat) (d : Z) (s : string) : result Z :=
  if s =s "" then Ok d
  else match fuel with
  | O => invalid
  | S fuel => match parse_term d s with
              | Ok (d, rest) => parse_terms fuel d rest
              | Err e => Err e
              end
  end.

Definition ParseDuration_signed (neg : bool) (s : string) : result Z :=
  if s =s "0" then Ok 0
  else if s =s "" then invalid
  else match parse_terms (String.length s) 0 s with
  | Err e => Err e
  | Ok d => if neg then Ok (if d =? 2 ^ 63 then - 2 ^ 63 else - d)
            else if 2 ^ 63 - 1 <? d then invalid else Ok d
  end.
End parse.

Definition ParseDuration (s : string) : result Z :=
  match s with
  | String c t => if Ascii.eqb c "-" || Ascii.eqb c "+"
                  then ParseDuration_signed s (Ascii.eqb c "-") t
                  else ParseDuration_signed s false s
  | EmptyString => ParseDuration_signed s false s
  end.

(** ** [Duration.String] *)

(** [fmtFrac], which writes from the right: [acc] is what is written already. *)
Fixpoint fmtFrac (prec : nat) (print : bool) (v : Z) (acc : string) : string * Z :=
  match prec with
  | O => (if print then String "." acc else acc, v)
  | S n => let digit := v mod 10 in
           let print := print || negb (digit =? 0) in
           fmtFrac n print (v / 10) (if print then String (chr (digit + 0x30)) acc else acc)
  end.

(** A number with its fraction and its unit *)
Definition with_frac (prec : nat) (u : Z) (unit : string) : string :=
  let '(frac, v) := fmtFrac prec false u "" in Itoa v +:+ frac +:+ unit.

Definition format_seconds (u : Z) : string :=
  let '(frac, seconds) := fmtFrac 9 false u "" in
  let minutes := seconds / 60 in
  let hours := minutes / 60 in
  (if 0 <? hours then Itoa hours +:+ "h" else "")
  +:+ (if 0 <? minutes then Itoa (minutes mod 60) +:+ "m" else "")
  +:+ Itoa (seconds mod 60) +:+ frac +:+ "s".

Definition format (u : Z) : string :=
  if u <? 10 ^ 9 then
    if u =? 0 then "0s"
    else if u <? 10 ^ 3 then with_frac 0 u "ns"
    else if u <? 10 ^ 6 then with_frac 3 u micro
    else with_frac 6 u "ms"
  else format_seconds u.

Definition Duration_String (d : Z) : string :=
  if d <? 0 then String "-" (format (- d)) else format d.

(** The texts of package time's own tests, and the edges of the range.  The sum
    of two terms of 2^63 wraps around to 0, which is not refused. *)
Example durations_parse :
  map ParseDuration ["0"; "30m0s"; "-1.5s"; "+5s"; "1.5h"; ".5m"; "39h9m14.425s"; "0.3333333333333333333h";
    "0.100000000000000000000h"; "0.830103483285477580700h"; "9223372036854775807ns"; "-9223372036854775808ns"] =
  Ok <$> [0; 30 * 60 * 10 ^ 9; -15 * 10 ^ 8; 5 * 10 ^ 9; 5400 * 10 ^ 9; 30 * 10 ^ 9; 140954425 * 10 ^ 6; 1200 * 10 ^ 9;
    360 * 10 ^ 9; 2988372539827; 2 ^ 63 - 1; - 2 ^ 63].
Proof. vm_compute. reflexivity. Qed.

Example durations_refused :
  map (λ s, is_ok (ParseDuration s)) [""; "3"; "-"; "s"; "."; "-."; ".s"; "+.s"; "1d"; "9223372036854775808ns"; "1 s";
    "9223372036854775808ns9223372036854775808ns"] =
  [false; false; false; false; false; false; false; false; false; false; false; true].
Proof. vm_compute. reflexivity. Qed.

Example durations_written :
  map Duration_String [0; 1; 1500; 1500000; 10 ^ 9; 30 * 60 * 10 ^ 9; - 2 ^ 63; 2 ^ 63 - 1] =
  ["0s"; "1ns"; "1.5" +:+ micro; "1.5ms"; "1s"; "30m0s"; "-2562047h47m16.854775808s"; "2562047h47m16.854775807s"].
Proof. vm_compute. reflexivity. Qed.

(** ** What is written is read back *)

(** A product with a power of two of at most 53 bits is a float64. *)
Lemma round_int_exact c m : 0 <= c < 2 ^ 53 → 0 <= m → round_int (c * 2 ^ m) = c * 2 ^ m.
Proof.
  intros Hc Hm. unfold round_int. destruct (_ <? _) eqn:E; [done|]. bool_simp.
  assert (0 < c) as Hpos by (destruct (Z.eq_dec c 0) as [->|]; [cbn in E; lia|lia]).
  assert (Z.log2 (c * 2 ^ m) = Z.log2 c + m) as -> by (rewrite Z.log2_mul_pow2 by done; lia).
  pose proof (Z.log2_lt_pow2 c 53 Hpos) as [Hl _]. specialize (Hl (proj2 Hc)).
  set (s := Z.log2 c + m - 52). assert (0 <= s <= m) as Hs.
  { split; [|lia]. subst s. destruct (Z.le_gt_cases 52 (Z.log2 c + m)); [lia|].
    assert (c * 2 ^ m < 2 ^ 53); [|lia]. apply Z.log2_lt_pow2; [nia|]. rewrite Z.log2_mul_pow2 by done. lia. }
  assert (c * 2 ^ m = (c * 2 ^ (m - s)) * 2 ^ s) as Eq.
  { rewrite <- Z.mul_assoc, <- Z.pow_add_r by lia. do 2 f_equal. lia. }
  assert (0 < 2 ^ s) as H2 by (apply Z.pow_pos_nonneg; lia).
  rewrite Eq. unfold nearest_even. rewrite Z_mod_mult, Z_div_mult by lia.
  destruct (_ <? _) eqn:E2; [done|]. bool_simp. lia.
Qed.

Lemma round_int_small c : 0 <= c < 2 ^ 53 → round_int c = c.
Proof. intros Hc. unfold round_int. destruct (_ <? _) eqn:E; [done|]. bool_simp. lia. Qed.

(** The powers of ten that occur divide exactly. *)
Definition decimal_ratios : list (Z * Z) :=
  [(3, 1); (3, 2); (3, 3); (6, 1); (6, 2); (6, 3); (6, 4); (6, 5); (6, 6);
   (9, 1); (9, 2); (9, 3); (9, 4); (9, 5); (9, 6); (9, 7); (9, 8); (9, 9)].

Definition ratio_exact (x : Z * Z) : bool :=
  let '(q, e) := round_ratio (10 ^ x.1) (10 ^ x.2) in (e <? 0) && (q =? 10 ^ (x.1 - x.2) * 2 ^ (- e)).

Lemma decimal_ratios_exact : forallb ratio_exact decimal_ratios = true.
Proof. vm_compute. reflexivity. Qed.

Lemma float_part_exact f u k :
  (u, k) ∈ decimal_ratios → 0 <= f < 10 ^ k → 10 ^ k * 10 ^ (u - k) < 2 ^ 53 →
  float_part f (10 ^ u) (10 ^ k) = f * 10 ^ (u - k).
Proof.
  intros Hin Hf Hb. pose proof decimal_ratios_exact as Hall. rewrite forallb_true in Hall. specialize (Hall _ Hin).
  unfold ratio_exact in Hall. cbn [fst snd] in Hall. unfold float_part.
  destruct (round_ratio _ _) as [q e]. apply andb_true_iff in Hall as [He Hq]. rewrite He. bool_simp. subst q.
  assert (0 <= 10 ^ (u - k)) by (apply Z.pow_nonneg; lia).
  rewrite (round_int_small f).
  2:{ split; [lia|]. destruct (Z.eq_dec (10 ^ (u - k)) 0) as [E|]; [|nia].
      destruct (Z.le_gt_cases 0 (u - k)); [pose proof (Z.pow_pos_nonneg 10 (u - k)); lia|].
      repeat (apply elem_of_cons in Hin as [[= -> ->]|Hin]; [lia|]). by apply not_elem_of_nil in Hin. }
  rewrite Z.mul_assoc, round_int_exact by nia. apply Z_div_mult. pose proof (Z.pow_pos_nonneg 2 (- e)). lia.
Qed.

Definition no_digit (s : string) : Prop := match s with String c _ => is_digit c = false | EmptyString => True end.

Lemma digits_value_le acc s v : 0 <= acc → digits_value acc s = Some v → acc <= v.
Proof.
  revert acc. induction s as [|c s IH]; intros acc Ha; cbn; [intros [= ->]; lia|].
  destruct (is_digit c) eqn:E; [|done]. unfold is_digit, in_range in E. bool_simp.
  intros Hv%IH; lia.
Qed.

Lemma leadingInt_digits x s rest v :
  no_digit rest → 0 <= x → digits_value x s = Some v → v <= 2 ^ 63 → leadingInt x (s +:+ rest) = Some (v, rest).
Proof.
  intros Hr. revert x. induction s as [|c s IH]; intros x Hx; cbn.
  - intros [= ->] _. destruct rest as [|c rest]; [done|]. cbn in *. by rewrite Hr.
  - destruct (is_digit c) eqn:E; [|done]. intros Hv Hb.
    pose proof E as Ed. unfold is_digit, in_range in Ed. bool_simp.
    assert (10 * x + (byte c - 48) <= v) as Hle by (apply (digits_value_le _ s v); [lia|done]).
    assert ((2 ^ 63 / 10 <? x) = false) as -> by (apply Z.ltb_ge, Z.div_le_lower_bound; lia).
    assert ((2 ^ 63 <? x * 10 + (byte c - 48)) = false) as -> by (apply Z.ltb_ge; lia).
    apply IH; [lia| |done]. by rewrite (Z.mul_comm x).
Qed.

Lemma leadingFraction_digits x a s rest v :
  no_digit rest → 0 <= x → 0 <= a → a + len s <= 15 → digits_value x s = Some v → v < 10 ^ 15 →
  leadingFraction x (10 ^ a) false (s +:+ rest) = (v, 10 ^ (a + len s), rest).
Proof.
  intros Hr. revert x a. induction s as [|c s IH]; intros x a Hx Ha Hlen; cbn [String.append digits_value].
  - intros [= ->] _. rewrite Z.add_0_r. destruct rest as [|c rest]; [done|]. cbn in *. by rewrite Hr.
  - cbn [leadingFraction]. destruct (is_digit c) eqn:E; [|done]. intros Hv Hb.
    pose proof E as Ed. unfold is_digit, in_range in Ed. bool_simp.
    assert (10 * x + (byte c - 48) <= v) as Hle by (apply (digits_value_le _ s v); [lia|done]).
    assert (((2 ^ 63 - 1) / 10 <? x) = false) as ->.
    { apply Z.ltb_ge, Z.div_le_lower_bound; lia. }
    assert ((2 ^ 63 <? x * 10 + (byte c - 48)) = false) as -> by (apply Z.ltb_ge; lia).
    assert (len (String c s) = 1 + len s) as Hl by (unfold len; cbn [String.length]; lia).
    assert (10 ^ a * 10 = 10 ^ (a + 1)) as -> by (rewrite Z.pow_add_r by lia; lia).
    rewrite Hl in *. assert (0 <= len s) by (unfold len; lia).
    rewrite round_int_small.
    2:{ split; [apply Z.pow_nonneg; lia|]. eapply Z.le_lt_trans; [apply (Z.pow_le_mono_r 10 (a + 1) 15); lia|lia]. }
    rewrite IH; [do 3 f_equal; lia|lia..| |done]. by rewrite (Z.mul_comm x).
Qed.

Lemma len_String c s : len (String c s) = 1 + len s.
Proof. unfold len. cbn [String.length]. lia. Qed.

Lemma digit_chr v : is_digit (chr (v mod 10 + 0x30)) = true ∧ byte (chr (v mod 10 + 0x30)) = v mod 10 + 0x30.
Proof.
  pose proof (Z.mod_pos_bound v 10). assert (byte (chr (v mod 10 + 48)) = v mod 10 + 48) as E by (apply byte_chr; lia).
  split; [|done]. unfold is_digit, in_range. rewrite E. apply andb_true_iff. split; apply Z.leb_le; lia.
Qed.

(** What [fmtFrac] wrote is a point and the digits of the fraction, in front of
    what was there; [k] digits that stand for [f]. *)
Definition fraction (s : string) (k f : Z) : Prop :=
  ∃ digits, s = String "." digits ∧ len digits = k ∧ digits_value 0 digits = Some f.

Lemma digits_value_shift acc d s v : digits_value 0 s = Some v →
  digits_value acc s = Some (acc * 10 ^ len s + v) ∧ (is_digit d = true →
  digits_value 0 (String d s) = Some ((byte d - 0x30) * 10 ^ len s + v)).
Proof.
  assert (∀ a b s v, digits_value a s = Some v → digits_value (a + b) s = Some (v + b * 10 ^ len s)) as Hs.
  { clear. intros a b s. revert a b. induction s as [|c s IH]; intros a b v; cbn [digits_value].
    - intros [= ->]. unfold len. cbn. f_equal. lia.
    - destruct (is_digit c); [|done]. intros Hv. rewrite len_String, Z.pow_add_r by (unfold len; lia).
      replace (10 * (a + b) + (byte c - 48)) with (10 * a + (byte c - 48) + 10 * b) by lia.
      rewrite (IH _ _ _ Hv). f_equal. lia. }
  intros Hv. split.
  - rewrite <- (Z.add_0_l acc). rewrite (Hs 0 acc s v Hv). f_equal. lia.
  - intros Hd. cbn [digits_value]. rewrite Hd. pose proof (Hs 0 (byte d - 48) s v Hv) as E.
    rewrite Z.add_0_l in E. rewrite Z.mul_0_r, Z.add_0_l, E. f_equal. lia.
Qed.

(** Once a digit was written, every further digit is. *)
Lemma fmtFrac_printing prec v acc f :
  0 <= v → digits_value 0 acc = Some f →
  ∃ s, fmtFrac prec true v acc = (s, v / 10 ^ Z.of_nat prec) ∧
    fraction s (len acc + Z.of_nat prec) ((v mod 10 ^ Z.of_nat prec) * 10 ^ len acc + f).
Proof.
  revert v acc f. induction prec as [|prec IH]; intros v acc f Hv Hf; cbn [fmtFrac].
  - exists (String "." acc). rewrite Z.pow_0_r, Z.div_1_r, Z.mod_1_r, Z.add_0_r. split; [done|]. by exists acc.
  - cbn [orb]. destruct (digit_chr v) as [Hd Hb].
    destruct (digits_value_shift 0 (chr (v mod 10 + 48)) acc f Hf) as [_ Hnew]. specialize (Hnew Hd).
    rewrite Hb in Hnew. destruct (IH (v / 10) (String (chr (v mod 10 + 48)) acc) _ (Z.div_pos v 10 Hv ltac:(lia)) Hnew)
      as (s & Es & Hs).
    exists s. rewrite Es, Nat2Z.inj_succ, Z.pow_succ_r by lia.
    rewrite Z.div_div by lia. split; [done|]. rewrite len_String in Hs.
    replace (len acc + Z.succ (Z.of_nat prec)) with (1 + len acc + Z.of_nat prec) by lia.
    replace (v mod (10 * 10 ^ Z.of_nat prec) * 10 ^ len acc + f)
      with ((v / 10) mod 10 ^ Z.of_nat prec * 10 ^ (1 + len acc) + ((v mod 10 + 48 - 48) * 10 ^ len acc + f)); [done|].
    pose proof (Z.pow_pos_nonneg 10 (Z.of_nat prec)).
    rewrite (Z.rem_mul_r v 10), Z.pow_add_r by (unfold len; lia). rewrite Z.pow_1_r. ring.
Qed.

Lemma fmtFrac_spec prec v :
  0 <= v → ∃ s, fmtFrac prec false v "" = (s, v / 10 ^ Z.of_nat prec) ∧
    ((s = "" ∧ v mod 10 ^ Z.of_nat prec = 0) ∨
     ∃ k f, 1 <= k <= Z.of_nat prec ∧ 0 < f ∧ fraction s k f ∧
            f * 10 ^ (Z.of_nat prec - k) = v mod 10 ^ Z.of_nat prec).
Proof.
  revert v. induction prec as [|prec IH]; intros v Hv; cbn [fmtFrac].
  - exists "". rewrite Z.pow_0_r, Z.div_1_r, Z.mod_1_r. auto.
  - rewrite Nat2Z.inj_succ, Z.pow_succ_r by lia. cbn [orb].
    assert (0 <= v / 10) as Hv10 by (by apply Z.div_pos).
    assert (0 < 10 ^ Z.of_nat prec) as Hpos by (apply Z.pow_pos_nonneg; lia).
    rewrite <- Z.div_div by lia. destruct (v mod 10 =? 0) eqn:E; cbn [negb]; bool_simp.
    + destruct (IH (v / 10) Hv10) as (s & Es & Hs). exists s. split; [done|].
      assert (v mod (10 * 10 ^ Z.of_nat prec) = 10 * ((v / 10) mod 10 ^ Z.of_nat prec)) as ->
        by (rewrite Z.rem_mul_r; lia).
      destruct Hs as [[-> ->]|(k & f & Hk & Hf & Hfr & Ef)]; [by left|right].
      exists k, f. split_and!; [lia|lia|done|done|]. rewrite <- Ef.
      replace (Z.succ (Z.of_nat prec) - k) with (1 + (Z.of_nat prec - k)) by lia. rewrite Z.pow_add_r by lia. lia.
    + destruct (digit_chr v) as [Hd Hb].
      destruct (digits_value_shift 0 (chr (v mod 10 + 48)) "" 0 eq_refl) as [_ Hnew]. specialize (Hnew Hd).
      rewrite Hb in Hnew. destruct (fmtFrac_printing prec (v / 10) _ _ Hv10 Hnew) as (s & Es & Hs).
      exists s. split; [done|]. right. rewrite len_String in Hs. change (len "") with 0 in Hs.
      eexists _, _. split_and!; [| | |exact Hs|].
      * lia.
      * lia.
      * pose proof (Z.mod_pos_bound (v / 10) _ Hpos). pose proof (Z.mod_pos_bound v 10). rewrite Z.pow_0_r. lia.
      * replace (Z.succ (Z.of_nat prec) - (1 + 0 + Z.of_nat prec)) with 0 by lia. rewrite (Z.rem_mul_r v 10) by lia.
        rewrite !Z.pow_0_r. lia.
Qed.

(** A unit, and what may follow it *)
Definition is_unit (u : string) : bool := negb (u =s "") && sforall (λ c, negb (Ascii.eqb c "." || is_digit c)) u.
Definition begins_term (s : string) : Prop := match s with String c _ => is_digit c = true | EmptyString => True end.

Lemma split_unit_spec u rest : is_unit u = true → begins_term rest → split_unit (u +:+ rest) = (u, rest).
Proof.
  unfold is_unit. intros [_ Hu]%andb_true_iff Hr. induction u as [|c u IH]; cbn in *.
  - destruct rest as [|c rest]; [done|]. cbn in *. by rewrite Hr, orb_true_r.
  - apply andb_true_iff in Hu as [Hc%negb_true_iff Hu]. rewrite Hc. by rewrite IH.
Qed.

Lemma unit_no_digit u rest : is_unit u = true → no_digit (u +:+ rest) ∧
  match u +:+ rest with String c _ => Ascii.eqb c "." = false | EmptyString => False end.
Proof.
  unfold is_unit. intros H. destruct u as [|c u]; cbn in *; [done|].
  apply andb_true_iff in H as [[Hdot Hd]%negb_true_iff%orb_false_iff _]. done.
Qed.

Lemma Itoa_begins v : 0 <= v → ∃ c t, Itoa v = String c t ∧ is_digit c = true.
Proof.
  intros Hv. destruct (Itoa_nonneg v Hv) as (_ & Hd & Hs).
  destruct (Itoa v) as [|c t]; [by destruct Hs as [[_ [=]]|[]]|]. cbn in Hd. bool_simp. eauto.
Qed.

(** The number and the fraction are read as they were written. *)
Lemma parse_term_read orig d v frac u unit rest :
  0 <= v <= 2 ^ 63 → is_unit u = true → begins_term rest → unitMap u = Some unit → 0 < unit →
  ∀ part, ((frac = "" ∧ part = 0) ∨
           ∃ k f, 1 <= k <= 15 ∧ 0 < f < 10 ^ 15 ∧ fraction frac k f ∧ float_part f unit (10 ^ k) = part) →
  0 <= d → 0 <= part → d + v * unit + part <= 2 ^ 63 →
  parse_term orig d (Itoa v +:+ frac +:+ u +:+ rest) = Ok (d + v * unit + part, rest).
Proof.
  intros Hv Hu Hr Hm Hunit part Hf Hd Hp Hb. unfold parse_term.
  destruct (Itoa_begins v (proj1 Hv)) as (c & t & Ei & Hc).
  destruct (Itoa_nonneg v (proj1 Hv)) as (Hdig & _ & _). destruct (unit_no_digit u rest Hu) as [Hnd Hdot].
  assert (match Itoa v +:+ frac +:+ u +:+ rest with String c _ => Ascii.eqb c "." || is_digit c | EmptyString => false end
          = true) as -> by (rewrite Ei; cbn; by rewrite Hc, orb_true_r).
  cbn [negb].
  assert (no_digit (frac +:+ u +:+ rest)) as Hfr.
  { destruct Hf as [[-> _]|(k & f & _ & _ & (digits & -> & _) & _)]; [exact Hnd|reflexivity]. }
  rewrite (leadingInt_digits 0 (Itoa v) _ v Hfr) by (done || lia).
  assert ((len (Itoa v +:+ frac +:+ u +:+ rest) =? len (frac +:+ u +:+ rest)) = false) as ->.
  { apply Z.eqb_neq. rewrite (len_append (Itoa v)), Ei, len_String. pose proof (len_nonneg t). lia. }
  cbn [negb andb].
  assert ((2 ^ 63 / unit <? v) = false) as Eover by (apply Z.ltb_ge, Z.div_le_lower_bound; nia).
  assert (0 <= v * unit) as Hpos by nia.
  assert ((d + (v * unit + part)) mod 2 ^ 64 = d + v * unit + part) as Emod by (rewrite Z.mod_small; lia).
  assert ((2 ^ 63 <? v * unit + part) = false) as Esum by (apply Z.ltb_ge; lia).
  assert ((2 ^ 63 <? d + v * unit + part) = false) as Eall by (apply Z.ltb_ge; lia).
  assert ((u =s "") = false) as Eu by (destruct u; [done|reflexivity]).
  destruct Hf as [[-> ->]|(k & f & Hk & Hf & (digits & -> & Hlen & Hval) & <-)].
  - cbn [String.append]. destruct (u +:+ rest) as [|c' t'] eqn:Eur; [done|]. rewrite Hdot, <- Eur.
    rewrite split_unit_spec, Eu, Hm, Eover by done. cbn [Z.ltb Z.compare].
    rewrite !Z.add_0_r in *. cbv zeta. by rewrite Esum, Emod, Eall.
  - rewrite append_cons, Ascii.eqb_refl. cbn iota.
    pose proof (leadingFraction_digits 0 0 digits (u +:+ rest) f Hnd) as Hlf. rewrite Z.pow_0_r in Hlf.
    rewrite Hlf by (done || lia). rewrite Hlen, Z.add_0_l. cbv beta iota zeta.
    rewrite split_unit_spec, Eu, Hm, Eover by done.
    assert ((0 <? f) = true) as -> by (apply Z.ltb_lt; lia). cbv zeta. by rewrite Esum, Emod, Eall.
Qed.

(** The last term: a number, and the fraction [fmtFrac] wrote for [u]. *)
Lemma parse_term_frac orig d prec v u unit :
  0 <= u → 0 <= v <= 2 ^ 63 → (prec = 0 ∨ prec = 3 ∨ prec = 6 ∨ prec = 9)%nat → is_unit unit = true →
  unitMap unit = Some (10 ^ Z.of_nat prec) → 0 <= d →
  d + v * 10 ^ Z.of_nat prec + u mod 10 ^ Z.of_nat prec <= 2 ^ 63 →
  parse_term orig d (Itoa v +:+ (fmtFrac prec false u "").1 +:+ unit) =
    Ok (d + v * 10 ^ Z.of_nat prec + u mod 10 ^ Z.of_nat prec, "").
Proof.
  intros Hu Hv Hprec Hunit Hm Hd Hb. destruct (fmtFrac_spec prec u Hu) as (frac & -> & Hf). cbn [fst].
  set (p := Z.of_nat prec) in *. assert (p = 0 ∨ p = 3 ∨ p = 6 ∨ p = 9) as Hp by (subst p; lia).
  assert (0 < 10 ^ p) as Hpos by (apply Z.pow_pos_nonneg; lia).
  pose proof (Z.mod_pos_bound u _ Hpos) as Hmod.
  rewrite <- (append_nil_r unit) at 1.
  rewrite (parse_term_read _ d v frac unit (10 ^ p) "" ) with (part := u mod 10 ^ p); try done.
  - destruct Hf as [?|(k & f & Hk & Hfpos & Hfrac & Ef)]; [by left|right]. exists k, f.
    assert (0 < 10 ^ (p - k)) as Hpk by (apply Z.pow_pos_nonneg; lia).
    assert (10 ^ k * 10 ^ (p - k) = 10 ^ p) as Epk by (rewrite <- Z.pow_add_r by lia; f_equal; lia).
    assert (10 ^ p < 10 ^ 15) as H15 by (apply Z.pow_lt_mono_r; lia).
    split_and!; [lia|lia|lia|nia|done|]. rewrite <- Ef. apply float_part_exact.
    + destruct Hp as [->|[->|[->| ->]]]; [lia|..];
        assert (k = 1 ∨ k = 2 ∨ k = 3 ∨ k = 4 ∨ k = 5 ∨ k = 6 ∨ k = 7 ∨ k = 8 ∨ k = 9) as Hcases by lia;
        repeat (destruct Hcases as [->|Hcases]; [first [lia|cbn; set_unfold; tauto]|]); subst k; first [lia|set_unfold; tauto].
    + split; [lia|]. nia.
    + rewrite Epk. lia.
  - lia.
Qed.

(** ** Fuel: a term takes at least one byte *)

Lemma leadingInt_suffix x s v rest : leadingInt x s = Some (v, rest) → (String.length rest <= String.length s)%nat.
Proof.
  revert x. induction s as [|c s IH]; intros x; cbn; [by intros [= _ <-]|].
  repeat case_match; try done; [|by intros [= _ <-]]. intros Hs%IH. lia.
Qed.

Lemma leadingFraction_suffix x scale o s f scale' rest :
  leadingFraction x scale o s = (f, scale', rest) → (String.length rest <= String.length s)%nat.
Proof.
  revert x scale o. induction s as [|c s IH]; intros x scale o; cbn; [by intros [= _ _ <-]|].
  repeat case_match; try (intros Hs%IH; lia). by intros [= _ _ <-].
Qed.

Lemma split_unit_suffix s : (String.length (split_unit s).1 + String.length (split_unit s).2 = String.length s)%nat.
Proof.
  induction s as [|c s IH]; cbn; [done|]. destruct (_ || _); [done|]. destruct (split_unit s); cbn in *. lia.
Qed.

Lemma parse_term_shrinks orig d s d' rest :
  parse_term orig d s = Ok (d', rest) → (String.length rest < String.length s)%nat.
Proof.
  unfold parse_term. destruct (negb _); [done|]. destruct (leadingInt 0 s) as [[v s1]|] eqn:Ei; [|done].
  apply leadingInt_suffix in Ei.
  destruct (match s1 with String c t => _ | EmptyString => _ end) as [[[f scale] s2] post] eqn:Ef.
  assert (String.length s2 <= String.length s1)%nat as H2.
  { destruct s1 as [|c t]; [by injection Ef as _ _ <- _|]. destruct (Ascii.eqb c "."); [|by injection Ef as _ _ <- _].
    destruct (leadingFraction _ _ _ t) as [[f' scale'] s2'] eqn:El. injection Ef as _ _ <- _.
    apply leadingFraction_suffix in El. cbn. lia. }
  destruct (_ && _); [done|]. pose proof (split_unit_suffix s2) as Hu. destruct (split_unit s2) as [u r].
  destruct (u =s "") eqn:Eu; [done|]. destruct (unitMap u); [|done]. cbv zeta.
  destruct (_ <? v); [done|]. destruct (_ <? _); [done|]. destruct (_ <? _); [done|]. intros [= _ <-].
  destruct u; [done|]. cbn in Hu. lia.
Qed.

(** More fuel than bytes makes no difference. *)
Lemma parse_terms_fuel orig n d s : (String.length s <= n)%nat →
  parse_terms orig n d s = parse_terms orig (String.length s) d s.
Proof.
  assert (∀ n m d s, (String.length s <= n)%nat → (String.length s <= m)%nat →
    parse_terms orig n d s = parse_terms orig m d s) as H; [|intros; by apply H].
  clear. induction n as [|n IH]; intros m d s Hn Hm.
  - destruct s; [|cbn in Hn; lia]. by destruct m.
  - destruct m as [|m]; [by destruct s; [|cbn in Hm; lia]|]. cbn [parse_terms].
    destruct (s =s ""); [done|]. destruct (parse_term orig d s) as [[d' rest]|e] eqn:E; [|done].
    apply parse_term_shrinks in E. apply IH; lia.
Qed.

Lemma parse_terms_step orig d s d' rest :
  parse_term orig d s = Ok (d', rest) →
  parse_terms orig (String.length s) d s = parse_terms orig (String.length rest) d' rest.
Proof.
  intros E. pose proof (parse_term_shrinks _ _ _ _ _ E) as Hl. destruct s as [|c s]; [cbn in Hl; lia|].
  cbn [String.length parse_terms]. change (String c s =s "") with false. cbn iota. rewrite E.
  apply parse_terms_fuel. cbn in Hl. lia.
Qed.

(** ** The round trip *)

Lemma terms_last orig d prec v u unit :
  0 <= u → 0 <= v <= 2 ^ 63 → (prec = 0 ∨ prec = 3 ∨ prec = 6 ∨ prec = 9)%nat → is_unit unit = true →
  unitMap unit = Some (10 ^ Z.of_nat prec) → 0 <= d →
  d + v * 10 ^ Z.of_nat prec + u mod 10 ^ Z.of_nat prec <= 2 ^ 63 →
  let s := Itoa v +:+ (fmtFrac prec false u "").1 +:+ unit in
  parse_terms orig (String.length s) d s = Ok (d + v * 10 ^ Z.of_nat prec + u mod 10 ^ Z.of_nat prec).
Proof. intros. subst s. erewrite parse_terms_step by (by apply parse_term_frac). done. Qed.

Lemma terms_whole orig d v u unit rest :
  0 <= v <= 2 ^ 63 → is_unit u = true → begins_term rest → unitMap u = Some unit → 0 < unit → 0 <= d →
  d + v * unit <= 2 ^ 63 →
  let s := (Itoa v +:+ u) +:+ rest in
  parse_terms orig (String.length s) d s = parse_terms orig (String.length rest) (d + v * unit) rest.
Proof.
  intros Hv Hu Hr Hm Hunit Hd Hb s. subst s. apply parse_terms_step. rewrite append_assoc.
  rewrite <- (Z.add_0_r (d + v * unit)). apply (parse_term_read _ _ _ ""); auto; lia.
Qed.

Lemma fmtFrac_value prec print v acc : 0 <= v → (fmtFrac prec print v acc).2 = v / 10 ^ Z.of_nat prec.
Proof.
  revert print v acc. induction prec as [|prec IH]; intros print v acc Hv; cbn [fmtFrac].
  - by rewrite Z.pow_0_r, Z.div_1_r.
  - rewrite IH by (by apply Z.div_pos). rewrite Nat2Z.inj_succ, Z.pow_succ_r by lia.
    pose proof (Z.pow_pos_nonneg 10 (Z.of_nat prec)). by rewrite Z.div_div by lia.
Qed.

Lemma with_frac_reads orig prec u unit :
  0 <= u <= 2 ^ 63 → (prec = 0 ∨ prec = 3 ∨ prec = 6 ∨ prec = 9)%nat → is_unit unit = true →
  unitMap unit = Some (10 ^ Z.of_nat prec) →
  parse_terms orig (String.length (with_frac prec u unit)) 0 (with_frac prec u unit) = Ok u.
Proof.
  intros Hu Hp Hunit Hm. unfold with_frac. rewrite (surjective_pairing (fmtFrac prec false u "")).
  rewrite fmtFrac_value by lia. pose proof (Z.pow_pos_nonneg 10 (Z.of_nat prec)).
  pose proof (Z.div_mod u (10 ^ Z.of_nat prec)). pose proof (Z.mod_pos_bound u (10 ^ Z.of_nat prec)).
  rewrite terms_last; [f_equal; lia|lia| |done|done|done|lia|lia].
  split; [apply Z.div_pos; lia|apply Z.div_le_upper_bound; nia].
Qed.

Lemma begins_app v s : 0 <= v → begins_term (Itoa v +:+ s).
Proof. intros Hv. destruct (Itoa_begins v Hv) as (c & t & -> & Hc). done. Qed.

Lemma format_seconds_reads orig u :
  0 < u <= 2 ^ 63 → parse_terms orig (String.length (format_seconds u)) 0 (format_seconds u) = Ok u.
Proof.
  intros Hu. unfold format_seconds. rewrite (surjective_pairing (fmtFrac 9 false u "")).
  rewrite fmtFrac_value by lia. change (10 ^ Z.of_nat 9) with (10 ^ 9).
  set (s := u / 10 ^ 9). set (mi := s / 60). set (h := mi / 60). cbv zeta.
  assert (0 <= s <= 2 ^ 63) as Hs by (subst s; split; [apply Z.div_pos; lia|apply Z.div_le_upper_bound; lia]).
  pose proof (Z.div_mod u (10 ^ 9)) as E1. pose proof (Z.mod_pos_bound u (10 ^ 9)) as B1. fold s in E1.
  pose proof (Z.div_mod s 60) as E2. pose proof (Z.mod_pos_bound s 60) as B2. fold mi in E2.
  pose proof (Z.div_mod mi 60) as E3. pose proof (Z.mod_pos_bound mi 60) as B3. fold h in E3.
  assert (0 <= mi) as Hmi by (apply Z.div_pos; lia). assert (0 <= h) as Hh by (apply Z.div_pos; lia).
  assert (∀ d, 0 <= d → d + (s mod 60) * 10 ^ 9 + u mod 10 ^ 9 <= 2 ^ 63 →
    let t := Itoa (s mod 60) +:+ (fmtFrac 9 false u "").1 +:+ "s" in
    parse_terms orig (String.length t) d t = Ok (d + (s mod 60) * 10 ^ 9 + u mod 10 ^ 9)) as Hlast.
  { intros d Hd Hb. apply (terms_last orig d 9); try done; try lia. }
  assert (∀ d, 0 <= d → d + (mi mod 60) * (60 * 10 ^ 9) + (s mod 60) * 10 ^ 9 + u mod 10 ^ 9 <= 2 ^ 63 → 
    (mi = 0 → mi mod 60 = 0) →
    let t := (if 0 <? mi then Itoa (mi mod 60) +:+ "m" else "") +:+ Itoa (s mod 60) +:+ (fmtFrac 9 false u "").1 +:+ "s" in
    parse_terms orig (String.length t) d t =
      Ok (d + (mi mod 60) * (60 * 10 ^ 9) + (s mod 60) * 10 ^ 9 + u mod 10 ^ 9)) as Hmin.
  { intros d Hd Hb Hz. destruct (0 <? mi) eqn:Em; bool_simp.
    - cbv zeta. rewrite (terms_whole orig d (mi mod 60) "m" (60 * 10 ^ 9)); try done; try lia.
      + apply Hlast; lia.
      + apply begins_app. lia.
    - cbn [String.append]. rewrite Hz by lia. rewrite Z.mul_0_l, Z.add_0_r. apply Hlast; lia. }
  destruct (0 <? h) eqn:Eh; bool_simp.
  - rewrite (terms_whole orig 0 h "h" (3600 * 10 ^ 9)); try done; try lia.
    + rewrite Hmin; [f_equal; lia|lia|lia|by intros ->].
    + destruct (0 <? mi); [rewrite append_assoc|]; apply begins_app; lia.
  - cbn [String.append]. rewrite Hmin; [f_equal; lia|lia|lia|by intros ->].
Qed.

Lemma format_reads orig u : 0 < u <= 2 ^ 63 → parse_terms orig (String.length (format u)) 0 (format u) = Ok u.
Proof.
  intros Hu. unfold format. destruct (u <? 10 ^ 9); [|by apply format_seconds_reads].
  destruct (u =? 0) eqn:E0; bool_simp; [lia|].
  destruct (u <? 10 ^ 3); [|destruct (u <? 10 ^ 6)]; apply with_frac_reads; auto; lia.
Qed.

(** Reading it as terms rules out that the text is empty, a bare zero or signed. *)
Lemma format_shape u : 0 < u <= 2 ^ 63 →
  (format u =s "") = false ∧ (format u =s "0") = false ∧
  match format u with String c _ => Ascii.eqb c "-" || Ascii.eqb c "+" = false | EmptyString => False end.
Proof.
  intros Hu. pose proof (format_reads "" u Hu) as Hr. split_and!.
  - apply String.eqb_neq. intros E. rewrite E in Hr. cbn in Hr. injection Hr. lia.
  - apply String.eqb_neq. intros E. by rewrite E in Hr.
  - destruct (format u) as [|c t]; [cbn in Hr; injection Hr; lia|].
    destruct (Ascii.eqb c "-" || Ascii.eqb c "+") eqn:E; [|done].
    apply orb_true_iff in E as [E|E]; apply Ascii.eqb_eq in E as ->; discriminate Hr.
Qed.

Lemma ParseDuration_String d : in_int64 d = true → ParseDuration (Duration_String d) = Ok d.
Proof.
  unfold in_int64, in_range, min_int64, max_int64, Duration_String. intros Hd. bool_simp.
  destruct (d <? 0) eqn:Eneg; bool_simp.
  - destruct (format_shape (- d)) as (E1 & E2 & _); [lia|]. unfold ParseDuration. cbn [Ascii.eqb orb].
    change (Ascii.eqb "-" "-" || Ascii.eqb "-" "+") with true. cbn iota. unfold ParseDuration_signed.
    rewrite E1, E2, format_reads by lia. change (Ascii.eqb "-" "-") with true. cbn iota. f_equal.
    destruct (- d =? 2 ^ 63) eqn:E; bool_simp; lia.
  - destruct (Z.eq_dec d 0) as [->|Hnz]; [reflexivity|].
    destruct (format_shape d) as (E1 & E2 & E3); [lia|]. pose proof (format_reads (format d) d) as Hr.
    unfold ParseDuration. destruct (format d) as [|c t]; [done|]. rewrite E3. unfold ParseDuration_signed.
    rewrite E1, E2, Hr by lia. cbn iota. assert ((2 ^ 63 - 1 <? d) = false) as -> by (apply Z.ltb_ge; lia). done.
Qed.
