(* ===== verification/Net.v ===== *)
(** * Addresses, URLs and streams ([net], [net/url], [io.Copy])

    What the configuration and the OIDC client use of Go's network text
    formats.  [url.Parse] and [net.ParseIP] are parameters ([NetText]); the functions the program builds on their results are defined. *)

From S2P Require Import Prelude GoStrings Effects.

(** [url.URL], the fields the program reads; [Url_User] tells whether [User] is
    not nil *)
Record URL := Url {
  Url_Scheme : string; Url_Host : string; Url_RawQuery : string; Url_Fragment : string;
  Url_User : bool }.

(** [ParseIP_IsLoopback host] is [ip := net.ParseIP(host); ip != nil && ip.IsLoopback()]. *)
Class NetText := {
  url_Parse : string → option URL;
  ParseIP_IsLoopback : string → bool }.

(** ** [net.SplitHostPort] *)

Fixpoint index_byte (c : ascii) (s : string) : option nat :=
  match s with
  | EmptyString => None
  | String d t => if Ascii.eqb d c then Some O else S <$> index_byte c t
  end.

Fixpoint last_index_byte (c : ascii) (s : string) : option nat :=
  match s with
  | EmptyString => None
  | String d t => match last_index_byte c t with
                  | Some i => Some (S i)
                  | None => if Ascii.eqb d c then Some O else None
                  end
  end.

Definition SplitHostPort (hostport : string) : result (string * string) :=
  let missingPort := Err (Ext "missing port in address") in
  let tooManyColons := Err (Ext "too many colons in address") in
  let finish host j k i :=
    if mem_byte "[" (drop_str j hostport) then Err (Ext "unexpected '[' in address")
    else if mem_byte "]" (drop_str k hostport) then Err (Ext "unexpected ']' in address")
    else Ok (host, drop_str (S i) hostport) in
  match last_index_byte ":" hostport with
  | None => missingPort
  | Some i =>
    if HasPrefix hostport "[" then
      match index_byte "]" hostport with
      | None => Err (Ext "missing ']' in address")
      | Some e =>
        if (S e =? String.length hostport)%nat then missingPort
        else if (S e =? i)%nat then finish (take_str (e - 1) (drop_str 1 hostport)) 1%nat (S e) i
        else if HasPrefix (drop_str (S e) hostport) ":" then tooManyColons
        else missingPort
      end
    else
      let host := take_str i hostport in
      if mem_byte ":" host then tooManyColons else finish host O O i
  end.

(** ** [net.JoinHostPort] *)
Definition JoinHostPort (host port : string) : string :=
  if mem_byte ":" host then "[" +:+ host +:+ "]:" +:+ port else host +:+ ":" +:+ port.

(** ** [URL.Hostname] *)

Definition validOptionalPort (port : string) : bool :=
  match port with
  | EmptyString => true
  | String c digits => Ascii.eqb c ":" && sforall is_digit digits
  end.

Definition has_suffix_byte (c : ascii) (s : string) : bool :=
  match last_index_byte c s with Some i => (S i =? String.length s)%nat | None => false end.

Definition Hostname (u : URL) : string :=
  let host := match last_index_byte ":" (Url_Host u) with
              | Some i => if validOptionalPort (drop_str i (Url_Host u))
                          then take_str i (Url_Host u) else Url_Host u
              | None => Url_Host u
              end in
  if HasPrefix host "[" && has_suffix_byte "]" host
  then take_str (String.length host - 2) (drop_str 1 host) else host.

(** ** [strings.EqualFold] against an ASCII text: besides the letter in the
    other case, U+017F folds to s and U+212A to k. *)
Definition fold_rune (c : ascii) (r : Z) : bool :=
  let b := byte (lower_byte c) in
  (if (0 <=? r) && (r <? 0x80) then byte (lower_byte (chr r)) =? b else false)
  || ((r =? 0x17F) && (b =? 0x73)) || ((r =? 0x212A) && (b =? 0x6B)).

Fixpoint fold_runes (rs : list (Z * string)) (text : string) : bool :=
  match rs, text with
  | [], EmptyString => true
  | (r, _) :: rs', String c text' => fold_rune c r && fold_runes rs' text'
  | _, _ => false
  end.

Definition EqualFold (s text : string) : bool := fold_runes (runes s) text.

(** config.go [isLoopbackHost], oidcdevice.go [isLoopback] *)
Definition isLoopbackHost `{NetText} (host : string) : bool :=
  if EqualFold host "localhost" then true else ParseIP_IsLoopback host.

(** ** A parser of plain URLs, for the examples *)

Definition simple_url (raw : string) : option URL :=
  match Index raw "://" with
  | None => None
  | Some i =>
    let rest := drop_str (i + 3) raw in
    let host := match index_byte "/" rest with Some j => take_str j rest | None => rest end in
    if ContainsAny rest "?#@%" then None
    else Some (Url (take_str i raw) host "" "" false)
  end.

Definition simple_net : NetText := {|
  url_Parse := simple_url;
  ParseIP_IsLoopback := λ h, HasPrefix h "127." || (h =s "::1") |}.

Example split_addresses :
  map SplitHostPort ["0.0.0.0:2222"; "[::1]:22"; ":22"; "host"; "a:b:1"; "[::1]"; "[::1]a:2"] =
  [Ok ("0.0.0.0", "2222"); Ok ("::1", "22"); Ok ("", "22");
   Err (Ext "missing port in address"); Err (Ext "too many colons in address");
   Err (Ext "missing port in address"); Err (Ext "missing port in address")].
Proof. vm_compute. reflexivity. Qed.

Example hostnames :
  map (λ h, Hostname (Url "https" h "" "" false)) ["id.example.com:8443"; "[::1]:80"; "[::1]"; "a"] =
  ["id.example.com"; "::1"; "::1"; "a"].
Proof. vm_compute. reflexivity. Qed.

(** ** [io.Copy] *)

(** [st_source]: what the source will give, then [st_end]: its end or an error *)
Record stream := MkStream {
  st_source : string;
  st_end : result unit;
  st_passed : string;
  st_result : option (result unit);
}.

Definition copying (source : string) (end_ : result unit) : stream := MkStream source end_ "" None.

(** A read and a write; the end of the source; an error of the writer *)
Inductive copy_step : stream → stream → Prop :=
  | copy_passes text rest e passed :
      copy_step (MkStream (text +:+ rest) e passed None) (MkStream rest e (passed +:+ text) None)
  | copy_ends e passed : copy_step (MkStream "" e passed None) (MkStream "" e passed (Some e))
  | copy_fails source e passed err : copy_step (MkStream source e passed None) (MkStream source e passed (Some (Err err))).

(** A copy whose channel has been closed is over at once. *)
Definition cut (r : result unit) (s : stream) : stream := MkStream (st_source s) (st_end s) (st_passed s) (Some r).

(** What was passed on and what is left are what the source has; a copy that ended
    well passed it all on. *)
Record stream_ok (all : string) (e : result unit) (s : stream) : Prop := {
  sk_all : all = st_passed s +:+ st_source s;
  sk_end : st_end s = e;
  sk_done : st_result s = Some (Ok tt) → st_source s = "" ∧ e = Ok tt;
}.

Lemma copying_ok source e : stream_ok source e (copying source e).
Proof. by split. Qed.

Lemma copy_step_ok all e s s' : copy_step s s' → stream_ok all e s → stream_ok all e s'.
Proof.
  intros Hs [Ha He Hd]. destruct Hs; cbn in *; split; cbn; try done.
  - by rewrite append_assoc.
  - intros [= ->]. by subst.
Qed.

Lemma copy_step_done s s' r : copy_step s s' → st_result s = Some r → False.
Proof. by destruct 1. Qed.
