(* ===== verification/Sql.v ===== *)
(** * Tables and SQL statements

    A table is the list of its rows.  The operations below are the ones the
    statements of [internal/store/store.go] are made of: SELECT ... WHERE,
    count and EXISTS, UPDATE ... SET ... WHERE, DELETE ... WHERE and INSERT.
    SQLite's choice of a fresh INTEGER PRIMARY KEY is an interface, [Rowids]. *)

From S2P Require Import Prelude.

Section table.
Context {R : Type}.
Implicit Types (p : R → bool) (f : R → R) (t : list R).

(** SELECT ... WHERE p, EXISTS, count *)
Definition select p t : list R := List.filter p t.
Definition query_row p t : option R := head (select p t).
Definition exists_row p t : bool := existsb p t.
Definition count_rows p t : Z := Z.of_nat (length (select p t)).

(** UPDATE ... SET f WHERE p; DELETE ... WHERE p; INSERT *)
Definition update_rows p f t : list R := (λ r, if p r then f r else r) <$> t.
Definition delete_rows p t : list R := List.filter (λ r, negb (p r)) t.
Definition insert_row (r : R) t : list R := t ++ [r].

Lemma elem_of_select p t r : r ∈ select p t ↔ r ∈ t ∧ p r = true.
Proof. unfold select. by rewrite !list_elem_of_In, filter_In. Qed.

Lemma elem_of_delete p t r : r ∈ delete_rows p t ↔ r ∈ t ∧ p r = false.
Proof.
  unfold delete_rows. rewrite !list_elem_of_In, filter_In. by rewrite negb_true_iff.
Qed.

Lemma elem_of_insert r0 t r : r ∈ insert_row r0 t ↔ r ∈ t ∨ r = r0.
Proof. unfold insert_row. by rewrite elem_of_app, list_elem_of_singleton. Qed.

Lemma elem_of_update p f t r :
  r ∈ update_rows p f t ↔ ∃ r0, r0 ∈ t ∧ r = if p r0 then f r0 else r0.
Proof. unfold update_rows. rewrite list_elem_of_fmap. split; intros (r0 & ? & ?); eauto. Qed.

Lemma query_row_Some p t r : query_row p t = Some r → r ∈ t ∧ p r = true.
Proof.
  unfold query_row. intros H. apply elem_of_select.
  destruct (select p t); cbn in H; simplify_eq. left.
Qed.

Lemma query_row_None p t : query_row p t = None ↔ ∀ r, r ∈ t → p r = false.
Proof.
  unfold query_row. split.
  - intros H r Hr. destruct (p r) eqn:E; [|done].
    assert (r ∈ select p t) as Hs by by apply elem_of_select.
    destruct (select p t); [by apply not_elem_of_nil in Hs|done].
  - intros H. destruct (select p t) as [|r l] eqn:E; [done|].
    assert (r ∈ select p t) as Hr by (rewrite E; left).
    apply elem_of_select in Hr as [Hr Hp]. by rewrite H in Hp.
Qed.

(** The row a query finds when the predicate picks at most one. *)
Lemma query_row_unique p t r :
  r ∈ t → p r = true → (∀ r', r' ∈ t → p r' = true → r' = r) → query_row p t = Some r.
Proof.
  intros Hr Hp Hu. destruct (query_row p t) as [r'|] eqn:E.
  - apply query_row_Some in E as [??]. f_equal. auto.
  - rewrite query_row_None in E. by rewrite E in Hp.
Qed.

Lemma count_rows_zero p t : count_rows p t = 0 ↔ ∀ r, r ∈ t → p r = false.
Proof.
  rewrite <- query_row_None. unfold count_rows, query_row.
  destruct (select p t); cbn [length head]; [done|]. split; [lia|done].
Qed.

Lemma count_rows_nonneg p t : 0 <= count_rows p t.
Proof. unfold count_rows. lia. Qed.

Lemma count_rows_pos p t : 0 < count_rows p t ↔ ∃ r, r ∈ t ∧ p r = true.
Proof.
  split.
  - intros H. destruct (query_row p t) as [r|] eqn:E; [apply query_row_Some in E; eauto|].
    rewrite query_row_None in E. apply count_rows_zero in E. lia.
  - intros (r & Hr & Hp). pose proof (count_rows_nonneg p t).
    destruct (Z.eq_dec (count_rows p t) 0) as [E|]; [|lia].
    rewrite count_rows_zero in E. by rewrite E in Hp.
Qed.

Lemma count_rows_one p t r :
  NoDup t → r ∈ t → p r = true → (∀ r', r' ∈ t → p r' = true → r' = r) → count_rows p t = 1.
Proof.
  unfold count_rows, select. induction t as [|x t IH]; intros Hnd Hr Hp Hu; [by apply not_elem_of_nil in Hr|].
  apply NoDup_cons in Hnd as [Hx Hnd]. cbn [List.filter].
  assert (∀ r', r' ∈ t → p r' = true → r' = r) as Hu' by (intros; apply Hu; [by right|done]).
  apply elem_of_cons in Hr as [<-|Hr].
  - rewrite Hp. assert (List.filter p t = []) as ->; [|done].
    destruct (List.filter p t) as [|y l] eqn:E; [done|].
    assert (y ∈ t ∧ p y = true) as [Hy Py].
    { rewrite list_elem_of_In, <- filter_In, E. by left. }
    destruct Hx. by rewrite <- (Hu' y Hy Py).
  - destruct (p x) eqn:Ex; [|by apply IH]. destruct Hx. by rewrite (Hu x) by (done || left).
Qed.

Lemma count_rows_ext p q t : (∀ r, r ∈ t → p r = q r) → count_rows p t = count_rows q t.
Proof.
  unfold count_rows. intros H. do 2 f_equal.
  apply filter_ext_in. intros r Hr. apply H. by apply list_elem_of_In.
Qed.

Lemma update_rows_id p f t : (∀ r, r ∈ t → p r = false) → update_rows p f t = t.
Proof.
  intros H. unfold update_rows. rewrite <- (list_fmap_id t) at 2.
  apply list_fmap_ext. intros i r Hr. apply list_elem_of_lookup_2, H in Hr. by rewrite Hr.
Qed.

Lemma update_rows_ext p q f g t :
  (∀ r, r ∈ t → p r = q r) → (∀ r, r ∈ t → p r = true → f r = g r) →
  update_rows p f t = update_rows q g t.
Proof.
  intros Hp Hf. unfold update_rows. apply list_fmap_ext. intros i r Hr.
  apply list_elem_of_lookup_2 in Hr. rewrite <- Hp by done. destruct (p r) eqn:E; auto.
Qed.

Lemma delete_rows_id p t : (∀ r, r ∈ t → p r = false) → delete_rows p t = t.
Proof.
  intros H. unfold delete_rows. induction t as [|r t IH]; [done|]. cbn.
  rewrite H by left. cbn. f_equal. apply IH. intros x Hx. apply H. by right.
Qed.

Lemma delete_rows_ext p q t : (∀ r, r ∈ t → p r = q r) → delete_rows p t = delete_rows q t.
Proof.
  intros H. apply filter_ext_in. intros r Hr. rewrite H; [done|]. by apply list_elem_of_In.
Qed.

(** ** Keys *)

Context {K : Type}.
Implicit Types (key : R → K).

(** A UNIQUE constraint on the columns [key]. *)
Definition unique_on key t : Prop := NoDup (key <$> t).

Lemma unique_on_eq key t r1 r2 :
  unique_on key t → r1 ∈ t → r2 ∈ t → key r1 = key r2 → r1 = r2.
Proof. intros. by eapply NoDup_fmap_eq. Qed.

Lemma unique_on_select key p t : unique_on key t → unique_on key (select p t).
Proof.
  unfold unique_on, select. induction t as [|r t IH]; cbn; [done|].
  intros H. apply NoDup_cons in H as [Hr Ht].
  destruct (p r); cbn; [|auto]. apply NoDup_cons. split; [|auto].
  intros Hin. apply Hr. apply list_elem_of_fmap in Hin as (x & E & Hx). rewrite E.
  apply list_elem_of_fmap_2. by apply elem_of_select in Hx as [? _].
Qed.

Lemma unique_on_delete key p t : unique_on key t → unique_on key (delete_rows p t).
Proof. apply unique_on_select. Qed.

Lemma unique_on_insert key r t :
  unique_on key t → (∀ r', r' ∈ t → key r' ≠ key r) → unique_on key (insert_row r t).
Proof.
  unfold unique_on, insert_row. intros Ht Hr. rewrite fmap_app.
  apply NoDup_app. split; [done|]. split; [|apply NoDup_singleton].
  intros k Hk Hk'. apply list_elem_of_singleton in Hk' as ->.
  apply list_elem_of_fmap in Hk as (r' & E & H'). by apply (Hr r').
Qed.

(** An UPDATE that leaves the key columns alone. *)
Lemma unique_on_update key p f t :
  (∀ r, p r = true → key (f r) = key r) → unique_on key t → unique_on key (update_rows p f t).
Proof.
  unfold unique_on, update_rows. intros Hf Ht.
  rewrite <- list_fmap_compose. erewrite list_fmap_ext; [exact Ht|].
  intros i r _. cbn. destruct (p r) eqn:E; auto.
Qed.

(** An UPDATE of one row that gives it a key no other row has. *)
Lemma unique_on_update_one key p f t :
  unique_on key t →
  (∀ r1 r2, r1 ∈ t → r2 ∈ t → p r1 = true → p r2 = true → r1 = r2) →
  (∀ r r', r ∈ t → r' ∈ t → p r = true → p r' = false → key r' ≠ key (f r)) →
  unique_on key (update_rows p f t).
Proof.
  unfold unique_on, update_rows. induction t as [|r t IH]; cbn; [done|].
  intros Hnd Hone Hnew. apply NoDup_cons in Hnd as [Hr Ht]. apply NoDup_cons. split.
  - intros Hin. apply list_elem_of_fmap in Hin as (x & E & Hx).
    apply list_elem_of_fmap in Hx as (y & -> & Hy).
    destruct (p r) eqn:Ep, (p y) eqn:Eq.
    + destruct Hr. rewrite (Hone r y); [by apply list_elem_of_fmap_2|left|by right|done|done].
    + apply (Hnew r y); [left|by right|done|done|done].
    + apply (Hnew y r); [by right|left|done|done|done].
    + destruct Hr. rewrite E. by apply list_elem_of_fmap_2.
  - apply IH; [done| |]; intros; [apply Hone|apply Hnew]; try by right. all: done.
Qed.

End table.

Arguments select {R} p t : simpl never.
Arguments query_row {R} p t : simpl never.
Arguments exists_row {R} p t : simpl never.
Arguments count_rows {R} p t : simpl never.
Arguments update_rows {R} p f t : simpl never.
Arguments delete_rows {R} p t : simpl never.
Arguments insert_row {R} r t : simpl never.

(** Two rows are picked when the count says so, and a key tells them apart. *)
Lemma count_rows_two {R K} (key : R → K) p (t : list R) :
  unique_on key t → 1 < count_rows p t →
  ∃ r1 r2, r1 ∈ t ∧ r2 ∈ t ∧ p r1 = true ∧ p r2 = true ∧ key r1 ≠ key r2.
Proof.
  intros Hu Hc. assert (unique_on key (select p t)) as Hs by by apply unique_on_select.
  unfold count_rows in Hc. destruct (select p t) as [|r1 [|r2 l]] eqn:E; cbn in Hc; [lia|lia|].
  assert (r1 ∈ select p t ∧ r2 ∈ select p t) as [H1 H2] by (rewrite E; split; [left|right; left]).
  apply elem_of_select in H1 as [H1 P1], H2 as [H2 P2]. exists r1, r2. repeat split; try done.
  unfold unique_on in Hs. cbn in Hs. apply NoDup_cons in Hs as [Hn _]. intros Ek.
  apply Hn. rewrite Ek. left.
Qed.

(** A foreign key: the column [col] of the rows of [t] names an existing row
    of [parent]; a NULL column ([None]) names none. *)
Definition refers {R P} (col : R → option Z) (pk : P → Z) (t : list R) (parent : list P) : Prop :=
  ∀ r i, r ∈ t → col r = Some i → ∃ p, p ∈ parent ∧ pk p = i.

Section refers.
Context {R P : Type} (col : R → option Z) (pk : P → Z).
Implicit Types (t : list R) (parent : list P).

Lemma refers_delete p t parent : refers col pk t parent → refers col pk (delete_rows p t) parent.
Proof. intros H r i Hr. apply elem_of_delete in Hr as [Hr _]. by apply H. Qed.

Lemma refers_update p f t parent :
  (∀ r i, p r = true → col (f r) = Some i → col r = Some i) →
  refers col pk t parent → refers col pk (update_rows p f t) parent.
Proof.
  intros Hf H r i Hr Hi. apply elem_of_update in Hr as (r0 & Hr0 & ->).
  apply (H r0); [done|]. destruct (p r0) eqn:E; auto.
Qed.

Lemma refers_insert r t parent :
  (∀ i, col r = Some i → ∃ x, x ∈ parent ∧ pk x = i) →
  refers col pk t parent → refers col pk (insert_row r t) parent.
Proof. intros Hr H r' i Hr'. apply elem_of_insert in Hr' as [Hr'| ->]; [by apply H|apply Hr]. Qed.

Lemma refers_insert_parent x t parent :
  refers col pk t parent → refers col pk t (insert_row x parent).
Proof.
  intros H r i Hr Hi. destruct (H r i Hr Hi) as (y & Hy & E). exists y.
  by rewrite elem_of_insert; auto.
Qed.

Lemma refers_update_parent p f t parent :
  (∀ x, pk (f x) = pk x) → refers col pk t parent → refers col pk t (update_rows p f parent).
Proof.
  intros Hf H r i Hr Hi. destruct (H r i Hr Hi) as (y & Hy & E).
  exists (if p y then f y else y). split; [apply elem_of_update; eauto|].
  destruct (p y); [by rewrite Hf|done].
Qed.

(** ON DELETE CASCADE: the children [q] go with the parents [p]. *)
Lemma refers_cascade p q t parent :
  (∀ r i x, r ∈ t → col r = Some i → x ∈ parent → pk x = i → q r = false → p x = false) →
  refers col pk t parent → refers col pk (delete_rows q t) (delete_rows p parent).
Proof.
  intros Hp H r i Hr Hi. apply elem_of_delete in Hr as [Hr Hq].
  destruct (H r i Hr Hi) as (y & Hy & E).
  exists y. split; [|done]. apply elem_of_delete. split; [done|]. by apply (Hp r i y).
Qed.

(** ON DELETE SET NULL *)
Lemma refers_set_null f id t parent :
  (∀ r, col (f r) = None) →
  refers col pk t parent →
  refers col pk (update_rows (λ r, bool_decide (col r = Some id)) f t)
         (delete_rows (λ x, pk x =? id) parent).
Proof.
  intros Hf H r i Hr Hi. apply elem_of_update in Hr as (r0 & Hr0 & ->).
  case_bool_decide as E; [by rewrite Hf in Hi|].
  destruct (H r0 i Hr0 Hi) as (y & Hy & <-). exists y. split; [|done].
  apply elem_of_delete. split; [done|]. apply Z.eqb_neq. intros E'. apply E. congruence.
Qed.

(** ON DELETE RESTRICT: no child refers to the parents [p]. *)
Lemma refers_restrict p t parent :
  (∀ r i x, r ∈ t → col r = Some i → x ∈ parent → pk x = i → p x = false) →
  refers col pk t parent → refers col pk t (delete_rows p parent).
Proof.
  intros Hp H r i Hr Hi. destruct (H r i Hr Hi) as (y & Hy & E).
  exists y. split; [|done]. apply elem_of_delete. split; [done|]. by eapply Hp.
Qed.
End refers.

(** CASCADE from one parent to the rows whose column is its key. *)
Lemma refers_cascade_eq {R P} (c : R → Z) (pk : P → Z) id t parent :
  refers (Some ∘ c) pk t parent →
  refers (Some ∘ c) pk (delete_rows (λ r, c r =? id) t) (delete_rows (λ x, pk x =? id) parent).
Proof. apply refers_cascade. intros r i x _ [= <-] _ E. by rewrite E. Qed.

(** Constraints on single rows. *)
Lemma rows_delete {R} (P : R → Prop) p t :
  (∀ r, r ∈ t → P r) → ∀ r, r ∈ delete_rows p t → P r.
Proof. intros H r Hr. apply elem_of_delete in Hr as [? _]. auto. Qed.

Lemma rows_insert {R} (P : R → Prop) r0 t :
  P r0 → (∀ r, r ∈ t → P r) → ∀ r, r ∈ insert_row r0 t → P r.
Proof. intros H0 H r Hr. apply elem_of_insert in Hr as [?| ->]; auto. Qed.

Lemma rows_update {R} (P : R → Prop) p f t :
  (∀ r, p r = true → P r → P (f r)) → (∀ r, r ∈ t → P r) → ∀ r, r ∈ update_rows p f t → P r.
Proof.
  intros Hf H r Hr. apply elem_of_update in Hr as (r0 & Hr0 & ->).
  specialize (H r0 Hr0). destruct (p r0) eqn:E; auto.
Qed.

(** An UPDATE whose new column passes its CHECK, if it changes a row at all. *)
Lemma rows_update_checked {R} (P : R → Prop) (b : bool) p f t :
  (0 <? count_rows p t) && negb b = false → (b = true → ∀ r, P r → P (f r)) →
  (∀ r, r ∈ t → P r) → ∀ r, r ∈ update_rows p f t → P r.
Proof.
  intros E Hf Ht. apply andb_false_iff in E as [E|E].
  - apply Z.ltb_ge in E. rewrite update_rows_id; [done|]. apply count_rows_zero.
    pose proof (count_rows_nonneg p t). lia.
  - apply negb_false_iff in E. apply rows_update; auto.
Qed.

Lemma exists_row_true {R} (p : R → bool) t : exists_row p t = true ↔ ∃ r, r ∈ t ∧ p r = true.
Proof. apply existsb_true. Qed.

Lemma exists_row_false {R} (p : R → bool) t : exists_row p t = false ↔ ∀ r, r ∈ t → p r = false.
Proof. apply existsb_false. Qed.

(** ORDER BY, as a stable sort by a boolean comparison. *)
Definition order_by {R} (le : R → R → bool) (t : list R) : list R :=
  @merge_sort R (λ x y, le x y = true) (λ x y, bool_eq_dec (le x y) true) t.

Lemma order_by_Permutation {R} (le : R → R → bool) (t : list R) : order_by le t ≡ₚ t.
Proof. apply merge_sort_Permutation. Qed.

(** BINARY collation. *)
Definition text_le (a b : string) : bool := String.leb a b.
Definition text_lt (a b : string) : bool := String.ltb a b.

(** Collation NOCASE folds the 26 ASCII letters only; see [GoStrings]. *)

(** ** Row identifiers *)

(** The INTEGER PRIMARY KEY SQLite picks for a row inserted without one, given
    the identifiers in use: a positive integer not in use. *)
Class Rowids := { new_rowid : list Z → Z }.
Class RowidsLaws `{Rowids} := {
  new_rowid_fresh l : new_rowid l ∉ l;
  new_rowid_pos l : 0 < new_rowid l;
}.

(** A fresh primary key. *)
Lemma unique_on_new_rowid `{RowidsLaws} {R} (pk : R → Z) (t : list R) r :
  pk r = new_rowid (pk <$> t) → unique_on pk t → unique_on pk (insert_row r t).
Proof.
  intros E Ht. apply unique_on_insert; [done|]. intros r' Hr' E'.
  apply (new_rowid_fresh (pk <$> t)). rewrite <- E, <- E'. by apply list_elem_of_fmap_2.
Qed.

(** SQLite's documented choice below the largest rowid: one more than the
    largest identifier in use, and 1 in an empty table. *)
Definition max_rowid (l : list Z) : Z := 1 + foldr Z.max 0 l.

Lemma max_rowid_above l i : i ∈ l → i < max_rowid l.
Proof.
  unfold max_rowid. induction l as [|j l IH]; intros Hi; [by apply not_elem_of_nil in Hi|].
  apply elem_of_cons in Hi as [->|Hi]; cbn; [lia|]. specialize (IH Hi). lia.
Qed.

Definition max_rowids : Rowids := {| new_rowid := max_rowid |}.
Lemma max_rowids_laws : @RowidsLaws max_rowids.
Proof.
  split.
  - intros l Hl. apply max_rowid_above in Hl. cbn in *. lia.
  - intros l. cbn. unfold max_rowid. induction l; cbn; lia.
Qed.

(** ** Sorted results *)

Lemma order_by_sorted {R} (le : R → R → bool) (t : list R) :
  (∀ a b, le a b = true ∨ le b a = true) →
  (∀ a b c, le a b = true → le b c = true → le a c = true) →
  StronglySorted (λ a b, le a b = true) (order_by le t).
Proof.
  intros Htot Htr. unfold order_by. apply StronglySorted_merge_sort; [|done].
  intros a b c. apply Htr.
Qed.

(** ** What the changes of a table do to the row a query finds *)

Section query_changes.
Context {R : Type}.
Implicit Types (p q : R → bool) (f : R → R) (t : list R).

Lemma query_row_cons p r t : query_row p (r :: t) = if p r then Some r else query_row p t.
Proof. unfold query_row, select. cbn. by destruct (p r). Qed.

Lemma query_row_ext p q t : (∀ r, r ∈ t → p r = q r) → query_row p t = query_row q t.
Proof.
  induction t as [|r t IH]; intros H; [done|]. rewrite !query_row_cons, (H r) by left. rewrite IH; [done|].
  intros x Hx. apply H. by right.
Qed.

Lemma query_row_insert p r t :
  query_row p (insert_row r t) = match query_row p t with
                                 | Some x => Some x
                                 | None => if p r then Some r else None
                                 end.
Proof.
  unfold insert_row. induction t as [|x t IH]; cbn [app]; rewrite !query_row_cons; [done|]. rewrite IH.
  by destruct (p x).
Qed.

Lemma query_last p t r :
  (∀ x, x ∈ t → p x = false) → p r = true → query_row p (insert_row r t) = Some r.
Proof. intros Hn Hr. rewrite query_row_insert. apply query_row_None in Hn. by rewrite Hn, Hr. Qed.

Lemma query_row_delete p q t :
  query_row p (delete_rows q t) = query_row (λ r, p r && negb (q r)) t.
Proof.
  unfold delete_rows. induction t as [|r t IH]; [done|]. cbn. rewrite !query_row_cons.
  destruct (q r); cbn; rewrite ?query_row_cons, IH; by destruct (p r).
Qed.

Lemma query_row_update p q f t :
  (∀ r, q r = true → p (f r) = p r) →
  query_row p (update_rows q f t) = (λ r, if q r then f r else r) <$> query_row p t.
Proof.
  intros Hp. unfold update_rows. induction t as [|r t IH]; [done|].
  rewrite fmap_cons, !query_row_cons, IH. destruct (q r) eqn:E; [rewrite Hp by done|];
    destruct (p r); cbn; by rewrite ?E.
Qed.
End query_changes.
