(* ===== verification/Schema.v ===== *)
(** * The database of [internal/store]

    The constants and records of models.go, the tables of the schema at
    migration version 7 (store.go: [migrate] and its steps V2 to V7), and the
    well-formedness every table keeps: primary keys, UNIQUE and CHECK
    constraints and foreign keys. *)

From S2P Require Import Prelude GoStrings GoTime Sql.

(** ** Constants of models.go *)

Definition RoleAdmin : string := "admin".
Definition RoleMember : string := "member".
Definition CredentialPassword : string := "password".
Definition CredentialPrivateKey : string := "private_key".
Definition CredentialAgent : string := "forwarded_agent".
Definition CredentialStoredKey : string := "stored_key".
Definition CapabilityShell : string := "shell".
Definition CapabilitySFTP : string := "sftp".
Definition CapabilitySCP : string := "scp".
Definition CapabilityForward : string := "tcp_forward".

Definition validRole (role : string) : bool := (role =s RoleAdmin) || (role =s RoleMember).

Definition validCredentialKind (kind : string) : bool :=
  (kind =s CredentialPassword) || (kind =s CredentialPrivateKey)
  || (kind =s CredentialAgent) || (kind =s CredentialStoredKey).

Definition valid_port (port : Z) : bool := (1 <=? port) && (port <=? 65535).
Definition valid_outcome (o : string) : bool :=
  (o =s "success") || (o =s "failure") || (o =s "denied").

(** ** Rows

    A BLOB column is a byte string; NULL and the empty blob both read back as
    an empty slice and are both [""]. *)

(** Table users *)
Record user_row := User_row {
  u_id : Z;
  u_username : string;
  u_role : string;
  u_enabled : bool;
  u_created_at : string;
}.

(** Table gateway_keys *)
Record key_row := Key_row {
  k_id : Z;
  k_user_id : Z;
  k_fingerprint : string;
  k_public_key : string;
  k_label : string;
  k_created_at : string;
}.

(** Table groups_table *)
Record group_row := Group_row {
  g_id : Z;
  g_name : string;
  g_created_at : string;
}.

(** Table group_members *)
Record member_row := Member_row {
  gm_group_id : Z;
  gm_user_id : Z;
}.

(** Table targets *)
Record target_row := Target_row {
  t_id : Z;
  t_name : string;
  t_host : string;
  t_port : Z;
  t_remote_username : string;
  t_credential_kind : string;
  t_nonce : string;
  t_ciphertext : string;
  t_host_key_algorithm : string;
  t_host_public_key : string;
  t_enabled : bool;
  t_created_at : string;
  t_updated_at : string;
  t_identity_id : option Z;
}.

(** Table user_target_grants, group_target_grants *)
Record grant_row := Grant_row {
  gr_principal_id : Z;
  gr_target_id : Z;
  gr_shell : bool;
  gr_sftp : bool;
  gr_scp : bool;
  gr_tcp_forward : bool;
}.

(** Table target_forward_rules *)
Record rule_row := Rule_row {
  fr_id : Z;
  fr_target_id : Z;
  fr_host : string;
  fr_port : Z;
}.

(** Table audit_events *)
Record audit_row := Audit_row {
  ae_id : Z;
  ae_at : string;
  ae_actor_user_id : option Z;
  ae_claimed_username : string;
  ae_source_address : string;
  ae_event_type : string;
  ae_target_id : option Z;
  ae_outcome : string;
  ae_details : string;
}.

(** Table ssh_identities *)
Record identity_row := Identity_row {
  si_id : Z;
  si_name : string;
  si_public_key : string;
  si_fingerprint : string;
  si_nonce : string;
  si_ciphertext : string;
  si_created_at : string;
}.

(** Table user_totp *)
Record totp_row := Totp_row {
  ut_user_id : Z;
  ut_nonce : string;
  ut_ciphertext : string;
  ut_last_counter : Z;
  ut_created_at : string;
}.

(** Table oidc_identities *)
Record oidc_row := Oidc_row {
  oi_id : Z;
  oi_user_id : Z;
  oi_issuer : string;
  oi_subject : option string;
  oi_provider_username : string;
  oi_created_at : string;
  oi_updated_at : string;
}.

(** The database: one list per table, and what CURRENT_TIMESTAMP reads. *)
Record db := Db {
  users : list user_row;
  gateway_keys : list key_row;
  groups_table : list group_row;
  group_members : list member_row;
  targets : list target_row;
  user_target_grants : list grant_row;
  group_target_grants : list grant_row;
  target_forward_rules : list rule_row;
  audit_events : list audit_row;
  ssh_identities : list identity_row;
  user_totp : list totp_row;
  oidc_identities : list oidc_row;
  clock : time;
}.

Definition set_users (f : list user_row → list user_row) (d : db) : db :=
  Db (f d.(users)) d.(gateway_keys) d.(groups_table) d.(group_members)
     d.(targets) d.(user_target_grants) d.(group_target_grants) d.(target_forward_rules)
     d.(audit_events) d.(ssh_identities) d.(user_totp) d.(oidc_identities) d.(clock).
Definition set_gateway_keys (f : list key_row → list key_row) (d : db) : db :=
  Db d.(users) (f d.(gateway_keys)) d.(groups_table) d.(group_members)
     d.(targets) d.(user_target_grants) d.(group_target_grants) d.(target_forward_rules)
     d.(audit_events) d.(ssh_identities) d.(user_totp) d.(oidc_identities) d.(clock).
Definition set_groups_table (f : list group_row → list group_row) (d : db) : db :=
  Db d.(users) d.(gateway_keys) (f d.(groups_table)) d.(group_members)
     d.(targets) d.(user_target_grants) d.(group_target_grants) d.(target_forward_rules)
     d.(audit_events) d.(ssh_identities) d.(user_totp) d.(oidc_identities) d.(clock).
Definition set_group_members (f : list member_row → list member_row) (d : db) : db :=
  Db d.(users) d.(gateway_keys) d.(groups_table) (f d.(group_members))
     d.(targets) d.(user_target_grants) d.(group_target_grants) d.(target_forward_rules)
     d.(audit_events) d.(ssh_identities) d.(user_totp) d.(oidc_identities) d.(clock).
Definition set_targets (f : list target_row → list target_row) (d : db) : db :=
  Db d.(users) d.(gateway_keys) d.(groups_table) d.(group_members)
     (f d.(targets)) d.(user_target_grants) d.(group_target_grants) d.(target_forward_rules)
     d.(audit_events) d.(ssh_identities) d.(user_totp) d.(oidc_identities) d.(clock).
Definition set_user_target_grants (f : list grant_row → list grant_row) (d : db) : db :=
  Db d.(users) d.(gateway_keys) d.(groups_table) d.(group_members)
     d.(targets) (f d.(user_target_grants)) d.(group_target_grants) d.(target_forward_rules)
     d.(audit_events) d.(ssh_identities) d.(user_totp) d.(oidc_identities) d.(clock).
Definition set_group_target_grants (f : list grant_row → list grant_row) (d : db) : db :=
  Db d.(users) d.(gateway_keys) d.(groups_table) d.(group_members)
     d.(targets) d.(user_target_grants) (f d.(group_target_grants)) d.(target_forward_rules)
     d.(audit_events) d.(ssh_identities) d.(user_totp) d.(oidc_identities) d.(clock).
Definition set_target_forward_rules (f : list rule_row → list rule_row) (d : db) : db :=
  Db d.(users) d.(gateway_keys) d.(groups_table) d.(group_members)
     d.(targets) d.(user_target_grants) d.(group_target_grants) (f d.(target_forward_rules))
     d.(audit_events) d.(ssh_identities) d.(user_totp) d.(oidc_identities) d.(clock).
Definition set_audit_events (f : list audit_row → list audit_row) (d : db) : db :=
  Db d.(users) d.(gateway_keys) d.(groups_table) d.(group_members)
     d.(targets) d.(user_target_grants) d.(group_target_grants) d.(target_forward_rules)
     (f d.(audit_events)) d.(ssh_identities) d.(user_totp) d.(oidc_identities) d.(clock).
Definition set_ssh_identities (f : list identity_row → list identity_row) (d : db) : db :=
  Db d.(users) d.(gateway_keys) d.(groups_table) d.(group_members)
     d.(targets) d.(user_target_grants) d.(group_target_grants) d.(target_forward_rules)
     d.(audit_events) (f d.(ssh_identities)) d.(user_totp) d.(oidc_identities) d.(clock).
Definition set_user_totp (f : list totp_row → list totp_row) (d : db) : db :=
  Db d.(users) d.(gateway_keys) d.(groups_table) d.(group_members)
     d.(targets) d.(user_target_grants) d.(group_target_grants) d.(target_forward_rules)
     d.(audit_events) d.(ssh_identities) (f d.(user_totp)) d.(oidc_identities) d.(clock).
Definition set_oidc_identities (f : list oidc_row → list oidc_row) (d : db) : db :=
  Db d.(users) d.(gateway_keys) d.(groups_table) d.(group_members)
     d.(targets) d.(user_target_grants) d.(group_target_grants) d.(target_forward_rules)
     d.(audit_events) d.(ssh_identities) d.(user_totp) (f d.(oidc_identities)) d.(clock).
Definition set_clock (t : time) (d : db) : db :=
  Db d.(users) d.(gateway_keys) d.(groups_table) d.(group_members)
     d.(targets) d.(user_target_grants) d.(group_target_grants) d.(target_forward_rules)
     d.(audit_events) d.(ssh_identities) d.(user_totp) d.(oidc_identities) t.

Definition empty_db (now : time) : db := Db [] [] [] [] [] [] [] [] [] [] [] [] now.

Definition CURRENT_TIMESTAMP (d : db) : string := sqlite_text d.(clock).

(** ** Well-formed databases *)

Definition member_key (m : member_row) : Z * Z := (gm_group_id m, gm_user_id m).
Definition grant_key (g : grant_row) : Z * Z := (gr_principal_id g, gr_target_id g).
Definition rule_key (r : rule_row) : Z * string * Z := (fr_target_id r, fr_host r, fr_port r).
Definition gateway_key_key (k : key_row) : Z * string := (k_user_id k, k_fingerprint k).
Definition oidc_user_key (o : oidc_row) : Z * string := (oi_user_id o, oi_issuer o).
Definition oidc_name_key (o : oidc_row) : string * string := (oi_issuer o, oi_provider_username o).

(** UNIQUE(issuer,subject): NULL subjects are distinct from one another. *)
Definition oidc_subjects_unique (t : list oidc_row) : Prop :=
  ∀ o1 o2 s, o1 ∈ t → o2 ∈ t → oi_issuer o1 = oi_issuer o2 →
    oi_subject o1 = Some s → oi_subject o2 = Some s → o1 = o2.

Record wf_users (d : db) : Prop := {
  wf_u_id : unique_on u_id d.(users);
  wf_u_name : unique_on u_username d.(users);
  wf_u_role u : u ∈ d.(users) → validRole (u_role u) = true;
  wf_k_id : unique_on k_id d.(gateway_keys);
  wf_k_key : unique_on gateway_key_key d.(gateway_keys);
  wf_k_user : refers (Some ∘ k_user_id) u_id d.(gateway_keys) d.(users);
}.

Record wf_groups (d : db) : Prop := {
  wf_g_id : unique_on g_id d.(groups_table);
  wf_g_name : unique_on g_name d.(groups_table);
  wf_gm_key : unique_on member_key d.(group_members);
  wf_gm_group : refers (Some ∘ gm_group_id) g_id d.(group_members) d.(groups_table);
  wf_gm_user : refers (Some ∘ gm_user_id) u_id d.(group_members) d.(users);
}.

Record wf_targets (d : db) : Prop := {
  wf_t_id : unique_on t_id d.(targets);
  wf_t_pos t : t ∈ d.(targets) → 0 < t_id t;
  wf_t_name : unique_on t_name d.(targets);
  wf_t_port t : t ∈ d.(targets) → valid_port (t_port t) = true;
  wf_t_kind t : t ∈ d.(targets) → validCredentialKind (t_credential_kind t) = true;
  wf_t_identity : refers t_identity_id si_id d.(targets) d.(ssh_identities);
  wf_si_id : unique_on si_id d.(ssh_identities);
  wf_si_name : unique_on si_name d.(ssh_identities);
  wf_si_fingerprint : unique_on si_fingerprint d.(ssh_identities);
}.

Record wf_grants (d : db) : Prop := {
  wf_ug_key : unique_on grant_key d.(user_target_grants);
  wf_ug_user : refers (Some ∘ gr_principal_id) u_id d.(user_target_grants) d.(users);
  wf_ug_target : refers (Some ∘ gr_target_id) t_id d.(user_target_grants) d.(targets);
  wf_gg_key : unique_on grant_key d.(group_target_grants);
  wf_gg_group : refers (Some ∘ gr_principal_id) g_id d.(group_target_grants) d.(groups_table);
  wf_gg_target : refers (Some ∘ gr_target_id) t_id d.(group_target_grants) d.(targets);
  wf_fr_id : unique_on fr_id d.(target_forward_rules);
  wf_fr_key : unique_on rule_key d.(target_forward_rules);
  wf_fr_port r : r ∈ d.(target_forward_rules) → valid_port (fr_port r) = true;
  wf_fr_target : refers (Some ∘ fr_target_id) t_id d.(target_forward_rules) d.(targets);
}.

Record wf_factors (d : db) : Prop := {
  wf_ut_user : unique_on ut_user_id d.(user_totp);
  wf_ut_ref : refers (Some ∘ ut_user_id) u_id d.(user_totp) d.(users);
  wf_oi_id : unique_on oi_id d.(oidc_identities);
  wf_oi_user : unique_on oidc_user_key d.(oidc_identities);
  wf_oi_name : unique_on oidc_name_key d.(oidc_identities);
  wf_oi_subject : oidc_subjects_unique d.(oidc_identities);
  wf_oi_ref : refers (Some ∘ oi_user_id) u_id d.(oidc_identities) d.(users);
}.

Record wf_audit (d : db) : Prop := {
  wf_ae_id : unique_on ae_id d.(audit_events);
  wf_ae_outcome e : e ∈ d.(audit_events) → valid_outcome (ae_outcome e) = true;
  wf_ae_actor : refers ae_actor_user_id u_id d.(audit_events) d.(users);
  wf_ae_target : refers ae_target_id t_id d.(audit_events) d.(targets);
}.

Record wf_db (d : db) : Prop := {
  wf_db_users : wf_users d;
  wf_db_groups : wf_groups d;
  wf_db_targets : wf_targets d;
  wf_db_grants : wf_grants d;
  wf_db_factors : wf_factors d;
  wf_db_audit : wf_audit d;
}.

#[export] Hint Resolve wf_db_users wf_db_groups wf_db_targets wf_db_grants wf_db_factors
  wf_db_audit : sql.

Lemma empty_db_wf now : wf_db (empty_db now).
Proof.
  split; split; try (by apply NoDup_nil); try (by intros ? ?%not_elem_of_nil);
    try (by intros ? ? ?%not_elem_of_nil); by intros ? ? ? ?%not_elem_of_nil.
Qed.
