(* ===== verification/Names.v ===== *)
(** * Names: users, groups, SSH keys, and the routed login name

    store.go [nameRE], [validateName], [ValidateUsername] and gateway/auth.go
    [splitRoutedUsername]. *)

From S2P Require Import Prelude GoStrings Effects Schema.

(** [^[a-z][a-z0-9_-]{0,31}$] *)
Definition nameRE_text : string := "^[a-z][a-z0-9_-]{0,31}$".

Definition name_tail (c : ascii) : bool :=
  is_lower_ascii (byte c) || is_digit c || Ascii.eqb c "_" || Ascii.eqb c "-".

Definition nameRE (v : string) : bool :=
  match v with
  | EmptyString => false
  | String c t => is_lower_ascii (byte c) && sforall name_tail t && (len t <=? 31)
  end.

Section names.
Context `{UnicodeTables}.

Definition validateName (v kind : string) : result string :=
  let v := ToLower (TrimSpace v) in
  if negb (nameRE v) then Err (Msg (kind +:+ " must match " +:+ nameRE_text))
  else Ok v.

Definition ValidateUsername (v : string) : result unit :=
  let! _ := validateName v "username" in Ok tt.

(** gateway/auth.go: splitRoutedUsername *)
Definition splitRoutedUsername (value : string) : result (string * string) :=
  match split_byte "+" value with
  | [p] => Ok (ToLower p, "")
  | [p; t] =>
    if (p =s "") || (t =s "") then Err (Msg "username must be USER or USER+TARGET")
    else match ValidateUsername p with
         | Err _ => Err (Msg "invalid gateway username")
         | Ok _ => Ok (ToLower p, ToLower t)
         end
  | _ => Err (Msg "username must be USER or USER+TARGET")
  end.

End names.
