(* ===== verification/Migrations.v ===== *)
(** * Opening a database ([internal/store/store.go]: [Open], [migrate])

    A database file of any version is a [disk]: the tables that exist, in the
    shape they have.  A statement outside a transaction is a step; a migration's
    transaction is one.  Several processes may open the same file: their steps
    interleave.  Errors of the driver that are not constraints (I/O, a busy
    database) are not modelled, nor are the indexes. *)

From S2P Require Import Prelude GoStrings GoTime Effects Sql Schema Paths.

(** ** The tables of older versions *)

(** targets before version 3: no identity_id *)
Record old_target_row := Old_target_row {
  ot_id : Z;
  ot_name : string;
  ot_host : string;
  ot_port : Z;
  ot_remote_username : string;
  ot_credential_kind : string;
  ot_nonce : string;
  ot_ciphertext : string;
  ot_host_key_algorithm : string;
  ot_host_public_key : string;
  ot_enabled : bool;
  ot_created_at : string;
  ot_updated_at : string;
}.

(** [kinds]: the IN list of the table's CHECK on credential_kind *)
Inductive targets_table :=
  | Targets13 (kinds : list string) (rows : list old_target_row)
  | Targets14 (rows : list target_row).

(** Grants before version 6: principal and target only *)
Inductive grants_table :=
  | Grants2 (rows : list (Z * Z))
  | Grants6 (rows : list grant_row).

(** What a file holds; [None] is a table that does not exist. *)
Record disk := Disk {
  dk_versions : option (list Z);
  dk_users : option (list user_row);
  dk_keys : option (list key_row);
  dk_groups : option (list group_row);
  dk_members : option (list member_row);
  dk_targets : option targets_table;
  dk_user_grants : option grants_table;
  dk_group_grants : option grants_table;
  dk_audit : option (list audit_row);
  dk_identities : option (list identity_row);
  dk_totp : option (list totp_row);
  dk_rules : option (list rule_row);
  dk_oidc : option (list oidc_row);
}.

Definition empty_disk : disk :=
  Disk None None None None None None None None None None None None None.

Definition put_versions x d := Disk x (dk_users d) (dk_keys d) (dk_groups d) (dk_members d) (dk_targets d)
  (dk_user_grants d) (dk_group_grants d) (dk_audit d) (dk_identities d) (dk_totp d) (dk_rules d) (dk_oidc d).
Definition put_users x d := Disk (dk_versions d) x (dk_keys d) (dk_groups d) (dk_members d) (dk_targets d)
  (dk_user_grants d) (dk_group_grants d) (dk_audit d) (dk_identities d) (dk_totp d) (dk_rules d) (dk_oidc d).
Definition put_keys x d := Disk (dk_versions d) (dk_users d) x (dk_groups d) (dk_members d) (dk_targets d)
  (dk_user_grants d) (dk_group_grants d) (dk_audit d) (dk_identities d) (dk_totp d) (dk_rules d) (dk_oidc d).
Definition put_groups x d := Disk (dk_versions d) (dk_users d) (dk_keys d) x (dk_members d) (dk_targets d)
  (dk_user_grants d) (dk_group_grants d) (dk_audit d) (dk_identities d) (dk_totp d) (dk_rules d) (dk_oidc d).
Definition put_members x d := Disk (dk_versions d) (dk_users d) (dk_keys d) (dk_groups d) x (dk_targets d)
  (dk_user_grants d) (dk_group_grants d) (dk_audit d) (dk_identities d) (dk_totp d) (dk_rules d) (dk_oidc d).
Definition put_targets x d := Disk (dk_versions d) (dk_users d) (dk_keys d) (dk_groups d) (dk_members d) x
  (dk_user_grants d) (dk_group_grants d) (dk_audit d) (dk_identities d) (dk_totp d) (dk_rules d) (dk_oidc d).
Definition put_grants (xu xg : option grants_table) d := Disk (dk_versions d) (dk_users d) (dk_keys d)
  (dk_groups d) (dk_members d) (dk_targets d) xu xg (dk_audit d) (dk_identities d) (dk_totp d) (dk_rules d)
  (dk_oidc d).
Definition put_audit x d := Disk (dk_versions d) (dk_users d) (dk_keys d) (dk_groups d) (dk_members d)
  (dk_targets d) (dk_user_grants d) (dk_group_grants d) x (dk_identities d) (dk_totp d) (dk_rules d)
  (dk_oidc d).
Definition put_identities x d := Disk (dk_versions d) (dk_users d) (dk_keys d) (dk_groups d) (dk_members d)
  (dk_targets d) (dk_user_grants d) (dk_group_grants d) (dk_audit d) x (dk_totp d) (dk_rules d) (dk_oidc d).
Definition put_totp x d := Disk (dk_versions d) (dk_users d) (dk_keys d) (dk_groups d) (dk_members d)
  (dk_targets d) (dk_user_grants d) (dk_group_grants d) (dk_audit d) (dk_identities d) x (dk_rules d)
  (dk_oidc d).
Definition put_rules x d := Disk (dk_versions d) (dk_users d) (dk_keys d) (dk_groups d) (dk_members d)
  (dk_targets d) (dk_user_grants d) (dk_group_grants d) (dk_audit d) (dk_identities d) (dk_totp d) x
  (dk_oidc d).
Definition put_oidc x d := Disk (dk_versions d) (dk_users d) (dk_keys d) (dk_groups d) (dk_members d)
  (dk_targets d) (dk_user_grants d) (dk_group_grants d) (dk_audit d) (dk_identities d) (dk_totp d)
  (dk_rules d) x.

Definition exists_table {T} (t : option T) : bool := match t with Some _ => true | None => false end.

(** SQLite's messages, as the driver gives them, and the rows a foreign key check
    names *)
Class SqliteTexts := {
  sqlite_error : string → string;
  violation_report : disk → string }.

Definition sqlite_fails `{SqliteTexts} (text : string) : error := Ext (sqlite_error text).

(** ** What a file says, whatever its version: the rows of the tables it has, with
    the values that a later version gives them *)

Definition with_identity (t : old_target_row) : target_row :=
  Target_row (ot_id t) (ot_name t) (ot_host t) (ot_port t) (ot_remote_username t) (ot_credential_kind t)
    (ot_nonce t) (ot_ciphertext t) (ot_host_key_algorithm t) (ot_host_public_key t) (ot_enabled t)
    (ot_created_at t) (ot_updated_at t) None.

(** DEFAULT 1, 1, 1 and 0 *)
Definition with_capabilities (g : Z * Z) : grant_row := Grant_row g.1 g.2 true true true false.

Definition target_rows (t : targets_table) : list target_row :=
  match t with Targets13 _ rows => with_identity <$> rows | Targets14 rows => rows end.
Definition grant_rows (g : grants_table) : list grant_row :=
  match g with Grants2 rows => with_capabilities <$> rows | Grants6 rows => rows end.

Definition rows_or_none {R} (t : option (list R)) : list R := default [] t.

Definition disk_content (now : time) (d : disk) : db :=
  Db (rows_or_none (dk_users d)) (rows_or_none (dk_keys d)) (rows_or_none (dk_groups d))
     (rows_or_none (dk_members d)) (rows_or_none (target_rows <$> dk_targets d))
     (rows_or_none (grant_rows <$> dk_user_grants d)) (rows_or_none (grant_rows <$> dk_group_grants d))
     (rows_or_none (dk_rules d)) (rows_or_none (dk_audit d)) (rows_or_none (dk_identities d))
     (rows_or_none (dk_totp d)) (rows_or_none (dk_oidc d)) now.

(** ** Statements *)

Definition stmt : Type := prog disk (result unit).

Section statements.
Context `{SqliteTexts}.

(** CREATE TABLE, and CREATE TABLE IF NOT EXISTS, of an empty table *)
Definition create_table (name : string) (there : disk → bool) (make : disk → disk) : stmt :=
  atomic (λ d, if there d then (Err (sqlite_fails ("table " +:+ name +:+ " already exists")), d)
               else (Ok tt, make d)).
Definition create_missing (there : disk → bool) (make : disk → disk) : stmt :=
  atomic (λ d, (Ok tt, if there d then d else make d)).

(** INSERT INTO schema_migrations(version) VALUES(v) *)
Definition record_version (v : Z) : stmt :=
  atomic (λ d, match dk_versions d with
               | None => (Err (sqlite_fails "no such table: schema_migrations"), d)
               | Some vs =>
                 if bool_decide (v ∈ vs) then (Err (Sql Unique), d)
                 else (Ok tt, put_versions (Some (vs ++ [v])) d)
               end).

(** SELECT count( * ) FROM schema_migrations WHERE version=v *)
Definition count_version (v : Z) : prog disk (result Z) :=
  query (λ d, match dk_versions d with
              | None => Err (sqlite_fails "no such table: schema_migrations")
              | Some vs => Ok (count_rows (Z.eqb v) vs)
              end).

(** INSERT INTO new SELECT ...: row by row, [check] against the rows inserted so
    far *)
Fixpoint insert_all {R} (check : list R → R → result unit) (inserted rows : list R) : result (list R) :=
  match rows with
  | [] => Ok inserted
  | r :: more => let! _ := check inserted r in insert_all check (inserted ++ [r]) more
  end.

Definition check_constraint (b : bool) (v : violation) : result unit := if b then Ok tt else Err (Sql v).

Definition old_target_check (kinds : list string) (inserted : list old_target_row) (t : old_target_row) :
    result unit :=
  let! _ := check_constraint (valid_port (ot_port t)) CheckFailed in
  let! _ := check_constraint (existsb (String.eqb (ot_credential_kind t)) kinds) CheckFailed in
  let! _ := check_constraint (negb (existsb (λ o, ot_id o =? ot_id t) inserted)) Unique in
  check_constraint (negb (existsb (λ o, ot_name o =s ot_name t) inserted)) Unique.

Definition target_check (inserted : list target_row) (t : target_row) : result unit :=
  let! _ := check_constraint (valid_port (t_port t)) CheckFailed in
  let! _ := check_constraint (validCredentialKind (t_credential_kind t)) CheckFailed in
  let! _ := check_constraint (negb (existsb (λ o, t_id o =? t_id t) inserted)) Unique in
  check_constraint (negb (existsb (λ o, t_name o =s t_name t) inserted)) Unique.

Definition key_check (users : list user_row) (inserted : list key_row) (k : key_row) : result unit :=
  let! _ := check_constraint (negb (existsb (λ o, k_id o =? k_id k) inserted)) Unique in
  let! _ := check_constraint (negb (existsb (λ o, (k_user_id o =? k_user_id k)
                                                  && (k_fingerprint o =s k_fingerprint k)) inserted)) Unique in
  check_constraint (existsb (λ u, u_id u =? k_user_id k) users) ForeignKey.

Definition no_grants (g : grants_table) : grants_table :=
  match g with Grants2 _ => Grants2 [] | Grants6 _ => Grants6 [] end.

(** DROP TABLE targets: with foreign keys enforced, every row is deleted first,
    with the actions of the references to it. *)
Definition drop_targets (foreign_keys : bool) (d : disk) : disk :=
  let d := put_targets None d in
  if foreign_keys then
    put_grants (no_grants <$> dk_user_grants d) (no_grants <$> dk_group_grants d)
      (put_rules ((λ _, []) <$> dk_rules d)
        (put_audit ((λ rows : list audit_row, (λ e, Audit_row (ae_id e) (ae_at e) (ae_actor_user_id e) (ae_claimed_username e)
           (ae_source_address e) (ae_event_type e) None (ae_outcome e) (ae_details e)) <$> rows) <$> dk_audit d) d))
  else d.

(** ** The schema of version 1 *)

Definition schema_v1 : list stmt := [
  create_missing (λ d, exists_table (dk_versions d)) (put_versions (Some []));
  create_missing (λ d, exists_table (dk_users d)) (put_users (Some []));
  create_missing (λ d, exists_table (dk_keys d)) (put_keys (Some []));
  create_missing (λ d, exists_table (dk_groups d)) (put_groups (Some []));
  create_missing (λ d, exists_table (dk_members d)) (put_members (Some []));
  create_missing (λ d, exists_table (dk_targets d))
    (put_targets (Some (Targets13 [CredentialPassword; CredentialPrivateKey] [])));
  create_missing (λ d, exists_table (dk_user_grants d)) (λ d, put_grants (Some (Grants2 [])) (dk_group_grants d) d);
  create_missing (λ d, exists_table (dk_group_grants d)) (λ d, put_grants (dk_user_grants d) (Some (Grants2 [])) d);
  create_missing (λ d, exists_table (dk_audit d)) (put_audit (Some []));
  (* INSERT OR IGNORE INTO schema_migrations(version) VALUES(1) *)
  atomic (λ d, match dk_versions d with
               | None => (Err (sqlite_fails "no such table: schema_migrations"), d)
               | Some vs => (Ok tt, if bool_decide (1 ∈ vs) then d else put_versions (Some (vs ++ [1])) d)
               end)].

(** [Exec] of several statements stops at the first that fails. *)
Fixpoint exec_script (l : list stmt) : stmt :=
  match l with [] => Ret (Ok tt) | s :: more => let? _ := s in exec_script more end.

(** [fmt.Errorf("text: %w", err)] *)
Definition wrap_error {A} (text : string) (p : prog disk (result A)) : prog disk (result A) :=
  let* r := p in Ret (match r with Ok a => Ok a | Err e => Err (Wrap text e) end).

(** ** The migrations *)

(** INSERT INTO targets_v2 SELECT * FROM targets; DROP TABLE; RENAME *)
Definition rebuild_targets_v2 (foreign_keys : bool) : stmt :=
  atomic (λ d,
    match dk_targets d with
    | None => (Err (sqlite_fails "no such table: targets"), d)
    | Some (Targets14 _) => (Err (sqlite_fails "table targets_v2 has 13 columns but 14 values were supplied"), d)
    | Some (Targets13 _ rows) =>
      let kinds := [CredentialPassword; CredentialPrivateKey; CredentialAgent] in
      match insert_all (old_target_check kinds) [] rows with
      | Err e => (Err e, d)
      | Ok rows => (Ok tt, put_targets (Some (Targets13 kinds rows)) (drop_targets foreign_keys d))
      end
    end).

(** The columns of targets_v3 but identity_id, of either shape of targets *)
Definition without_identity (t : target_row) : target_row :=
  Target_row (t_id t) (t_name t) (t_host t) (t_port t) (t_remote_username t) (t_credential_kind t)
    (t_nonce t) (t_ciphertext t) (t_host_key_algorithm t) (t_host_public_key t) (t_enabled t)
    (t_created_at t) (t_updated_at t) None.

Definition rebuild_targets_v3 (foreign_keys : bool) : stmt :=
  atomic (λ d,
    match dk_targets d with
    | None => (Err (sqlite_fails "no such table: targets"), d)
    | Some t =>
      match insert_all target_check [] (without_identity <$> target_rows t) with
      | Err e => (Err e, d)
      | Ok rows => (Ok tt, put_targets (Some (Targets14 rows)) (drop_targets foreign_keys d))
      end
    end).

(** The rows a foreign key refers from, checked against those it refers to *)
Definition refers_ok {R S} (ref : R → option Z) (key : S → Z) (rows : list R) (parents : list S) : bool :=
  forallb (λ r, match ref r with
                | None => true
                | Some id => existsb (λ p, key p =? id) parents
                end) rows.

(** pragma_foreign_key_check finds nothing. *)
Definition foreign_keys_ok (d : db) : bool :=
  refers_ok (Some ∘ k_user_id) u_id d.(gateway_keys) d.(users)
  && refers_ok (Some ∘ gm_group_id) g_id d.(group_members) d.(groups_table)
  && refers_ok (Some ∘ gm_user_id) u_id d.(group_members) d.(users)
  && refers_ok t_identity_id si_id d.(targets) d.(ssh_identities)
  && refers_ok (Some ∘ gr_principal_id) u_id d.(user_target_grants) d.(users)
  && refers_ok (Some ∘ gr_target_id) t_id d.(user_target_grants) d.(targets)
  && refers_ok (Some ∘ gr_principal_id) g_id d.(group_target_grants) d.(groups_table)
  && refers_ok (Some ∘ gr_target_id) t_id d.(group_target_grants) d.(targets)
  && refers_ok (Some ∘ fr_target_id) t_id d.(target_forward_rules) d.(targets)
  && refers_ok ae_actor_user_id u_id d.(audit_events) d.(users)
  && refers_ok ae_target_id t_id d.(audit_events) d.(targets)
  && refers_ok (Some ∘ ut_user_id) u_id d.(user_totp) d.(users)
  && refers_ok (Some ∘ oi_user_id) u_id d.(oidc_identities) d.(users).

(** The check after a rebuild; [disk_content]'s clock plays no part in it. *)
Definition check_foreign_keys (text : string) : stmt :=
  let? violations := query (λ d, Ok (if foreign_keys_ok (disk_content zero_time d) then None
                                     else Some (violation_report d))) in
  Ret (match violations with None => Ok tt | Some v => Err (Msg (text +:+ v)) end).

(** The transaction runs after PRAGMA foreign_keys=OFF on its connection. *)
Definition migrateTargetsV2 : stmt :=
  let? _ := wrap_error "migrate targets for forwarded agents" (transaction (
    let? _ := rebuild_targets_v2 false in record_version 2)) in
  check_foreign_keys "foreign key check failed after migration: ".

Definition migrateIdentitiesV3 : stmt :=
  let? _ := wrap_error "migrate reusable SSH identities" (transaction (
    let? _ := create_table "ssh_identities" (λ d, exists_table (dk_identities d)) (put_identities (Some [])) in
    let? _ := rebuild_targets_v3 false in record_version 3)) in
  check_foreign_keys "foreign key check failed after identity migration: ".

Definition migrateTOTPV4 : stmt :=
  transaction (
    let? _ := wrap_error "migrate user TOTP"
                (create_missing (λ d, exists_table (dk_totp d)) (put_totp (Some []))) in
    wrap_error "record user TOTP migration" (record_version 4)).

(** gateway_keys_v5 is filled, then takes the place of gateway_keys. *)
Definition rebuild_keys_v5 : stmt :=
  atomic (λ d,
    match dk_keys d, dk_users d with
    | Some keys, Some users =>
      match insert_all (key_check users) [] keys with
      | Err e => (Err e, d)
      | Ok keys => (Ok tt, put_keys (Some keys) d)
      end
    | None, _ => (Err (sqlite_fails "no such table: gateway_keys"), d)
    | _, None => (Err (sqlite_fails "no such table: main.users"), d)
    end).

Definition migrateGatewayKeyUniquenessV5 : stmt :=
  wrap_error "migrate gateway key uniqueness" (transaction (
    let? _ := rebuild_keys_v5 in record_version 5)).

(** The four ALTER TABLE ... ADD COLUMN of one table *)
Definition add_capabilities (name : string) (t : option grants_table) : result (option grants_table) :=
  match t with
  | None => Err (sqlite_fails ("no such table: " +:+ name))
  | Some (Grants6 _) => Err (sqlite_fails "duplicate column name: allow_shell")
  | Some (Grants2 rows) => Ok (Some (Grants6 (with_capabilities <$> rows)))
  end.

Definition alter_grants : stmt :=
  atomic (λ d,
    match add_capabilities "user_target_grants" (dk_user_grants d),
          add_capabilities "group_target_grants" (dk_group_grants d) with
    | Ok xu, Ok xg => (Ok tt, put_grants xu xg d)
    | Err e, _ | _, Err e => (Err e, d)
    end).

Definition migrateProtocolAccessV6 : stmt :=
  wrap_error "migrate protocol access" (transaction (
    let? _ := alter_grants in
    let? _ := create_table "target_forward_rules" (λ d, exists_table (dk_rules d)) (put_rules (Some [])) in
    record_version 6)).

Definition migrateOIDCIdentitiesV7 : stmt :=
  wrap_error "migrate OIDC identities" (transaction (
    let? _ := create_table "oidc_identities" (λ d, exists_table (dk_oidc d)) (put_oidc (Some [])) in
    record_version 7)).

(** [if migrated == 0 { ... }] after the count *)
Definition migrate_once (v : Z) (migration : stmt) : stmt :=
  let? migrated := count_version v in
  if migrated =? 0 then migration else Ret (Ok tt).

Definition migrate : stmt :=
  let? _ := exec_script schema_v1 in
  let? _ := migrate_once 2 migrateTargetsV2 in
  let? _ := migrate_once 3 migrateIdentitiesV3 in
  let? _ := migrate_once 4 migrateTOTPV4 in
  let? _ := migrate_once 5 migrateGatewayKeyUniquenessV5 in
  let? _ := migrate_once 6 migrateProtocolAccessV6 in
  migrate_once 7 migrateOIDCIdentitiesV7.

(** ** [Open] *)

(** The calls on the file and the handle, in order *)
Inductive open_call :=
  | SqlOpen (dsn : string)
  | Pragma (text : string)
  | Chmod (path : string) (mode : Z)
  | CloseHandle.

(** What the operating system and the driver answer *)
Record open_env := MkOpenEnv {
  oe_lstat : string → lstat_answer;
  oe_file_url : string → string → string; (* the URL of a path with a query *)
  oe_answer : open_call → result unit;
}.

Definition memory : string := ":memory:".

Definition check_file (path : string) (a : lstat_answer) : result unit :=
  if path =s memory then Ok tt
  else match a with
       | Found regular perm =>
         if negb regular then Err (Msg "database must be a regular file")
         else if too_open perm
         then Err (Msg ("database permissions " +:+ octal4 perm +:+ " are too open; require 0600"))
         else Ok tt
       | NotExist => Ok tt
       | LstatError e => Err e
       end.

(** [url.Values.Encode] of the three _pragma values *)
Definition dsn_query : string :=
  "_pragma=foreign_keys%3D1&_pragma=busy_timeout%3D5000&_pragma=journal_mode%3DWAL".

Definition dsn_of (e : open_env) (path : string) : string :=
  if path =s memory then path else oe_file_url e path dsn_query.

Definition setup_pragmas : list string :=
  ["PRAGMA foreign_keys=ON"; "PRAGMA journal_mode=WAL"; "PRAGMA busy_timeout=5000"].

(** The PRAGMAs and the chmod, with what is made of their errors *)
Definition setup_calls (path : string) : list (open_call * (error → error)) :=
  ((λ q, (Pragma q, Wrap "sqlite setup")) <$> setup_pragmas)
  ++ (if path =s memory then [] else [(Chmod path 0x180, λ err, err)]).

(** The calls before [migrate]; a failure closes the handle. *)
Fixpoint open_calls (answer : open_call → result unit) (calls : list (open_call * (error → error))) :
    result unit * list open_call :=
  match calls with
  | [] => (Ok tt, [])
  | (c, wrap) :: more =>
    match answer c with
    | Ok _ => let '(r, trace) := open_calls answer more in (r, c :: trace)
    | Err err => (Err (wrap err), [c; CloseHandle])
    end
  end.

Definition prepare (e : open_env) (path : string) : result unit * list open_call :=
  match oe_answer e (SqlOpen (dsn_of e path)) with
  | Err err => (Err err, [SqlOpen (dsn_of e path)])
  | Ok _ =>
    let '(r, trace) :=
      open_calls (oe_answer e) (setup_calls path) in
    (r, SqlOpen (dsn_of e path) :: trace)
  end.

Definition Open (e : open_env) (path : string) : prog disk (result unit * list open_call) :=
  match check_file path (oe_lstat e path) with
  | Err err => Ret (Err err, [])
  | Ok _ =>
    match prepare e path with
    | (Err err, trace) => Ret (Err err, trace)
    | (Ok _, trace) =>
      let* r := migrate in
      Ret (r, trace ++ match r with Ok _ => [] | Err _ => [CloseHandle] end)
    end
  end.

End statements.
