(* ===== verification/Host.v ===== *)
(** * The machine the commands run on

    Files by their place, and the calls of package os that [cmd/sshgatew],
    [internal/config] and [internal/secrets] make, as programs on them.  Any call
    may fail: the machine decides it from the calls made so far.  A path means the
    place its clean spelling names; symbolic links, hard links, access by other
    processes and the kernel's permission checks (but as calls that fail) are not
    modelled. *)

From S2P Require Import Prelude GoStrings GoTime Effects Paths Sql Schema Migrations.

(** The components of an absolute path *)
Abbreviation place := (list string) (only parsing).

(** A file's bytes, or a database in the file *)
Inductive file_content := Bytes (b : string) | Database (d : disk).

Inductive node :=
  | Regular (perm uid gid : Z) (c : file_content)
  | Directory (perm uid gid : Z)
  | Special.

Abbreviation files := (gmap (list string) node) (only parsing).

(** [SysQuery]: a call of the store *)
Inductive syscall :=
  | SysStat (path : string)
  | SysRead (path : string)
  | SysMkdir (path : string)
  | SysCreate (path : string)
  | SysWrite (path : string)
  | SysSync (path : string)
  | SysClose (path : string)
  | SysRemove (path : string)
  | SysChmod (path : string)
  | SysChown (path : string)
  | SysRename (from to : string)
  | SysRandom
  | SysSql (call : open_call)
  | SysQuery
  | SysRun (name : string) (args : list string)
  | SysLookupUser (name : string).

(** The files, the calls made (the last one first), the standard output *)
Record host := MkHost {
  h_files : files;
  h_calls : list syscall;
  h_out : string;
}.

(** [m_fault]: the error of a call, if it fails, after the calls before it;
    [m_short]: how much of a call that failed was done; [m_image]: the bytes of a
    database file. *)
Record machine := MkMachine {
  m_cwd : string;
  m_umask : Z;
  m_uid : Z;
  m_gid : Z;
  m_now : time;
  m_fault : list syscall → syscall → option error;
  m_short : list syscall → nat;
  m_random : list syscall → nat → string;
  m_image : disk → string;
}.

Definition node_perm (n : node) : Z := match n with Regular p _ _ _ | Directory p _ _ => p | Special => 0 end.
Definition is_directory (n : node) : bool := match n with Directory _ _ _ => true | _ => false end.
Definition is_regular (n : node) : bool := match n with Regular _ _ _ _ => true | _ => false end.

(** ** What is at a place: nothing, because of [NotExist], or because something
    on the way is not a directory *)

Inductive found := Nothing | NotADirectory | Something (n : node).

Definition root : node := Directory 0x1ED 0 0.

Definition entry (fs : files) (p : place) : option node :=
  match fs !! p with
  | Some n => Some n
  | None => match p with [] => Some root | _ => None end
  end.

Fixpoint walk (fs : files) (here rest : place) : found :=
  match rest with
  | [] => match entry fs here with Some n => Something n | None => Nothing end
  | name :: rest =>
    match entry fs here with
    | Some n => if is_directory n then walk fs (here ++ [name]) rest else NotADirectory
    | None => Nothing
    end
  end.

Definition look (fs : files) (p : place) : found := walk fs [] p.

(** A new entry can be made: the directory it is in exists. *)
Definition parent_error (fs : files) (p : place) : option string :=
  match look fs (removelast p) with
  | Something n => if is_directory n then None else Some "not a directory"
  | NotADirectory => Some "not a directory"
  | Nothing => Some "no such file or directory"
  end.

(** A directory with something in it *)
Definition has_entries (fs : files) (p : place) : bool :=
  existsb (λ '(q, _), bool_decide (q ≠ [] ∧ removelast q = p)) (map_to_list fs).

(** [*fs.PathError] *)
Definition path_error (op path text : string) : error := Ext (op +:+ " " +:+ path +:+ ": " +:+ text).

Definition path_text (p : place) : string := "/" +:+ Join p "/".

Section machine.
Context (m : machine).

(** The place a path of the process means *)
Definition place_of (path : string) : place :=
  rev (fold_left (clean_step true)
         (components (if HasPrefix path "/" then path else m_cwd m +:+ "/" +:+ path)) []).

(** The empty path names nothing. *)
Definition look_at (fs : files) (path : string) : found :=
  if path =s "" then Nothing else look fs (place_of path).

(** ** Calls *)

Definition logged (c : syscall) (fs : files) (h : host) : host := MkHost fs (c :: h_calls h) (h_out h).

Definition sys {A} (c : syscall) (f : files → result A * files) : prog host (result A) :=
  atomic (λ h,
    match m_fault m (h_calls h) c with
    | Some err => (Err err, logged c (h_files h) h)
    | None => let '(r, fs) := f (h_files h) in (r, logged c fs h)
    end).

(** A call on something that must be there *)
Definition on_found {A : Type} (op path : string) (fs : files) (f : node → result A * files) : result A * files :=
  match look_at fs path with
  | Something n => f n
  | NotADirectory => (Err (path_error op path "not a directory"), fs)
  | Nothing => (Err (path_error op path "no such file or directory"), fs)
  end.

(** [os.Stat], and [os.Lstat] without links *)
Definition answer_of (fs : files) (path : string) : lstat_answer :=
  match look_at fs path with
  | Nothing => NotExist
  | NotADirectory => LstatError (path_error "stat" path "not a directory")
  | Something n => Found (is_regular n) (node_perm n)
  end.

Definition stat (path : string) : prog host lstat_answer :=
  let* r := sys (SysStat path) (λ fs, (Ok (answer_of fs path), fs)) in
  Ret (match r with Ok a => a | Err err => LstatError err end).

Definition content_bytes (c : file_content) : string := match c with Bytes b => b | Database d => m_image m d end.

Definition readFile (path : string) : prog host (result string) :=
  sys (SysRead path) (λ fs,
    on_found "open" path fs (λ n,
      (match n with
       | Regular _ _ _ c => Ok (content_bytes c)
       | Directory _ _ _ => Err (path_error "read" path "is a directory")
       | Special => Err (path_error "read" path "invalid argument")
       end, fs))).

(** [rand.Read] of [n] bytes *)
Definition randomBytes (n : nat) : prog host (result string) :=
  let* b := query (λ h, m_random m (h_calls h) n) in
  sys SysRandom (λ fs, (Ok b, fs)).

Definition masked (perm : Z) : Z := Z.land perm (Z.lnot (m_umask m)).

(** [os.MkdirAll]: the directories on the way that are missing, from the root *)
Definition mkdir_at (perm : Z) (p : place) (fs : files) : result unit * files :=
  match look fs p, parent_error fs p with
  | Something n, _ =>
    (if is_directory n then Ok tt else Err (path_error "mkdir" (path_text p) "not a directory"), fs)
  | NotADirectory, _ => (Err (path_error "mkdir" (path_text p) "not a directory"), fs)
  | Nothing, Some text => (Err (path_error "mkdir" (path_text p) text), fs)
  | Nothing, None => (Ok tt, <[p := Directory (masked perm) (m_uid m) (m_gid m)]> fs)
  end.

Definition mkdir (perm : Z) (p : place) : prog host (result unit) :=
  let* here := query (λ h, look (h_files h) p) in
  match here with
  | Something _ => query (λ h, (mkdir_at perm p (h_files h)).1)
  | _ => sys (SysMkdir (path_text p)) (mkdir_at perm p)
  end.

Fixpoint mkdirs (perm : Z) (ps : list place) : prog host (result unit) :=
  match ps with [] => Ret (Ok tt) | p :: ps => let? _ := mkdir perm p in mkdirs perm ps end.

(** The places on the way, and the place *)
Definition on_the_way (p : place) : list place := (λ n, take n p) <$> seq 1 (length p).

Definition mkdirAll (path : string) (perm : Z) : prog host (result unit) :=
  if path =s "" then Ret (Err (path_error "mkdir" path "no such file or directory"))
  else mkdirs perm (on_the_way (place_of path)).

(** [os.OpenFile(path, os.O_WRONLY|os.O_CREATE|os.O_EXCL, perm)] *)
Definition createNew (path : string) (perm : Z) : prog host (result unit) :=
  sys (SysCreate path) (λ fs,
    let p := place_of path in
    if path =s "" then (Err (path_error "open" path "no such file or directory"), fs)
    else match parent_error fs p, look fs p with
    | Some text, _ => (Err (path_error "open" path text), fs)
    | None, Nothing => (Ok tt, <[p := Regular (masked perm) (m_uid m) (m_gid m) (Bytes "")]> fs)
    | None, _ => (Err (path_error "open" path "file exists"), fs)
    end).

Definition set_bytes (b : string) (n : node) : node :=
  match n with Regular perm uid gid _ => Regular perm uid gid (Bytes b) | _ => n end.

(** [f.Write] of everything to a file that is open and empty; one that fails may
    leave the beginning. *)
Definition write (path b : string) : prog host (result unit) :=
  atomic (λ h,
    let put b := alter (set_bytes b) (place_of path) (h_files h) in
    match m_fault m (h_calls h) (SysWrite path) with
    | Some err => (Err err, logged (SysWrite path) (put (take_str (m_short m (h_calls h)) b)) h)
    | None => (Ok tt, logged (SysWrite path) (put b) h)
    end).

(** [f.Sync], [f.Close] *)
Definition sync (path : string) : prog host (result unit) := sys (SysSync path) (λ fs, (Ok tt, fs)).
Definition close (path : string) : prog host (result unit) := sys (SysClose path) (λ fs, (Ok tt, fs)).

(** [os.Remove]: a file, or a directory that is empty *)
Definition remove (path : string) : prog host (result unit) :=
  sys (SysRemove path) (λ fs,
    on_found "remove" path fs (λ n,
      if is_directory n && has_entries fs (place_of path)
      then (Err (path_error "remove" path "directory not empty"), fs)
      else (Ok tt, delete (place_of path) fs))).

(** [os.Chmod], [os.Chown] *)
Definition set_perm (perm : Z) (n : node) : node :=
  match n with
  | Regular _ uid gid c => Regular perm uid gid c
  | Directory _ uid gid => Directory perm uid gid
  | Special => Special
  end.
Definition set_owner (uid gid : Z) (n : node) : node :=
  match n with
  | Regular perm _ _ c => Regular perm uid gid c
  | Directory perm _ _ => Directory perm uid gid
  | Special => Special
  end.

Definition chmod (path : string) (perm : Z) : prog host (result unit) :=
  sys (SysChmod path) (λ fs,
    on_found "chmod" path fs (λ _, (Ok tt, alter (set_perm perm) (place_of path) fs))).
Definition chown (path : string) (uid gid : Z) : prog host (result unit) :=
  sys (SysChown path) (λ fs,
    on_found "chown" path fs (λ _, (Ok tt, alter (set_owner uid gid) (place_of path) fs))).

(** [os.Rename] of a file over a file or nothing *)
Definition rename (from to : string) : prog host (result unit) :=
  sys (SysRename from to) (λ fs,
    on_found "rename" from fs (λ n,
      if to =s "" then (Err (path_error "rename" from "no such file or directory"), fs)
      else match parent_error fs (place_of to), look_at fs to with
      | Some text, _ => (Err (path_error "rename" from text), fs)
      | None, Something (Directory _ _ _) => (Err (path_error "rename" from "file exists"), fs)
      | None, _ => (Ok tt, <[place_of to := n]> (delete (place_of from) fs))
      end)).

(** [fmt.Fprintf(out, ...)] *)
Definition say (text : string) : prog host unit :=
  atomic (λ h, (tt, MkHost (h_files h) (h_calls h) (h_out h +:+ text))).

(** ** A database file *)

(** The error of a failed call of the driver, whatever it did to the files *)
Definition db_error : error := Ext "unable to open database file (14)".

(** The database a file holds: a file that is empty holds one without tables. *)
Definition disk_of (n : node) : result disk :=
  match n with
  | Regular _ _ _ (Database d) => Ok d
  | Regular _ _ _ (Bytes b) => if b =s "" then Ok empty_disk else Err (Ext "file is not a database (26)")
  | _ => Err db_error
  end.

Definition disk_at (fs : files) (path : string) : result disk :=
  match look_at fs path with
  | Something n => disk_of n
  | NotADirectory => Err db_error
  | Nothing => match parent_error fs (place_of path) with Some _ => Err db_error | None => Ok empty_disk end
  end.

Definition set_disk (d : disk) (n : node) : node :=
  match n with Regular perm uid gid _ => Regular perm uid gid (Database d) | _ => n end.

Definition wal (path : string) : string := path +:+ "-wal".
Definition shm (path : string) : string := path +:+ "-shm".

(** A file the driver makes where nothing is, and one it takes away *)
Definition touch (perm : Z) (path : string) (fs : files) : files :=
  match parent_error fs (place_of path), look fs (place_of path) with
  | None, Nothing => <[place_of path := Regular (masked perm) (m_uid m) (m_gid m) (Bytes "")]> fs
  | _, _ => fs
  end.

Definition untouch (path : string) (fs : files) : files :=
  match fs !! place_of path with
  | Some (Regular _ _ _ _) => delete (place_of path) fs
  | _ => fs
  end.

(** [setup_calls], [migrate] and [Close] on the files: a statement makes the
    database and its log where they are missing, the last handle takes the log
    away. *)
Definition sql_effect (path : string) (d : disk) (fs : files) (c : open_call) : files :=
  match c with
  | SqlOpen _ => fs
  | Pragma _ =>
    alter (set_disk d) (place_of path) (touch 0x1A4 (shm path) (touch 0x1A4 (wal path) (touch 0x1A4 path fs)))
  | Chmod _ perm => alter (set_perm perm) (place_of path) fs
  | CloseHandle => untouch (shm path) (untouch (wal path) fs)
  end.

End machine.
