(* ===== verification/HostFacts.v ===== *)
(** * Files of the machine: where they can be, and what a program leaves alone *)

From S2P Require Import Prelude GoStrings GoTime Effects Paths Sql Schema Migrations Host.

(** ** Looking at a place *)

Lemma walk_snoc fs here p x :
  walk fs here (p ++ [x]) =
    match walk fs here p with
    | Something n =>
      if is_directory n then match entry fs (here ++ p ++ [x]) with Some n => Something n | None => Nothing end
      else NotADirectory
    | r => r
    end.
Proof.
  revert here. induction p as [|y p IH]; intros here; cbn.
  - by destruct (entry fs here).
  - destruct (entry fs here) as [n|]; [|done]. destruct (is_directory n); [|done].
    rewrite IH. by rewrite <- !(assoc_L app).
Qed.

Lemma look_snoc fs p x :
  look fs (p ++ [x]) =
    match look fs p with
    | Something n =>
      if is_directory n then match fs !! (p ++ [x]) with Some n => Something n | None => Nothing end
      else NotADirectory
    | r => r
    end.
Proof.
  unfold look. rewrite walk_snoc. cbn [app]. unfold entry at 1.
  destruct (walk fs [] p) as [| |n]; try done. destruct (is_directory n); [|done].
  destruct (fs !! (p ++ [x])); [done|]. by destruct p.
Qed.

Lemma look_entry_of fs p n : look fs p = Something n → entry fs p = Some n.
Proof.
  destruct p as [|x p _] using rev_ind.
  - unfold look. cbn. by destruct (entry fs []) eqn:E; intros; simplify_eq.
  - rewrite look_snoc. destruct (look fs p) as [| |d]; try discriminate. destruct (is_directory d); [|discriminate].
    unfold entry. by destruct (fs !! (p ++ [x])); intros; simplify_eq.
Qed.

(** ** Trees: what is in a place has a directory around it *)

Definition tree (fs : files) : Prop :=
  ∀ p x n, fs !! (p ++ [x]) = Some n → ∃ d, entry fs p = Some d ∧ is_directory d = true.

Lemma tree_look fs p n : tree fs → entry fs p = Some n → look fs p = Something n.
Proof.
  intros Ht. revert n. induction p as [|x p IH] using rev_ind; intros n He.
  - unfold look. cbn. by rewrite He.
  - rewrite look_snoc. unfold entry in He. destruct (fs !! (p ++ [x])) as [n'|] eqn:E; [|by destruct p].
    destruct (Ht p x n' E) as (d & Hd & Hdir). rewrite (IH d Hd), Hdir. by simplify_eq.
Qed.

Lemma tree_nothing fs p : tree fs → look fs p = Nothing ∨ look fs p = NotADirectory → entry fs p = None.
Proof.
  intros Ht Hl. destruct (entry fs p) as [n|] eqn:E; [|done]. pose proof (tree_look fs p n Ht E) as Hn.
  rewrite Hn in Hl. by destruct Hl.
Qed.

Lemma entry_none fs p : entry fs p = None → fs !! p = None ∧ p ≠ [].
Proof. unfold entry. destruct (fs !! p); [discriminate|]. by destruct p. Qed.

Lemma entry_alter fs f p q : entry (alter f p fs) q =
  match fs !! q with Some n => Some (if bool_decide (p = q) then f n else n) | None => entry fs q end.
Proof.
  unfold entry. destruct (decide (p = q)) as [->|Hne].
  - rewrite lookup_alter_eq. rewrite bool_decide_eq_true_2 by done. by destruct (fs !! q).
  - rewrite lookup_alter_ne by done. rewrite bool_decide_eq_false_2 by done. by destruct (fs !! q).
Qed.

(** A change of a node that leaves directories directories *)
Lemma tree_alter fs f p : (∀ n, is_directory (f n) = is_directory n) → tree fs → tree (alter f p fs).
Proof.
  intros Hf Ht q x n Hn. assert (∃ n', fs !! (q ++ [x]) = Some n') as [n' Hn'].
  { destruct (decide (p = q ++ [x])) as [->|Hne].
    - rewrite lookup_alter_eq in Hn. destruct (fs !! (q ++ [x])); [by eexists|discriminate].
    - rewrite lookup_alter_ne in Hn by done. by eexists. }
  destruct (Ht q x n' Hn') as (d & Hd & Hdir). rewrite entry_alter.
  unfold entry in *. destruct (fs !! q) as [d'|]; [|by eexists]. simplify_eq. eexists. split; [done|].
  destruct (bool_decide (p = q)); by rewrite ?Hf.
Qed.

Lemma parent_error_none fs p : parent_error fs p = None →
  ∃ d, entry fs (removelast p) = Some d ∧ is_directory d = true.
Proof.
  unfold parent_error. destruct (look fs (removelast p)) as [| |d] eqn:E; try discriminate.
  destruct (is_directory d) eqn:Hd; [|discriminate]. intros _. apply look_entry_of in E. by exists d.
Qed.

Lemma removelast_snoc {A} (p : list A) x : removelast (p ++ [x]) = p.
Proof. rewrite removelast_app by done. cbn. by rewrite app_nil_r. Qed.

Lemma tree_insert fs p n :
  tree fs → entry fs p = None → parent_error fs p = None → tree (<[p := n]> fs).
Proof.
  intros Ht Hp Hpar q x n' Hq. apply entry_none in Hp as [Hp Hne].
  assert (p ≠ q) as Hpq.
  { intros ->. assert (entry fs q = None) as He.
    { unfold entry. rewrite Hp. by destruct q. }
    rewrite lookup_insert_ne in Hq by (intros E%(f_equal length); rewrite length_app in E; cbn in E; lia).
    destruct (Ht q x n' Hq) as (d & Hd & _). congruence. }
  destruct (decide (p = q ++ [x])) as [->|Hne'].
  - apply parent_error_none in Hpar as (d & Hd & Hdir). rewrite removelast_snoc in Hd.
    exists d. split; [|done]. unfold entry in *. by rewrite lookup_insert_ne by done.
  - rewrite lookup_insert_ne in Hq by done. destruct (Ht q x n' Hq) as (d & Hd & Hdir).
    exists d. split; [|done]. unfold entry in *. by rewrite lookup_insert_ne by done.
Qed.

Lemma tree_replace fs p n : tree fs →
  (∃ d, entry fs (removelast p) = Some d ∧ is_directory d = true) → (∀ x, fs !! (p ++ [x]) = None) →
  tree (<[p := n]> fs).
Proof.
  intros Ht Hpar Hc q x n' Hq. assert (∃ d, entry fs q = Some d ∧ is_directory d = true) as (d & Hd & Hdir).
  { destruct (decide (p = q ++ [x])) as [->|Hne]; [by rewrite removelast_snoc in Hpar|].
    rewrite lookup_insert_ne in Hq by done. by eapply Ht. }
  exists d. split; [|done]. unfold entry in *. rewrite lookup_insert_ne; [done|]. intros ->.
  destruct (decide (q = q ++ [x])) as [E%(f_equal length)|Hne]; [rewrite length_app in E; cbn in E; lia|].
  rewrite lookup_insert_ne in Hq by done. by rewrite Hc in Hq.
Qed.

(** Nothing is in [p]. *)
Lemma has_entries_none fs p x : has_entries fs p = false → fs !! (p ++ [x]) = None.
Proof.
  unfold has_entries. intros H. destruct (fs !! (p ++ [x])) as [n|] eqn:E; [|done].
  apply elem_of_map_to_list in E. exfalso. apply not_true_iff_false in H. apply H, existsb_exists.
  exists (p ++ [x], n). split; [by apply list_elem_of_In|]. apply bool_decide_eq_true.
  rewrite removelast_snoc. split; [by destruct p|done].
Qed.

Lemma tree_delete fs p : tree fs → (∀ x, fs !! (p ++ [x]) = None) → tree (delete p fs).
Proof.
  intros Ht Hc q x n Hq. apply lookup_delete_Some in Hq as [Hne Hq].
  destruct (Ht q x n Hq) as (d & Hd & Hdir). exists d. split; [|done]. unfold entry in *.
  rewrite lookup_delete_ne; [done|]. intros ->. by rewrite Hc in Hq.
Qed.

Lemma tree_file fs p n x : tree fs → entry fs p = Some n → is_directory n = false → fs !! (p ++ [x]) = None.
Proof.
  intros Ht He Hn. destruct (fs !! (p ++ [x])) as [n'|] eqn:E; [|done].
  destruct (Ht p x n' E) as (d & Hd & Hdir). congruence.
Qed.

(** ** What a program leaves alone: every place outside [owned], but for the
    directories it makes *)

Definition outside (owned : list place) (fs fs' : files) : Prop :=
  ∀ p, p ∉ owned → fs' !! p = fs !! p ∨ (fs !! p = None ∧ ∃ n, fs' !! p = Some n ∧ is_directory n = true).

Lemma outside_refl owned fs : outside owned fs fs.
Proof. intros p _. by left. Qed.

Lemma outside_trans owned a b c : outside owned a b → outside owned b c → outside owned a c.
Proof.
  intros H1 H2 p Hp. destruct (H2 p Hp) as [E2|[N2 D2]], (H1 p Hp) as [E1|[N1 D1]].
  - left. congruence.
  - right. split; [done|]. by rewrite E2.
  - right. split; [congruence|done].
  - by right.
Qed.

Lemma outside_alter owned fs f p : p ∈ owned → outside owned fs (alter f p fs).
Proof. intros Hp q Hq. left. apply lookup_alter_ne. by intros ->. Qed.

Lemma outside_insert owned fs n p : p ∈ owned → outside owned fs (<[p := n]> fs).
Proof. intros Hp q Hq. left. apply lookup_insert_ne. by intros ->. Qed.

Lemma outside_delete owned fs p : p ∈ owned → outside owned fs (delete p fs).
Proof. intros Hp q Hq. left. apply lookup_delete_ne. by intros ->. Qed.

Lemma outside_mkdir owned fs p n : fs !! p = None → is_directory n = true → outside owned fs (<[p := n]> fs).
Proof.
  intros Hn Hd q _. destruct (decide (p = q)) as [->|Hne].
  - right. split; [done|]. exists n. by rewrite lookup_insert_eq.
  - left. by apply lookup_insert_ne.
Qed.

Create HintDb host.
#[export] Hint Resolve outside_refl outside_alter outside_insert outside_delete : host.

(** One step's, or one program's, effect on the files *)
Definition kept (owned : list place) (fs fs' : files) : Prop := outside owned fs fs' ∧ tree fs'.

Definition contained {A} (owned : list place) (p : prog host A) : Prop :=
  guarantees (tree ∘ h_files) (λ h h', kept owned (h_files h) (h_files h')) (λ _, True) p.

Lemma contained_ret {A} (owned : list place) (a : A) : contained owned (Ret a).
Proof. done. Qed.

Lemma contained_bind {A B} (owned : list place) (p : prog host A) (k : A → prog host B) :
  contained owned p → (∀ a, contained owned (k a)) → contained owned (bind p k).
Proof. intros Hp Hk. eapply guarantees_bind; [exact Hp|]. intros a _. apply Hk. Qed.

Lemma contained_bind_ok {A B} (owned : list place) (p : prog host (result A)) (k : A → prog host (result B)) :
  contained owned p → (∀ a, contained owned (k a)) → contained owned (bind_ok p k).
Proof. intros Hp Hk. apply contained_bind; [done|]. by intros [a|e]. Qed.

Lemma contained_atomic {X} (owned : list place) (f : host → X * host) :
  (∀ h, tree (h_files h) → kept owned (h_files h) (h_files (f h).2)) → contained owned (atomic f).
Proof. intros Hf h Hh. split; [by apply Hf|done]. Qed.

Lemma contained_query {X} (owned : list place) (f : host → X) : contained owned (query f).
Proof. intros h Hh. split; [|done]. split; [apply outside_refl|done]. Qed.

Lemma contained_final {A} (owned : list place) (p : prog host A) h : contained owned p → tree (h_files h) →
  kept owned (h_files h) (h_files (final p h)).
Proof.
  intros Hp Ht. assert (guarantees (λ h', kept owned (h_files h) (h_files h'))
    (λ _ h', kept owned (h_files h) (h_files h')) (λ _, True) p) as Hg.
  { unfold contained in Hp. induction p as [a|X f k IH]; cbn in *; [done|]. intros s [Ho Hs].
    destruct (Hp s Hs) as [[Ho' Hs'] Hk]. split; [|by apply IH]. split; [by eapply outside_trans|done]. }
  eapply (ensures_run (λ h', kept owned (h_files h) (h_files h'))); [exact Hg|]. split; [apply outside_refl|done].
Qed.

Lemma contained_sys {A} (owned : list place) (c : syscall) (f : files → result A * files) (m : machine) :
  (∀ fs, tree fs → kept owned fs (f fs).2) → contained owned (sys m c f).
Proof.
  intros Hf. apply contained_atomic. intros h Hh. destruct (m_fault m (h_calls h) c); cbn.
  - split; [apply outside_refl|done].
  - specialize (Hf _ Hh). by destruct (f (h_files h)).
Qed.

Lemma kept_refl owned fs : tree fs → kept owned fs fs.
Proof. split; [apply outside_refl|done]. Qed.

Lemma kept_trans owned a b c : kept owned a b → kept owned b c → kept owned a c.
Proof. intros [H1 _] [H2 Ht]. split; [by eapply outside_trans|done]. Qed.

Lemma kept_alter owned fs f p :
  tree fs → p ∈ owned → (∀ n, is_directory (f n) = is_directory n) → kept owned fs (alter f p fs).
Proof. intros Ht Hp Hf. split; [by apply outside_alter|by apply tree_alter]. Qed.

Lemma kept_file owned fs p n : tree fs → p ∈ owned → parent_error fs p = None → look fs p = Nothing →
  kept owned fs (<[p := n]> fs).
Proof.
  intros Ht Hp Hpar Hl. split; [by apply outside_insert|]. apply tree_insert; [done| |done].
  apply tree_nothing; auto.
Qed.

#[export] Hint Resolve kept_refl kept_alter kept_file contained_ret contained_query : host.

(** ** The calls *)

Section calls.
Context (m : machine) (owned : list place).

Lemma on_found_kept {A : Type} (op path : string) (fs : files) (f : node → result A * files) :
  tree fs → (∀ n, look_at m fs path = Something n → kept owned fs (f n).2) →
  kept owned fs (on_found m op path fs f).2.
Proof. intros Ht Hf. unfold on_found. destruct (look_at m fs path); auto with host. Qed.

Lemma stat_contained path : contained owned (stat m path).
Proof. apply contained_bind; [|auto with host]. apply contained_sys. cbn. auto with host. Qed.

Lemma readFile_contained path : contained owned (readFile m path).
Proof. apply contained_sys. intros fs Ht. apply on_found_kept; cbn; auto with host. Qed.

Lemma randomBytes_contained n : contained owned (randomBytes m n).
Proof. apply contained_bind; [auto with host|]. intros b. apply contained_sys. cbn. auto with host. Qed.

Lemma mkdir_at_kept perm p fs : tree fs → kept owned fs (mkdir_at m perm p fs).2.
Proof.
  intros Ht. unfold mkdir_at. destruct (look fs p) eqn:El; cbn; auto with host.
  destruct (parent_error fs p) eqn:Ep; cbn; auto with host.
  assert (entry fs p = None) as He by (apply tree_nothing; auto). split.
  - apply outside_mkdir; [by apply entry_none|done].
  - by apply tree_insert.
Qed.

Lemma mkdir_contained perm p : contained owned (mkdir m perm p).
Proof.
  apply contained_bind; [auto with host|]. intros here.
  assert (contained owned (sys m (SysMkdir (path_text p)) (mkdir_at m perm p))).
  { apply contained_sys. intros fs. apply mkdir_at_kept. }
  destruct here; auto with host.
Qed.

Lemma mkdirs_contained perm ps : contained owned (mkdirs m perm ps).
Proof.
  induction ps as [|p ps IH]; [done|]. cbn [mkdirs]. apply contained_bind_ok; [apply mkdir_contained|intros _; exact IH].
Qed.

Lemma mkdirAll_contained path perm : contained owned (mkdirAll m path perm).
Proof. unfold mkdirAll. destruct (path =s ""); [done|apply mkdirs_contained]. Qed.

Lemma createNew_contained path perm : path = "" ∨ place_of m path ∈ owned → contained owned (createNew m path perm).
Proof.
  intros Hp. apply contained_sys. intros fs Ht. destruct (String.eqb_spec path ""); cbn; [auto with host|].
  destruct Hp; [done|]. destruct (parent_error _ _) eqn:E; cbn; [auto with host|].
  destruct (look fs (place_of m path)) eqn:El; cbn; auto with host.
Qed.

Lemma is_directory_set_bytes b n : is_directory (set_bytes b n) = is_directory n.
Proof. by destruct n. Qed.
Lemma is_directory_set_perm perm n : is_directory (set_perm perm n) = is_directory n.
Proof. by destruct n. Qed.
Lemma is_directory_set_disk d n : is_directory (set_disk d n) = is_directory n.
Proof. by destruct n. Qed.
Lemma is_directory_set_owner uid gid n : is_directory (set_owner uid gid n) = is_directory n.
Proof. by destruct n. Qed.
#[local] Hint Resolve is_directory_set_bytes is_directory_set_perm is_directory_set_disk : host.

Lemma write_contained path b : place_of m path ∈ owned → contained owned (write m path b).
Proof.
  intros Hp. apply contained_atomic. intros h Ht. destruct (m_fault _ _ _); cbn; auto with host.
Qed.

Lemma chmod_contained path perm : place_of m path ∈ owned → contained owned (chmod m path perm).
Proof.
  intros Hp. apply contained_sys. intros fs Ht. apply on_found_kept; [done|]. intros n _. cbn. auto with host.
Qed.

Lemma chown_contained path uid gid : place_of m path ∈ owned → contained owned (chown m path uid gid).
Proof.
  intros Hp. apply contained_sys. intros fs Ht. apply on_found_kept; [done|]. intros n _. cbn.
  apply kept_alter; [done|done|]. apply is_directory_set_owner.
Qed.

Lemma sync_contained path : contained owned (sync m path).
Proof. apply contained_sys. cbn. auto with host. Qed.

Lemma close_contained path : contained owned (close m path).
Proof. apply contained_sys. cbn. auto with host. Qed.

Lemma say_contained text : contained owned (say text).
Proof. apply contained_atomic. cbn. auto with host. Qed.

Lemma kept_delete fs p : tree fs → p ∈ owned → (∀ x, fs !! (p ++ [x]) = None) → kept owned fs (delete p fs).
Proof. intros Ht Hp Hc. split; [by apply outside_delete|by apply tree_delete]. Qed.

Lemma look_at_entry fs path n : look_at m fs path = Something n → entry fs (place_of m path) = Some n.
Proof. unfold look_at. destruct (path =s ""); [discriminate|]. apply look_entry_of. Qed.

Lemma remove_contained path : path = "" ∨ place_of m path ∈ owned → contained owned (remove m path).
Proof.
  intros Hp. apply contained_sys. intros fs Ht. apply on_found_kept; [done|]. intros n Hl.
  destruct Hp as [->|Hp]; [done|]. destruct (is_directory n && has_entries _ _) eqn:E; cbn; [auto with host|].
  apply kept_delete; [done|done|]. intros x. apply look_at_entry in Hl. destruct (is_directory n) eqn:Ed; cbn in E.
  - by apply has_entries_none.
  - by eapply tree_file.
Qed.

Lemma touch_kept perm path fs : tree fs → place_of m path ∈ owned → kept owned fs (touch m perm path fs).
Proof.
  intros Ht Hp. unfold touch. destruct (parent_error _ _) eqn:E; [auto with host|].
  destruct (look _ _) eqn:El; auto with host.
Qed.

Lemma untouch_kept path fs : tree fs → place_of m path ∈ owned → kept owned fs (untouch m path fs).
Proof.
  intros Ht Hp. unfold untouch. destruct (fs !! place_of m path) as [[perm uid gid c| |]|] eqn:E; auto with host.
  apply kept_delete; [done|done|]. intros x. apply (tree_file fs _ (Regular perm uid gid c)); [done| |done].
  unfold entry. by rewrite E.
Qed.

Lemma sql_effect_kept path d fs c :
  tree fs → place_of m path ∈ owned → place_of m (wal path) ∈ owned → place_of m (shm path) ∈ owned →
  kept owned fs (sql_effect m path d fs c).
Proof.
  intros Ht Hp Hw Hs. destruct c; cbn; auto with host.
  - pose proof (touch_kept 0x1A4 path fs Ht Hp) as H1.
    pose proof (touch_kept 0x1A4 (wal path) _ (proj2 H1) Hw) as H2.
    pose proof (touch_kept 0x1A4 (shm path) _ (proj2 H2) Hs) as H3.
    eapply kept_trans; [exact H1|]. eapply kept_trans; [exact H2|]. eapply kept_trans; [exact H3|].
    apply kept_alter; [apply H3|done|]. intros n. apply is_directory_set_disk.
  - pose proof (untouch_kept (wal path) fs Ht Hw) as H1.
    eapply kept_trans; [exact H1|]. apply untouch_kept; [apply H1|done].
Qed.

Lemma sql_effects_kept path d fs cs :
  tree fs → place_of m path ∈ owned → place_of m (wal path) ∈ owned → place_of m (shm path) ∈ owned →
  kept owned fs (fold_left (sql_effect m path d) cs fs).
Proof.
  intros Ht Hp Hw Hs. revert fs Ht. induction cs as [|c cs IH]; intros fs Ht; cbn; [auto with host|].
  pose proof (sql_effect_kept path d fs c Ht Hp Hw Hs) as H1. eapply kept_trans; [exact H1|]. apply IH, H1.
Qed.

End calls.

#[export] Hint Resolve stat_contained readFile_contained randomBytes_contained mkdir_contained mkdirAll_contained
  createNew_contained write_contained chmod_contained chown_contained sync_contained close_contained say_contained remove_contained : host.

(** ** Files of a directory

    [JoinPath dir name] names [name] in one directory, whatever the name. *)

Definition plain (name : string) : bool :=
  negb (mem_byte "/" name) && negb (name =s "") && negb (name =s ".") && negb (name =s "..").

Lemma split_byte_some sep a : split_byte sep a ≠ [].
Proof. destruct a as [|c a]; cbn; [done|]. destruct (Ascii.eqb c sep); [done|]. by destruct (split_byte sep a). Qed.

Lemma split_byte_app sep a b : split_byte sep (a +:+ String sep b) = split_byte sep a ++ split_byte sep b.
Proof.
  induction a as [|c a IH]; cbn.
  - by rewrite Ascii.eqb_refl.
  - destruct (Ascii.eqb c sep); rewrite IH; [done|].
    pose proof (split_byte_some sep a). by destruct (split_byte sep a).
Qed.

Lemma split_byte_none sep a : mem_byte sep a = false → split_byte sep a = [a].
Proof.
  induction a as [|c a IH]; [done|]. unfold mem_byte in *. cbn. intros [E1 E2]%orb_false_iff.
  rewrite Ascii.eqb_sym, E1. by rewrite IH.
Qed.

Lemma clean_step_plain rooted st name : plain name = true → clean_step rooted st name = name :: st.
Proof.
  unfold plain, clean_step. rewrite !andb_true_iff, !negb_true_iff. intros (((_ & E1) & E2) & E3).
  by rewrite E1, E2, E3.
Qed.

Lemma Join_snoc l x sep : Join (l ++ [x]) sep = match l with [] => x | _ => Join l sep +:+ sep +:+ x end.
Proof.
  destruct l as [|y l]; [done|]. revert y. induction l as [|z l IH]; intros y; [done|].
  change (Join ((y :: z :: l) ++ [x]) sep) with (y +:+ sep +:+ Join ((z :: l) ++ [x]) sep).
  rewrite IH. change (Join (y :: z :: l) sep) with (y +:+ sep +:+ Join (z :: l) sep). by rewrite !append_assoc.
Qed.

Lemma rooted_app a b : a ≠ "" → HasPrefix (a +:+ b) "/" = HasPrefix a "/".
Proof.
  destruct a as [|c a]; [done|]. intros _. unfold HasPrefix. cbn [String.prefix String.append].
  destruct (ascii_dec "/" c); [|done]. assert (∀ s, String.prefix "" s = true) as Hp by (by intros []). by rewrite !Hp.
Qed.

Lemma not_rooted name : mem_byte "/" name = false → HasPrefix name "/" = false.
Proof.
  destruct name as [|c name]; [done|]. cbn [mem_byte]. intros [E _]%orb_false_iff. apply Ascii.eqb_neq in E.
  unfold HasPrefix. cbn [String.prefix]. destruct (ascii_dec "/" c) as [Hc|]; [by destruct E|done].
Qed.

(** What comes before the last component *)
Definition directory_prefix (pre : string) : Prop := pre = "" ∨ ∃ q, pre = q +:+ "/".

Lemma JoinPath_prefix dir : ∃ pre, directory_prefix pre ∧ ∀ name, plain name = true → JoinPath dir name = pre +:+ name.
Proof.
  assert (∀ name, plain name = true → components name = [name] ∧ name ≠ "" ∧ HasPrefix name "/" = false) as Hp.
  { unfold plain. intros name. rewrite !andb_true_iff, !negb_true_iff. intros (((E1 & E2) & _) & _).
    split_and!; [by apply split_byte_none|by apply String.eqb_neq|by apply not_rooted]. }
  destruct (String.eqb_spec dir "") as [->|Hdir].
  - exists "". split; [by left|]. intros name Hn. destruct (Hp name Hn) as (Hc & Hne & Hr).
    unfold JoinPath. apply String.eqb_neq in Hne. rewrite Hne. cbn. unfold Clean.
    rewrite Hr, Hc. cbn [fold_left]. rewrite clean_step_plain by done. cbn. by rewrite Hne.
  - set (rooted := HasPrefix dir "/"). set (l := rev (fold_left (clean_step rooted) (components dir) [])).
    exists ((if rooted then "/" else "") +:+ (match l with [] => "" | _ => Join l "/" +:+ "/" end)). split.
    + unfold directory_prefix. destruct rooted, l as [|y l]; cbn; [right; by exists ""|right|by left|right].
      * exists ("/" +:+ Join (y :: l) "/"). done.
      * exists (Join (y :: l) "/"). done.
    + intros name Hn. destruct (Hp name Hn) as (Hc & Hne & Hr). unfold JoinPath.
      apply String.eqb_neq in Hne, Hdir. rewrite Hdir, Hne. apply String.eqb_neq in Hdir. cbn [andb].
      unfold Clean. assert (HasPrefix (dir +:+ "/" +:+ name) "/" = rooted) as ->.
      { by apply rooted_app. }
      unfold components. change ("/" +:+ name) with (String "/" name). rewrite split_byte_app.
      rewrite fold_left_app. unfold components in Hc. rewrite Hc. cbn [fold_left]. rewrite clean_step_plain by done.
      cbn [rev]. fold (components dir). fold l. rewrite Join_snoc. apply String.eqb_neq in Hne.
      unfold Join. destruct rooted, l as [|y l']; cbn -[String.concat]; try done.
      * by rewrite !append_assoc.
      * apply String.eqb_neq in Hne. by rewrite Hne.
      * set (pre := String.concat _ _) in *. destruct (String.eqb_spec (pre +:+ String "/" name) "") as [E|_];
          [by destruct pre|]. by rewrite append_assoc.
Qed.

Lemma place_of_prefix m pre : directory_prefix pre →
  ∃ base, ∀ name, plain name = true → place_of m (pre +:+ name) = base ++ [name].
Proof.
  intros Hpre. assert (∃ q, ∀ name, plain name = true →
    (if HasPrefix (pre +:+ name) "/" then pre +:+ name else m_cwd m +:+ "/" +:+ (pre +:+ name)) = q +:+ String "/" name)
    as [q Hq].
  { destruct Hpre as [->|[q ->]].
    - exists (m_cwd m). intros name Hn. change ("" +:+ name) with name. unfold plain in Hn. rewrite !andb_true_iff, !negb_true_iff in Hn.
      destruct Hn as (((E1 & E2) & _) & _). by rewrite not_rooted.
    - exists (if HasPrefix (q +:+ "/") "/" then q else m_cwd m +:+ "/" +:+ q). intros name _.
      assert (HasPrefix ((q +:+ "/") +:+ name) "/" = HasPrefix (q +:+ "/") "/") as -> by (apply rooted_app; by destruct q).
      destruct (HasPrefix (q +:+ "/") "/"); rewrite !append_assoc; done. }
  exists (rev (fold_left (clean_step true) (components q) [])). intros name Hn. unfold place_of. rewrite Hq by done.
  unfold components. rewrite split_byte_app, fold_left_app.
  assert (mem_byte "/" name = false) as Hm.
  { unfold plain in Hn. rewrite !andb_true_iff, !negb_true_iff in Hn. tauto. }
  rewrite (split_byte_none _ _ Hm). cbn [fold_left]. by rewrite clean_step_plain.
Qed.
