(* ===== verification/StoreUsers.v ===== *)
(** * Users, gateway keys and second factors (store.go)

    The statements ([insert_user], [delete_users], ...) are the SQL texts; the
    operations are the methods of [Store], as programs over the database. *)

From S2P Require Import Prelude GoStrings GoTime Effects Sql Schema Names.

Record User := mkUser {
  User_ID : Z;
  User_Username : string;
  User_Role : string;
  User_Enabled : bool;
  User_TOTPEnabled : bool;
  User_CreatedAt : time;
}.

Record TOTPConfig := mkTOTPConfig {
  TOTP_UserID : Z;
  TOTP_Nonce : string;
  TOTP_Ciphertext : string;
  TOTP_LastCounter : Z;
}.

Record GatewayKey := mkGatewayKey {
  Key_ID : Z;
  Key_UserID : Z;
  Key_Fingerprint : string;
  Key_PublicKey : string;
  Key_Label : string;
  Key_CreatedAt : time;
}.

(** store.go: changed *)
Definition changed (r : result Z) : result unit :=
  match r with
  | Err e => Err e
  | Ok n => if n =? 0 then Err ErrNoRows else Ok tt
  end.

Definition user_exists (id : Z) (d : db) : bool := exists_row (λ u, u_id u =? id) d.(users).
Definition target_exists (id : Z) (d : db) : bool := exists_row (λ t, t_id t =? id) d.(targets).

Section store_users.
Context `{UnicodeTables, Rowids, TimeParser}.

(** ** Statements *)

(** INSERT INTO users(username,role) *)
Definition insert_user (username role : string) (d : db) : result Z * db :=
  if exists_row (λ u, u_username u =s username) d.(users) then (Err (Sql Unique), d)
  else if negb (validRole role) then (Err (Sql CheckFailed), d)
  else
    let id := new_rowid (u_id <$> d.(users)) in
    (Ok id, set_users (insert_row (User_row id username role true (CURRENT_TIMESTAMP d))) d).

(** UPDATE users SET enabled=? WHERE id=? *)
Definition update_user_enabled (enabled : bool) (id : Z) (d : db) : result Z * db :=
  let p := λ u, u_id u =? id in
  (Ok (count_rows p d.(users)),
   set_users (update_rows p (λ u, User_row (u_id u) (u_username u) (u_role u) enabled (u_created_at u))) d).

(** UPDATE users SET role=? WHERE id=? *)
Definition update_user_role (role : string) (id : Z) (d : db) : result Z * db :=
  let p := λ u, u_id u =? id in
  if (0 <? count_rows p d.(users)) && negb (validRole role) then (Err (Sql CheckFailed), d)
  else (Ok (count_rows p d.(users)),
        set_users (update_rows p (λ u, User_row (u_id u) (u_username u) role (u_enabled u) (u_created_at u))) d).

(** What ON DELETE CASCADE and ON DELETE SET NULL do to the rows that refer to
    the user [id]. *)
Definition cascade_user (id : Z) (d : db) : db :=
  set_audit_events
    (update_rows (λ e, bool_decide (ae_actor_user_id e = Some id))
       (λ e, Audit_row (ae_id e) (ae_at e) None (ae_claimed_username e) (ae_source_address e)
                       (ae_event_type e) (ae_target_id e) (ae_outcome e) (ae_details e)))
  (set_oidc_identities (delete_rows (λ o, oi_user_id o =? id))
  (set_user_totp (delete_rows (λ t, ut_user_id t =? id))
  (set_user_target_grants (delete_rows (λ g, gr_principal_id g =? id))
  (set_group_members (delete_rows (λ m, gm_user_id m =? id))
  (set_gateway_keys (delete_rows (λ k, k_user_id k =? id)) d))))).

(** DELETE FROM users WHERE id=? *)
Definition delete_user (id : Z) (d : db) : result Z * db :=
  let p := λ u, u_id u =? id in
  if exists_row p d.(users)
  then (Ok (count_rows p d.(users)), set_users (delete_rows p) (cascade_user id d))
  else (Ok 0, d).

(** INSERT INTO gateway_keys(user_id,fingerprint,public_key,label) *)
Definition insert_gateway_key (user_id : Z) (fingerprint public_key label : string) (d : db) : result Z * db :=
  if exists_row (λ k, (k_user_id k =? user_id) && (k_fingerprint k =s fingerprint)) d.(gateway_keys)
  then (Err (Sql Unique), d)
  else if negb (user_exists user_id d) then (Err (Sql ForeignKey), d)
  else
    let id := new_rowid (k_id <$> d.(gateway_keys)) in
    (Ok id, set_gateway_keys (insert_row (Key_row id user_id fingerprint public_key label (CURRENT_TIMESTAMP d))) d).

(** DELETE FROM gateway_keys WHERE user_id=? AND fingerprint=? *)
Definition delete_gateway_key (user_id : Z) (fingerprint : string) (d : db) : result Z * db :=
  let p := λ k, (k_user_id k =? user_id) && (k_fingerprint k =s fingerprint) in
  (Ok (count_rows p d.(gateway_keys)), set_gateway_keys (delete_rows p) d).

(** INSERT INTO user_totp ... ON CONFLICT(user_id) DO UPDATE *)
Definition upsert_totp (user_id : Z) (nonce ciphertext : string) (d : db) : result Z * db :=
  let p := λ t, ut_user_id t =? user_id in
  if exists_row p d.(user_totp) then
    (Ok (count_rows p d.(user_totp)),
     set_user_totp (update_rows p (λ t, Totp_row (ut_user_id t) nonce ciphertext (-1) (CURRENT_TIMESTAMP d))) d)
  else if negb (user_exists user_id d) then (Err (Sql ForeignKey), d)
  else (Ok 1, set_user_totp (insert_row (Totp_row user_id nonce ciphertext (-1) (CURRENT_TIMESTAMP d))) d).

(** DELETE FROM user_totp WHERE user_id=? *)
Definition delete_totp (user_id : Z) (d : db) : result Z * db :=
  let p := λ t, ut_user_id t =? user_id in
  (Ok (count_rows p d.(user_totp)), set_user_totp (delete_rows p) d).

(** UPDATE user_totp SET last_counter=? WHERE user_id=? AND last_counter<? *)
Definition update_totp_counter (user_id counter : Z) (d : db) : result Z * db :=
  let p := λ t, (ut_user_id t =? user_id) && (ut_last_counter t <? counter) in
  (Ok (count_rows p d.(user_totp)),
   set_user_totp (update_rows p (λ t, Totp_row (ut_user_id t) (ut_nonce t) (ut_ciphertext t) counter (ut_created_at t))) d).

(** ** Users *)

(** EXISTS(SELECT 1 FROM user_totp WHERE user_id=users.id) *)
Definition has_totp (id : Z) (d : db) : bool := exists_row (λ t, ut_user_id t =? id) d.(user_totp).

Definition user_of_row (d : db) (u : user_row) : User :=
  mkUser (u_id u) (u_username u) (u_role u) (u_enabled u) (has_totp (u_id u) d)
         (parseTime (u_created_at u)).

Definition scanUser (d : db) (row : option user_row) : result User :=
  match row with
  | Some u => Ok (user_of_row d u)
  | None => Err ErrNoRows
  end.

Definition UserByID (id : Z) : prog db (result User) :=
  query (λ d, scanUser d (query_row (λ u, u_id u =? id) d.(users))).

Definition UserByName (name : string) : prog db (result User) :=
  query (λ d, scanUser d (query_row (λ u, u_username u =s ToLower name) d.(users))).

Definition ListUsers : prog db (result (list User)) :=
  query (λ d, Ok (map (user_of_row d) (order_by (λ a b, text_le (u_username a) (u_username b)) d.(users)))).

Definition AddUser (username role : string) : prog db (result User) :=
  let? username := lift (validateName username "username") in
  if negb (validRole role) then Ret (Err (Msg "role must be admin or member"))
  else
    let? id := atomic (insert_user username role) in
    UserByID id.

(** An enabled administrator other than [exclude] with a gateway key: the rows
    count(DISTINCT u.id) counts over users JOIN gateway_keys. *)
Definition usable_admin_row (d : db) (exclude : Z) (u : user_row) : bool :=
  (u_role u =s "admin") && u_enabled u && negb (u_id u =? exclude)
  && exists_row (λ k, k_user_id k =? u_id u) d.(gateway_keys).

Definition ensureOtherUsableAdmin (exclude : Z) : prog db (result unit) :=
  let* n := query (λ d, count_rows (usable_admin_row d exclude) d.(users)) in
  if n =? 0 then Ret (Err (Msg "operation would remove the final usable administrator"))
  else Ret (Ok tt).

Definition SetUserEnabled (name : string) (enabled : bool) : prog db (result unit) :=
  let? u := UserByName name in
  let? _ := if negb enabled && (User_Role u =s RoleAdmin)
            then ensureOtherUsableAdmin (User_ID u) else Ret (Ok tt) in
  let* r := atomic (update_user_enabled enabled (User_ID u)) in
  Ret (changed r).

Definition SetUserRole (name role : string) : prog db (result unit) :=
  if negb (validRole role) then Ret (Err (Msg "role must be admin or member"))
  else
    let? u := UserByName name in
    let? _ := if (User_Role u =s RoleAdmin) && negb (role =s RoleAdmin)
              then ensureOtherUsableAdmin (User_ID u) else Ret (Ok tt) in
    let* r := atomic (update_user_role role (User_ID u)) in
    Ret (changed r).

Definition DeleteUser (name : string) : prog db (result unit) :=
  let? u := UserByName name in
  let? _ := if User_Role u =s RoleAdmin
            then ensureOtherUsableAdmin (User_ID u) else Ret (Ok tt) in
  let* r := atomic (delete_user (User_ID u)) in
  Ret (changed r).

(** ** Gateway keys *)

Definition AddGatewayKey (username fingerprint publicKey label : string) : prog db (result unit) :=
  let? u := UserByName username in
  let* present := query (λ d, exists_row
    (λ k, (k_user_id k =? User_ID u) && (k_fingerprint k =s fingerprint)) d.(gateway_keys)) in
  if (present : bool) then Ret (Err (Msg "that SSH key is already assigned to this user"))
  else
    let? _ := atomic (insert_gateway_key (User_ID u) fingerprint publicKey label) in
    Ret (Ok tt).

Definition key_of_row (k : key_row) : GatewayKey :=
  mkGatewayKey (k_id k) (k_user_id k) (k_fingerprint k) (k_public_key k) (k_label k)
               (parseTime (k_created_at k)).

Definition ListGatewayKeys (username : string) : prog db (result (list GatewayKey)) :=
  let? u := UserByName username in
  query (λ d, Ok (map key_of_row (order_by (λ a b, k_id a <=? k_id b)
                    (select (λ k, k_user_id k =? User_ID u) d.(gateway_keys))))).

Definition RemoveGatewayKey (username fingerprint : string) : prog db (result unit) :=
  let? u := UserByName username in
  let* count := query (λ d, count_rows (λ k, k_user_id k =? User_ID u) d.(gateway_keys)) in
  let? _ := if (User_Role u =s RoleAdmin) && User_Enabled u && (count <=? 1)
            then ensureOtherUsableAdmin (User_ID u) else Ret (Ok tt) in
  let* r := atomic (delete_gateway_key (User_ID u) fingerprint) in
  Ret (changed r).

(** users u JOIN gateway_keys k ON k.user_id=u.id WHERE u.username=? AND
    u.enabled=1 AND k.fingerprint=? *)
Definition authenticates (d : db) (username fingerprint : string) (u : user_row) : bool :=
  (u_username u =s username) && u_enabled u
  && exists_row (λ k, (k_user_id k =? u_id u) && (k_fingerprint k =s fingerprint)) d.(gateway_keys).

Definition AuthenticateKey (username fingerprint : string) : prog db (result User) :=
  query (λ d, scanUser d (query_row (authenticates d (ToLower username) fingerprint) d.(users))).

(** ** TOTP *)

Definition SetUserTOTP (userID : Z) (nonce ciphertext : string) : prog db (result unit) :=
  if (len nonce =? 0) || (len ciphertext =? 0)
  then Ret (Err (Msg "encrypted TOTP secret is required"))
  else
    let? _ := atomic (upsert_totp userID nonce ciphertext) in
    Ret (Ok tt).

Definition UserTOTP (userID : Z) : prog db (result TOTPConfig) :=
  query (λ d, match query_row (λ t, ut_user_id t =? userID) d.(user_totp) with
              | Some t => Ok (mkTOTPConfig (ut_user_id t) (ut_nonce t) (ut_ciphertext t) (ut_last_counter t))
              | None => Err ErrNoRows
              end).

Definition RemoveUserTOTP (userID : Z) : prog db (result unit) :=
  let* result := atomic (delete_totp userID) in
  Ret (changed result).

Definition ConsumeTOTPCounter (userID counter : Z) : prog db (result unit) :=
  let? rows := atomic (update_totp_counter userID counter) in
  if negb (rows =? 1) then Ret (Err (Msg "TOTP code was already used"))
  else Ret (Ok tt).

End store_users.
