(* ===== verification/StoreOIDC.v ===== *)
(** * OIDC identities (store.go)

    Mapping, linking, authenticating and removing the identities that bind an
    issuer's subject or user name to a gateway user. *)

From S2P Require Import Prelude GoStrings GoTime Effects Sql Schema StoreUsers.

Record OIDCIdentity := mkOIDCIdentity {
  OIDC_ID : Z;
  OIDC_UserID : Z;
  OIDC_Username : string;
  OIDC_Issuer : string;
  OIDC_Subject : string;
  OIDC_ProviderUsername : string;
  OIDC_CreatedAt : time;
  OIDC_UpdatedAt : time;
}.

Section store_oidc.
Context `{UnicodeTables, Rowids, TimeParser}.

Definition validateOIDCValue (value kind : string) (limit : Z) : result string :=
  let value := TrimSpace value in
  if (value =s "") || (limit <? len value)
  then Err (Msg (kind +:+ " must contain between 1 and " +:+ Itoa limit +:+ " bytes"))
  else if existsb (λ '(r, _), (r <? 0x20) || (r =? 0x7F)) (runes value)
  then Err (Msg (kind +:+ " contains control characters"))
  else Ok value.

Definition normalizeOIDCValues (issuer subject providerUsername : string) :
    result (string * string * string) :=
  let! issuer := validateOIDCValue issuer "OIDC issuer" 2048 in
  let! subject := validateOIDCValue subject "OIDC subject" 512 in
  let! providerUsername := validateOIDCValue (ToLower providerUsername) "OIDC username" 255 in
  Ok (issuer, subject, providerUsername).

(** ** Statements *)

Definition oidc_of (user_id : Z) (issuer : string) (o : oidc_row) : bool :=
  (oi_user_id o =? user_id) && (oi_issuer o =s issuer).

Definition has_subject (issuer subject : string) (o : oidc_row) : bool :=
  (oi_issuer o =s issuer) && bool_decide (oi_subject o = Some subject).

Definition has_provider_name (issuer name : string) (o : oidc_row) : bool :=
  (oi_issuer o =s issuer) && (oi_provider_username o =s name).

(** Some other row holds the subject or the provider user name. *)
Definition oidc_clash (user_id : Z) (issuer : string) (subject : option string) (name : string)
    (o : oidc_row) : bool :=
  negb (oidc_of user_id issuer o)
  && (has_provider_name issuer name o
      || match subject with Some s => has_subject issuer s o | None => false end).

(** INSERT INTO oidc_identities ... ON CONFLICT(user_id,issuer) DO UPDATE *)
Definition upsert_oidc (user_id : Z) (issuer : string) (subject : option string) (name : string)
    (d : db) : result Z * db :=
  let p := oidc_of user_id issuer in
  let now := CURRENT_TIMESTAMP d in
  if exists_row (oidc_clash user_id issuer subject name) d.(oidc_identities)
  then (Err (Sql Unique), d)
  else if exists_row p d.(oidc_identities) then
    (Ok (count_rows p d.(oidc_identities)),
     set_oidc_identities (update_rows p (λ o,
       Oidc_row (oi_id o) (oi_user_id o) (oi_issuer o) subject name (oi_created_at o) now)) d)
  else if negb (user_exists user_id d) then (Err (Sql ForeignKey), d)
  else
    let id := new_rowid (oi_id <$> d.(oidc_identities)) in
    (Ok 1, set_oidc_identities (insert_row (Oidc_row id user_id issuer subject name now now)) d).

(** UPDATE oidc_identities SET subject=? WHERE user_id=? AND issuer=? AND subject IS NULL *)
Definition update_oidc_subject (subject : string) (user_id : Z) (issuer : string) (d : db) : result Z * db :=
  let p := λ o, oidc_of user_id issuer o && bool_decide (oi_subject o = None) in
  if exists_row p d.(oidc_identities)
     && exists_row (λ o, negb (p o) && has_subject issuer subject o) d.(oidc_identities)
  then (Err (Sql Unique), d)
  else
    (Ok (count_rows p d.(oidc_identities)),
     set_oidc_identities (update_rows p (λ o,
       Oidc_row (oi_id o) (oi_user_id o) (oi_issuer o) (Some subject) (oi_provider_username o)
                (oi_created_at o) (CURRENT_TIMESTAMP d))) d).

(** UPDATE oidc_identities SET provider_username=? WHERE user_id=? AND issuer=? *)
Definition update_oidc_name (name : string) (user_id : Z) (issuer : string) (d : db) : result Z * db :=
  let p := oidc_of user_id issuer in
  if exists_row p d.(oidc_identities)
     && exists_row (λ o, negb (p o) && has_provider_name issuer name o) d.(oidc_identities)
  then (Err (Sql Unique), d)
  else
    (Ok (count_rows p d.(oidc_identities)),
     set_oidc_identities (update_rows p (λ o,
       Oidc_row (oi_id o) (oi_user_id o) (oi_issuer o) (oi_subject o) name
                (oi_created_at o) (CURRENT_TIMESTAMP d))) d).

(** DELETE FROM oidc_identities WHERE user_id=? AND issuer=? *)
Definition delete_oidc (user_id : Z) (issuer : string) (d : db) : result Z * db :=
  let p := oidc_of user_id issuer in
  (Ok (count_rows p d.(oidc_identities)), set_oidc_identities (delete_rows p) d).

(** ** Operations *)

Definition SetOIDCUsernameMapping (userID : Z) (issuer providerUsername : string) : prog db (result unit) :=
  let? issuer := lift (validateOIDCValue issuer "OIDC issuer" 2048) in
  let? providerUsername := lift (validateOIDCValue (ToLower providerUsername) "OIDC username" 255) in
  let? _ := UserByID userID in
  let? _ := atomic (upsert_oidc userID issuer None providerUsername) in
  Ret (Ok tt).

(** SELECT DISTINCT user_id ... WHERE issuer=? AND (subject=? OR provider_username=?) *)
Definition oidc_owners (issuer subject name : string) (d : db) : list Z :=
  remove_dups (map oi_user_id
    (select (λ o, has_subject issuer subject o || has_provider_name issuer name o) d.(oidc_identities))).

Definition LinkOIDCIdentity (userID : Z) (issuer subject providerUsername : string) : prog db (result unit) :=
  match normalizeOIDCValues issuer subject providerUsername with
  | Err e => Ret (Err e)
  | Ok (issuer, subject, providerUsername) =>
    let? _ := UserByID userID in
    transaction (
      let* owners := query (oidc_owners issuer subject providerUsername) in
      if existsb (λ owner, negb (owner =? userID)) owners
      then Ret (Err (Msg "OIDC identity is already mapped to another user"))
      else
        let? _ := atomic (upsert_oidc userID issuer (Some subject) providerUsername) in
        Ret (Ok tt))
  end.

(** The row an authenticated subject resolves to: the one bound to it, whose
    user name is refreshed, or else the pending mapping of its user name, which
    is bound. *)
Definition resolveOIDC (issuer subject providerUsername : string) : prog db (result Z) :=
  let* found := query (λ d, query_row (has_subject issuer subject) d.(oidc_identities)) in
  match found with
  | None =>
    let* pending := query (λ d, query_row
      (λ o, has_provider_name issuer providerUsername o && bool_decide (oi_subject o = None))
      d.(oidc_identities)) in
    match pending with
    | None => Ret (Err ErrNoRows)
    | Some o =>
      let? _ := atomic (update_oidc_subject subject (oi_user_id o) issuer) in
      Ret (Ok (oi_user_id o))
    end
  | Some o =>
    let? _ := atomic (update_oidc_name providerUsername (oi_user_id o) issuer) in
    Ret (Ok (oi_user_id o))
  end.

Definition AuthenticateOIDC (claimedUsername issuer subject providerUsername : string) :
    prog db (result User) :=
  match normalizeOIDCValues issuer subject providerUsername with
  | Err e => Ret (Err e)
  | Ok (issuer, subject, providerUsername) =>
    let claimedUsername := ToLower (TrimSpace claimedUsername) in
    transaction (
      let* r := resolveOIDC issuer subject providerUsername in
      match r with
      | Err _ => Ret (Err (Msg "OIDC identity is not mapped"))
      | Ok userID =>
        let* ru := UserByID userID in
        match ru with
        | Ok u =>
          if negb (User_Enabled u) || negb (User_Username u =s claimedUsername)
          then Ret (Err (Msg "OIDC identity is not mapped to the claimed SSH user"))
          else Ret (Ok u)
        | Err _ => Ret (Err (Msg "OIDC identity is not mapped to the claimed SSH user"))
        end
      end)
  end.

(** ** Queries *)

Definition scanOIDCIdentity (o : oidc_row) (u : user_row) : OIDCIdentity :=
  mkOIDCIdentity (oi_id o) (oi_user_id o) (u_username u) (oi_issuer o)
    (match oi_subject o with Some s => s | None => "" end)
    (oi_provider_username o) (parseTime (oi_created_at o)) (parseTime (oi_updated_at o)).

(** oidc_identities o JOIN users u ON u.id=o.user_id WHERE p o *)
Definition oidc_join (p : oidc_row → bool) (d : db) : list (oidc_row * user_row) :=
  flat_map (λ o, map (λ u, (o, u)) (select (λ u, u_id u =? oi_user_id o) d.(users)))
    (select p d.(oidc_identities)).

Definition OIDCIdentityForUser (userID : Z) (issuer : string) : prog db (result OIDCIdentity) :=
  query (λ d, match oidc_join (oidc_of userID issuer) d with
              | (o, u) :: _ => Ok (scanOIDCIdentity o u)
              | [] => Err ErrNoRows
              end).

Definition ListOIDCIdentities (issuer : string) : prog db (result (list OIDCIdentity)) :=
  query (λ d, Ok (map (λ '(o, u), scanOIDCIdentity o u)
    (order_by (λ a b, text_le (u_username a.2) (u_username b.2))
       (oidc_join (λ o, oi_issuer o =s issuer) d)))).

Definition RemoveOIDCIdentity (userID : Z) (issuer : string) : prog db (result unit) :=
  let? n := atomic (delete_oidc userID issuer) in
  if negb (n =? 1) then Ret (Err ErrNoRows) else Ret (Ok tt).

End store_oidc.
