(* ===== verification/StoreTargets.v ===== *)
(** * Groups, reusable SSH identities and targets (store.go) *)

From S2P Require Import Prelude GoStrings GoTime Effects Sql Schema Names StoreUsers.

Record Group := mkGroup { Group_ID : Z; Group_Name : string; Group_CreatedAt : time }.
Record GroupMember := mkGroupMember { GM_Group : string; GM_Username : string }.

Record SSHIdentity := mkSSHIdentity {
  SI_ID : Z;
  SI_Name : string;
  SI_PublicKey : string;
  SI_Fingerprint : string;
  SI_Nonce : string;
  SI_Ciphertext : string;
  SI_CreatedAt : time;
}.

Record Target := mkTarget {
  Target_ID : Z;
  Target_Name : string;
  Target_Host : string;
  Target_RemoteUsername : string;
  Target_CredentialKind : string;
  Target_Port : Z;
  Target_Enabled : bool;
  Target_HostKeyAlgorithm : string;
  Target_HostPublicKey : string;
  Target_Nonce : string;
  Target_Ciphertext : string;
  Target_IdentityID : option Z;
  Target_CreatedAt : time;
  Target_UpdatedAt : time;
}.

Record NewTarget := mkNewTarget {
  NT_Name : string;
  NT_Host : string;
  NT_Port : Z;
  NT_RemoteUsername : string;
  NT_CredentialKind : string;
  NT_HostKeyAlgorithm : string;
  NT_HostPublicKey : string;
  NT_IdentityID : option Z;
}.

Definition group_exists (id : Z) (d : db) : bool := exists_row (λ g, g_id g =? id) d.(groups_table).
Definition identity_exists (id : Z) (d : db) : bool := exists_row (λ s, si_id s =? id) d.(ssh_identities).

(** A nullable reference to an SSH identity satisfies its foreign key. *)
Definition identity_ref_ok (ref : option Z) (d : db) : bool :=
  match ref with None => true | Some id => identity_exists id d end.

Section store_targets.
Context `{UnicodeTables, Rowids, TimeParser}.

(** ** Statements on groups *)

(** INSERT INTO groups_table(name) *)
Definition insert_group (name : string) (d : db) : result Z * db :=
  if exists_row (λ g, g_name g =s name) d.(groups_table) then (Err (Sql Unique), d)
  else
    let id := new_rowid (g_id <$> d.(groups_table)) in
    (Ok id, set_groups_table (insert_row (Group_row id name (CURRENT_TIMESTAMP d))) d).

(** DELETE FROM groups_table WHERE name=?, with ON DELETE CASCADE *)
Definition delete_group (name : string) (d : db) : result Z * db :=
  let p := λ g, g_name g =s name in
  let gone := λ id, exists_row (λ g, p g && (g_id g =? id)) d.(groups_table) in
  (Ok (count_rows p d.(groups_table)),
   set_groups_table (delete_rows p)
   (set_group_members (delete_rows (λ m, gone (gm_group_id m)))
   (set_group_target_grants (delete_rows (λ g, gone (gr_principal_id g))) d))).

(** INSERT OR IGNORE INTO group_members *)
Definition insert_group_member (gid uid : Z) (d : db) : result Z * db :=
  if exists_row (λ m, (gm_group_id m =? gid) && (gm_user_id m =? uid)) d.(group_members)
  then (Ok 0, d)
  else if negb (group_exists gid d && user_exists uid d) then (Err (Sql ForeignKey), d)
  else (Ok 1, set_group_members (insert_row (Member_row gid uid)) d).

(** DELETE FROM group_members WHERE group_id=? AND user_id=? *)
Definition delete_group_member (gid uid : Z) (d : db) : result Z * db :=
  let p := λ m, (gm_group_id m =? gid) && (gm_user_id m =? uid) in
  (Ok (count_rows p d.(group_members)), set_group_members (delete_rows p) d).

(** ** Statements on SSH identities *)

(** INSERT INTO ssh_identities(name,public_key,fingerprint) *)
Definition insert_identity (name publicKey fingerprint : string) (d : db) : result Z * db :=
  if exists_row (λ s, (si_name s =s name) || (si_fingerprint s =s fingerprint)) d.(ssh_identities)
  then (Err (Sql Unique), d)
  else
    let id := new_rowid (si_id <$> d.(ssh_identities)) in
    (Ok id, set_ssh_identities
       (insert_row (Identity_row id name publicKey fingerprint "" "" (CURRENT_TIMESTAMP d))) d).

(** UPDATE ssh_identities SET credential_nonce=?,credential_ciphertext=? WHERE id=? *)
Definition update_identity_secret (nonce ciphertext : string) (id : Z) (d : db) : result Z * db :=
  let p := λ s, si_id s =? id in
  (Ok (count_rows p d.(ssh_identities)),
   set_ssh_identities (update_rows p (λ s,
     Identity_row (si_id s) (si_name s) (si_public_key s) (si_fingerprint s) nonce ciphertext
                  (si_created_at s))) d).

(** DELETE FROM ssh_identities WHERE name=?, with ON DELETE RESTRICT *)
Definition delete_identity (name : string) (d : db) : result Z * db :=
  let p := λ s, si_name s =s name in
  if exists_row (λ t, match t_identity_id t with
                      | Some id => exists_row (λ s, p s && (si_id s =? id)) d.(ssh_identities)
                      | None => false
                      end) d.(targets)
  then (Err (Sql ForeignKey), d)
  else (Ok (count_rows p d.(ssh_identities)), set_ssh_identities (delete_rows p) d).

(** ** Statements on targets *)

(** INSERT INTO targets(name,host,port,remote_username,credential_kind,
    host_key_algorithm,host_public_key,identity_id) *)
Definition insert_target (n : NewTarget) (d : db) : result Z * db :=
  if exists_row (λ t, t_name t =s NT_Name n) d.(targets) then (Err (Sql Unique), d)
  else if negb (valid_port (NT_Port n) && validCredentialKind (NT_CredentialKind n))
  then (Err (Sql CheckFailed), d)
  else if negb (identity_ref_ok (NT_IdentityID n) d) then (Err (Sql ForeignKey), d)
  else
    let id := new_rowid (t_id <$> d.(targets)) in
    let now := CURRENT_TIMESTAMP d in
    (Ok id, set_targets (insert_row
       (Target_row id (NT_Name n) (NT_Host n) (NT_Port n) (NT_RemoteUsername n) (NT_CredentialKind n)
          "" "" (NT_HostKeyAlgorithm n) (NT_HostPublicKey n) true now now (NT_IdentityID n))) d).

(** UPDATE targets SET enabled=?,updated_at=CURRENT_TIMESTAMP WHERE name=? *)
Definition update_target_enabled (enabled : bool) (name : string) (d : db) : result Z * db :=
  let p := λ t, t_name t =s name in
  (Ok (count_rows p d.(targets)),
   set_targets (update_rows p (λ t,
     Target_row (t_id t) (t_name t) (t_host t) (t_port t) (t_remote_username t) (t_credential_kind t)
       (t_nonce t) (t_ciphertext t) (t_host_key_algorithm t) (t_host_public_key t) enabled
       (t_created_at t) (CURRENT_TIMESTAMP d) (t_identity_id t))) d).

(** What the deletion of the target [id] does to the rows that refer to it. *)
Definition cascade_target (id : Z) (d : db) : db :=
  set_audit_events
    (update_rows (λ e, bool_decide (ae_target_id e = Some id))
       (λ e, Audit_row (ae_id e) (ae_at e) (ae_actor_user_id e) (ae_claimed_username e)
                       (ae_source_address e) (ae_event_type e) None (ae_outcome e) (ae_details e)))
  (set_target_forward_rules (delete_rows (λ r, fr_target_id r =? id))
  (set_group_target_grants (delete_rows (λ g, gr_target_id g =? id))
  (set_user_target_grants (delete_rows (λ g, gr_target_id g =? id)) d))).

(** DELETE FROM targets WHERE name=? (at most one row: the name is UNIQUE) *)
Definition delete_target (name : string) (d : db) : result Z * db :=
  let p := λ t, t_name t =s name in
  match query_row p d.(targets) with
  | Some t => (Ok (count_rows p d.(targets)), set_targets (delete_rows p) (cascade_target (t_id t) d))
  | None => (Ok 0, d)
  end.

(** UPDATE targets SET credential_nonce=?,credential_ciphertext=?,
    identity_id=NULL,updated_at=CURRENT_TIMESTAMP WHERE id=? *)
Definition update_target_credential (nonce ciphertext : string) (id : Z) (d : db) : result Z * db :=
  let p := λ t, t_id t =? id in
  (Ok (count_rows p d.(targets)),
   set_targets (update_rows p (λ t,
     Target_row (t_id t) (t_name t) (t_host t) (t_port t) (t_remote_username t) (t_credential_kind t)
       nonce ciphertext (t_host_key_algorithm t) (t_host_public_key t) (t_enabled t)
       (t_created_at t) (CURRENT_TIMESTAMP d) None)) d).

(** The same with credential_kind=? *)
Definition update_target_credential_kind (kind nonce ciphertext : string) (id : Z) (d : db) : result Z * db :=
  let p := λ t, t_id t =? id in
  if (0 <? count_rows p d.(targets)) && negb (validCredentialKind kind) then (Err (Sql CheckFailed), d)
  else
    (Ok (count_rows p d.(targets)),
     set_targets (update_rows p (λ t,
       Target_row (t_id t) (t_name t) (t_host t) (t_port t) (t_remote_username t) kind
         nonce ciphertext (t_host_key_algorithm t) (t_host_public_key t) (t_enabled t)
         (t_created_at t) (CURRENT_TIMESTAMP d) None)) d).

(** UPDATE targets SET credential_kind='stored_key',credential_nonce=NULL,
    credential_ciphertext=NULL,identity_id=?,... WHERE id=? *)
Definition update_target_identity (identityID id : Z) (d : db) : result Z * db :=
  let p := λ t, t_id t =? id in
  if (0 <? count_rows p d.(targets)) && negb (identity_exists identityID d) then (Err (Sql ForeignKey), d)
  else
    (Ok (count_rows p d.(targets)),
     set_targets (update_rows p (λ t,
       Target_row (t_id t) (t_name t) (t_host t) (t_port t) (t_remote_username t) CredentialStoredKey
         "" "" (t_host_key_algorithm t) (t_host_public_key t) (t_enabled t)
         (t_created_at t) (CURRENT_TIMESTAMP d) (Some identityID))) d).

(** UPDATE targets SET host_key_algorithm=?,host_public_key=?,... WHERE name=? *)
Definition update_target_host_key (algorithm publicKey name : string) (d : db) : result Z * db :=
  let p := λ t, t_name t =s name in
  (Ok (count_rows p d.(targets)),
   set_targets (update_rows p (λ t,
     Target_row (t_id t) (t_name t) (t_host t) (t_port t) (t_remote_username t) (t_credential_kind t)
       (t_nonce t) (t_ciphertext t) algorithm publicKey (t_enabled t)
       (t_created_at t) (CURRENT_TIMESTAMP d) (t_identity_id t))) d).

(** UPDATE targets SET host=?,port=?,remote_username=?,... WHERE name=? *)
Definition update_target_fields (host : string) (port : Z) (remoteUser name : string) (d : db) : result Z * db :=
  let p := λ t, t_name t =s name in
  if (0 <? count_rows p d.(targets)) && negb (valid_port port) then (Err (Sql CheckFailed), d)
  else
    (Ok (count_rows p d.(targets)),
     set_targets (update_rows p (λ t,
       Target_row (t_id t) (t_name t) host port remoteUser (t_credential_kind t)
         (t_nonce t) (t_ciphertext t) (t_host_key_algorithm t) (t_host_public_key t) (t_enabled t)
         (t_created_at t) (CURRENT_TIMESTAMP d) (t_identity_id t))) d).

(** ** Groups *)

Definition AddGroup (name : string) : prog db (result unit) :=
  let? name := lift (validateName name "group") in
  let? _ := atomic (insert_group name) in
  Ret (Ok tt).

Definition DeleteGroup (name : string) : prog db (result unit) :=
  let* r := atomic (delete_group (ToLower name)) in
  Ret (changed r).

Definition group_of_row (g : group_row) : Group :=
  mkGroup (g_id g) (g_name g) (parseTime (g_created_at g)).

Definition ListGroups : prog db (result (list Group)) :=
  query (λ d, Ok (map group_of_row
    (order_by (λ a b, text_le (g_name a) (g_name b)) d.(groups_table)))).

(** SELECT id FROM groups_table WHERE name=? *)
Definition group_id_by_name (name : string) : prog db (result Z) :=
  query (λ d, match query_row (λ g, g_name g =s ToLower name) d.(groups_table) with
              | Some g => Ok (g_id g)
              | None => Err ErrNoRows
              end).

Definition SetGroupMember (group username : string) (add : bool) : prog db (result unit) :=
  let? u := UserByName username in
  let? gid := group_id_by_name group in
  let? _ := if add then atomic (insert_group_member gid (User_ID u))
            else atomic (delete_group_member gid (User_ID u)) in
  Ret (Ok tt).

(** group_members gm JOIN groups_table g JOIN users u *)
Definition member_join (d : db) : list GroupMember :=
  flat_map (λ m,
    flat_map (λ g, map (λ u, mkGroupMember (g_name g) (u_username u))
                       (select (λ u, u_id u =? gm_user_id m) d.(users)))
             (select (λ g, g_id g =? gm_group_id m) d.(groups_table)))
    d.(group_members).

Definition member_le (a b : GroupMember) : bool :=
  text_lt (GM_Group a) (GM_Group b)
  || ((GM_Group a =s GM_Group b) && text_le (GM_Username a) (GM_Username b)).

Definition ListGroupMembers : prog db (result (list GroupMember)) :=
  query (λ d, Ok (order_by member_le (member_join d))).

(** ** SSH identities *)

Definition identity_of_row (s : identity_row) : SSHIdentity :=
  mkSSHIdentity (si_id s) (si_name s) (si_public_key s) (si_fingerprint s) (si_nonce s)
    (si_ciphertext s) (parseTime (si_created_at s)).

Definition scanSSHIdentity (row : option identity_row) : result SSHIdentity :=
  match row with
  | Some s => Ok (identity_of_row s)
  | None => Err ErrNoRows
  end.

Definition SSHIdentityByID (id : Z) : prog db (result SSHIdentity) :=
  query (λ d, scanSSHIdentity (query_row (λ s, si_id s =? id) d.(ssh_identities))).

Definition SSHIdentityByName (name : string) : prog db (result SSHIdentity) :=
  query (λ d, scanSSHIdentity (query_row (λ s, si_name s =s ToLower name) d.(ssh_identities))).

Definition AddSSHIdentity (name publicKey fingerprint : string) : prog db (result SSHIdentity) :=
  let? name := lift (validateName name "SSH key name") in
  if (TrimSpace publicKey =s "") || (TrimSpace fingerprint =s "")
  then Ret (Err (Msg "SSH identity public key and fingerprint are required"))
  else
    let? id := atomic (insert_identity name publicKey fingerprint) in
    SSHIdentityByID id.

Definition SetSSHIdentitySecret (id : Z) (nonce ciphertext : string) : prog db (result unit) :=
  let* r := atomic (update_identity_secret nonce ciphertext id) in
  Ret (changed r).

Definition ListSSHIdentities : prog db (result (list SSHIdentity)) :=
  query (λ d, Ok (map identity_of_row
    (order_by (λ a b, text_le (si_name a) (si_name b)) d.(ssh_identities)))).

(** SELECT count FROM targets WHERE identity_id=(SELECT id FROM ssh_identities WHERE name=?) *)
Definition identity_uses (name : string) (d : db) : Z :=
  match query_row (λ s, si_name s =s name) d.(ssh_identities) with
  | Some s => count_rows (λ t, bool_decide (t_identity_id t = Some (si_id s))) d.(targets)
  | None => 0
  end.

Definition DeleteSSHIdentity (name : string) : prog db (result unit) :=
  let* uses := query (identity_uses (ToLower name)) in
  if 0 <? uses then Ret (Err (Msg "SSH key is still selected by one or more targets"))
  else
    let* r := atomic (delete_identity (ToLower name)) in
    Ret (changed r).

(** ** Targets *)

Definition target_of_row (t : target_row) : Target :=
  mkTarget (t_id t) (t_name t) (t_host t) (t_remote_username t) (t_credential_kind t) (t_port t)
    (t_enabled t) (t_host_key_algorithm t) (t_host_public_key t) (t_nonce t) (t_ciphertext t)
    (t_identity_id t) (parseTime (t_created_at t)) (parseTime (t_updated_at t)).

Definition scanTarget (row : option target_row) : result Target :=
  match row with
  | Some t => Ok (target_of_row t)
  | None => Err ErrNoRows
  end.

Definition TargetByID (id : Z) : prog db (result Target) :=
  query (λ d, scanTarget (query_row (λ t, t_id t =? id) d.(targets))).

Definition TargetByName (name : string) : prog db (result Target) :=
  query (λ d, scanTarget (query_row (λ t, t_name t =s name) d.(targets))).

Definition AddTarget (n : NewTarget) : prog db (result Target) :=
  if (TrimSpace (NT_Name n) =s "") || (TrimSpace (NT_Host n) =s "") || (TrimSpace (NT_RemoteUsername n) =s "")
  then Ret (Err (Msg "target name, host, and remote username are required"))
  else if (NT_Port n <? 1) || (65535 <? NT_Port n)
  then Ret (Err (Msg "port must be between 1 and 65535"))
  else if negb (validCredentialKind (NT_CredentialKind n))
  then Ret (Err (Msg "invalid credential kind"))
  else if (NT_HostKeyAlgorithm n =s "") || (NT_HostPublicKey n =s "")
  then Ret (Err (Msg "pinned host key is required"))
  else if (NT_CredentialKind n =s CredentialStoredKey) && bool_decide (NT_IdentityID n = None)
  then Ret (Err (Msg "stored_key authentication requires an SSH identity"))
  else
    let? id := atomic (insert_target n) in
    TargetByID id.

Definition target_name_le (a b : target_row) : bool := text_le (t_name a) (t_name b).

Definition ListTargets : prog db (result (list Target)) :=
  query (λ d, Ok (map target_of_row (order_by target_name_le d.(targets)))).

(** t.enabled=1 AND (ug.user_id IS NOT NULL OR gm.user_id IS NOT NULL) over the
    LEFT JOINs of a member's own and group grants *)
Definition granted_to (uid : Z) (d : db) (t : target_row) : bool :=
  exists_row (λ g, (gr_target_id g =? t_id t) && (gr_principal_id g =? uid)) d.(user_target_grants)
  || exists_row (λ g, (gr_target_id g =? t_id t)
       && exists_row (λ m, (gm_group_id m =? gr_principal_id g) && (gm_user_id m =? uid)) d.(group_members))
       d.(group_target_grants).

Definition ListAuthorizedTargets (u : User) : prog db (result (list Target)) :=
  if User_Role u =s RoleAdmin
  then query (λ d, Ok (map target_of_row (order_by target_name_le (select t_enabled d.(targets)))))
  else query (λ d, Ok (map target_of_row (order_by target_name_le
         (select (λ t, t_enabled t && granted_to (User_ID u) d t) d.(targets))))).

Definition SetTargetEnabled (name : string) (enabled : bool) : prog db (result unit) :=
  let* r := atomic (update_target_enabled enabled name) in Ret (changed r).

Definition DeleteTarget (name : string) : prog db (result unit) :=
  let* r := atomic (delete_target name) in Ret (changed r).

Definition SetTargetCredential (id : Z) (nonce ciphertext : string) : prog db (result unit) :=
  let* r := atomic (update_target_credential nonce ciphertext id) in Ret (changed r).

Definition SetTargetCredentialKind (id : Z) (kind nonce ciphertext : string) : prog db (result unit) :=
  if negb (validCredentialKind kind) then Ret (Err (Msg "invalid credential kind"))
  else if kind =s CredentialStoredKey
  then Ret (Err (Msg "use SetTargetIdentity for stored_key authentication"))
  else let* r := atomic (update_target_credential_kind kind nonce ciphertext id) in Ret (changed r).

Definition SetTargetIdentity (targetID identityID : Z) : prog db (result unit) :=
  let* r := atomic (update_target_identity identityID targetID) in Ret (changed r).

Definition SetTargetHostKey (name algorithm publicKey : string) : prog db (result unit) :=
  let* r := atomic (update_target_host_key algorithm publicKey name) in Ret (changed r).

Definition UpdateTarget (name host : string) (port : Z) (remoteUser : string) : prog db (result unit) :=
  if (host =s "") || (remoteUser =s "") || (port <? 1) || (65535 <? port)
  then Ret (Err (Msg "invalid target fields"))
  else let* r := atomic (update_target_fields host port remoteUser name) in Ret (changed r).

End store_targets.
