(* ===== verification/StoreAccess.v ===== *)
(** * Grants, capabilities and forwarding rules (store.go) *)

From S2P Require Import Prelude GoStrings GoTime Effects Sql Schema StoreUsers StoreTargets.

Record Grant := mkGrant {
  Grant_Target : string;
  Grant_Kind : string;
  Grant_Principal : string;
  Grant_Shell : bool;
  Grant_SFTP : bool;
  Grant_SCP : bool;
  Grant_TCPForward : bool;
}.

Record ForwardRule := mkForwardRule {
  FR_ID : Z;
  FR_TargetID : Z;
  FR_Target : string;
  FR_Host : string;
  FR_Port : Z;
}.

(** The two grant tables, and the column of the principal in each. *)
Inductive principal_table := UserGrants | GroupGrants.

Definition grant_table (k : principal_table) (d : db) : list grant_row :=
  match k with
  | UserGrants => d.(user_target_grants)
  | GroupGrants => d.(group_target_grants)
  end.

Definition set_grant_table (k : principal_table) (f : list grant_row → list grant_row) (d : db) : db :=
  match k with
  | UserGrants => set_user_target_grants f d
  | GroupGrants => set_group_target_grants f d
  end.

Definition principal_exists (k : principal_table) (id : Z) (d : db) : bool :=
  match k with
  | UserGrants => user_exists id d
  | GroupGrants => group_exists id d
  end.

Definition grant_is (principal target : Z) (g : grant_row) : bool :=
  (gr_principal_id g =? principal) && (gr_target_id g =? target).

(** INSERT INTO <table>(...) ... ON CONFLICT(<principal>,target_id) DO UPDATE *)
Definition upsert_grant (k : principal_table) (id target : Z) (shell sftp scp tcp : bool) (d : db) : result Z * db :=
  let p := grant_is id target in
  let row := Grant_row id target shell sftp scp tcp in
  if exists_row p (grant_table k d) then
    (Ok (count_rows p (grant_table k d)), set_grant_table k (update_rows p (λ _, row)) d)
  else if negb (principal_exists k id d && target_exists target d) then (Err (Sql ForeignKey), d)
  else (Ok 1, set_grant_table k (insert_row row) d).

(** DELETE FROM <table> WHERE <principal>=? AND target_id=? *)
Definition delete_grant (k : principal_table) (id target : Z) (d : db) : result Z * db :=
  let p := grant_is id target in
  (Ok (count_rows p (grant_table k d)), set_grant_table k (delete_rows p) d).

(** The column of a capability: the map literal of CanAccessCapability. *)
Definition capability_column (capability : string) : option (grant_row → bool) :=
  if capability =s CapabilityShell then Some gr_shell
  else if capability =s CapabilitySFTP then Some gr_sftp
  else if capability =s CapabilitySCP then Some gr_scp
  else if capability =s CapabilityForward then Some gr_tcp_forward
  else None.

Section store_access.
Context `{UnicodeTables, Rowids, TimeParser}.

(** The table and the identifier of a grant's principal. *)
Definition resolve_principal (kind principal : string) : prog db (result (principal_table * Z)) :=
  if kind =s "user" then
    let? u := UserByName principal in Ret (Ok (UserGrants, User_ID u))
  else if kind =s "group" then
    let? id := group_id_by_name principal in Ret (Ok (GroupGrants, id))
  else Ret (Err (Msg "principal kind must be user or group")).

Definition SetGrantCapabilities (target kind principal : string)
    (add shell sftp scp tcpForward : bool) : prog db (result unit) :=
  let? t := TargetByName target in
  let? p := resolve_principal kind principal in
  let? _ := if add then atomic (upsert_grant p.1 p.2 (Target_ID t) shell sftp scp tcpForward)
            else atomic (delete_grant p.1 p.2 (Target_ID t)) in
  Ret (Ok tt).

Definition SetGrant (target kind principal : string) (add : bool) : prog db (result unit) :=
  SetGrantCapabilities target kind principal add true true true false.

(** ... JOIN <principals> JOIN targets, one half of the UNION ALL *)
Definition grants_join (kind : string) (names : list (Z * string)) (grants : list grant_row) (d : db) : list Grant :=
  flat_map (λ x,
    flat_map (λ n : Z * string,
      map (λ t, mkGrant (t_name t) kind n.2 (gr_shell x) (gr_sftp x) (gr_scp x) (gr_tcp_forward x))
          (select (λ t, t_id t =? gr_target_id x) d.(targets)))
      (select (λ n : Z * string, n.1 =? gr_principal_id x) names))
    grants.

Definition grant_le (a b : Grant) : bool :=
  text_lt (Grant_Target a) (Grant_Target b)
  || ((Grant_Target a =s Grant_Target b)
      && (text_lt (Grant_Kind a) (Grant_Kind b)
          || ((Grant_Kind a =s Grant_Kind b) && text_le (Grant_Principal a) (Grant_Principal b)))).

Definition ListGrants : prog db (result (list Grant)) :=
  query (λ d, Ok (order_by grant_le
    (grants_join "user" (map (λ u, (u_id u, u_username u)) d.(users)) d.(user_target_grants) d
     ++ grants_join "group" (map (λ g, (g_id g, g_name g)) d.(groups_table)) d.(group_target_grants) d))).

(** The WHERE clause of CanAccessCapability for a member *)
Definition member_may (uid : Z) (column : grant_row → bool) (d : db) (t : target_row) : bool :=
  exists_row (λ g, (gr_principal_id g =? uid) && (gr_target_id g =? t_id t) && column g)
    d.(user_target_grants)
  || exists_row (λ m, (gm_user_id m =? uid)
       && exists_row (λ g, (gr_principal_id g =? gm_group_id m) && (gr_target_id g =? t_id t) && column g)
            d.(group_target_grants))
       d.(group_members).

Definition CanAccessCapability (u : User) (targetID : Z) (capability : string) : prog db bool :=
  if negb (User_Enabled u) then Ret false
  else match capability_column capability with
       | None => Ret false
       | Some column =>
         let* n := if User_Role u =s RoleAdmin
           then query (λ d, count_rows (λ t, (t_id t =? targetID) && t_enabled t) d.(targets))
           else query (λ d, count_rows (λ t,
                  (t_id t =? targetID) && t_enabled t && member_may (User_ID u) column d t) d.(targets)) in
         Ret (0 <? n)
       end.

Definition CanAccess (u : User) (targetID : Z) : prog db bool :=
  CanAccessCapability u targetID CapabilityShell.

(** ** Forwarding rules *)

(** INSERT OR IGNORE INTO target_forward_rules(target_id,host,port) *)
Definition insert_forward_rule (target : Z) (host : string) (port : Z) (d : db) : result Z * db :=
  if exists_row (λ r, (fr_target_id r =? target) && (fr_host r =s host) && (fr_port r =? port))
       d.(target_forward_rules)
  then (Ok 0, d)
  else if negb (valid_port port) then (Ok 0, d)
  else if negb (target_exists target d) then (Err (Sql ForeignKey), d)
  else
    let id := new_rowid (fr_id <$> d.(target_forward_rules)) in
    (Ok 1, set_target_forward_rules (insert_row (Rule_row id target host port)) d).

(** DELETE FROM target_forward_rules WHERE id=? *)
Definition delete_forward_rule (id : Z) (d : db) : result Z * db :=
  let p := λ r, fr_id r =? id in
  (Ok (count_rows p d.(target_forward_rules)), set_target_forward_rules (delete_rows p) d).

Definition AddForwardRule (target host : string) (port : Z) : prog db (result unit) :=
  if (TrimSpace host =s "") || (port <? 1) || (65535 <? port)
  then Ret (Err (Msg "invalid forwarding destination"))
  else
    let? t := TargetByName target in
    let? _ := atomic (insert_forward_rule (Target_ID t) (ToLower (TrimSpace host)) port) in
    Ret (Ok tt).

Definition DeleteForwardRule (id : Z) : prog db (result unit) :=
  let* r := atomic (delete_forward_rule id) in Ret (changed r).

Definition rule_le (a b : ForwardRule) : bool :=
  text_lt (FR_Target a) (FR_Target b)
  || ((FR_Target a =s FR_Target b)
      && (text_lt (FR_Host a) (FR_Host b) || ((FR_Host a =s FR_Host b) && (FR_Port a <=? FR_Port b)))).

Definition ListForwardRules : prog db (result (list ForwardRule)) :=
  query (λ d, Ok (order_by rule_le
    (flat_map (λ r,
       map (λ t, mkForwardRule (fr_id r) (fr_target_id r) (t_name t) (fr_host r) (fr_port r))
           (select (λ t, t_id t =? fr_target_id r) d.(targets)))
       d.(target_forward_rules)))).

(** COLLATE NOCASE: equality up to the case of the ASCII letters *)
Definition nocase_eq (a b : string) : bool := smap lower_byte a =s smap lower_byte b.

Definition ForwardAllowed (targetID : Z) (host : string) (port : Z) : prog db bool :=
  let* n := query (λ d, count_rows (λ r,
    (fr_target_id r =? targetID) && nocase_eq (fr_host r) (TrimSpace host) && (fr_port r =? port))
    d.(target_forward_rules)) in
  Ret (0 <? n).

End store_access.
