(* ===== verification/StoreAudit.v ===== *)
(** * The audit log (store.go)

    [Audit] appends an event, [ListAudit] reads the newest ones and
    [PruneAudit] deletes the ones older than an instant. *)

From S2P Require Import Prelude GoStrings Json GoTime Effects Sql Schema StoreUsers.

Record AuditEvent := mkAuditEvent {
  Audit_ID : Z;
  Audit_At : time;
  Audit_ActorUserID : option Z;
  Audit_ClaimedUsername : string;
  Audit_SourceAddress : string;
  Audit_EventType : string;
  Audit_TargetID : option Z;
  Audit_Outcome : string;
  Audit_Details : string;
}.

(** A literal [AuditEvent{...}] of the gateway: no ID and no instant. *)
Definition event (actor : option Z) (claimed source type : string) (target : option Z)
    (outcome details : string) : AuditEvent :=
  mkAuditEvent 0 zero_time actor claimed source type target outcome details.

Section store_audit.
Context `{UnicodeTables, Rowids, TimeParser}.

(** A nullable column satisfies its foreign key. *)
Definition ref_ok (exists_id : Z → db → bool) (ref : option Z) (d : db) : bool :=
  match ref with None => true | Some id => exists_id id d end.

(** INSERT INTO audit_events(...) *)
Definition insert_audit (e : AuditEvent) (d : db) : result Z * db :=
  if negb (valid_outcome (Audit_Outcome e)) then (Err (Sql CheckFailed), d)
  else if negb (ref_ok user_exists (Audit_ActorUserID e) d && ref_ok target_exists (Audit_TargetID e) d)
  then (Err (Sql ForeignKey), d)
  else
    let id := new_rowid (ae_id <$> d.(audit_events)) in
    (Ok id, set_audit_events (insert_row
       (Audit_row id (CURRENT_TIMESTAMP d) (Audit_ActorUserID e) (Audit_ClaimedUsername e)
          (Audit_SourceAddress e) (Audit_EventType e) (Audit_TargetID e) (Audit_Outcome e)
          (Audit_Details e))) d).

(** DELETE FROM audit_events WHERE at < ? *)
Definition delete_audit_before (text : string) (d : db) : result Z * db :=
  let p := λ e, text_lt (ae_at e) text in
  (Ok (count_rows p d.(audit_events)), set_audit_events (delete_rows p) d).

(** The event with the defaults [Audit] fills in. *)
Definition with_defaults (e : AuditEvent) : AuditEvent :=
  mkAuditEvent (Audit_ID e) (Audit_At e) (Audit_ActorUserID e) (Audit_ClaimedUsername e)
    (Audit_SourceAddress e) (Audit_EventType e) (Audit_TargetID e)
    (if Audit_Outcome e =s "" then "success" else Audit_Outcome e)
    (if Audit_Details e =s "" then "{}" else Audit_Details e).

Definition Audit (e : AuditEvent) : prog db (result unit) :=
  let e := with_defaults e in
  if negb (Unmarshal_map (Audit_Details e)) then Ret (Err (Msg "audit details must be valid JSON"))
  else
    let? _ := atomic (insert_audit e) in
    Ret (Ok tt).

Definition event_of_row (e : audit_row) : AuditEvent :=
  mkAuditEvent (ae_id e) (parseTime (ae_at e)) (ae_actor_user_id e) (ae_claimed_username e)
    (ae_source_address e) (ae_event_type e) (ae_target_id e) (ae_outcome e) (ae_details e).

Definition audit_limit (limit : Z) : Z := if (limit <=? 0) || (1000 <? limit) then 100 else limit.

Definition ListAudit (limit : Z) : prog db (result (list AuditEvent)) :=
  let limit := audit_limit limit in
  query (λ d, Ok (map event_of_row
    (take (Z.to_nat limit) (order_by (λ a b, ae_id b <=? ae_id a) d.(audit_events))))).

Definition PruneAudit (before : time) : prog db (result Z) :=
  atomic (delete_audit_before (rfc3339_text before)).

End store_audit.
