(* ===== verification/StoreWf.v ===== *)
(** * Every operation of the store keeps the database well formed

    Each statement preserves [wf_db]; so does each step of each operation
    ([keeps wf_db]), and with it any interleaving of operations
    ([Effects.interleaves_keeps]). *)

From S2P Require Import Prelude GoStrings GoTime Effects Sql Schema Names StoreUsers StoreOIDC.
From S2P Require Import StoreTargets StoreAccess StoreAudit.

(** [wf_fields H] reduces [wf_db] of a changed database to the constraints of
    the tables the change touches. *)
Ltac wf_fields H := destruct H as [[] [] [] [] [] []]; split; split; cbn; try assumption.

(** [kill_unique] closes the freshness conditions of an insertion that follow
    from the guard of its statement. *)
Ltac by_guard :=
  repeat match goal with
  | H : exists_row _ _ = false |- _ => rewrite exists_row_false in H
  | H : negb _ = false |- _ => apply negb_false_iff in H
  | H : _ && _ = true |- _ => apply andb_true_iff in H as [? ?]
  end.

#[export] Hint Resolve unique_on_delete refers_delete refers_insert_parent : sql.
#[export] Hint Extern 3 (unique_on _ (update_rows _ _ _)) =>
  (apply unique_on_update; [done|]) : sql.
#[export] Hint Extern 3 (refers _ _ (update_rows _ _ _) _) =>
  (apply refers_update; [done|]) : sql.
#[export] Hint Extern 3 (refers _ _ _ (update_rows _ _ _)) =>
  (apply refers_update_parent; [done|]) : sql.
#[export] Hint Extern 3 (unique_on _ (insert_row _ _)) =>
  (apply unique_on_new_rowid; [done|]) : sql.

(** [wf_auto] closes the constraints a deletion, an update of other columns or
    a fresh row identifier keep. *)
Ltac wf_auto :=
  try (by auto with sql);
  try (apply rows_delete; assumption);
  try (apply rows_update; [done|assumption]).

Lemma user_exists_spec id d : user_exists id d = true ↔ ∃ u, u ∈ d.(users) ∧ u_id u = id.
Proof. unfold user_exists. rewrite exists_row_true. by setoid_rewrite Z.eqb_eq. Qed.
Lemma target_exists_spec id d : target_exists id d = true ↔ ∃ t, t ∈ d.(targets) ∧ t_id t = id.
Proof. unfold target_exists. rewrite exists_row_true. by setoid_rewrite Z.eqb_eq. Qed.
Lemma group_exists_spec id d : group_exists id d = true ↔ ∃ g, g ∈ d.(groups_table) ∧ g_id g = id.
Proof. unfold group_exists. rewrite exists_row_true. by setoid_rewrite Z.eqb_eq. Qed.
Lemma identity_exists_spec id d :
  identity_exists id d = true ↔ ∃ s, s ∈ d.(ssh_identities) ∧ si_id s = id.
Proof. unfold identity_exists. rewrite exists_row_true. by setoid_rewrite Z.eqb_eq. Qed.

Lemma subjects_delete p t : oidc_subjects_unique t → oidc_subjects_unique (delete_rows p t).
Proof.
  intros H o1 o2 s H1 H2. apply elem_of_delete in H1 as [H1 _], H2 as [H2 _]. by apply H.
Qed.
#[export] Hint Resolve subjects_delete : sql.

Lemma subjects_insert o t :
  (∀ r s, r ∈ t → oi_issuer r = oi_issuer o → oi_subject o = Some s → oi_subject r ≠ Some s) →
  oidc_subjects_unique t → oidc_subjects_unique (insert_row o t).
Proof.
  intros Ho H o1 o2 s H1 H2 E E1 E2.
  apply elem_of_insert in H1 as [H1| ->], H2 as [H2| ->]; [by eapply H| | |done].
  - by destruct (Ho o1 s).
  - by destruct (Ho o2 s).
Qed.

Lemma subjects_update p f t :
  (∀ r1 r2, r1 ∈ t → r2 ∈ t → p r1 = true → p r2 = true → r1 = r2) →
  (∀ r, oi_issuer (f r) = oi_issuer r) →
  (∀ r r' s, r ∈ t → r' ∈ t → p r = true → p r' = false → oi_issuer r' = oi_issuer r →
     oi_subject (f r) = Some s → oi_subject r' ≠ Some s) →
  oidc_subjects_unique t → oidc_subjects_unique (update_rows p f t).
Proof.
  intros Hone Hi Hs H o1 o2 s H1 H2 E E1 E2.
  apply elem_of_update in H1 as (r1 & H1 & ->), H2 as (r2 & H2 & ->).
  destruct (p r1) eqn:P1, (p r2) eqn:P2; rewrite ?Hi in *.
  - f_equal. by apply Hone.
  - by destruct (Hs r1 r2 s).
  - by destruct (Hs r2 r1 s).
  - by eapply H.
Qed.

(** The rows [oidc_of] picks: at most one, by UNIQUE(user_id,issuer). *)
Lemma oidc_of_true uid iss o : oidc_of uid iss o = true ↔ oidc_user_key o = (uid, iss).
Proof.
  unfold oidc_of, oidc_user_key. rewrite andb_true_iff, Z.eqb_eq, String.eqb_eq.
  split; [by intros [-> ->]|by intros [= -> ->]].
Qed.

Lemma oidc_of_one d uid iss o1 o2 : wf_db d →
  o1 ∈ d.(oidc_identities) → o2 ∈ d.(oidc_identities) →
  oidc_of uid iss o1 = true → oidc_of uid iss o2 = true → o1 = o2.
Proof.
  intros Hd H1 H2 E1%oidc_of_true E2%oidc_of_true.
  apply (unique_on_eq oidc_user_key (oidc_identities d)); [apply Hd|done|done|congruence].
Qed.

Lemma has_provider_name_true iss n o :
  has_provider_name iss n o = true ↔ oidc_name_key o = (iss, n).
Proof.
  unfold has_provider_name, oidc_name_key. rewrite andb_true_iff, !String.eqb_eq.
  split; [by intros [-> ->]|by intros [= -> ->]].
Qed.

Lemma has_subject_true iss s o :
  has_subject iss s o = true ↔ oi_issuer o = iss ∧ oi_subject o = Some s.
Proof. unfold has_subject. by rewrite andb_true_iff, String.eqb_eq, bool_decide_eq_true. Qed.

Lemma oidc_no_clash uid iss sub name o :
  oidc_clash uid iss sub name o = false → oidc_of uid iss o = false →
  oidc_name_key o ≠ (iss, name) ∧ (∀ s, sub = Some s → oi_issuer o = iss → oi_subject o ≠ Some s).
Proof.
  unfold oidc_clash. intros H Ho. rewrite Ho in H. cbn in H. apply orb_false_iff in H as [Hn Hs].
  split.
  - intros E. apply has_provider_name_true in E. congruence.
  - intros s -> Ei Es. assert (has_subject iss s o = true) by by apply has_subject_true. congruence.
Qed.

Section statements.
Context `{RowidsLaws, UnicodeTables}.

Lemma insert_user_wf username role d : wf_db d → wf_db (insert_user username role d).2.
Proof.
  intros H'. unfold insert_user. split_matches; [done|done|]. by_guard.
  wf_fields H'; wf_auto.
  - apply unique_on_insert; [done|]. intros r Hr. cbn. by apply String.eqb_neq, E.
  - apply rows_insert; [done|done].
Qed.

Lemma update_user_enabled_wf b id d : wf_db d → wf_db (update_user_enabled b id d).2.
Proof. intros H'. unfold update_user_enabled. wf_fields H'; wf_auto. Qed.

Lemma update_user_role_wf role id d : wf_db d → wf_db (update_user_role role id d).2.
Proof.
  intros H'. unfold update_user_role. destruct (_ && _) eqn:E; [done|].
  wf_fields H'; wf_auto.
  by eapply rows_update_checked.
Qed.

Lemma delete_user_wf id d : wf_db d → wf_db (delete_user id d).2.
Proof.
  intros H'. unfold delete_user, cascade_user. destruct (exists_row _ _); [|done].
  wf_fields H'; wf_auto; auto using refers_cascade_eq, refers_set_null.
Qed.

Lemma insert_gateway_key_wf uid fp pk label d :
  wf_db d → wf_db (insert_gateway_key uid fp pk label d).2.
Proof.
  intros H'. unfold insert_gateway_key. split_matches; [done|done|]. by_guard.
  wf_fields H'; wf_auto.
  - apply unique_on_insert; [done|]. intros r Hr [= E1 E2]. specialize (E r Hr). cbn in E.
    by rewrite E1, E2, Z.eqb_refl, String.eqb_refl in E.
  - apply refers_insert; [|done]. intros i [= <-]. by apply user_exists_spec.
Qed.

Lemma delete_gateway_key_wf uid fp d : wf_db d → wf_db (delete_gateway_key uid fp d).2.
Proof. intros H'. unfold delete_gateway_key. wf_fields H'; wf_auto. Qed.

Lemma upsert_totp_wf uid nonce ct d : wf_db d → wf_db (upsert_totp uid nonce ct d).2.
Proof.
  intros H'. unfold upsert_totp. split_matches; [|done|]; by_guard; wf_fields H'; wf_auto.
  - apply unique_on_insert; [done|]. intros r Hr. by apply Z.eqb_neq, E.
  - apply refers_insert; [|done]. intros i [= <-]. by apply user_exists_spec.
Qed.

Lemma delete_totp_wf uid d : wf_db d → wf_db (delete_totp uid d).2.
Proof. intros H'. unfold delete_totp. wf_fields H'; wf_auto. Qed.

Lemma update_totp_counter_wf uid c d : wf_db d → wf_db (update_totp_counter uid c d).2.
Proof. intros H'. unfold update_totp_counter. wf_fields H'; wf_auto. Qed.

Lemma insert_group_wf name d : wf_db d → wf_db (insert_group name d).2.
Proof.
  intros H'. unfold insert_group. split_matches; [done|]. by_guard. wf_fields H'; wf_auto.
  apply unique_on_insert; [done|]. intros r Hr. cbn. by apply String.eqb_neq, E.
Qed.

Lemma delete_group_wf name d : wf_db d → wf_db (delete_group name d).2.
Proof.
  intros H'. unfold delete_group. wf_fields H'; wf_auto.
  all: apply refers_cascade; [|done]; intros r i x _ [= <-] Hx Ex Eq; by_guard;
    specialize (Eq x Hx); cbn in Eq; rewrite Ex, Z.eqb_refl, andb_true_r in Eq; exact Eq.
Qed.

Lemma insert_group_member_wf gid uid d : wf_db d → wf_db (insert_group_member gid uid d).2.
Proof.
  intros H'. unfold insert_group_member. split_matches; [done|done|]. by_guard.
  wf_fields H'; wf_auto.
  - apply unique_on_insert; [done|]. intros r Hr [= E1 E2]. specialize (E r Hr). cbn in E.
    by rewrite E1, E2, !Z.eqb_refl in E.
  - apply refers_insert; [|done]. intros i [= <-]. by apply group_exists_spec.
  - apply refers_insert; [|done]. intros i [= <-]. by apply user_exists_spec.
Qed.

Lemma delete_group_member_wf gid uid d : wf_db d → wf_db (delete_group_member gid uid d).2.
Proof. intros H'. unfold delete_group_member. wf_fields H'; wf_auto. Qed.

Lemma insert_identity_wf name pk fp d : wf_db d → wf_db (insert_identity name pk fp d).2.
Proof.
  intros H'. unfold insert_identity. split_matches; [done|]. by_guard. wf_fields H'; wf_auto.
  all: apply unique_on_insert; [done|]; intros r Hr E'; cbn in E'; specialize (E r Hr); cbn in E;
    by rewrite E', String.eqb_refl, ?orb_true_r in E.
Qed.

Lemma update_identity_secret_wf nonce ct id d : wf_db d → wf_db (update_identity_secret nonce ct id d).2.
Proof. intros H'. unfold update_identity_secret. wf_fields H'; wf_auto. Qed.

Lemma delete_identity_wf name d : wf_db d → wf_db (delete_identity name d).2.
Proof.
  intros H'. unfold delete_identity. split_matches; [done|]. by_guard. wf_fields H'; wf_auto.
  apply refers_restrict; [|done]. intros r i x Hr Hi Hx <-. specialize (E r Hr). cbn in E.
  rewrite Hi in E. by_guard. specialize (E x Hx). cbn in E.
  by rewrite Z.eqb_refl, andb_true_r in E.
Qed.

Lemma insert_target_wf n d : wf_db d → wf_db (insert_target n d).2.
Proof.
  intros H'. unfold insert_target. split_matches; [done|done|done|]. by_guard.
  wf_fields H'; wf_auto.
  - apply rows_insert; [apply new_rowid_pos|done].
  - apply unique_on_insert; [done|]. intros r Hr. cbn. by apply String.eqb_neq, E.
  - by apply rows_insert.
  - by apply rows_insert.
  - apply refers_insert; [|done]. cbn. intros i Hi. rewrite Hi in E1. by apply identity_exists_spec.
Qed.

Lemma update_target_enabled_wf b name d : wf_db d → wf_db (update_target_enabled b name d).2.
Proof. intros H'. unfold update_target_enabled. wf_fields H'; wf_auto. Qed.

Lemma delete_target_wf name d : wf_db d → wf_db (delete_target name d).2.
Proof.
  intros H'. unfold delete_target, cascade_target. destruct (query_row _ _) as [t|] eqn:E; [|done].
  apply query_row_Some in E as [Ht Ep]. apply String.eqb_eq in Ep as <-.
  assert (∀ x, x ∈ targets d → (t_name x =s t_name t) = (t_id x =? t_id t)) as Hq.
  { intros x Hx. destruct H' as [_ _ [Hid _ Hname] _ _ _]. apply eq_true_iff_eq.
    rewrite String.eqb_eq, Z.eqb_eq. split; intros E.
    - by rewrite (unique_on_eq t_name (targets d) x t).
    - by rewrite (unique_on_eq t_id (targets d) x t). }
  apply delete_rows_ext in Hq.
  wf_fields H'; rewrite ?Hq; wf_auto; auto using refers_cascade_eq, refers_set_null.
Qed.

Lemma update_target_credential_wf nonce ct id d :
  wf_db d → wf_db (update_target_credential nonce ct id d).2.
Proof.
  intros H'. unfold update_target_credential. wf_fields H'; wf_auto.
Qed.

Lemma update_target_credential_kind_wf kind nonce ct id d :
  wf_db d → wf_db (update_target_credential_kind kind nonce ct id d).2.
Proof.
  intros H'. unfold update_target_credential_kind. destruct (_ && _) eqn:E; [done|].
  wf_fields H'; wf_auto. by eapply rows_update_checked.
Qed.

Lemma update_target_identity_wf iid id d : wf_db d → wf_db (update_target_identity iid id d).2.
Proof.
  intros H'. unfold update_target_identity. destruct (_ && _) eqn:E; [done|].
  pose proof (wf_t_identity _ (wf_db_targets _ H')) as Hold.
  wf_fields H'; wf_auto.
  intros r i Hr. revert i. revert r Hr.
  apply (rows_update_checked (λ r, ∀ i, t_identity_id r = Some i →
           ∃ s, s ∈ ssh_identities d ∧ si_id s = i) (identity_exists iid d)).
  - exact E.
  - intros Hi r _ i [= <-]. by apply identity_exists_spec.
  - intros r Hr i. by apply Hold.
Qed.

Lemma update_target_host_key_wf alg pk name d : wf_db d → wf_db (update_target_host_key alg pk name d).2.
Proof. intros H'. unfold update_target_host_key. wf_fields H'; wf_auto. Qed.

Lemma update_target_fields_wf host port user name d :
  wf_db d → wf_db (update_target_fields host port user name d).2.
Proof.
  intros H'. unfold update_target_fields. destruct (_ && _) eqn:E; [done|].
  wf_fields H'; wf_auto. by eapply rows_update_checked.
Qed.

Lemma upsert_grant_wf k id tid a b c f d : wf_db d → wf_db (upsert_grant k id tid a b c f d).2.
Proof.
  intros H'. unfold upsert_grant. split_matches; [|done|]; by_guard.
  - assert (∀ r, grant_is id tid r = true → gr_principal_id r = id ∧ gr_target_id r = tid) as Hr.
    { intros r Hp. unfold grant_is in Hp. by bool_simp. }
    destruct k; wf_fields H'; wf_auto.
    all: try (apply unique_on_update; [|done]; intros r [<- <-]%Hr; done).
    all: try (apply refers_update; [|done]; intros r i [<- <-]%Hr; done).
  - destruct k; wf_fields H'; wf_auto.
    all: try (apply unique_on_insert; [done|]; intros r Hr [= E1 E2]; specialize (E r Hr);
      unfold grant_is in E; by rewrite E1, E2, !Z.eqb_refl in E).
    all: apply refers_insert; [|done]; intros i [= <-].
    all: by first [apply user_exists_spec | apply group_exists_spec | apply target_exists_spec].
Qed.

Lemma delete_grant_wf k id tid d : wf_db d → wf_db (delete_grant k id tid d).2.
Proof. intros H'. unfold delete_grant. destruct k; wf_fields H'; wf_auto. Qed.

Lemma insert_forward_rule_wf tid host port d : wf_db d → wf_db (insert_forward_rule tid host port d).2.
Proof.
  intros H'. unfold insert_forward_rule. split_matches; [done|done|done|]. by_guard.
  wf_fields H'; wf_auto.
  - apply unique_on_insert; [done|]. intros r Hr [= F1 F2 F3]. specialize (E r Hr). cbn in E.
    by rewrite F1, F2, F3, !Z.eqb_refl, String.eqb_refl in E.
  - by apply rows_insert.
  - apply refers_insert; [|done]. intros i [= <-]. by apply target_exists_spec.
Qed.

Lemma delete_forward_rule_wf id d : wf_db d → wf_db (delete_forward_rule id d).2.
Proof. intros H'. unfold delete_forward_rule. wf_fields H'; wf_auto. Qed.

Lemma insert_audit_wf e d : wf_db d → wf_db (insert_audit e d).2.
Proof.
  intros H'. unfold insert_audit. split_matches; [done|done|].
  apply negb_false_iff in E, E0. apply andb_true_iff in E0 as [Ha Ht].
  wf_fields H'; wf_auto.
  - by apply rows_insert.
  - apply refers_insert; [|done]. cbn. intros i Ei. rewrite Ei in Ha. by apply user_exists_spec.
  - apply refers_insert; [|done]. cbn. intros i Ei. rewrite Ei in Ht. by apply target_exists_spec.
Qed.

Lemma delete_audit_before_wf text d : wf_db d → wf_db (delete_audit_before text d).2.
Proof. intros H'. unfold delete_audit_before. wf_fields H'; wf_auto. Qed.

Lemma delete_oidc_wf uid iss d : wf_db d → wf_db (delete_oidc uid iss d).2.
Proof. intros H'. unfold delete_oidc. wf_fields H'; wf_auto. Qed.

Lemma upsert_oidc_wf uid iss sub name d : wf_db d → wf_db (upsert_oidc uid iss sub name d).2.
Proof.
  intros H'. unfold upsert_oidc. split_matches; [done| |done|]; by_guard.
  - pose proof (oidc_of_one d uid iss) as Hone. specialize (λ o1 o2, Hone o1 o2 H').
    wf_fields H'; wf_auto.
    + apply unique_on_update_one; [done|auto|]. intros r r' Hr Hr' Ep Ep'.
      destruct (oidc_no_clash _ _ _ _ _ (E r' Hr') Ep') as [Hn _].
      apply oidc_of_true in Ep as [= _ Ei]. cbn. unfold oidc_name_key at 2. cbn. by rewrite Ei.
    + apply subjects_update; [auto|done| |done]. intros r r' s Hr Hr' Ep Ep' Ei Es. cbn in Es.
      apply (oidc_no_clash _ _ _ _ _ (E r' Hr') Ep'); [done|].
      apply oidc_of_true in Ep as [= _ Er]. congruence.
  - wf_fields H'; wf_auto.
    + apply unique_on_insert; [done|]. intros r Hr Ek. specialize (E0 r Hr).
      apply not_true_iff_false in E0. apply E0. by apply oidc_of_true.
    + apply unique_on_insert; [done|]. intros r Hr.
      by apply (oidc_no_clash _ _ _ _ _ (E r Hr) (E0 r Hr)).
    + apply subjects_insert; [|done]. intros r s Hr Ei Es.
      by apply (oidc_no_clash _ _ _ _ _ (E r Hr) (E0 r Hr)).
    + apply refers_insert; [|done]. intros i [= <-]. by apply user_exists_spec.
Qed.

Lemma update_oidc_subject_wf sub uid iss d : wf_db d → wf_db (update_oidc_subject sub uid iss d).2.
Proof.
  intros H'. unfold update_oidc_subject. destruct (_ && _) eqn:E; [done|].
  pose proof (oidc_of_one d uid iss) as Hone. specialize (λ o1 o2, Hone o1 o2 H').
  wf_fields H'; wf_auto. apply subjects_update; [|done| |done].
  - intros r1 r2 Hr1 Hr2 [??]%andb_true_iff [??]%andb_true_iff. auto.
  - intros r r' s Hr Hr' Ep Ep' Ei [= <-] Es.
    apply andb_false_iff in E as [E|E]; rewrite exists_row_false in E.
    + specialize (E r Hr). congruence.
    + specialize (E r' Hr'). cbn in E. rewrite Ep' in E. cbn in E.
      apply andb_true_iff in Ep as [Ep%oidc_of_true _]. injection Ep as _ Er.
      apply not_true_iff_false in E. apply E, has_subject_true. split; congruence.
Qed.

Lemma update_oidc_name_wf name uid iss d : wf_db d → wf_db (update_oidc_name name uid iss d).2.
Proof.
  intros H'. unfold update_oidc_name. destruct (_ && _) eqn:E; [done|].
  pose proof (oidc_of_one d uid iss) as Hone. specialize (λ o1 o2, Hone o1 o2 H').
  pose proof (wf_oi_subject _ (wf_db_factors _ H')) as Hsub.
  wf_fields H'; wf_auto.
  - apply unique_on_update_one; [done|auto|]. intros r r' Hr Hr' Ep Ep' En.
    apply andb_false_iff in E as [E|E]; rewrite exists_row_false in E.
    + specialize (E r Hr). congruence.
    + specialize (E r' Hr'). cbn in E. rewrite Ep' in E. cbn in E.
      apply oidc_of_true in Ep as [= _ Er].
      apply not_true_iff_false in E. apply E, has_provider_name_true.
      rewrite En. unfold oidc_name_key. cbn. congruence.
  - apply subjects_update; [auto|done| |done]. intros r r' s Hr Hr' Ep Ep' Ei Es Es'.
    cbn in Es. enough (r' = r) by congruence. by apply (Hsub r' r s).
Qed.

End statements.

(** ** Looking users up *)

Section lookup.
Context `{UnicodeTables, Rowids, TimeParser}.

(** The row behind a [User] that [UserByName] returns. *)
Lemma UserByName_run name d : run (UserByName name) d =
  (scanUser d (query_row (λ u, u_username u =s ToLower name) d.(users)), d).
Proof. done. Qed.

Lemma scanUser_Ok d p v :
  scanUser d (query_row p d.(users)) = Ok v →
  ∃ u, u ∈ d.(users) ∧ p u = true ∧ v = user_of_row d u.
Proof.
  destruct (query_row p d.(users)) as [u|] eqn:E; intros [= <-].
  apply query_row_Some in E as [? ?]. eauto.
Qed.

End lookup.
