(* ===== verification/StoreCalls.v ===== *)
(** * The store as a whole

    [call] names every method of [Store] with its arguments; [exec] is the
    method, its value dropped.  Any number of calls may run concurrently: their
    statements interleave. *)

From S2P Require Import Prelude GoStrings GoTime Effects Sql Schema Names StoreUsers StoreOIDC.
From S2P Require Import StoreTargets StoreAccess StoreAudit StoreWf.

Inductive call :=
  | AddUser_call (username role : string)
  | UserByID_call (id : Z)
  | UserByName_call (name : string)
  | ListUsers_call
  | SetUserEnabled_call (name : string) (enabled : bool)
  | SetUserRole_call (name role : string)
  | DeleteUser_call (name : string)
  | AddGatewayKey_call (username fingerprint publicKey label : string)
  | ListGatewayKeys_call (username : string)
  | RemoveGatewayKey_call (username fingerprint : string)
  | AuthenticateKey_call (username fingerprint : string)
  | SetUserTOTP_call (userID : Z) (nonce ciphertext : string)
  | UserTOTP_call (userID : Z)
  | RemoveUserTOTP_call (userID : Z)
  | ConsumeTOTPCounter_call (userID counter : Z)
  | SetOIDCUsernameMapping_call (userID : Z) (issuer providerUsername : string)
  | LinkOIDCIdentity_call (userID : Z) (issuer subject providerUsername : string)
  | AuthenticateOIDC_call (claimed issuer subject providerUsername : string)
  | OIDCIdentityForUser_call (userID : Z) (issuer : string)
  | ListOIDCIdentities_call (issuer : string)
  | RemoveOIDCIdentity_call (userID : Z) (issuer : string)
  | AddGroup_call (name : string)
  | DeleteGroup_call (name : string)
  | ListGroups_call
  | SetGroupMember_call (group username : string) (add : bool)
  | ListGroupMembers_call
  | AddSSHIdentity_call (name publicKey fingerprint : string)
  | SetSSHIdentitySecret_call (id : Z) (nonce ciphertext : string)
  | SSHIdentityByID_call (id : Z)
  | SSHIdentityByName_call (name : string)
  | ListSSHIdentities_call
  | DeleteSSHIdentity_call (name : string)
  | AddTarget_call (n : NewTarget)
  | TargetByID_call (id : Z)
  | TargetByName_call (name : string)
  | ListTargets_call
  | ListAuthorizedTargets_call (u : User)
  | SetTargetEnabled_call (name : string) (enabled : bool)
  | DeleteTarget_call (name : string)
  | SetTargetCredential_call (id : Z) (nonce ciphertext : string)
  | SetTargetCredentialKind_call (id : Z) (kind nonce ciphertext : string)
  | SetTargetIdentity_call (targetID identityID : Z)
  | SetTargetHostKey_call (name algorithm publicKey : string)
  | UpdateTarget_call (name host : string) (port : Z) (remoteUser : string)
  | SetGrant_call (target kind principal : string) (add : bool)
  | SetGrantCapabilities_call (target kind principal : string) (add shell sftp scp tcp : bool)
  | ListGrants_call
  | CanAccess_call (u : User) (targetID : Z)
  | CanAccessCapability_call (u : User) (targetID : Z) (capability : string)
  | AddForwardRule_call (target host : string) (port : Z)
  | DeleteForwardRule_call (id : Z)
  | ListForwardRules_call
  | ForwardAllowed_call (targetID : Z) (host : string) (port : Z)
  | Audit_call (e : AuditEvent)
  | ListAudit_call (limit : Z)
  | PruneAudit_call (before : time)
  | Clock_call (now : time).

(** The end of a call: whether it returned an error. *)
Definition done_with {A} (p : prog db (result A)) : prog db (result unit) :=
  let? _ := p in Ret (Ok tt).
Definition answered (p : prog db bool) : prog db (result unit) :=
  let* _ := p in Ret (Ok tt).

Section calls.
Context `{UnicodeTables, Rowids, TimeParser}.

Definition exec (c : call) : prog db (result unit) :=
  match c with
  | AddUser_call u r => done_with (AddUser u r)
  | UserByID_call id => done_with (UserByID id)
  | UserByName_call n => done_with (UserByName n)
  | ListUsers_call => done_with ListUsers
  | SetUserEnabled_call n b => SetUserEnabled n b
  | SetUserRole_call n r => SetUserRole n r
  | DeleteUser_call n => DeleteUser n
  | AddGatewayKey_call u f k l => AddGatewayKey u f k l
  | ListGatewayKeys_call u => done_with (ListGatewayKeys u)
  | RemoveGatewayKey_call u f => RemoveGatewayKey u f
  | AuthenticateKey_call u f => done_with (AuthenticateKey u f)
  | SetUserTOTP_call id n c => SetUserTOTP id n c
  | UserTOTP_call id => done_with (UserTOTP id)
  | RemoveUserTOTP_call id => RemoveUserTOTP id
  | ConsumeTOTPCounter_call id c => ConsumeTOTPCounter id c
  | SetOIDCUsernameMapping_call id i n => SetOIDCUsernameMapping id i n
  | LinkOIDCIdentity_call id i s n => LinkOIDCIdentity id i s n
  | AuthenticateOIDC_call c i s n => done_with (AuthenticateOIDC c i s n)
  | OIDCIdentityForUser_call id i => done_with (OIDCIdentityForUser id i)
  | ListOIDCIdentities_call i => done_with (ListOIDCIdentities i)
  | RemoveOIDCIdentity_call id i => RemoveOIDCIdentity id i
  | AddGroup_call n => AddGroup n
  | DeleteGroup_call n => DeleteGroup n
  | ListGroups_call => done_with ListGroups
  | SetGroupMember_call g u b => SetGroupMember g u b
  | ListGroupMembers_call => done_with ListGroupMembers
  | AddSSHIdentity_call n k f => done_with (AddSSHIdentity n k f)
  | SetSSHIdentitySecret_call id n c => SetSSHIdentitySecret id n c
  | SSHIdentityByID_call id => done_with (SSHIdentityByID id)
  | SSHIdentityByName_call n => done_with (SSHIdentityByName n)
  | ListSSHIdentities_call => done_with ListSSHIdentities
  | DeleteSSHIdentity_call n => DeleteSSHIdentity n
  | AddTarget_call n => done_with (AddTarget n)
  | TargetByID_call id => done_with (TargetByID id)
  | TargetByName_call n => done_with (TargetByName n)
  | ListTargets_call => done_with ListTargets
  | ListAuthorizedTargets_call u => done_with (ListAuthorizedTargets u)
  | SetTargetEnabled_call n b => SetTargetEnabled n b
  | DeleteTarget_call n => DeleteTarget n
  | SetTargetCredential_call id n c => SetTargetCredential id n c
  | SetTargetCredentialKind_call id k n c => SetTargetCredentialKind id k n c
  | SetTargetIdentity_call id i => SetTargetIdentity id i
  | SetTargetHostKey_call n a k => SetTargetHostKey n a k
  | UpdateTarget_call n h p u => UpdateTarget n h p u
  | SetGrant_call t k p b => SetGrant t k p b
  | SetGrantCapabilities_call t k p b x y z w => SetGrantCapabilities t k p b x y z w
  | ListGrants_call => done_with ListGrants
  | CanAccess_call u id => answered (CanAccess u id)
  | CanAccessCapability_call u id c => answered (CanAccessCapability u id c)
  | AddForwardRule_call t h p => AddForwardRule t h p
  | DeleteForwardRule_call id => DeleteForwardRule id
  | ListForwardRules_call => done_with ListForwardRules
  | ForwardAllowed_call id h p => answered (ForwardAllowed id h p)
  | Audit_call e => Audit e
  | ListAudit_call n => done_with (ListAudit n)
  | PruneAudit_call t => done_with (PruneAudit t)
  | Clock_call t => atomic (λ d, (Ok tt, set_clock t d))
  end.

(** A history of calls, each finished before the next one starts. *)
Fixpoint exec_all (cs : list call) (d : db) : db :=
  match cs with
  | [] => d
  | c :: cs' => exec_all cs' (final (exec c) d)
  end.

End calls.

#[export] Hint Resolve insert_user_wf update_user_enabled_wf update_user_role_wf delete_user_wf
  insert_gateway_key_wf delete_gateway_key_wf upsert_totp_wf delete_totp_wf update_totp_counter_wf
  insert_group_wf delete_group_wf insert_group_member_wf delete_group_member_wf insert_identity_wf
  update_identity_secret_wf delete_identity_wf insert_target_wf update_target_enabled_wf
  delete_target_wf update_target_credential_wf update_target_credential_kind_wf
  update_target_identity_wf update_target_host_key_wf update_target_fields_wf upsert_grant_wf
  delete_grant_wf insert_forward_rule_wf delete_forward_rule_wf insert_audit_wf
  delete_audit_before_wf delete_oidc_wf upsert_oidc_wf update_oidc_subject_wf
  update_oidc_name_wf : sql.

Lemma set_clock_wf t d : wf_db d → wf_db (set_clock t d).
Proof. intros H. wf_fields H. Qed.
#[export] Hint Resolve set_clock_wf : sql.

(** [unfold_store] unfolds the methods into their statements; [wf_keeps] leaves
    the statements to the database of hints. *)
Ltac unfold_store :=
  unfold done_with, answered,
    PruneAudit, ListAudit, Audit, ForwardAllowed, ListForwardRules, DeleteForwardRule,
    AddForwardRule, CanAccess, CanAccessCapability, ListGrants, SetGrant, SetGrantCapabilities,
    resolve_principal, UpdateTarget, SetTargetHostKey, SetTargetIdentity, SetTargetCredentialKind,
    SetTargetCredential, DeleteTarget, SetTargetEnabled, ListAuthorizedTargets, ListTargets,
    AddTarget, TargetByName, TargetByID, DeleteSSHIdentity, ListSSHIdentities, SetSSHIdentitySecret,
    AddSSHIdentity, SSHIdentityByName, SSHIdentityByID, ListGroupMembers, SetGroupMember,
    group_id_by_name, ListGroups, DeleteGroup, AddGroup, RemoveOIDCIdentity, ListOIDCIdentities,
    OIDCIdentityForUser, AuthenticateOIDC, resolveOIDC, LinkOIDCIdentity, SetOIDCUsernameMapping,
    ConsumeTOTPCounter, RemoveUserTOTP, UserTOTP, SetUserTOTP, AuthenticateKey, RemoveGatewayKey,
    ListGatewayKeys, AddGatewayKey, DeleteUser, SetUserRole, SetUserEnabled, ensureOtherUsableAdmin,
    AddUser, ListUsers, UserByName, UserByID.

Ltac wf_keeps :=
  cbn [exec]; unfold_store; keeps_tac;
  try (apply keeps_atomic; intros; solve [auto with sql | cbn; auto with sql]).

(** [unfold_statements] unfolds the statements into changes of tables. *)
Ltac unfold_statements :=
  unfold
    insert_user, update_user_enabled, update_user_role, delete_user, insert_gateway_key,
    delete_gateway_key, upsert_totp, delete_totp, update_totp_counter, upsert_oidc,
    update_oidc_subject, update_oidc_name, delete_oidc, insert_group, delete_group,
    insert_group_member, delete_group_member, insert_identity, update_identity_secret,
    delete_identity, insert_target, update_target_enabled, delete_target, update_target_credential,
    update_target_credential_kind, update_target_identity, update_target_host_key,
    update_target_fields, upsert_grant, delete_grant, insert_forward_rule, delete_forward_rule,
    insert_audit, delete_audit_before, cascade_user, cascade_target.

Section exec_wf.
Context `{UnicodeTables, RowidsLaws, TimeParser}.

Lemma exec_keeps_wf c : keeps wf_db (exec c).
Proof.
  destruct c; wf_keeps.
Qed.

Lemma exec_all_wf cs d : wf_db d → wf_db (exec_all cs d).
Proof.
  revert d. induction cs as [|c cs IH]; intros d Hd; [done|]. cbn.
  apply IH, keeps_final; [apply exec_keeps_wf|done].
Qed.
End exec_wf.

(** ** Properties *)

(** C9: whatever calls run, however their statements interleave and wherever
    they are in their course, the database stays well formed: primary keys and
    UNIQUE columns have no duplicates, every CHECK holds and every foreign key
    names an existing row. *)
Theorem store_stays_well_formed `{UnicodeTables, RowidsLaws, TimeParser} now cs ps d :
  interleaves (exec <$> cs, empty_db now) (ps, d) → wf_db d.
Proof.
  intros Hi. apply (interleaves_keeps wf_db _ _ Hi); [|apply empty_db_wf].
  apply Forall_fmap, Forall_forall. intros c _. apply exec_keeps_wf.
Qed.

#[local] Existing Instances ascii_tables max_rowids max_rowids_laws sqlite_parser.

Definition racing_calls : list call :=
  [AddUser_call "alice" "admin"; AddUser_call "alice" "member"; AddGroup_call "ops"].

Lemma store_stays_well_formed_witness :
  let d := (schedule [0;1;2;1;0]%nat (exec <$> racing_calls) (empty_db noon)).2 in
  u_username <$> users d = ["alice"] ∧ wf_db d.
Proof.
  split; [by vm_compute|].
  apply (store_stays_well_formed noon racing_calls
           (schedule [0;1;2;1;0]%nat (exec <$> racing_calls) (empty_db noon)).1).
  rewrite <- surjective_pairing. apply schedule_interleaves.
Defined.

(** ** A sample database *)

Definition sample_target (name host : string) : NewTarget :=
  mkNewTarget name host 22 "deploy" "password" "ssh-ed25519" "AAAA" None.

Definition sample_calls : list call :=
  [AddUser_call "alice" "admin"; AddGatewayKey_call "alice" "SHA256:a" "ssh-ed25519 A" "laptop";
   AddUser_call "bob" "member"; AddGatewayKey_call "bob" "SHA256:b" "ssh-ed25519 B" "laptop";
   AddUser_call "carol" "member";
   AddGroup_call "ops"; SetGroupMember_call "ops" "carol" true;
   AddTarget_call (sample_target "web" "10.0.0.1"); AddTarget_call (sample_target "db" "10.0.0.2");
   SetGrantCapabilities_call "web" "user" "bob" true true false true false;
   SetGrant_call "db" "group" "ops" true;
   AddForwardRule_call "web" "Intra.Example" 5432;
   SetUserTOTP_call 2 "nonce" "sealed";
   SetOIDCUsernameMapping_call 2 "https://id.example" "Bob@Example";
   Audit_call (event (Some 2) "bob" "10.1.1.1" "authentication" None "" "")].

(** The database after them, as a literal value. *)
Definition sample_db : db := Eval vm_compute in exec_all sample_calls (empty_db noon).

Lemma sample_db_eq : sample_db = exec_all sample_calls (empty_db noon).
Proof. by vm_compute. Qed.

Lemma sample_db_wf : wf_db sample_db.
Proof. rewrite sample_db_eq. apply exec_all_wf, empty_db_wf. Qed.
