(* ===== verification/StoreWhole.v ===== *)
(** * A call of the store that fails, run alone, changes nothing

    Each call reads, then makes one change; what can still fail after the change
    fails only when no row was changed. *)

From S2P Require Import Prelude GoStrings GoTime Effects Sql Schema Names StoreUsers StoreTargets StoreAccess.
From S2P Require Import StoreWf StoreCalls.

(** [whole_at p d]: from [d], [p] succeeds or leaves [d]. *)
Definition whole_at {A} (p : prog db (result A)) (d : db) : Prop :=
  match run p d with (Ok _, _) => True | (Err _, d') => d' = d end.

Definition reads {A} (p : prog db A) : Prop := ∀ d, final p d = d.

Lemma reads_query {X} (f : db → X) : reads (query f).
Proof. done. Qed.

Lemma reads_ret {A} (a : A) : reads (Ret a : prog db A).
Proof. done. Qed.

Lemma reads_bind {A B} (p : prog db A) (k : A → prog db B) : reads p → (∀ a, reads (k a)) → reads (bind p k).
Proof. intros Hp Hk d. unfold final. rewrite run_bind, Hp. apply Hk. Qed.

Lemma reads_bind_ok {A B} (p : prog db (result A)) (k : A → prog db (result B)) :
  reads p → (∀ a, reads (k a)) → reads (bind_ok p k).
Proof. intros Hp Hk. apply reads_bind; [done|]. intros [a|err]; [apply Hk|done]. Qed.

Lemma whole_ret {A} (r : result A) d : whole_at (Ret r) d.
Proof. by destruct r. Qed.

Lemma whole_reads {A} (p : prog db (result A)) d : reads p → whole_at p d.
Proof. intros Hp. unfold whole_at. specialize (Hp d). unfold final in Hp. by destruct (run p d) as [[] ?]. Qed.

Lemma whole_after_reads {A B} (p : prog db A) (k : A → prog db (result B)) d :
  reads p → whole_at (k (value p d)) d → whole_at (bind p k) d.
Proof. intros Hp Hk. unfold whole_at. by rewrite run_bind, Hp. Qed.

Lemma whole_after_reads_ok {A B} (p : prog db (result A)) (k : A → prog db (result B)) d :
  reads p → (∀ a, value p d = Ok a → whole_at (k a) d) → whole_at (bind_ok p k) d.
Proof.
  intros Hp Hk. apply whole_after_reads; [done|]. destruct (value p d); [by apply Hk|done].
Qed.

(** The change comes last, and its answer fails only when nothing was changed. *)
Lemma whole_atomic {X A} (f : db → result X * db) (g : X → result A) d :
  match f d with (Err _, d') => d' = d | (Ok x, d') => match g x with Ok _ => True | Err _ => d' = d end end →
  whole_at (let? x := atomic f in Ret (g x)) d.
Proof.
  intros Hf. unfold whole_at. rewrite run_bind_ok. cbn [run atomic].
  destruct (f d) as [[x|err] d']; cbn [run]; [by destruct (g x)|done].
Qed.

Lemma whole_changed (f : db → result Z * db) d :
  (match f d with (Err _, d') => d' = d | (Ok n, d') => n = 0 → d' = d end) →
  whole_at (let* r := atomic f in Ret (changed r)) d.
Proof.
  intros Hf. unfold whole_at. rewrite run_bind. unfold value, final. cbn [run atomic].
  destruct (f d) as [[n|err] d']; cbn [run fst snd changed]; [|done].
  destruct (n =? 0) eqn:E; [|done]. apply Hf. lia.
Qed.

(** A statement on one table, of no row *)
Ltac no_row :=
  let E := fresh "E" in
  intros E; rewrite count_rows_zero in E;
  repeat match goal with
  | |- context [update_rows ?p ?f ?t] => rewrite (update_rows_id p f t E)
  | |- context [delete_rows ?p ?t] => rewrite (delete_rows_id p t E)
  end.

Lemma set_users_id f d : f d.(users) = d.(users) → set_users f d = d.
Proof. intros E. unfold set_users. rewrite E. by destruct d. Qed.
Lemma set_gateway_keys_id f d : f d.(gateway_keys) = d.(gateway_keys) → set_gateway_keys f d = d.
Proof. intros E. unfold set_gateway_keys. rewrite E. by destruct d. Qed.
Lemma set_user_totp_id f d : f d.(user_totp) = d.(user_totp) → set_user_totp f d = d.
Proof. intros E. unfold set_user_totp. rewrite E. by destruct d. Qed.
Lemma set_targets_id f d : f d.(targets) = d.(targets) → set_targets f d = d.
Proof. intros E. unfold set_targets. rewrite E. by destruct d. Qed.
Lemma set_groups_table_id f d : f d.(groups_table) = d.(groups_table) → set_groups_table f d = d.
Proof. intros E. unfold set_groups_table. rewrite E. by destruct d. Qed.
Lemma set_group_members_id f d : f d.(group_members) = d.(group_members) → set_group_members f d = d.
Proof. intros E. unfold set_group_members. rewrite E. by destruct d. Qed.
Lemma set_group_target_grants_id f d :
  f d.(group_target_grants) = d.(group_target_grants) → set_group_target_grants f d = d.
Proof. intros E. unfold set_group_target_grants. rewrite E. by destruct d. Qed.

Section whole.
Context `{UnicodeTables, RowidsLaws, TimeParser}.

Lemma AddUser_whole name role d : whole_at (AddUser name role) d.
Proof.
  unfold AddUser. apply whole_after_reads_ok; [done|]. intros u _. destruct (negb _); [done|].
  unfold whole_at. rewrite run_bind_ok. cbn [run atomic]. unfold insert_user.
  destruct (exists_row _ _); [done|]. destruct (negb _); [done|].
  unfold UserByID. cbn [run query]. set (row := User_row _ _ _ _ _).
  change (users (set_users (insert_row row) d)) with (insert_row row d.(users)).
  rewrite query_last; [done| |apply Z.eqb_refl]. intros x Hx. apply Z.eqb_neq. intros Ex.
  apply (new_rowid_fresh (u_id <$> d.(users))). rewrite <- Ex. by apply list_elem_of_fmap_2.
Qed.

Lemma ensure_reads exclude : reads (ensureOtherUsableAdmin exclude).
Proof. apply reads_bind; [done|]. intros n. by destruct (n =? 0). Qed.

Lemma reads_if {A} (b : bool) (p : prog db (result A)) r : reads p → reads (if b then p else Ret r).
Proof. by destruct b. Qed.

Lemma SetUserEnabled_whole name b d : whole_at (SetUserEnabled name b) d.
Proof.
  unfold SetUserEnabled. apply whole_after_reads_ok; [done|]. intros u _.
  apply whole_after_reads_ok; [apply reads_if, ensure_reads|]. intros _ _. apply whole_changed.
  unfold update_user_enabled. no_row. apply set_users_id. by apply update_rows_id.
Qed.

Lemma SetUserRole_whole name role d : whole_at (SetUserRole name role) d.
Proof.
  unfold SetUserRole. destruct (negb (validRole role)); [done|].
  apply whole_after_reads_ok; [done|]. intros u _.
  apply whole_after_reads_ok; [apply reads_if, ensure_reads|]. intros _ _. apply whole_changed.
  unfold update_user_role. destruct (_ && _); [done|]. no_row. apply set_users_id. by apply update_rows_id.
Qed.

Lemma DeleteUser_whole name d : whole_at (DeleteUser name) d.
Proof.
  unfold DeleteUser. apply whole_after_reads_ok; [done|]. intros u _.
  apply whole_after_reads_ok; [apply reads_if, ensure_reads|]. intros _ _. apply whole_changed.
  unfold delete_user. destruct (exists_row _ _) eqn:E; [|done].
  apply exists_row_true in E as (x & Hx & Ex). rewrite count_rows_zero. intros E. by rewrite E in Ex.
Qed.

Lemma AddGatewayKey_whole user fp key label d : whole_at (AddGatewayKey user fp key label) d.
Proof.
  unfold AddGatewayKey. apply whole_after_reads_ok; [done|]. intros u _.
  apply whole_after_reads; [done|]. destruct (value _ _); [done|]. apply whole_atomic.
  unfold insert_gateway_key. destruct (exists_row _ _); [done|]. by destruct (negb _).
Qed.

Lemma RemoveGatewayKey_whole user fp d : whole_at (RemoveGatewayKey user fp) d.
Proof.
  unfold RemoveGatewayKey. apply whole_after_reads_ok; [done|]. intros u _.
  apply whole_after_reads; [done|].
  apply whole_after_reads_ok; [apply reads_if, ensure_reads|]. intros _ _. apply whole_changed.
  unfold delete_gateway_key. no_row. apply set_gateway_keys_id. by apply delete_rows_id.
Qed.

Lemma RemoveUserTOTP_whole id d : whole_at (RemoveUserTOTP id) d.
Proof. apply whole_changed. unfold delete_totp. no_row. apply set_user_totp_id. by apply delete_rows_id. Qed.

Lemma AddGroup_whole name d : whole_at (AddGroup name) d.
Proof.
  unfold AddGroup. apply whole_after_reads_ok; [done|]. intros g _. apply whole_atomic.
  unfold insert_group. by destruct (exists_row _ _).
Qed.

Lemma DeleteGroup_whole name d : whole_at (DeleteGroup name) d.
Proof.
  apply whole_changed. unfold delete_group. intros E. rewrite count_rows_zero in E.
  assert (∀ id, exists_row (λ g, (g_name g =s ToLower name) && (g_id g =? id)) d.(groups_table) = false) as Hg.
  { intros id. apply exists_row_false. intros g Hin. by rewrite E. }
  rewrite set_group_target_grants_id by (apply delete_rows_id; intros; apply Hg).
  rewrite set_group_members_id by (apply delete_rows_id; intros; apply Hg).
  apply set_groups_table_id. by apply delete_rows_id.
Qed.

Lemma SetGroupMember_whole group user add d : whole_at (SetGroupMember group user add) d.
Proof.
  unfold SetGroupMember. apply whole_after_reads_ok; [done|]. intros u _.
  apply whole_after_reads_ok; [done|]. intros g _. destruct add.
  - apply whole_atomic. unfold insert_group_member. destruct (exists_row _ _); [done|]. by destruct (negb _).
  - by apply whole_atomic.
Qed.

Lemma SetTargetEnabled_whole name b d : whole_at (SetTargetEnabled name b) d.
Proof. apply whole_changed. unfold update_target_enabled. no_row. apply set_targets_id. by apply update_rows_id. Qed.

Lemma DeleteTarget_whole name d : whole_at (DeleteTarget name) d.
Proof.
  apply whole_changed. unfold delete_target. destruct (query_row _ _) as [t|] eqn:E; [|done].
  apply query_row_Some in E as [Ht En]. rewrite count_rows_zero. intros E. by rewrite E in En.
Qed.

Lemma SetTargetCredentialKind_whole id kind nonce ct d : whole_at (SetTargetCredentialKind id kind nonce ct) d.
Proof.
  unfold SetTargetCredentialKind. destruct (negb _); [done|]. destruct (kind =s _); [done|].
  apply whole_changed. unfold update_target_credential_kind. destruct (_ && _); [done|].
  no_row. apply set_targets_id. by apply update_rows_id.
Qed.

Lemma SetTargetHostKey_whole name algorithm key d : whole_at (SetTargetHostKey name algorithm key) d.
Proof. apply whole_changed. unfold update_target_host_key. no_row. apply set_targets_id. by apply update_rows_id. Qed.

Lemma UpdateTarget_whole name host port user d : whole_at (UpdateTarget name host port user) d.
Proof.
  unfold UpdateTarget. destruct (_ || _); [done|]. apply whole_changed. unfold update_target_fields.
  destruct (_ && _); [done|]. no_row. apply set_targets_id. by apply update_rows_id.
Qed.

Lemma resolve_reads kind principal : reads (resolve_principal kind principal).
Proof.
  unfold resolve_principal. destruct (kind =s "user"); [by apply reads_bind_ok|].
  destruct (kind =s "group"); [by apply reads_bind_ok|done].
Qed.

Lemma SetGrant_whole target kind principal add d : whole_at (SetGrant target kind principal add) d.
Proof.
  unfold SetGrant, SetGrantCapabilities. apply whole_after_reads_ok; [done|]. intros t _.
  apply whole_after_reads_ok; [apply resolve_reads|]. intros p _. destruct add; [|by apply whole_atomic].
  apply whole_atomic. unfold upsert_grant. destruct (exists_row _ _); [done|]. by destruct (negb _).
Qed.

End whole.

(** ** A new target, and what undoes it

    [AddTarget] run alone, the credential stored for the row it made, and the
    deletion that leaves the database as it was. *)

Section facts.
Context `{UnicodeTables, RowidsLaws, TimeParser}.

Definition target_row_of (n : NewTarget) (d : db) : target_row :=
  Target_row (new_rowid (t_id <$> d.(targets))) (NT_Name n) (NT_Host n) (NT_Port n) (NT_RemoteUsername n)
    (NT_CredentialKind n) "" "" (NT_HostKeyAlgorithm n) (NT_HostPublicKey n) true
    (CURRENT_TIMESTAMP d) (CURRENT_TIMESTAMP d) (NT_IdentityID n).

Lemma fresh_target_id d t : t ∈ d.(targets) → (t_id t =? new_rowid (t_id <$> d.(targets))) = false.
Proof.
  intros Ht. apply Z.eqb_neq. intros E. apply (new_rowid_fresh (t_id <$> d.(targets))).
  rewrite <- E. by apply list_elem_of_fmap_2.
Qed.

(** [AddTarget] fails, or the row is there under a new name. *)
Lemma AddTarget_run n d :
  (∃ err, run (AddTarget n) d = (Err err, d)) ∨
  (∀ t, t ∈ d.(targets) → (t_name t =s NT_Name n) = false) ∧
  run (AddTarget n) d = (Ok (target_of_row (target_row_of n d)),
                         set_targets (insert_row (target_row_of n d)) d).
Proof.
  unfold AddTarget.
  repeat match goal with
  | |- context [run (if ?b then Ret (Err ?e) else _) d] => destruct b; [left; by eexists|]
  end.
  rewrite run_bind_ok. cbn [run atomic]. unfold insert_target.
  destruct (exists_row _ _) eqn:En; [left; by eexists|].
  destruct (negb _); [left; by eexists|]. destruct (negb _); [left; by eexists|].
  right. split; [by apply exists_row_false|].
  change (run (TargetByID (new_rowid (t_id <$> d.(targets)))) (set_targets (insert_row (target_row_of n d)) d) =
    (Ok (target_of_row (target_row_of n d)), set_targets (insert_row (target_row_of n d)) d)).
  unfold TargetByID. cbn [run query].
  change (targets (set_targets (insert_row (target_row_of n d)) d))
    with (insert_row (target_row_of n d) d.(targets)).
  rewrite query_last; [done| |apply Z.eqb_refl]. intros t Ht. by apply fresh_target_id.
Qed.

(** Deleting the row that was just added restores the database. *)
Lemma delete_rows_last {R} (p : R → bool) (t : list R) r :
  (∀ x, x ∈ t → p x = false) → p r = true → delete_rows p (insert_row r t) = t.
Proof.
  intros Hn Hr. unfold delete_rows, insert_row. rewrite List.filter_app. cbn. rewrite Hr. cbn.
  rewrite app_nil_r. by apply delete_rows_id.
Qed.

Lemma refers_not {R} (col : R → option Z) (t : list R) (d : db) r id :
  refers col t_id t d.(targets) → r ∈ t → id = new_rowid (t_id <$> d.(targets)) → col r ≠ Some id.
Proof.
  intros Hr Hin -> Hc. destruct (Hr r _ Hin Hc) as (x & Hx & E).
  pose proof (fresh_target_id d x Hx) as Hf. rewrite E in Hf. by rewrite Z.eqb_refl in Hf.
Qed.

Lemma cascade_fresh d : wf_db d → cascade_target (new_rowid (t_id <$> d.(targets))) d = d.
Proof.
  intros Hd. unfold cascade_target. set (id := new_rowid _).
  assert (delete_rows (λ g, gr_target_id g =? id) d.(user_target_grants) = d.(user_target_grants)) as E1.
  { apply delete_rows_id. intros g Hg. apply Z.eqb_neq. intros E.
    apply (refers_not _ _ d g id (wf_ug_target d (wf_db_grants d Hd)) Hg eq_refl). cbn. congruence. }
  assert (delete_rows (λ g, gr_target_id g =? id) d.(group_target_grants) = d.(group_target_grants)) as E2.
  { apply delete_rows_id. intros g Hg. apply Z.eqb_neq. intros E.
    apply (refers_not _ _ d g id (wf_gg_target d (wf_db_grants d Hd)) Hg eq_refl). cbn. congruence. }
  assert (delete_rows (λ r, fr_target_id r =? id) d.(target_forward_rules) = d.(target_forward_rules)) as E3.
  { apply delete_rows_id. intros r Hr. apply Z.eqb_neq. intros E.
    apply (refers_not _ _ d r id (wf_fr_target d (wf_db_grants d Hd)) Hr eq_refl). cbn. congruence. }
  destruct d; unfold set_audit_events, set_target_forward_rules, set_group_target_grants, set_user_target_grants.
  cbn in *. rewrite E1, E2, E3. f_equal. apply update_rows_id. intros a Ha.
  apply bool_decide_eq_false. eapply (refers_not _ _ _ a id (wf_ae_target _ (wf_db_audit _ Hd)) Ha eq_refl).
Qed.

Lemma cascade_set_targets id f d : cascade_target id (set_targets f d) = set_targets f (cascade_target id d).
Proof. reflexivity. Qed.

Lemma set_targets_undo f g d : g (f d.(targets)) = d.(targets) → set_targets g (set_targets f d) = d.
Proof. intros E. unfold set_targets at 1. cbn. rewrite E. by destruct d. Qed.

Lemma delete_added n d : wf_db d → (∀ t, t ∈ d.(targets) → (t_name t =s NT_Name n) = false) →
  final (DeleteTarget (NT_Name n)) (set_targets (insert_row (target_row_of n d)) d) = d.
Proof.
  intros Hd Hn. unfold final, DeleteTarget. rewrite run_bind. unfold final, value. cbn [run atomic].
  unfold delete_target.
  change (targets (set_targets (insert_row (target_row_of n d)) d))
    with (insert_row (target_row_of n d) d.(targets)).
  rewrite query_last; [|done|apply String.eqb_refl]. cbn [fst snd run].
  change (t_id (target_row_of n d)) with (new_rowid (t_id <$> d.(targets))).
  rewrite cascade_set_targets, cascade_fresh by done. apply set_targets_undo.
  apply delete_rows_last; [done|apply String.eqb_refl].
Qed.

(** The row of a new target, its credential in place *)
Definition sealed_row (n : NewTarget) (sealed : string * string) (d : db) : target_row :=
  let r := target_row_of n d in
  Target_row (t_id r) (t_name r) (t_host r) (t_port r) (t_remote_username r) (t_credential_kind r)
    sealed.1 sealed.2 (t_host_key_algorithm r) (t_host_public_key r) true (t_created_at r)
    (CURRENT_TIMESTAMP d) None.

(** Storing the credential changes the new row only. *)
Lemma store_credential n sealed d :
  run (SetTargetCredential (t_id (target_row_of n d)) sealed.1 sealed.2)
      (set_targets (insert_row (target_row_of n d)) d) =
  (Ok tt, set_targets (insert_row (sealed_row n sealed d)) d).
Proof.
  change (SetTargetCredential (t_id (target_row_of n d)) sealed.1 sealed.2)
    with (SetTargetCredential (new_rowid (t_id <$> d.(targets))) sealed.1 sealed.2).
  unfold SetTargetCredential. rewrite run_bind. unfold value, final. cbn [run atomic fst snd].
  unfold update_target_credential.
  change (targets (set_targets (insert_row (target_row_of n d)) d))
    with (insert_row (target_row_of n d) d.(targets)).
  set (id := new_rowid (t_id <$> d.(targets))).
  assert (count_rows (λ t, t_id t =? id) (insert_row (target_row_of n d) d.(targets)) = 1) as ->.
  { unfold count_rows, select, insert_row. rewrite List.filter_app.
    pose proof (proj1 (count_rows_zero (λ t, t_id t =? id) d.(targets))) as _.
    assert (List.filter (λ t, t_id t =? id) d.(targets) = []) as ->.
    { destruct (List.filter _ _) as [|x l] eqn:E; [done|].
      assert (x ∈ select (λ t, t_id t =? id) d.(targets)) as Hx by (unfold select; rewrite E; left).
      apply elem_of_select in Hx as [Hx Ex]. unfold id in Ex. by rewrite (fresh_target_id d x Hx) in Ex. }
    cbn. by rewrite Z.eqb_refl. }
  cbn [changed Z.eqb run]. f_equal. unfold set_targets. cbn. f_equal.
  unfold update_rows, insert_row. rewrite fmap_app. cbn. rewrite Z.eqb_refl. f_equal.
  rewrite <- (list_fmap_id d.(targets)) at 2. apply list_fmap_ext. intros i t Ht.
  apply list_elem_of_lookup_2 in Ht. unfold id. by rewrite (fresh_target_id d t Ht).
Qed.

End facts.
