(* ===== verification/StoreAdmin.v ===== *)
(** * The last usable administrator (store.go)

    [SetUserEnabled], [SetUserRole], [DeleteUser] and [RemoveGatewayKey] refuse
    to remove the last enabled administrator with a gateway key.  They do when
    calls follow one another; two concurrent calls can still do it together. *)

From S2P Require Import Prelude GoStrings GoTime Effects Sql Schema Names StoreUsers StoreOIDC.
From S2P Require Import StoreTargets StoreAccess StoreAudit StoreWf StoreCalls.

#[local] Existing Instances ascii_tables max_rowids max_rowids_laws sqlite_parser.

(** [u] is an enabled administrator that can log in with a gateway key. *)
Definition usable_admin (d : db) (u : user_row) : Prop :=
  u ∈ d.(users) ∧ u_role u = RoleAdmin ∧ u_enabled u = true ∧
  ∃ k, k ∈ d.(gateway_keys) ∧ k_user_id k = u_id u.

Definition has_usable_admin (d : db) : Prop := ∃ u, usable_admin d u.

Lemma usable_admin_row_true d e u :
  usable_admin_row d e u = true ∧ u ∈ d.(users) ↔ usable_admin d u ∧ u_id u ≠ e.
Proof.
  unfold usable_admin_row, usable_admin.
  rewrite !andb_true_iff, exists_row_true, String.eqb_eq, negb_true_iff, Z.eqb_neq.
  setoid_rewrite Z.eqb_eq. unfold RoleAdmin. tauto.
Qed.

Definition final_admin_error : error := Msg "operation would remove the final usable administrator".

(** The check that guards the removals. *)
Lemma ensure_cases d e :
  (run (ensureOtherUsableAdmin e) d = (Ok tt, d) ∧ ∃ u, usable_admin d u ∧ u_id u ≠ e) ∨
  (run (ensureOtherUsableAdmin e) d = (Err final_admin_error, d) ∧ ∀ u, usable_admin d u → u_id u = e).
Proof.
  unfold ensureOtherUsableAdmin. rewrite run_bind. unfold value, final. cbn.
  destruct (_ =? 0) eqn:E; [right|left]; (split; [done|]); bool_simp.
  - rewrite count_rows_zero in E. intros u Hu. destruct (Z.eq_dec (u_id u) e) as [|Hne]; [done|].
    destruct (proj2 (usable_admin_row_true d e u) (conj Hu Hne)) as [Hr Hin].
    rewrite E in Hr; [discriminate|done].
  - pose proof (count_rows_nonneg (usable_admin_row d e) (users d)).
    destruct (proj1 (count_rows_pos (usable_admin_row d e) (users d))) as (u & Hu & Hr); [lia|].
    exists u. by apply usable_admin_row_true.
Qed.

Lemma usable_same d d' :
  users d' = users d → gateway_keys d' = gateway_keys d → has_usable_admin d → has_usable_admin d'.
Proof. intros Eu Ek (u & Hu). exists u. unfold usable_admin. by rewrite Eu, Ek. Qed.

(** An administrator whose row and keys survive a change. *)
Lemma usable_survives d' u k :
  u ∈ d'.(users) → k ∈ d'.(gateway_keys) → k_user_id k = u_id u →
  u_role u = RoleAdmin → u_enabled u = true → has_usable_admin d'.
Proof. intros. exists u. repeat split; eauto. Qed.

(** An UPDATE of the user [id] leaves the other administrators alone. *)
Lemma usable_update d id f :
  (∃ u, usable_admin d u ∧ (u_id u ≠ id ∨
     (u_id (f u) = u_id u ∧ u_role (f u) = RoleAdmin ∧ u_enabled (f u) = true))) →
  has_usable_admin (set_users (update_rows (λ u, u_id u =? id) f) d).
Proof.
  intros (u & (Hu & Hr & He & k & Hk & Ek) & Hf).
  assert (u_id (if u_id u =? id then f u else u) = u_id u ∧
    u_role (if u_id u =? id then f u else u) = RoleAdmin ∧
    u_enabled (if u_id u =? id then f u else u) = true) as (E1 & E2 & E3).
  { destruct (u_id u =? id) eqn:E; [|done]. destruct Hf as [?|?]; [bool_simp; lia|done]. }
  exists (if u_id u =? id then f u else u). repeat split; [|done|done|].
  - cbn. apply elem_of_update. eauto.
  - exists k. by rewrite E1.
Qed.

Section admin.
Context `{UnicodeTables, RowidsLaws, TimeParser}.

(** A usable administrator is not the row [u] if that row is not one. *)
Lemma usable_not d u u' : wf_db d → u ∈ d.(users) → usable_admin d u' →
  u_id u' = u_id u → u' = u.
Proof.
  intros Hd Hu Hu' E. apply (unique_on_eq u_id d.(users)); [apply Hd|apply Hu'|done|done].
Qed.

Lemma SetUserEnabled_keeps_admin name b d :
  wf_db d → has_usable_admin d → has_usable_admin (final (SetUserEnabled name b) d).
Proof.
  intros Hd Ha. unfold final, SetUserEnabled. rewrite run_bind_ok, UserByName_run.
  destruct (scanUser _ _) as [v|] eqn:E; [|done].
  apply scanUser_Ok in E as (u & Hu & _ & ->). cbn [user_of_row User_Role User_ID].
  rewrite run_bind_ok. destruct (negb b && _) eqn:E.
  - destruct (ensure_cases d (u_id u)) as [[-> (u' & Hu' & Hne)]|[-> _]]; [|done].
    apply usable_update. eauto.
  - cbn. apply usable_update. destruct Ha as (u' & Hu'). exists u'. split; [done|].
    destruct b; [right; cbn; unfold usable_admin in Hu'; tauto|left]. intros Hid.
    rewrite (usable_not d u u') in Hu' by done. destruct Hu' as (_ & Hr & _).
    by rewrite Hr in E.
Qed.

Lemma SetUserRole_keeps_admin name role d :
  wf_db d → has_usable_admin d → has_usable_admin (final (SetUserRole name role) d).
Proof.
  intros Hd Ha. unfold final, SetUserRole. destruct (negb _) eqn:Ev; [done|].
  rewrite run_bind_ok, UserByName_run.
  destruct (scanUser _ _) as [v|] eqn:E; [|done].
  apply scanUser_Ok in E as (u & Hu & _ & ->). cbn [user_of_row User_Role User_ID].
  assert (∀ id d, has_usable_admin (set_users (update_rows (λ u, u_id u =? id)
     (λ u, User_row (u_id u) (u_username u) role (u_enabled u) (u_created_at u))) d) →
     has_usable_admin (final (let* r := atomic (update_user_role role id) in Ret (changed r)) d)) as Hup.
  { intros id d' Hs. unfold final. cbn. unfold update_user_role. by rewrite Ev, andb_false_r. }
  rewrite run_bind_ok. destruct (_ && negb _) eqn:E.
  - destruct (ensure_cases d (u_id u)) as [[-> (u' & Hu' & Hne)]|[-> _]]; [|done].
    apply Hup, usable_update. eauto.
  - apply Hup, usable_update. destruct Ha as (u' & Hu'). exists u'. split; [done|].
    destruct (role =s RoleAdmin) eqn:Er; [right; bool_simp; unfold usable_admin in Hu'; cbn; tauto|left].
    intros Hid. rewrite (usable_not d u u') in Hu' by done. destruct Hu' as (_ & Hr & _).
    by rewrite Hr in E.
Qed.

Lemma DeleteUser_keeps_admin name d :
  wf_db d → has_usable_admin d → has_usable_admin (final (DeleteUser name) d).
Proof.
  intros Hd Ha. unfold final, DeleteUser. rewrite run_bind_ok, UserByName_run.
  destruct (scanUser _ _) as [v|] eqn:E; [|done].
  apply scanUser_Ok in E as (u & Hu & _ & ->). cbn [user_of_row User_Role User_ID].
  assert (∀ u', usable_admin d u' → u_id u' ≠ u_id u →
    has_usable_admin (final (let* r := atomic (delete_user (u_id u)) in Ret (changed r)) d)) as Hdel.
  { intros u' (Hu' & Hr & He & k & Hk & Ek) Hne. unfold final. cbn. unfold delete_user.
    destruct (exists_row _ _); [|by exists u'; repeat split; eauto].
    apply (usable_survives _ u' k); [..|done|done|done]; cbn; apply elem_of_delete;
      (split; [done|]); apply Z.eqb_neq; congruence. }
  rewrite run_bind_ok. destruct (_ =s _) eqn:E.
  - destruct (ensure_cases d (u_id u)) as [[-> (u' & Hu' & Hne)]|[-> _]]; [|done].
    by apply (Hdel u').
  - destruct Ha as (u' & Hu'). apply (Hdel u'); [done|]. intros Hid.
    rewrite (usable_not d u u') in Hu' by done. destruct Hu' as (_ & Hr & _). by rewrite Hr in E.
Qed.

Lemma RemoveGatewayKey_keeps_admin name fp d :
  wf_db d → has_usable_admin d → has_usable_admin (final (RemoveGatewayKey name fp) d).
Proof.
  intros Hd Ha. unfold final, RemoveGatewayKey. rewrite run_bind_ok, UserByName_run.
  destruct (scanUser _ _) as [v|] eqn:E; [|done].
  apply scanUser_Ok in E as (u & Hu & _ & ->). cbn [user_of_row User_Role User_ID User_Enabled].
  set (last := let* r := atomic (delete_gateway_key (u_id u) fp) in Ret (changed r)).
  assert (∀ u', usable_admin d u' → u_id u' ≠ u_id u → has_usable_admin (final last d)) as Hother.
  { intros u' (Hu' & Hr & He & k & Hk & Ek) Hne.
    apply (usable_survives _ u' k); [done| |done|done|done]. cbn. apply elem_of_delete.
    split; [done|]. apply andb_false_iff. left. apply Z.eqb_neq. congruence. }
  rewrite run_bind. unfold value, final. cbn [run query fst snd]. rewrite run_bind_ok.
  destruct (_ && _ && _) eqn:E.
  - destruct (ensure_cases d (u_id u)) as [[-> (u' & Hu' & Hne)]|[-> _]]; [|done].
    by apply (Hother u').
  - cbn [run]. destruct Ha as (u' & Hu').
    destruct (Z.eq_dec (u_id u') (u_id u)) as [Hid|Hne]; [|by apply (Hother u')].
    rewrite (usable_not d u u') in Hu' by done. destruct Hu' as (_ & Hr & He & _).
    rewrite Hr, He in E. cbn [andb] in E. apply Z.leb_gt in E.
    apply (count_rows_two gateway_key_key) in E as (k1 & k2 & Hk1 & Hk2 & E1 & E2 & Hne); [|apply Hd].
    apply Z.eqb_eq in E1, E2.
    assert (∃ k, k ∈ gateway_keys d ∧ k_user_id k = u_id u ∧ k_fingerprint k ≠ fp) as (k & Hk & Ek & Hf).
    { destruct (String.eqb_spec (k_fingerprint k1) fp) as [<-|]; [|by exists k1].
      exists k2. repeat split; [done|done|]. intros Ef. apply Hne. unfold gateway_key_key. congruence. }
    apply (usable_survives _ u k); [done| |done|done|done]. cbn. apply elem_of_delete.
    split; [done|]. rewrite Ek, Z.eqb_refl. by apply String.eqb_neq.
Qed.

Lemma insert_user_keeps_admin name role d :
  has_usable_admin d → has_usable_admin (insert_user name role d).2.
Proof.
  intros (u & Hu & Hr & He & k & Hk & Ek). unfold insert_user.
  split_matches; try (by exists u; repeat split; eauto).
  apply (usable_survives _ u k); try done. cbn. apply elem_of_insert. by left.
Qed.

Lemma insert_gateway_key_keeps_admin uid fp pk label d :
  has_usable_admin d → has_usable_admin (insert_gateway_key uid fp pk label d).2.
Proof.
  intros (u & Hu & Hr & He & k & Hk & Ek). unfold insert_gateway_key.
  split_matches; try (by exists u; repeat split; eauto).
  apply (usable_survives _ u k); try done. cbn. apply elem_of_insert. by left.
Qed.

(** The statements of the other calls leave users and keys alone. *)
Ltac keeps_same :=
  cbn [exec]; unfold_store; keeps_tac;
  try (apply keeps_atomic; intros ? ?;
       first [ by apply insert_user_keeps_admin | by apply insert_gateway_key_keeps_admin
             | eapply usable_same; [..|eassumption]; unfold_statements;
               unfold set_grant_table; by split_matches ]).

Lemma exec_keeps_admin c d :
  wf_db d → has_usable_admin d → has_usable_admin (final (exec c) d).
Proof.
  intros Hd Ha. destruct c.
  all: try (apply keeps_final; [|done]; by keeps_same).
  - by apply SetUserEnabled_keeps_admin.
  - by apply SetUserRole_keeps_admin.
  - by apply DeleteUser_keeps_admin.
  - by apply RemoveGatewayKey_keeps_admin.
Qed.

Lemma exec_all_keeps_admin cs d :
  wf_db d → has_usable_admin d → has_usable_admin (exec_all cs d).
Proof.
  revert d. induction cs as [|c cs IH]; intros d Hd Ha; [done|]. cbn.
  apply IH; [apply keeps_final; [apply exec_keeps_wf|done]|by apply exec_keeps_admin].
Qed.

End admin.

(** ** An example: two administrators *)

Definition has_usable_adminb (d : db) : bool :=
  existsb (λ u, (u_role u =s RoleAdmin) && u_enabled u
                && existsb (λ k, k_user_id k =? u_id u) d.(gateway_keys)) d.(users).

Lemma has_usable_adminb_spec d : has_usable_adminb d = true ↔ has_usable_admin d.
Proof.
  unfold has_usable_adminb, has_usable_admin, usable_admin. rewrite existsb_true.
  setoid_rewrite andb_true_iff. setoid_rewrite andb_true_iff. setoid_rewrite existsb_true.
  setoid_rewrite String.eqb_eq. setoid_rewrite Z.eqb_eq.
  split; intros (u & Hu); exists u; tauto.
Qed.

(** The database two administrators with a key each leave. *)
Definition two_admins : db := exec_all
  [AddUser_call "alice" "admin"; AddGatewayKey_call "alice" "SHA256:a" "ssh-ed25519 A" "laptop";
   AddUser_call "bob" "admin"; AddGatewayKey_call "bob" "SHA256:b" "ssh-ed25519 B" "laptop"]
  (empty_db noon).

Lemma two_admins_wf : wf_db two_admins.
Proof. apply exec_all_wf, empty_db_wf. Qed.

Example two_admins_usable : has_usable_adminb two_admins = true.
Proof. by vm_compute. Qed.

(** ** Properties *)

(** C11: the last usable administrator survives.  A usable administrator is an
    enabled user of role admin with a gateway key.  If there is one, there still
    is one after any sequence of calls of the store, each of them finished
    before the next: disabling, demoting and deleting users and removing keys
    refuse when they would leave none, and no other call touches them. *)
Theorem usable_admin_survives `{UnicodeTables, RowidsLaws, TimeParser} cs d :
  wf_db d → has_usable_admin d → has_usable_admin (exec_all cs d).
Proof. apply exec_all_keeps_admin. Qed.

Lemma usable_admin_survives_witness :
  has_usable_admin (exec_all [SetUserEnabled_call "alice" false; SetUserEnabled_call "bob" false;
                              DeleteUser_call "bob"; RemoveGatewayKey_call "bob" "SHA256:b";
                              SetUserRole_call "bob" "member"] two_admins).
Proof.
  apply (usable_admin_survives _ two_admins); [apply two_admins_wf|].
  apply has_usable_adminb_spec. by vm_compute.
Defined.

(** The guard is a check followed by a separate statement.  Two calls that
    each disable one of two administrators can interleave so that both checks
    pass, both succeed and no usable administrator is left. *)
Theorem concurrent_disables_lock_out :
  ∃ d', interleaves ([SetUserEnabled "alice" false; SetUserEnabled "bob" false], two_admins)
                    ([Ret (Ok tt); Ret (Ok tt)], d') ∧
        has_usable_admin two_admins ∧ ¬ has_usable_admin d'.
Proof.
  pose proof (schedule_interleaves [0;1;0;1;0;1]%nat
    [SetUserEnabled "alice" false; SetUserEnabled "bob" false] two_admins) as Hi.
  destruct (schedule _ _ _) as [ps d'] eqn:E. vm_compute in E. injection E as <- <-.
  eexists. split; [exact Hi|]. rewrite <- !has_usable_adminb_spec. split; [by vm_compute|].
  by vm_compute.
Qed.
