(* ===== verification/StoreAuthz.v ===== *)
(** * Who may do what (store.go)

    The authorization answers of the store, against a specification of what a
    grant means: [CanAccessCapability], [SetGrantCapabilities],
    [ListAuthorizedTargets], the forwarding rules, and what deletions revoke. *)

From S2P Require Import Prelude GoStrings GoTime Effects Sql Schema Names StoreUsers StoreOIDC.
From S2P Require Import StoreTargets StoreAccess StoreAudit StoreWf StoreCalls.

(** ** The specification *)

(** [granted d uid tid column]: a grant of the user or of one of the user's
    groups on the target has the capability. *)
Inductive granted (d : db) (uid tid : Z) (column : grant_row → bool) : Prop :=
  | granted_user g :
      g ∈ d.(user_target_grants) → gr_principal_id g = uid → gr_target_id g = tid →
      column g = true → granted d uid tid column
  | granted_group m g :
      m ∈ d.(group_members) → gm_user_id m = uid →
      g ∈ d.(group_target_grants) → gr_principal_id g = gm_group_id m → gr_target_id g = tid →
      column g = true → granted d uid tid column.

(** What a user may use: an enabled user, an enabled target, and the role of an
    administrator or a grant of the capability. *)
Record permitted (d : db) (u : User) (tid : Z) (column : grant_row → bool) : Prop := {
  permitted_user : User_Enabled u = true;
  permitted_target : ∃ t, t ∈ d.(targets) ∧ t_id t = tid ∧ t_enabled t = true;
  permitted_by : User_Role u = RoleAdmin ∨ granted d (User_ID u) tid column;
}.

(** The capabilities by name, and what a grant's columns give. *)
Definition capabilities : list string := ["shell"; "sftp"; "scp"; "tcp_forward"].

Inductive carries (g : grant_row) : string → Prop :=
  | carries_shell : gr_shell g = true → carries g "shell"
  | carries_sftp : gr_sftp g = true → carries g "sftp"
  | carries_scp : gr_scp g = true → carries g "scp"
  | carries_forward : gr_tcp_forward g = true → carries g "tcp_forward".

(** The grants that count for a user: the user's own, and those of the user's
    groups. *)
Inductive grant_for (d : db) (uid tid : Z) (g : grant_row) : Prop :=
  | own_grant :
      g ∈ d.(user_target_grants) → gr_principal_id g = uid → gr_target_id g = tid →
      grant_for d uid tid g
  | group_grant m :
      m ∈ d.(group_members) → gm_user_id m = uid → g ∈ d.(group_target_grants) →
      gr_principal_id g = gm_group_id m → gr_target_id g = tid → grant_for d uid tid g.

(** What a user may use a target for, by the name of the capability. *)
Record may_use (d : db) (u : User) (tid : Z) (capability : string) : Prop := {
  use_user : User_Enabled u = true;
  use_target : ∃ t, t ∈ d.(targets) ∧ t_id t = tid ∧ t_enabled t = true;
  use_known : capability ∈ capabilities;
  use_by : User_Role u = "admin" ∨ ∃ g, grant_for d (User_ID u) tid g ∧ carries g capability;
}.

(** The columns the query names are the ones the capabilities mean. *)
Lemma capability_column_carries capability column :
  capability_column capability = Some column →
  capability ∈ capabilities ∧ ∀ g, column g = true ↔ carries g capability.
Proof.
  unfold capability_column, CapabilityShell, CapabilitySFTP, CapabilitySCP, CapabilityForward, capabilities.
  intros Hc. repeat match type of Hc with context [?a =s ?b] => destruct (String.eqb_spec a b) as [->|] end;
    try done; injection Hc as <-; (split; [set_solver|]); intros g;
    (split; [intros; by constructor|inversion 1; done]).
Qed.

Lemma capability_column_known capability :
  capability ∈ capabilities → ∃ column, capability_column capability = Some column.
Proof.
  unfold capabilities. rewrite !elem_of_cons, elem_of_nil. intros [->|[->|[->|[->|[]]]]]; by eexists.
Qed.

Lemma granted_carries d uid tid capability column : capability_column capability = Some column →
  granted d uid tid column ↔ ∃ g, grant_for d uid tid g ∧ carries g capability.
Proof.
  intros Hc. apply capability_column_carries in Hc as [_ Hc]. split.
  - intros [g ? ? ? Hg|m g ? ? ? ? ? Hg]; exists g; (split; [|by apply Hc]); [by apply own_grant|by eapply group_grant].
  - intros (g & [? ? ?|m ? ? ? ? ?] & Hg); apply Hc in Hg; [by eapply granted_user|by eapply granted_group].
Qed.

Lemma permitted_may_use d u tid capability :
  (∃ column, capability_column capability = Some column ∧ permitted d u tid column) ↔ may_use d u tid capability.
Proof.
  split.
  - intros (column & Hc & [Hu Ht Hby]). split; [done|done|by eapply capability_column_carries|].
    by rewrite (granted_carries _ _ _ _ _ Hc) in Hby.
  - intros [Hu Ht Hk Hby]. destruct (capability_column_known _ Hk) as [column Hc]. exists column.
    split; [done|]. split; [done|done|]. by rewrite (granted_carries _ _ _ _ _ Hc).
Qed.

Lemma member_may_granted d uid column t :
  member_may uid column d t = true ↔ granted d uid (t_id t) column.
Proof.
  unfold member_may. rewrite orb_true_iff, !exists_row_true. split.
  - intros [(g & Hg & E)|(m & Hm & E)].
    + bool_simp. by eapply granted_user.
    + apply andb_true_iff in E as [Em E]. rewrite exists_row_true in E. destruct E as (g & Hg & E).
      bool_simp. by eapply granted_group.
  - intros [g Hg <- <- Hc|m g Hm <- Hg Ep <- Hc]; [left; exists g|right; exists m].
    + by rewrite !Z.eqb_refl, Hc.
    + split; [done|]. apply andb_true_iff. split; [by apply Z.eqb_eq|].
      apply exists_row_true. exists g. by rewrite Ep, !Z.eqb_refl, Hc.
Qed.

(** The answer of the access query, and that it changes nothing. *)
Lemma CanAccessCapability_run u tid cap d :
  ∃ b, run (CanAccessCapability u tid cap) d = (b, d) ∧
    (b = true ↔ ∃ column, capability_column cap = Some column ∧ permitted d u tid column).
Proof.
  unfold CanAccessCapability. destruct (negb _) eqn:Ee.
  { exists false. split; [done|]. split; [done|]. intros (c & _ & [He _ _]). by rewrite He in Ee. }
  apply negb_false_iff in Ee. destruct (capability_column cap) as [c|].
  2:{ exists false. split; [done|]. split; [done|]. by intros (c & ? & _). }
  rewrite run_bind. unfold value, final. destruct (_ =s _) eqn:Er; cbn [run query fst snd];
    (eexists; split; [reflexivity|]); rewrite Z.ltb_lt, count_rows_pos.
  - apply String.eqb_eq in Er. split.
    + intros (t & Ht & E). bool_simp. exists c. repeat split; eauto.
    + intros (c' & _ & [_ (t & Ht & <- & E) _]). exists t. by rewrite Z.eqb_refl, E.
  - apply String.eqb_neq in Er. split.
    + intros (t & Ht & E). apply andb_true_iff in E as [E Em]. bool_simp.
      apply member_may_granted in Em. subst. exists c. repeat split; eauto.
    + intros (c' & [= <-] & [_ (t & Ht & <- & E) [Ha|Hg]]); [done|]. exists t.
      apply member_may_granted in Hg. by rewrite Z.eqb_refl, E, Hg.
Qed.

(** ** Grants *)

(** [g] is granted in the table of [k]; a capability a user holds. *)
Lemma upsert_grant_ok k id tid a b c f d n d' :
  wf_db d → upsert_grant k id tid a b c f d = (Ok n, d') →
  (∀ g, g ∈ grant_table k d' ↔
     g = Grant_row id tid a b c f ∨ (g ∈ grant_table k d ∧ grant_is id tid g = false)) ∧
  d' = set_grant_table k (λ _, grant_table k d') d.
Proof.
  intros Hd. unfold upsert_grant. split_matches; intros [= <- <-];
    (split; [|by destruct k]); intros g;
    assert (∀ h, grant_table k (set_grant_table k h d) = h (grant_table k d)) as Et by (by destruct k);
    rewrite Et.
  - rewrite elem_of_update. apply exists_row_true in E as (g0 & Hg0 & E0). split.
    + intros (g1 & Hg1 & ->). destruct (grant_is id tid g1) eqn:E1; auto.
    + intros [->|[Hg E1]]; [exists g0|exists g]; [by rewrite E0|by rewrite E1].
  - rewrite elem_of_insert. rewrite exists_row_false in E. split.
    + intros [Hg| ->]; auto.
    + intros [->|[Hg _]]; auto.
Qed.

Section grants.
Context `{UnicodeTables, Rowids, TimeParser}.

(** The principal a grant command names. *)
Inductive names_principal (d : db) (kind principal : string) : principal_table → Z → Prop :=
  | names_user u :
      kind = "user" → u ∈ d.(users) → u_username u = ToLower principal →
      names_principal d kind principal UserGrants (u_id u)
  | names_group g :
      kind = "group" → g ∈ d.(groups_table) → g_name g = ToLower principal →
      names_principal d kind principal GroupGrants (g_id g).

Lemma resolve_principal_run kind principal d :
  match run (resolve_principal kind principal) d with
  | (Ok (k, id), d') => d' = d ∧ names_principal d kind principal k id
  | (Err _, d') => d' = d
  end.
Proof.
  unfold resolve_principal, group_id_by_name. destruct (kind =s "user") eqn:Ek.
  - rewrite run_bind_ok. cbn. destruct (query_row _ _) as [u|] eqn:E; [|done]. cbn.
    apply query_row_Some in E as [Hu E]. bool_simp. split; [done|]. by apply names_user.
  - destruct (kind =s "group") eqn:Eg; [|done].
    rewrite run_bind_ok. cbn. destruct (query_row _ _) as [g|] eqn:E; [|done]. cbn.
    apply query_row_Some in E as [Hg E]. bool_simp. split; [done|]. by apply names_group.
Qed.

(** What [SetGrantCapabilities] does: of all rows of the two grant tables it
    changes at most the one of this principal and this target. *)
Lemma SetGrantCapabilities_run target kind principal add a b c f d d' :
  wf_db d →
  run (SetGrantCapabilities target kind principal add a b c f) d = (Ok tt, d') →
  ∃ k id t, names_principal d kind principal k id ∧ t ∈ d.(targets) ∧ t_name t = target ∧
    d' = set_grant_table k (λ _, grant_table k d') d ∧
    ∀ g, g ∈ grant_table k d' ↔
      (add = true ∧ g = Grant_row id (t_id t) a b c f) ∨
      (g ∈ grant_table k d ∧ grant_is id (t_id t) g = false).
Proof.
  intros Hd. unfold SetGrantCapabilities. rewrite run_bind_ok. cbn.
  destruct (query_row _ _) as [t|] eqn:E; [|done]. apply query_row_Some in E as [Ht E]. cbn.
  rewrite run_bind_ok. pose proof (resolve_principal_run kind principal d) as Hp.
  destruct (run (resolve_principal _ _) d) as [[[k id]|] d1]; [|done]. destruct Hp as [-> Hp].
  rewrite run_bind_ok. destruct add; cbn [run atomic fst snd target_of_row Target_ID].
  - destruct (upsert_grant k id (t_id t) a b c f d) as [[n|] d2] eqn:Eu; [|done].
    cbn. intros [= <-]. apply (upsert_grant_ok k) in Eu as [Hg Es]; [|done].
    exists k, id, t. bool_simp. split_and!; try done. intros g. rewrite Hg. tauto.
  - cbn. intros [= <-]. exists k, id, t. bool_simp. split_and!; try done.
    + by destruct k.
    + intros g. destruct k; cbn; rewrite elem_of_delete; (split; [by right|]); by intros [[? _]|?].
Qed.

End grants.

(** ** Deletions *)

(** No row of [d] names the user [id]. *)
Record user_gone (id : Z) (d : db) : Prop := {
  gone_user u : u ∈ d.(users) → u_id u ≠ id;
  gone_key k : k ∈ d.(gateway_keys) → k_user_id k ≠ id;
  gone_member m : m ∈ d.(group_members) → gm_user_id m ≠ id;
  gone_grant g : g ∈ d.(user_target_grants) → gr_principal_id g ≠ id;
  gone_totp t : t ∈ d.(user_totp) → ut_user_id t ≠ id;
  gone_oidc o : o ∈ d.(oidc_identities) → oi_user_id o ≠ id;
  gone_audit e : e ∈ d.(audit_events) → ae_actor_user_id e ≠ Some id;
}.

Lemma deleted_col {R} (c : R → Z) id (t : list R) r :
  r ∈ delete_rows (λ r, c r =? id) t → c r ≠ id.
Proof. intros Hr. apply elem_of_delete in Hr as [_ E]. by apply Z.eqb_neq. Qed.

Lemma delete_user_gone id d : user_exists id d = true → user_gone id (delete_user id d).2.
Proof.
  intros He. unfold delete_user, cascade_user. unfold user_exists in He. rewrite He.
  split; cbn; try (intros ?; apply (deleted_col _ id)).
  intros e (e0 & He0 & ->)%elem_of_update. case_bool_decide; done.
Qed.

Section deletions.
Context `{UnicodeTables, Rowids, TimeParser}.

Lemma DeleteUser_run name d d' :
  run (DeleteUser name) d = (Ok tt, d') →
  ∃ u, u ∈ d.(users) ∧ u_username u = ToLower name ∧ d' = (delete_user (u_id u) d).2 ∧
    user_exists (u_id u) d = true.
Proof.
  unfold DeleteUser. rewrite run_bind_ok, UserByName_run.
  destruct (scanUser _ _) as [v|] eqn:E; [|done].
  apply scanUser_Ok in E as (u & Hu & E & ->). cbn [user_of_row User_Role User_ID].
  rewrite run_bind_ok.
  assert (user_exists (u_id u) d = true) as Hx by (apply user_exists_spec; eauto).
  intros Hrun. exists u. bool_simp. split_and!; try done.
  assert (run (let* r := atomic (delete_user (u_id u)) in Ret (changed r)) d = (Ok tt, d')) as Hdel.
  { destruct (_ =s _); [|exact Hrun].
    unfold ensureOtherUsableAdmin in Hrun. rewrite run_bind in Hrun. unfold value, final in Hrun.
    cbn [run query fst snd] in Hrun. by destruct (_ =? 0). }
  cbn in Hdel. by destruct (delete_user (u_id u) d) as [r d2]; injection Hdel as _ <-.
Qed.

(** ** Gateway keys *)

Lemma AuthenticateKey_run name fp d : wf_db d →
  ∃ r, run (AuthenticateKey name fp) d = (r, d) ∧
    (∀ v, r = Ok v ↔ ∃ u k, u ∈ d.(users) ∧ u_username u = ToLower name ∧ u_enabled u = true ∧
       k ∈ d.(gateway_keys) ∧ k_user_id k = u_id u ∧ k_fingerprint k = fp ∧ v = user_of_row d u) ∧
    (∀ e, r = Err e → e = ErrNoRows).
Proof.
  intros Hd. exists (scanUser d (query_row (authenticates d (ToLower name) fp) d.(users))).
  split; [done|].
  assert (∀ u, authenticates d (ToLower name) fp u = true ↔
    u_username u = ToLower name ∧ u_enabled u = true ∧
    ∃ k, k ∈ d.(gateway_keys) ∧ k_user_id k = u_id u ∧ k_fingerprint k = fp) as Ha.
  { intros u. unfold authenticates. rewrite !andb_true_iff, exists_row_true, String.eqb_eq.
    setoid_rewrite andb_true_iff. setoid_rewrite Z.eqb_eq. setoid_rewrite String.eqb_eq. tauto. }
  split.
  - intros v. split.
    + intros Hs. apply scanUser_Ok in Hs as (u & Hu & (En & He & k & Hk & E1 & E2)%Ha & ->).
      by exists u, k.
    + intros (u & k & Hu & En & He & Hk & E1 & E2 & ->).
      assert (query_row (authenticates d (ToLower name) fp) d.(users) = Some u) as ->; [|done].
      apply query_row_unique; [done|apply Ha; eauto 6|].
      intros u' Hu' [En' _]%Ha. apply (unique_on_eq u_username d.(users)); [apply Hd|done|done|].
      congruence.
  - by destruct (query_row _ _) as [u|]; intros ? [= <-].
Qed.

End deletions.

(** ** Forwarding *)

Lemma nocase_eq_spec a b : nocase_eq a b = true ↔ smap lower_byte a = smap lower_byte b.
Proof. apply String.eqb_eq. Qed.

Section forwarding.
Context `{UnicodeTables, Rowids, TimeParser}.

Lemma ForwardAllowed_run tid host port d :
  ∃ b, run (ForwardAllowed tid host port) d = (b, d) ∧
    (b = true ↔ ∃ r, r ∈ d.(target_forward_rules) ∧ fr_target_id r = tid ∧ fr_port r = port ∧
       smap lower_byte (fr_host r) = smap lower_byte (TrimSpace host)).
Proof.
  eexists. split; [reflexivity|]. cbn. rewrite Z.ltb_lt, count_rows_pos.
  setoid_rewrite andb_true_iff. setoid_rewrite andb_true_iff. setoid_rewrite Z.eqb_eq.
  setoid_rewrite nocase_eq_spec. split; intros (r & Hr); exists r; tauto.
Qed.

Lemma smap_lower_idem s : smap lower_byte (smap lower_byte s) = smap lower_byte s.
Proof.
  induction s as [|c s IH]; [done|]. cbn. by rewrite IH, lower_byte_idem.
Qed.

Lemma AddForwardRule_run target host port d d' :
  run (AddForwardRule target host port) d = (Ok tt, d') →
  ∃ t, t ∈ d.(targets) ∧ t_name t = target ∧ valid_port port = true ∧
    d' = set_target_forward_rules (λ _, d'.(target_forward_rules)) d ∧
    (∀ k, (∃ r, r ∈ d'.(target_forward_rules) ∧ rule_key r = k) ↔
       k = (t_id t, ToLower (TrimSpace host), port) ∨
       ∃ r, r ∈ d.(target_forward_rules) ∧ rule_key r = k).
Proof.
  unfold AddForwardRule. destruct (_ || _) eqn:Eg; [done|].
  apply orb_false_iff in Eg as [Eg Ehi]. apply orb_false_iff in Eg as [_ Elo].
  assert (valid_port port = true) as Hp.
  { unfold valid_port. bool_simp. apply andb_true_iff. rewrite !Z.leb_le. lia. }
  rewrite run_bind_ok. cbn.
  destruct (query_row _ _) as [t|] eqn:E; [|done]. apply query_row_Some in E as [Ht E]. cbn.
  unfold insert_forward_rule. rewrite Hp. cbn [negb].
  destruct (exists_row _ _) eqn:Ex; [|destruct (negb _); [done|]]; cbn; intros [= <-];
    exists t; bool_simp; split_and!; try done; try (by destruct d); intros k; cbn;
    try setoid_rewrite elem_of_insert.
  - split; [by right|]. intros [->|?]; [|done].
    apply exists_row_true in Ex as (r & Hr & Er). bool_simp. exists r. split; [done|].
    unfold rule_key. congruence.
  - split.
    + intros (r & [Hr| ->] & <-); [right; by exists r|by left].
    + intros [->|(r & Hr & <-)]; [eexists; by split; [right|]|exists r; by split; [left|]].
Qed.

End forwarding.

(** ** Listing *)

Section listing.
Context `{UnicodeTables, Rowids, TimeParser}.

Lemma granted_to_spec uid d t :
  granted_to uid d t = true ↔ granted d uid (t_id t) (λ _, true).
Proof.
  unfold granted_to. rewrite orb_true_iff, !exists_row_true. split.
  - intros [(g & Hg & E)|(g & Hg & E)].
    + bool_simp. by eapply granted_user.
    + apply andb_true_iff in E as [Et E]. rewrite exists_row_true in E. destruct E as (m & Hm & E).
      bool_simp. by eapply granted_group.
  - intros [g Hg <- <- Hc|m g Hm <- Hg Ep <- Hc]; [left; exists g|right; exists g].
    + by rewrite !Z.eqb_refl.
    + split; [done|]. rewrite Z.eqb_refl. cbn. apply exists_row_true. exists m.
      by rewrite Ep, !Z.eqb_refl.
Qed.

(** The targets listed to a user. *)
Lemma ListAuthorizedTargets_run u d :
  ∃ l, run (ListAuthorizedTargets u) d = (Ok l, d) ∧
    ∀ v, v ∈ l ↔ ∃ t, t ∈ d.(targets) ∧ v = target_of_row t ∧ t_enabled t = true ∧
                     (User_Role u = RoleAdmin ∨ granted d (User_ID u) (t_id t) (λ _, true)).
Proof.
  unfold ListAuthorizedTargets. destruct (_ =s _) eqn:Er; (eexists; split; [reflexivity|]); intros v;
    rewrite list_elem_of_fmap; setoid_rewrite order_by_Permutation; setoid_rewrite elem_of_select;
    bool_simp.
  - split; [intros (t & -> & Ht & E)|intros (t & Ht & -> & E & _)]; exists t; auto.
  - setoid_rewrite andb_true_iff. setoid_rewrite granted_to_spec.
    split; [intros (t & -> & Ht & E & Hg)|intros (t & Ht & -> & E & [?|Hg])]; [|done|]; exists t; auto.
Qed.

Lemma granted_any d uid tid column : granted d uid tid column → granted d uid tid (λ _, true).
Proof. intros [g|m g]; [by eapply granted_user|by eapply granted_group]. Qed.
End listing.

(** ** Properties *)

Section properties.
Context `{UnicodeTables, Rowids, TimeParser}.

(** C1: the access decision.  [CanAccessCapability] answers true exactly when
    [may_use] holds: the capability is "shell", "sftp", "scp" or "tcp_forward",
    the user is enabled, the target exists and is enabled, and the user is an
    administrator or a grant of the user's own or of a group of the user has the
    column of that name set.  [CanAccess] is the same for "shell".  Neither
    changes anything. *)
Theorem access_decision u tid cap d :
  (value (CanAccessCapability u tid cap) d = true ↔ may_use d u tid cap) ∧
  (value (CanAccess u tid) d = true ↔ may_use d u tid "shell") ∧
  final (CanAccessCapability u tid cap) d = d ∧ final (CanAccess u tid) d = d.
Proof.
  unfold CanAccess. rewrite <- !permitted_may_use.
  destruct (CanAccessCapability_run u tid cap d) as (b & E & Hb).
  destruct (CanAccessCapability_run u tid CapabilityShell d) as (b' & E' & Hb').
  unfold value, final. by rewrite E, E'.
Qed.

(** [SetGrantCapabilities] sets or deletes exactly one grant.  When it
    succeeds, the table of the principal's kind holds the given capabilities for
    this principal and target (nothing, for a removal), every other grant is as
    it was, and no other table changes. *)
Theorem grant_changes_one_row target kind principal add a b c f d d' :
  wf_db d →
  run (SetGrantCapabilities target kind principal add a b c f) d = (Ok tt, d') →
  ∃ k id t, names_principal d kind principal k id ∧ t ∈ d.(targets) ∧ t_name t = target ∧
    d' = set_grant_table k (λ _, grant_table k d') d ∧
    ∀ g, g ∈ grant_table k d' ↔
      (add = true ∧ g = Grant_row id (t_id t) a b c f) ∨
      (g ∈ grant_table k d ∧ grant_is id (t_id t) g = false).
Proof. apply SetGrantCapabilities_run. Qed.

(** Revocation.  Once [SetGrantCapabilities] removed a member's own grant on
    a target and no group of the member has a grant on it, every capability is
    refused and the target is no longer listed. *)
Theorem revoked_member_denied target principal a b c f d d' u :
  wf_db d →
  run (SetGrantCapabilities target "user" principal false a b c f) d = (Ok tt, d') →
  u ∈ d.(users) → u_username u = ToLower principal → u_role u ≠ RoleAdmin →
  (∀ m g t, m ∈ d.(group_members) → gm_user_id m = u_id u → g ∈ d.(group_target_grants) →
     gr_principal_id g = gm_group_id m → t ∈ d.(targets) → t_name t = target →
     gr_target_id g ≠ t_id t) →
  ∃ t, t ∈ d.(targets) ∧ t_name t = target ∧
    (∀ cap, value (CanAccessCapability (user_of_row d' u) (t_id t) cap) d' = false) ∧
    ∃ l, value (ListAuthorizedTargets (user_of_row d' u)) d' = Ok l ∧ target_of_row t ∉ l.
Proof.
  intros Hd Hrun Hu Hn Hr Hgr.
  apply SetGrantCapabilities_run in Hrun as (k & id & t & Hp & Ht & En & Ed & Hg); [|done].
  destruct Hp as [u' _ Hu' En'|g' [=] _ _].
  assert (u' = u) as ->.
  { apply (unique_on_eq u_username d.(users)); [apply Hd|done|done|congruence]. }
  assert (∀ column, ¬ granted d' (u_id u) (t_id t) column) as Hno.
  { intros column [g Hin E1 E2 _|m g Hm Em Hin E1 E2 _].
    - apply Hg in Hin as [[? _]|[_ Hin]]; [done|]. unfold grant_is in Hin.
      by rewrite E1, E2, !Z.eqb_refl in Hin.
    - rewrite Ed in Hm, Hin. by apply (Hgr m g t). }
  exists t. split_and!; [done|done| |].
  - intros cap. apply not_true_iff_false. intros Hc.
    destruct (CanAccessCapability_run (user_of_row d' u) (t_id t) cap d') as (b0 & E & Hb).
    unfold value in Hc. rewrite E in Hc. apply Hb in Hc as (col & _ & [_ _ [Ha|Hgt]]); [done|].
    by apply (Hno col).
  - destruct (ListAuthorizedTargets_run (user_of_row d' u) d') as (l & E & Hl).
    exists l. unfold value. rewrite E. split; [done|]. rewrite Hl. intros (t' & Ht' & Et & _ & [Ha|Hgt]); [done|].
    injection Et as E1 _. apply (Hno (λ _, true)). by rewrite E1.
Qed.

(** A disabled target is closed to everyone.  When [SetTargetEnabled name
    false] succeeds the target of that name is refused to every user for every
    capability, administrators included. *)
Theorem disabled_target_denied name d d' u cap t :
  wf_db d →
  run (SetTargetEnabled name false) d = (Ok tt, d') → t ∈ d.(targets) → t_name t = name →
  value (CanAccessCapability u (t_id t) cap) d' = false.
Proof.
  intros Hd Hrun Ht En. apply not_true_iff_false. intros Hc.
  destruct (CanAccessCapability_run u (t_id t) cap d') as (b & E & Hb).
  unfold value in Hc. rewrite E in Hc.
  apply Hb in Hc as (col & _ & [_ (t' & Ht' & Eid & Een) _]).
  unfold SetTargetEnabled in Hrun. cbn in Hrun. injection Hrun as _ <-. cbn in Ht'.
  apply elem_of_update in Ht' as (t0 & Ht0 & ->).
  assert (t0 = t) as ->.
  { apply (unique_on_eq t_id d.(targets)); [apply Hd|done|done|]. by destruct (_ =s _). }
  by rewrite En, String.eqb_refl in Een.
Qed.

(** A deleted user is gone.  When [DeleteUser] succeeds, no row of any table
    names the user any more (the audit events the user caused stay, without the
    reference), and no gateway key logs in under that name. *)
Theorem deleted_user_is_gone name d d' :
  wf_db d → run (DeleteUser name) d = (Ok tt, d') →
  ∃ u, u ∈ d.(users) ∧ u_username u = ToLower name ∧ user_gone (u_id u) d' ∧
    length d'.(audit_events) = length d.(audit_events) ∧
    ∀ fp, value (AuthenticateKey name fp) d' = Err ErrNoRows.
Proof.
  intros Hd Hrun. assert (wf_db d') as Hd'.
  { apply DeleteUser_run in Hrun as (u & _ & _ & -> & _). by apply delete_user_wf. }
  apply DeleteUser_run in Hrun as (u & Hu & En & -> & Hx).
  pose proof (delete_user_gone (u_id u) d Hx) as Hg.
  exists u. split_and!; try done.
  - unfold delete_user, cascade_user. unfold user_exists in Hx. rewrite Hx.
    cbn. unfold update_rows. by rewrite length_fmap.
  - intros fp. destruct (AuthenticateKey_run name fp _ Hd') as (r & Er & Hok & Herr).
    unfold value. rewrite Er. destruct r as [v|e]; cbn; [|f_equal; by apply Herr].
    destruct (proj1 (Hok v) eq_refl) as (u' & k & Hu' & En' & _).
    destruct (gone_user _ _ Hg u' Hu').
    unfold delete_user, cascade_user in Hu'. unfold user_exists in Hx. rewrite Hx in Hu'. cbn in Hu'.
    apply elem_of_delete in Hu' as [Hu' _]. f_equal.
    apply (unique_on_eq u_username d.(users)); [apply Hd|done|done|congruence].
Qed.

(** C7: gateway key login.  [AuthenticateKey] accepts exactly the enabled users
    of that name (any case) that have the key with that fingerprint; it answers
    with their row, fails with [ErrNoRows] otherwise and changes nothing. *)
Theorem key_login_sound_complete name fp d :
  wf_db d →
  final (AuthenticateKey name fp) d = d ∧
  match value (AuthenticateKey name fp) d with
  | Ok v => ∃ u k, u ∈ d.(users) ∧ u_username u = ToLower name ∧ u_enabled u = true ∧
              k ∈ d.(gateway_keys) ∧ k_user_id k = u_id u ∧ k_fingerprint k = fp ∧
              v = user_of_row d u
  | Err e => e = ErrNoRows ∧
             ∀ u k, u ∈ d.(users) → u_username u = ToLower name → u_enabled u = true →
               k ∈ d.(gateway_keys) → k_user_id k = u_id u → k_fingerprint k ≠ fp
  end.
Proof.
  intros Hd. destruct (AuthenticateKey_run name fp d Hd) as (r & Er & Hok & Herr).
  unfold final, value. rewrite Er. split; [done|]. cbn. destruct r as [v|e].
  - by apply Hok.
  - split; [by apply Herr|]. intros u k Hu En He Hk E1 E2.
    assert (Err e = Ok (user_of_row d u)) as [=]. apply Hok. by exists u, k.
Qed.

(** Forwarding rules.  After [AddForwardRule target host port] succeeded,
    for an ASCII host name, [ForwardAllowed] permits exactly what it permitted
    before and this destination of this target: the same port and the same host,
    up to the case of its letters and the white space around it. *)
Theorem forward_rule_allows target host port d d' :
  wf_db d → is_ascii (TrimSpace host) = true →
  run (AddForwardRule target host port) d = (Ok tt, d') →
  ∃ t, t ∈ d.(targets) ∧ t_name t = target ∧ 1 <= port <= 65535 ∧
  ∀ tid h p, value (ForwardAllowed tid h p) d' = true ↔
    value (ForwardAllowed tid h p) d = true ∨
    (tid = t_id t ∧ p = port ∧ nocase_eq (TrimSpace h) (TrimSpace host) = true).
Proof.
  intros Hd Ha Hrun. apply AddForwardRule_run in Hrun as (t & Ht & En & Hp & _ & Hk).
  exists t. unfold valid_port in Hp. bool_simp. split_and!; [done|done|done..|].
  intros tid h p. rewrite nocase_eq_spec.
  assert (∀ d, value (ForwardAllowed tid h p) d = true ↔ ∃ k, (∃ r, r ∈ d.(target_forward_rules) ∧
    rule_key r = k) ∧ k.1.1 = tid ∧ k.2 = p ∧
    smap lower_byte k.1.2 = smap lower_byte (TrimSpace h)) as Hf.
  { intros d0. destruct (ForwardAllowed_run tid h p d0) as (b & E & Hb). unfold value. rewrite E, Hb.
    split; [intros (r & Hr & H'); exists (rule_key r); split; [by exists r|done]|].
    intros (k & (r & Hr & <-) & H'). by exists r. }
  rewrite !Hf. setoid_rewrite Hk. split.
  - intros (k & [->|Hin] & E1 & E2 & E3); [right|left; by exists k].
    cbn in *. rewrite ToLower_ascii in E3 by done. by rewrite smap_lower_idem in E3.
  - intros [(k & Hin & E)|(-> & -> & E)]; [exists k; auto|].
    eexists. split; [by left|]. cbn. rewrite ToLower_ascii by done. by rewrite smap_lower_idem.
Qed.

(** What is listed and what is allowed agree.  [ListAuthorizedTargets]
    returns exactly the enabled targets the user holds some grant on (all of
    them, for an administrator), and every target on which a capability is
    allowed is listed. *)
Theorem listing_agrees_with_access u d :
  ∃ l, run (ListAuthorizedTargets u) d = (Ok l, d) ∧
    (∀ v, v ∈ l ↔ ∃ t, t ∈ d.(targets) ∧ v = target_of_row t ∧ t_enabled t = true ∧
        (User_Role u = RoleAdmin ∨ granted d (User_ID u) (t_id t) (λ _, true))) ∧
    (∀ tid cap, value (CanAccessCapability u tid cap) d = true → ∃ v, v ∈ l ∧ Target_ID v = tid).
Proof.
  destruct (ListAuthorizedTargets_run u d) as (l & E & Hl). exists l. split_and!; [done|done|].
  intros tid cap Hc. destruct (CanAccessCapability_run u tid cap d) as (b & Er & Hb).
  unfold value in Hc. rewrite Er in Hc.
  apply Hb in Hc as (col & _ & [_ (t & Ht & Eid & Een) Hby]).
  exists (target_of_row t). split; [|done]. apply Hl. exists t. split_and!; try done.
  destruct Hby as [?|Hg]; [by left|right]. rewrite Eid. by eapply granted_any.
Qed.

End properties.

(** ** Witnesses *)

#[local] Existing Instances ascii_tables max_rowids max_rowids_laws sqlite_parser.

Lemma grant_changes_one_row_witness :
  let d' := final (SetGrantCapabilities "web" "user" "carol" true true true false false) sample_db in
  (gr_principal_id <$> user_target_grants d') = [2; 3] ∧
  ∃ k id t, names_principal sample_db "user" "carol" k id ∧ t ∈ sample_db.(targets) ∧ t_name t = "web" ∧
    d' = set_grant_table k (λ _, grant_table k d') sample_db ∧
    ∀ g, g ∈ grant_table k d' ↔
      (true = true ∧ g = Grant_row id (t_id t) true true false false) ∨
      (g ∈ grant_table k sample_db ∧ grant_is id (t_id t) g = false).
Proof.
  split; [by vm_compute|]. apply grant_changes_one_row; [apply sample_db_wf|by vm_compute].
Defined.

Lemma revoked_member_denied_witness :
  let d' := final (SetGrant "web" "user" "BOB" false) sample_db in
  value (CanAccessCapability (user_of_row sample_db (User_row 2 "bob" "member" true "")) 1 "shell") sample_db = true ∧
  ∃ t, t ∈ sample_db.(targets) ∧ t_name t = "web" ∧
    (∀ cap, value (CanAccessCapability (user_of_row d' (User_row 2 "bob" "member" true "2026-01-15 12:00:00")) (t_id t) cap) d' = false) ∧
    ∃ l, value (ListAuthorizedTargets (user_of_row d' (User_row 2 "bob" "member" true "2026-01-15 12:00:00"))) d' = Ok l
         ∧ target_of_row t ∉ l.
Proof.
  split; [by vm_compute|].
  apply (revoked_member_denied "web" "BOB" true true true false sample_db); try done.
  - apply sample_db_wf.
  - right. left.
  - intros m g t Hm Em. apply list_elem_of_singleton in Hm as ->. discriminate Em.
Defined.

Lemma disabled_target_denied_witness :
  value (CanAccessCapability (mkUser 1 "alice" "admin" true false noon) 1 "shell") sample_db = true ∧
  value (CanAccessCapability (mkUser 1 "alice" "admin" true false noon) 1 "shell")
        (final (SetTargetEnabled "web" false) sample_db) = false.
Proof.
  split; [by vm_compute|].
  apply (disabled_target_denied "web" sample_db _ (mkUser 1 "alice" "admin" true false noon) "shell"
           (Target_row 1 "web" "10.0.0.1" 22 "deploy" "password" "" "" "ssh-ed25519" "AAAA" true
              "2026-01-15 12:00:00" "2026-01-15 12:00:00" None)); try done.
  - apply sample_db_wf.
  - left.
Defined.

Lemma deleted_user_is_gone_witness :
  ∃ u, u ∈ sample_db.(users) ∧ u_username u = ToLower "Bob" ∧
    user_gone (u_id u) (final (DeleteUser "Bob") sample_db) ∧
    length (final (DeleteUser "Bob") sample_db).(audit_events) = length sample_db.(audit_events) ∧
    ∀ fp, value (AuthenticateKey "Bob" fp) (final (DeleteUser "Bob") sample_db) = Err ErrNoRows.
Proof. apply deleted_user_is_gone; [apply sample_db_wf|by vm_compute]. Defined.

Lemma key_login_sound_complete_witness :
  is_ok (value (AuthenticateKey "Bob" "SHA256:b") sample_db) = true ∧
  final (AuthenticateKey "Bob" "SHA256:b") sample_db = sample_db.
Proof.
  split; [by vm_compute|]. apply (key_login_sound_complete "Bob" "SHA256:b" sample_db), sample_db_wf.
Defined.

Lemma forward_rule_allows_witness :
  let d' := final (AddForwardRule "db" " Other.Example" 443) sample_db in
  ∃ t, t ∈ sample_db.(targets) ∧ t_name t = "db" ∧ 1 <= 443 <= 65535 ∧
  ∀ tid h p, value (ForwardAllowed tid h p) d' = true ↔
    value (ForwardAllowed tid h p) sample_db = true ∨
    (tid = t_id t ∧ p = 443 ∧ nocase_eq (TrimSpace h) (TrimSpace " Other.Example") = true).
Proof.
  apply forward_rule_allows; [apply sample_db_wf|by vm_compute|by vm_compute].
Defined.
