(* ===== verification/StoreAuthn.v ===== *)
(** * Second factors (store.go)

    TOTP counters are consumed once, whatever runs concurrently; OIDC subjects
    log in the one user they are bound to. *)

From S2P Require Import Prelude GoStrings GoTime Effects Sql Schema Names StoreUsers StoreOIDC.
From S2P Require Import StoreTargets StoreAccess StoreAudit StoreWf StoreCalls.

(** ** TOTP counters *)

(** No counter up to [c] is fresh for the user. *)
Definition counter_used (uid c : Z) (d : db) : Prop :=
  ∀ t, t ∈ d.(user_totp) → ut_user_id t = uid → c <= ut_last_counter t.

Lemma counter_same uid c d d' :
  user_totp d' = user_totp d → counter_used uid c d → counter_used uid c d'.
Proof. unfold counter_used. by intros ->. Qed.

Lemma update_totp_counter_keeps uid c u n d :
  counter_used uid c d → counter_used uid c (update_totp_counter u n d).2.
Proof.
  intros Hc t Ht Hid. cbn in Ht. apply elem_of_update in Ht as (t0 & Ht0 & ->).
  specialize (Hc t0 Ht0). destruct (_ && _) eqn:E; [|by apply Hc].
  cbn in *. specialize (Hc Hid). bool_simp. lia.
Qed.

Lemma delete_totp_keeps uid c u d : counter_used uid c d → counter_used uid c (delete_totp u d).2.
Proof. intros Hc t Ht. cbn in Ht. apply elem_of_delete in Ht as [Ht _]. by apply Hc. Qed.

Lemma delete_user_keeps_counter uid c u d :
  counter_used uid c d → counter_used uid c (delete_user u d).2.
Proof.
  intros Hc. unfold delete_user, cascade_user. destruct (exists_row _ _); [|done].
  intros t Ht. cbn in Ht. apply elem_of_delete in Ht as [Ht _]. by apply Hc.
Qed.

Lemma upsert_totp_keeps uid c u n ct d :
  u ≠ uid → counter_used uid c d → counter_used uid c (upsert_totp u n ct d).2.
Proof.
  intros Hne Hc. unfold upsert_totp. split_matches; [|done|]; intros t Ht Hid; cbn in Ht.
  - apply elem_of_update in Ht as (t0 & Ht0 & ->).
    destruct (ut_user_id t0 =? u) eqn:Eu; [bool_simp; cbn in Hid; congruence|by apply Hc].
  - apply elem_of_insert in Ht as [Ht| ->]; [by apply Hc|]. cbn in Hid. congruence.
Qed.

Lemma consume_advance uid c d :
  advance (ConsumeTOTPCounter uid c) d =
    (Ret (if count_rows (λ t, (ut_user_id t =? uid) && (ut_last_counter t <? c)) d.(user_totp) =? 1
          then Ok tt else Err (Msg "TOTP code was already used")),
     (update_totp_counter uid c d).2).
Proof. cbn. by destruct (_ =? 1). Qed.

Lemma consume_uses uid c d : counter_used uid c (update_totp_counter uid c d).2.
Proof.
  intros t Ht Hid. cbn in Ht. apply elem_of_update in Ht as (t0 & Ht0 & ->).
  destruct (_ && _) eqn:E; [cbn; lia|]. rewrite Hid, Z.eqb_refl in E. cbn in E. bool_simp. lia.
Qed.

(** The statements of every call but [SetUserTOTP] of this user. *)
Section keeps.
Context `{UnicodeTables, Rowids, TimeParser}.

Definition enrolls (uid : Z) (c : call) : bool :=
  match c with SetUserTOTP_call u _ _ => u =? uid | _ => false end.

Lemma exec_keeps_counter uid n c :
  enrolls uid c = false → keeps (counter_used uid n) (exec c).
Proof.
  intros Hc. destruct c; cbn [enrolls] in Hc; bool_simp.
  all: cbn [exec]; unfold_store; keeps_tac.
  all: apply keeps_atomic; intros ? ?.
  all: first
    [ by apply update_totp_counter_keeps | by apply delete_totp_keeps
    | by apply delete_user_keeps_counter | by apply upsert_totp_keeps
    | eapply counter_same; [|eassumption]; unfold_statements; unfold set_grant_table; by split_matches ].
Qed.

(** What holds of a pool of calls at every moment. *)
Definition consumed_once (uid : Z) (cs : list call) (ps : list (prog db (result unit))) (d : db) : Prop :=
  (∀ i p, ps !! i = Some p → ∀ n, keeps (counter_used uid n) p) ∧
  (∀ i c, cs !! i = Some (ConsumeTOTPCounter_call uid c) →
     ps !! i = Some (ConsumeTOTPCounter uid c) ∨ (∃ e, ps !! i = Some (Ret (Err e))) ∨
     (ps !! i = Some (Ret (Ok tt)) ∧ counter_used uid c d)) ∧
  (∀ i j c, cs !! i = Some (ConsumeTOTPCounter_call uid c) →
     cs !! j = Some (ConsumeTOTPCounter_call uid c) →
     ps !! i = Some (Ret (Ok tt)) → ps !! j = Some (Ret (Ok tt)) → i = j).

(** A consumption that succeeds now is of a counter no one consumed before. *)
Lemma consume_fresh uid cs ps d i j c :
  consumed_once uid cs ps d → cs !! j = Some (ConsumeTOTPCounter_call uid c) →
  ps !! j = Some (Ret (Ok tt)) → ps !! i = Some (ConsumeTOTPCounter uid c) →
  (advance (ConsumeTOTPCounter uid c) d).1 ≠ Ret (Ok tt).
Proof.
  intros (_ & Hst & _) Hj Hpj Hpi. rewrite consume_advance. cbn [fst].
  destruct (Hst j c Hj) as [E|[(e & E)|[_ Hu]]]; [by rewrite E in Hpj..|].
  assert (count_rows (λ t, (ut_user_id t =? uid) && (ut_last_counter t <? c)) (user_totp d) = 0) as ->.
  { apply count_rows_zero. intros t Ht. apply andb_false_iff.
    destruct (Z.eqb_spec (ut_user_id t) uid) as [Eu|]; [right|by left].
    apply Z.ltb_ge. by apply Hu. }
  done.
Qed.

Lemma consumed_once_step uid cs ps d i p :
  consumed_once uid cs ps d → ps !! i = Some p →
  consumed_once uid cs (<[i := (advance p d).1]> ps) (advance p d).2.
Proof.
  intros HI Hp. pose proof HI as (Hk & Hst & Hone). pose proof (lookup_lt_Some _ _ _ Hp) as Hlt.
  assert (∀ n, counter_used uid n d → counter_used uid n (advance p d).2) as Hmono.
  { intros n. apply keeps_advance. by apply (Hk i). }
  split_and!.
  - intros j q Hq n. destruct (decide (i = j)) as [<-|Hij].
    + rewrite list_lookup_insert_eq in Hq by done. injection Hq as <-.
      destruct p as [a|X f k]; cbn; [done|]. specialize (Hk i _ Hp n). cbn in Hk.
      destruct (f d). by apply Hk.
    + rewrite list_lookup_insert_ne in Hq by done. by apply (Hk j).
  - intros j c Hj. destruct (decide (i = j)) as [<-|Hij].
    + rewrite list_lookup_insert_eq by done. destruct (Hst i c Hj) as [E|[(e & E)|[E Hu]]];
        rewrite E in Hp; injection Hp as <-; [|right; left; by exists e|right; right; by split].
      rewrite consume_advance. destruct (_ =? 1); cbn [fst snd]; [|right; left; by eexists].
      right; right. split; [done|]. apply consume_uses.
    + rewrite list_lookup_insert_ne by done. destruct (Hst j c Hj) as [E|[E|[E Hu]]]; auto.
  - intros j1 j2 c Hc1 Hc2. destruct (decide (i = j1)) as [<-|N1], (decide (i = j2)) as [<-|N2]; [done|..];
      rewrite ?list_lookup_insert_eq by done; rewrite ?list_lookup_insert_ne by done;
      try (by apply (Hone j1 j2 c)).
    + intros [= Ep] E2. destruct (Hst i c Hc1) as [E|[(e & E)|[E _]]]; rewrite E in Hp;
        injection Hp as <-; [|done|by apply (Hone i j2 c)].
      by destruct (consume_fresh uid cs ps d i j2 c).
    + intros E1 [= Ep]. destruct (Hst i c Hc2) as [E|[(e & E)|[E _]]]; rewrite E in Hp;
        injection Hp as <-; [|done|by apply (Hone j1 i c)].
      by destruct (consume_fresh uid cs ps d i j1 c).
Qed.

Lemma consumed_once_start uid cs d :
  Forall (λ c, enrolls uid c = false) cs → consumed_once uid cs (exec <$> cs) d.
Proof.
  intros Hn. split_and!.
  - intros i p Hp n. rewrite list_lookup_fmap in Hp.
    destruct (cs !! i) as [c|] eqn:E; [|done]. injection Hp as <-.
    apply exec_keeps_counter. by eapply Forall_lookup_1 in Hn.
  - intros i c Hi. left. by rewrite list_lookup_fmap, Hi.
  - intros i j c Hi Hj E. by rewrite list_lookup_fmap, Hi in E.
Qed.
End keeps.

(** ** OIDC *)

(** Whose login this is: the identity that is bound to the subject, whatever the
    provider calls its user now; while nobody is bound to the subject, the pending
    mapping of the provider's user name. *)
Inductive oidc_identifies (d : db) (iss sub name : string) (o : oidc_row) : Prop :=
  | identified_by_subject :
      o ∈ d.(oidc_identities) → oi_issuer o = iss → oi_subject o = Some sub → oidc_identifies d iss sub name o
  | identified_by_mapping :
      o ∈ d.(oidc_identities) → oi_issuer o = iss → oi_subject o = None → oi_provider_username o = name →
      (∀ o', o' ∈ d.(oidc_identities) → oi_issuer o' = iss → oi_subject o' ≠ Some sub) →
      oidc_identifies d iss sub name o.

(** No other user's identity of the issuer carries the provider's user name. *)
Definition provider_name_free (d : db) (iss name : string) (uid : Z) : Prop :=
  ∀ o, o ∈ d.(oidc_identities) → oi_issuer o = iss → oi_provider_username o = name → oi_user_id o = uid.

(** The identities [resolveOIDC] succeeds for: with a subject that is bound, it
    also needs the user name to be free. *)
Definition oidc_resolves (d : db) (iss sub name : string) (o : oidc_row) : Prop :=
  o ∈ d.(oidc_identities) ∧ oi_issuer o = iss ∧
  ((oi_subject o = Some sub ∧
    ∀ o', o' ∈ d.(oidc_identities) → oidc_name_key o' = (iss, name) → oi_user_id o' = oi_user_id o) ∨
   (oi_subject o = None ∧ oi_provider_username o = name ∧
    ∀ o', o' ∈ d.(oidc_identities) → oi_issuer o' = iss → oi_subject o' ≠ Some sub)).

Lemma resolves_identifies d iss sub name o : oidc_resolves d iss sub name o → oidc_identifies d iss sub name o.
Proof. intros (Ho & Ei & [[Es _]|(Es & En & Hno)]); [by apply identified_by_subject|by apply identified_by_mapping]. Qed.

Lemma identifies_resolves d iss sub name o :
  oidc_identifies d iss sub name o → provider_name_free d iss name (oi_user_id o) → oidc_resolves d iss sub name o.
Proof.
  intros [Ho Ei Es|Ho Ei Es En Hno] Hfree; (split; [done|split; [done|]]); [left|by right].
  split; [done|]. intros o' Ho' [= E1 E2]. by apply Hfree.
Qed.

(** The database after such a login. *)
Definition oidc_bound (d : db) (sub name : string) (o : oidc_row) : db :=
  set_oidc_identities (update_rows (λ r, oi_id r =? oi_id o)
    (λ r, Oidc_row (oi_id r) (oi_user_id r) (oi_issuer r) (Some sub) name (oi_created_at r)
            (CURRENT_TIMESTAMP d))) d.

Lemma oidc_id_of d o : wf_db d → o ∈ d.(oidc_identities) →
  ∀ r, r ∈ d.(oidc_identities) → oidc_of (oi_user_id o) (oi_issuer o) r = (oi_id r =? oi_id o).
Proof.
  intros Hd Ho r Hr. apply eq_true_iff_eq. rewrite oidc_of_true, Z.eqb_eq. split; intros E.
  - f_equal. apply (unique_on_eq oidc_user_key d.(oidc_identities)); [apply Hd|done..].
  - assert (r = o) as ->; [|done].
    apply (unique_on_eq oi_id d.(oidc_identities)); [apply Hd|done..].
Qed.

Lemma set_oidc_ext f g d :
  f d.(oidc_identities) = g d.(oidc_identities) → set_oidc_identities f d = set_oidc_identities g d.
Proof. unfold set_oidc_identities. by intros ->. Qed.

Lemma oidc_of_eq d o r : wf_db d → o ∈ d.(oidc_identities) → r ∈ d.(oidc_identities) →
  oidc_of (oi_user_id o) (oi_issuer o) r = true → r = o.
Proof. intros. eapply oidc_of_one; [done..|]. by apply oidc_of_true. Qed.

(** The statements of the two branches do what [oidc_bound] says. *)
Lemma bound_by_name d o sub name : wf_db d → o ∈ d.(oidc_identities) → oi_subject o = Some sub →
  set_oidc_identities (update_rows (oidc_of (oi_user_id o) (oi_issuer o)) (λ r,
    Oidc_row (oi_id r) (oi_user_id r) (oi_issuer r) (oi_subject r) name (oi_created_at r)
      (CURRENT_TIMESTAMP d))) d = oidc_bound d sub name o.
Proof.
  intros Hd Ho Es. apply set_oidc_ext, update_rows_ext; [by apply oidc_id_of|].
  intros r Hr Er. by rewrite (oidc_of_eq d o r Hd Ho Hr Er), Es.
Qed.

Lemma bound_by_subject d o sub name :
  wf_db d → o ∈ d.(oidc_identities) → oi_subject o = None → oi_provider_username o = name →
  set_oidc_identities (update_rows
    (λ r, oidc_of (oi_user_id o) (oi_issuer o) r && bool_decide (oi_subject r = None)) (λ r,
    Oidc_row (oi_id r) (oi_user_id r) (oi_issuer r) (Some sub) (oi_provider_username r) (oi_created_at r)
      (CURRENT_TIMESTAMP d))) d = oidc_bound d sub name o.
Proof.
  intros Hd Ho Es En. apply set_oidc_ext, update_rows_ext.
  - intros r Hr. rewrite <- (oidc_id_of d o Hd Ho r Hr).
    destruct (oidc_of _ _ r) eqn:E; [|done]. rewrite (oidc_of_eq d o r Hd Ho Hr E).
    by apply bool_decide_eq_true.
  - intros r Hr [Er _]%andb_true_iff. by rewrite (oidc_of_eq d o r Hd Ho Hr Er), En.
Qed.

(** The branch of a subject that is bound already. *)
Lemma resolve_bound_run d iss sub name o : wf_db d →
  o ∈ d.(oidc_identities) → oi_issuer o = iss → oi_subject o = Some sub →
  (oidc_resolves d iss sub name o ∧
   update_oidc_name name (oi_user_id o) iss d = (Ok (count_rows (oidc_of (oi_user_id o) iss) d.(oidc_identities)),
     oidc_bound d sub name o)) ∨
  ((∀ x, ¬ oidc_resolves d iss sub name x) ∧
   update_oidc_name name (oi_user_id o) iss d = (Err (Sql Unique), d)).
Proof.
  intros Hd Ho <- Es. unfold update_oidc_name.
  destruct (exists_row (oidc_of _ _) _ && exists_row _ _) eqn:Eg; [right|left].
  - split; [|done]. apply andb_true_iff in Eg as [_ Eg].
    apply exists_row_true in Eg as (o' & Ho' & E'). apply andb_true_iff in E' as [En E'].
    apply has_provider_name_true in E'. apply negb_true_iff in En.
    intros x (Hx & Eix & [[Esx Hn]|(_ & _ & Hn)]); [|by apply (Hn o)].
    assert (x = o) as -> by (by eapply (wf_oi_subject _ (wf_db_factors _ Hd))).
    apply not_true_iff_false in En. apply En, oidc_of_true. specialize (Hn o' Ho' E').
    unfold oidc_user_key. injection E' as E' _. congruence.
  - split; [|by rewrite (bound_by_name d o sub name)].
    split_and!; [done|done|left]. split; [done|]. intros o' Ho' En.
    apply andb_false_iff in Eg as [Eg|Eg]; rewrite exists_row_false in Eg.
    { specialize (Eg o Ho). apply not_true_iff_false in Eg. destruct Eg. by apply oidc_of_true. }
    specialize (Eg o' Ho'). apply has_provider_name_true in En. rewrite En, andb_true_r in Eg.
    apply negb_false_iff, oidc_of_true in Eg. by injection Eg.
Qed.

(** The branch of a pending mapping. *)
Lemma resolve_pending_run d iss sub name o : wf_db d →
  o ∈ d.(oidc_identities) → oi_issuer o = iss → oi_subject o = None → oi_provider_username o = name →
  (∀ o', o' ∈ d.(oidc_identities) → oi_issuer o' = iss → oi_subject o' ≠ Some sub) →
  ∃ n, update_oidc_subject sub (oi_user_id o) iss d = (Ok n, oidc_bound d sub name o).
Proof.
  intros Hd Ho Ei Es En Hno. unfold update_oidc_subject.
  destruct (exists_row _ _ && exists_row _ _) eqn:Eg.
  - apply andb_true_iff in Eg as [_ Eg]. apply exists_row_true in Eg as (o' & Ho' & E').
    apply andb_true_iff in E' as [_ [Ei' Es']%has_subject_true]. by destruct (Hno o').
  - eexists. f_equal. rewrite <- Ei. by apply bound_by_subject.
Qed.

Lemma resolve_run d iss sub name : wf_db d →
  (∃ o, oidc_resolves d iss sub name o ∧
     run (resolveOIDC iss sub name) d = (Ok (oi_user_id o), oidc_bound d sub name o)) ∨
  ((∀ o, ¬ oidc_resolves d iss sub name o) ∧ ∃ e, run (resolveOIDC iss sub name) d = (Err e, d)).
Proof.
  intros Hd. unfold resolveOIDC. rewrite run_bind. unfold value, final. cbn [run query fst snd].
  destruct (query_row (has_subject iss sub) _) as [o|] eqn:E.
  - apply query_row_Some in E as [Ho [Ei Es]%has_subject_true]. rewrite run_bind_ok. cbn [run atomic].
    destruct (resolve_bound_run d iss sub name o Hd Ho Ei Es) as [[Hr ->]|[Hr ->]]; eauto.
  - rewrite query_row_None in E.
    assert (∀ o', o' ∈ oidc_identities d → oi_issuer o' = iss → oi_subject o' ≠ Some sub) as Hno.
    { intros o' Ho' Ei' Es'. specialize (E o' Ho'). apply not_true_iff_false in E.
      by apply E, has_subject_true. }
    rewrite run_bind. unfold value, final. cbn [run query fst snd].
    destruct (query_row _ _) as [o|] eqn:Ep; [left|right].
    + apply query_row_Some in Ep as [Ho Ep]. apply andb_true_iff in Ep as [En Es].
      apply has_provider_name_true in En. injection En as Ei En. apply bool_decide_eq_true in Es.
      exists o. split; [split_and!; [done|done|right]; by split_and!|].
      rewrite run_bind_ok. cbn [run atomic].
      by destruct (resolve_pending_run d iss sub name o Hd Ho Ei Es En Hno) as [n ->].
    + split; [|by eexists]. rewrite query_row_None in Ep.
      intros o (Ho & Ei & [[Es _]|(Es & En & _)]); [by apply (Hno o)|].
      specialize (Ep o Ho). apply not_true_iff_false in Ep. apply Ep, andb_true_iff.
      split; [apply has_provider_name_true; unfold oidc_name_key; congruence|].
      by apply bool_decide_eq_true.
Qed.

(** ** A bound subject stays with its user *)

Definition subject_bound (iss sub : string) (uid : Z) (d : db) : Prop :=
  ∃ o, o ∈ d.(oidc_identities) ∧ oi_issuer o = iss ∧ oi_subject o = Some sub ∧ oi_user_id o = uid.

Lemma bound_same iss sub uid d d' :
  oidc_identities d' = oidc_identities d → subject_bound iss sub uid d → subject_bound iss sub uid d'.
Proof. unfold subject_bound. by intros ->. Qed.

(** An UPDATE that leaves the bound row's subject. *)
Lemma bound_update iss sub uid p f d :
  (∀ r, oi_user_id (f r) = oi_user_id r ∧ oi_issuer (f r) = oi_issuer r) →
  (∀ r, p r = true → oi_user_id r = uid → oi_subject r = Some sub → oi_subject (f r) = Some sub) →
  subject_bound iss sub uid d → subject_bound iss sub uid (set_oidc_identities (update_rows p f) d).
Proof.
  intros Hf Hs (o & Ho & Ei & Es & Eu). exists (if p o then f o else o). split.
  - cbn. apply elem_of_update. eauto.
  - destruct (p o) eqn:E; [|done]. destruct (Hf o) as [-> ->]. auto.
Qed.

Section binding.
Context `{UnicodeTables, Rowids, TimeParser}.

Lemma upsert_oidc_bound iss sub uid u i s n d :
  u ≠ uid → subject_bound iss sub uid d → subject_bound iss sub uid (upsert_oidc u i s n d).2.
Proof.
  intros Hne Hb. unfold upsert_oidc. split_matches; [done| |done|]; cbn [snd].
  - apply bound_update; [done| |done]. intros r Hr Eu. apply oidc_of_true in Hr. injection Hr. congruence.
  - destruct Hb as (o & Ho & H'). exists o. split; [|done]. cbn. apply elem_of_insert. by left.
Qed.

Lemma update_oidc_subject_bound iss sub uid s u i d :
  subject_bound iss sub uid d → subject_bound iss sub uid (update_oidc_subject s u i d).2.
Proof.
  intros Hb. unfold update_oidc_subject. destruct (_ && _); [done|]. cbn [snd].
  apply bound_update; [done| |done].
  intros r [_ E%bool_decide_eq_true]%andb_true_iff _ Es. congruence.
Qed.

Lemma update_oidc_name_bound iss sub uid n u i d :
  subject_bound iss sub uid d → subject_bound iss sub uid (update_oidc_name n u i d).2.
Proof.
  intros Hb. unfold update_oidc_name. destruct (_ && _); [done|]. cbn [snd].
  by apply bound_update.
Qed.

Lemma delete_oidc_bound iss sub uid u i d :
  u ≠ uid → subject_bound iss sub uid d → subject_bound iss sub uid (delete_oidc u i d).2.
Proof.
  intros Hne (o & Ho & Ei & Es & Eu). exists o. split; [|done]. cbn. apply elem_of_delete.
  split; [done|]. unfold oidc_of. apply andb_false_iff. left. apply Z.eqb_neq. congruence.
Qed.

(** The calls that may change the identities of the user. *)
Definition touches_identity (uid : Z) (c : call) : bool :=
  match c with
  | SetOIDCUsernameMapping_call u _ _ | LinkOIDCIdentity_call u _ _ _
  | RemoveOIDCIdentity_call u _ => u =? uid
  | DeleteUser_call _ => true
  | _ => false
  end.

Lemma exec_keeps_bound iss sub uid c :
  touches_identity uid c = false → keeps (subject_bound iss sub uid) (exec c).
Proof.
  intros Hc. destruct c; cbn [touches_identity] in Hc; bool_simp.
  all: cbn [exec]; unfold_store; keeps_tac.
  all: apply keeps_atomic; intros ? ?.
  all: first
    [ by apply upsert_oidc_bound | by apply update_oidc_subject_bound
    | by apply update_oidc_name_bound | by apply delete_oidc_bound
    | eapply bound_same; [|eassumption]; unfold_statements; unfold set_grant_table; by split_matches ].
Qed.

(** The outcome of an OIDC login. *)
Lemma AuthenticateOIDC_run claimed issuer subject pname d : wf_db d →
  match run (AuthenticateOIDC claimed issuer subject pname) d with
  | (Ok v, d') => ∃ iss sub name o u,
      normalizeOIDCValues issuer subject pname = Ok (iss, sub, name) ∧
      oidc_resolves d iss sub name o ∧
      u ∈ d.(users) ∧ u_id u = oi_user_id o ∧ u_enabled u = true ∧
      u_username u = ToLower (TrimSpace claimed) ∧ v = user_of_row d u ∧ d' = oidc_bound d sub name o
  | (Err _, d') => d' = d ∧ ∀ iss sub name o u,
      normalizeOIDCValues issuer subject pname = Ok (iss, sub, name) →
      oidc_resolves d iss sub name o → u ∈ d.(users) → u_id u = oi_user_id o →
      u_enabled u = true → u_username u ≠ ToLower (TrimSpace claimed)
  end.
Proof.
  intros Hd. unfold AuthenticateOIDC.
  destruct (normalizeOIDCValues _ _ _) as [[[iss sub] name]|e]; [|by split].
  unfold transaction. cbn [run atomic]. rewrite run_bind. unfold value, final.
  destruct (resolve_run d iss sub name Hd) as [(o & Ho & ->)|[Hno [e ->]]]; cbn [run fst snd].
  2:{ split; [done|]. intros ? ? ? o u [= <- <- <-] Hr. by destruct (Hno o). }
  rewrite run_bind. unfold value, final.
  change (run (UserByID (oi_user_id o)) (oidc_bound d sub name o)) with
    (scanUser (oidc_bound d sub name o) (query_row (λ u, u_id u =? oi_user_id o) d.(users)),
     oidc_bound d sub name o). cbn [fst snd].
  assert (∀ o', oidc_resolves d iss sub name o' → oi_user_id o' = oi_user_id o) as Huniq.
  { intros o' (Ho' & Ei' & Hs'). destruct Ho as (Ho & Ei & Hs).
    destruct Hs as [[Es Hn]|(Es & En & Hn)], Hs' as [[Es' Hn']|(Es' & En' & Hn')].
    - f_equal. by eapply (wf_oi_subject _ (wf_db_factors _ Hd)); [..|congruence|exact Es'|exact Es].
    - by destruct (Hn' o Ho Ei).
    - by destruct (Hn o' Ho' Ei').
    - f_equal. apply (unique_on_eq oidc_name_key d.(oidc_identities)); [apply Hd|done..|].
      unfold oidc_name_key. congruence. }
  destruct (query_row _ _) as [u|] eqn:Eu; cbn [scanUser].
  - apply query_row_Some in Eu as [Hu Eid]. bool_simp. cbn [user_of_row User_Enabled User_Username].
    destruct (negb (u_enabled u) || _) eqn:Eg; cbn [run]; [|bool_simp; by exists iss, sub, name, o, u].
    split; [done|]. intros ? ? ? o' u' [= <- <- <-] Hr Hu' Eid' Een' En'.
    rewrite (Huniq o' Hr) in Eid'.
    assert (u' = u) as ->. { apply (unique_on_eq u_id d.(users)); [apply Hd|done..|congruence]. }
    by rewrite Een', En', String.eqb_refl in Eg.
  - cbn [run]. split; [done|]. intros ? ? ? o' u' [= <- <- <-] Hr Hu' Eid' _ _.
    rewrite query_row_None in Eu. specialize (Eu u' Hu'). apply Z.eqb_neq in Eu.
    apply Eu. by rewrite Eid', (Huniq o').
Qed.
End binding.

(** ** Properties *)

Section properties.
Context `{UnicodeTables, RowidsLaws, TimeParser}.

(** A TOTP counter is consumed at most once.  Of all the calls that run
    concurrently, in any interleaving, at most one [ConsumeTOTPCounter] for the
    same user and counter succeeds, as long as the user does not enrol again. *)
Theorem totp_counter_consumed_once uid c cs d ps d' i j :
  Forall (λ c, enrolls uid c = false) cs →
  interleaves (exec <$> cs, d) (ps, d') →
  cs !! i = Some (ConsumeTOTPCounter_call uid c) →
  cs !! j = Some (ConsumeTOTPCounter_call uid c) →
  ps !! i = Some (Ret (Ok tt)) → ps !! j = Some (Ret (Ok tt)) → i = j.
Proof.
  intros Hn Hi. assert (consumed_once uid cs ps d') as (_ & _ & Hone).
  { apply (interleaves_invariant (consumed_once uid cs) _ _ _ _) in Hi;
      [done|intros; by apply consumed_once_step|by apply consumed_once_start]. }
  apply Hone.
Qed.


(** C16: OIDC login.  When [AuthenticateOIDC] succeeds, the issuer and the
    subject identify - by the subject once it is bound, before that by the pending
    mapping of the provider's user name - an enabled user, and that user has the
    claimed name; the subject is then bound and the provider's user name recorded,
    and nothing else changes.  When it fails, nothing has changed, and the login
    identified no enabled user of the claimed name whose provider user name is free.
    (Without the last condition the code refuses a login the documentation allows:
    [renamed_provider_user_locked_out].) *)
Theorem oidc_login_sound_complete claimed issuer subject pname d :
  wf_db d →
  match run (AuthenticateOIDC claimed issuer subject pname) d with
  | (Ok v, d') => ∃ iss sub name o u,
      normalizeOIDCValues issuer subject pname = Ok (iss, sub, name) ∧
      oidc_identifies d iss sub name o ∧
      u ∈ d.(users) ∧ u_id u = oi_user_id o ∧ u_enabled u = true ∧
      u_username u = ToLower (TrimSpace claimed) ∧ v = user_of_row d u ∧ d' = oidc_bound d sub name o
  | (Err _, d') => d' = d ∧ ∀ iss sub name o u,
      normalizeOIDCValues issuer subject pname = Ok (iss, sub, name) →
      oidc_identifies d iss sub name o → u ∈ d.(users) → u_id u = oi_user_id o →
      u_enabled u = true → provider_name_free d iss name (u_id u) → u_username u ≠ ToLower (TrimSpace claimed)
  end.
Proof.
  intros Hd. pose proof (AuthenticateOIDC_run claimed issuer subject pname d Hd) as Hr.
  destruct (run _ d) as [[v|e] d'].
  - destruct Hr as (iss & sub & name & o & u & Hn & Ho & Hr). exists iss, sub, name, o, u.
    split; [done|]. split; [|done]. by eapply resolves_identifies.
  - destruct Hr as [-> Hr]. split; [done|]. intros iss sub name o u Hn Ho Hu Eid En Hfree.
    apply (Hr iss sub name o u); try done. rewrite Eid in Hfree. by apply identifies_resolves.
Qed.

(** A subject stays with its user.  Once a subject is bound to a user, then
    after any interleaving of calls - mappings, links and logins of others,
    whatever user names the provider reports - a login with that subject that
    succeeds is of that user, unless the user's own identity was remapped or
    removed or a user was deleted in between. *)
Theorem bound_subject_stays iss sub uid cs d ps d' claimed issuer subject pname name v :
  wf_db d → subject_bound iss sub uid d →
  Forall (λ c, touches_identity uid c = false) cs →
  interleaves (exec <$> cs, d) (ps, d') →
  normalizeOIDCValues issuer subject pname = Ok (iss, sub, name) →
  value (AuthenticateOIDC claimed issuer subject pname) d' = Ok v → User_ID v = uid.
Proof.
  intros Hd Hb Hcs Hi Hn Hv.
  assert (wf_db d' ∧ subject_bound iss sub uid d') as [Hd' (o & Ho & Ei & Es & Eu)].
  { split.
    - apply (interleaves_keeps wf_db _ _ Hi); [|done].
      apply Forall_fmap, Forall_forall. intros c _. apply exec_keeps_wf.
    - apply (interleaves_keeps (subject_bound iss sub uid) _ _ Hi); [|done].
      apply Forall_fmap. eapply Forall_impl; [exact Hcs|]. intros c. apply exec_keeps_bound. }
  pose proof (AuthenticateOIDC_run claimed issuer subject pname d' Hd') as Hr.
  unfold value in Hv. destruct (run _ d') as [[v'|e] d2]; [|done]. injection Hv as ->.
  destruct Hr as (iss' & sub' & name' & o' & u & Hn' & (Ho' & Ei' & Hs') & Hu & Eid & _ & _ & -> & _).
  rewrite Hn in Hn'. injection Hn' as <- <- <-. cbn. rewrite Eid.
  destruct Hs' as [[Es' _]|(_ & _ & Hno)]; [|by destruct (Hno o)].
  rewrite <- Eu. f_equal. by eapply (wf_oi_subject _ (wf_db_factors _ Hd')); [..|congruence|exact Es'|exact Es].
Qed.
End properties.

#[local] Existing Instances ascii_tables max_rowids max_rowids_laws sqlite_parser.

(** ** Witnesses *)

Lemma totp_counter_consumed_once_witness :
  let cs := [ConsumeTOTPCounter_call 2 7; ConsumeTOTPCounter_call 2 7] in
  let c := schedule [1;0]%nat (exec <$> cs) sample_db in
  c.1 !! 1%nat = Some (Ret (Ok tt)) ∧ c.1 !! 0%nat ≠ Some (Ret (Ok tt)).
Proof.
  cbn zeta. split; [by vm_compute|]. intros E0.
  enough (0%nat = 1%nat) by done.
  apply (totp_counter_consumed_once 2 7 [ConsumeTOTPCounter_call 2 7; ConsumeTOTPCounter_call 2 7] sample_db
    (schedule [1;0]%nat (exec <$> [ConsumeTOTPCounter_call 2 7; ConsumeTOTPCounter_call 2 7]) sample_db).1
    (schedule [1;0]%nat (exec <$> [ConsumeTOTPCounter_call 2 7; ConsumeTOTPCounter_call 2 7]) sample_db).2);
    [by repeat constructor| |done|done|exact E0|by vm_compute].
  rewrite <- surjective_pairing. apply schedule_interleaves.
Defined.

Lemma oidc_login_sound_complete_witness :
  is_ok (value (AuthenticateOIDC "Bob" "https://id.example" "sub-1" "bob@example") sample_db) = true ∧
  final (AuthenticateOIDC "alice" "https://id.example" "sub-1" "bob@example") sample_db = sample_db.
Proof.
  split; [by vm_compute|].
  pose proof (oidc_login_sound_complete "alice" "https://id.example" "sub-1" "bob@example" sample_db
                sample_db_wf) as Hr.
  unfold final. destruct (run _ sample_db) as [[v|e] d'] eqn:E; [by vm_compute in E|apply Hr].
Defined.

(** Bob's subject after a login, and the calls of others after it. *)
Definition bound_db : db :=
  exec_all [AuthenticateOIDC_call "bob" "https://id.example" "sub-1" "bob@example"] sample_db.

Definition others : list call :=
  [SetOIDCUsernameMapping_call 3 "https://id.example" "bob";
   LinkOIDCIdentity_call 1 "https://id.example" "sub-1" "x"].

Lemma bound_subject_stays_witness :
  ∃ v, value (AuthenticateOIDC "bob" "https://id.example" "sub-1" "robert")
         (schedule [0;1;0;1]%nat (exec <$> others) bound_db).2 = Ok v ∧ User_ID v = 2.
Proof.
  eexists. split; [vm_compute; reflexivity|].
  eapply (bound_subject_stays "https://id.example" "sub-1" 2 others bound_db
    (schedule [0;1;0;1]%nat (exec <$> others) bound_db).1
    (schedule [0;1;0;1]%nat (exec <$> others) bound_db).2
    "bob" "https://id.example" "sub-1" "robert" "robert").
  - apply exec_all_wf, sample_db_wf.
  - exists (Oidc_row 1 2 "https://id.example" (Some "sub-1") "bob@example" "2026-01-15 12:00:00" "2026-01-15 12:00:00").
    split; [|done]. vm_compute. left.
  - by repeat constructor.
  - rewrite <- surjective_pairing. apply schedule_interleaves.
  - by vm_compute.
  - by vm_compute.
Defined.

(** A user name the provider changes can lock its user out, against the promise
    of docs/operations.md that a later change of it does not break the link.  When
    the new name is the one of another pending mapping, the login of a subject that
    is already bound fails, although it identifies an enabled user. *)
Theorem renamed_provider_user_locked_out :
  let d := exec_all [SetOIDCUsernameMapping_call 3 "https://id.example" "robert"] bound_db in
  is_ok (value (AuthenticateOIDC "bob" "https://id.example" "sub-1" "robert") bound_db) = true ∧
  (∃ o u, oidc_identifies d "https://id.example" "sub-1" "robert" o ∧ u ∈ d.(users) ∧ u_id u = oi_user_id o ∧
     u_enabled u = true ∧ u_username u = "bob") ∧
  run (AuthenticateOIDC "bob" "https://id.example" "sub-1" "robert") d =
    (Err (Msg "OIDC identity is not mapped"), d).
Proof.
  split_and!; [by vm_compute| |by vm_compute].
  exists (Oidc_row 1 2 "https://id.example" (Some "sub-1") "bob@example" "2026-01-15 12:00:00" "2026-01-15 12:00:00"),
    (User_row 2 "bob" "member" true "2026-01-15 12:00:00").
  split_and!; [|vm_compute; right; left|done..]. apply identified_by_subject; [vm_compute; left|done..].
Qed.
