(* ===== verification/StoreLog.v ===== *)
(** * What the audit log holds (store.go)

    [Audit] appends, [ListAudit] reads the newest events, [PruneAudit] deletes
    by comparing texts. *)

From S2P Require Import Prelude GoStrings Json GoTime Effects Sql Schema Names StoreUsers StoreOIDC.
From S2P Require Import StoreTargets StoreAccess StoreAudit StoreWf StoreCalls.

Section log.
Context `{UnicodeTables, Rowids, TimeParser}.

(** The row an event is stored as. *)
Definition audit_row_of (e : AuditEvent) (d : db) : audit_row :=
  Audit_row (new_rowid (ae_id <$> d.(audit_events))) (CURRENT_TIMESTAMP d) (Audit_ActorUserID e)
    (Audit_ClaimedUsername e) (Audit_SourceAddress e) (Audit_EventType e) (Audit_TargetID e)
    (if Audit_Outcome e =s "" then "success" else Audit_Outcome e)
    (if Audit_Details e =s "" then "{}" else Audit_Details e).

(** What [Audit] accepts: JSON details, an outcome of the three, and references
    to a user and a target that exist. *)
Definition loggable (e : AuditEvent) (d : db) : bool :=
  ((Audit_Details e =s "") || Unmarshal_map (Audit_Details e))
  && ((Audit_Outcome e =s "") || valid_outcome (Audit_Outcome e))
  && ref_ok user_exists (Audit_ActorUserID e) d && ref_ok target_exists (Audit_TargetID e) d.

Lemma Audit_run e d :
  run (Audit e) d =
    if loggable e d then (Ok tt, set_audit_events (insert_row (audit_row_of e d)) d)
    else (match value (Audit e) d with Ok _ => Err ErrNoRows | r => r end, d).
Proof.
  unfold value, Audit, loggable. cbn [with_defaults Audit_Details].
  assert (∀ s, Unmarshal_map (if s =s "" then "{}" else s) = (s =s "") || Unmarshal_map s) as ->.
  { intros s. by destruct (s =s ""). }
  destruct (_ || Unmarshal_map _); [|done]. cbn [negb andb].
  rewrite run_bind_ok. cbn [run atomic]. unfold insert_audit.
  cbn [with_defaults Audit_Outcome Audit_ActorUserID Audit_TargetID].
  assert (∀ s, valid_outcome (if s =s "" then "success" else s) = (s =s "") || valid_outcome s) as ->.
  { intros s. by destruct (s =s ""). }
  destruct (_ || valid_outcome _); [|done]. cbn [negb andb].
  by destruct (ref_ok user_exists _ d), (ref_ok target_exists _ d).
Qed.

(** Newest first. *)
Definition newest (a b : audit_row) : bool := ae_id b <=? ae_id a.

Lemma newest_sorted d : StronglySorted (λ a b, newest a b = true) (order_by newest d.(audit_events)).
Proof.
  apply order_by_sorted; unfold newest.
  - intros a b. rewrite !Z.leb_le. lia.
  - intros a b c. rewrite !Z.leb_le. lia.
Qed.

Lemma sorted_app {A} (R : A → A → Prop) l1 l2 x y :
  StronglySorted R (l1 ++ l2) → x ∈ l1 → y ∈ l2 → R x y.
Proof.
  induction l1 as [|z l1 IH]; intros Hs Hx Hy; [by apply not_elem_of_nil in Hx|].
  cbn in Hs. apply StronglySorted_inv in Hs as [Hs Hf].
  apply elem_of_cons in Hx as [->|Hx]; [|by apply IH].
  rewrite Forall_forall in Hf. apply Hf. apply elem_of_app. by right.
Qed.

Lemma audit_limit_range n : 1 <= audit_limit n <= 1000 ∧ (1 <= n <= 1000 → audit_limit n = n).
Proof.
  unfold audit_limit. destruct (_ || _) eqn:E.
  - split; [lia|]. apply orb_true_iff in E as [E|E]; [apply Z.leb_le in E|apply Z.ltb_lt in E]; lia.
  - bool_simp. lia.
Qed.

(** ** Properties *)

(** [Audit] is exact.  It appends one row - the event with the database's
    clock, outcome "success" and details "{}" where the event leaves them empty -
    exactly when the details are a JSON object (or null), the outcome is one of
    the three and the user and target it names exist; otherwise it fails and the
    database is as before. *)
Theorem audit_appends e d :
  match run (Audit e) d with
  | (Ok _, d') => loggable e d = true ∧
                  d' = set_audit_events (λ t, t ++ [audit_row_of e d]) d
  | (Err _, d') => loggable e d = false ∧ d' = d
  end.
Proof.
  rewrite Audit_run. destruct (loggable e d); [done|]. by destruct (value (Audit e) d).
Qed.

(** What the gateway marshals is accepted.  An event with one of the three
    outcomes, details made by [jsonString] from strings and 64-bit integers, and
    references that exist is always recorded. *)
Theorem audit_accepts_marshalled actor claimed source type target outcome m d :
  Forall (λ kv : string * jvalue, marshallable kv.2) m → valid_outcome outcome = true →
  ref_ok user_exists actor d = true → ref_ok target_exists target d = true →
  value (Audit (event actor claimed source type target outcome (jsonString m))) d = Ok tt.
Proof.
  intros Hm Ho Ha Ht. unfold value. rewrite Audit_run. unfold loggable, event, jsonString.
  cbn [Audit_Details Audit_Outcome Audit_ActorUserID Audit_TargetID].
  by rewrite Unmarshal_marshal, Ho, Ha, Ht, !orb_true_r.
Qed.

(** [ListAudit] returns the newest events, newest first: as many as asked
    for (100 when the limit is not between 1 and 1000) or all of them, and every
    event it leaves out is older than every event it returns. *)
Theorem list_audit_newest n d :
  ∃ l rest, run (ListAudit n) d = (Ok (map event_of_row l), d) ∧
    l ++ rest ≡ₚ d.(audit_events) ∧
    Z.of_nat (length l) = Z.min (audit_limit n) (Z.of_nat (length d.(audit_events))) ∧
    StronglySorted (λ a b, newest a b = true) l ∧
    (∀ a b, a ∈ l → b ∈ rest → ae_id b <= ae_id a) ∧
    1 <= audit_limit n <= 1000 ∧ (1 <= n <= 1000 → audit_limit n = n).
Proof.
  pose proof (newest_sorted d) as Hs. pose proof (audit_limit_range n) as [Hl Hn].
  set (o := order_by newest (audit_events d)) in *.
  exists (take (Z.to_nat (audit_limit n)) o), (drop (Z.to_nat (audit_limit n)) o).
  rewrite <- (take_drop (Z.to_nat (audit_limit n)) o) in Hs.
  split_and!; try done.
  - rewrite take_drop. apply order_by_Permutation.
  - rewrite length_take. replace (length o) with (length (audit_events d)); [lia|].
    apply Permutation_length. symmetry. apply order_by_Permutation.
  - by apply StronglySorted_app_1_l in Hs.
  - intros a b Ha Hb. apply Z.leb_le. by apply (sorted_app _ _ _ _ _ Hs).
  - lia.
  - lia.
Qed.

(** Pruning goes by the day.  The column holds the text SQLite writes, the
    bound is an RFC 3339 text: an event is deleted exactly when its day is not
    after the day of the bound, so events of that day that are not before the
    bound are deleted too.  Events of later days stay, and the count returned is
    the number deleted. *)
Theorem prune_deletes_by_day before d e t :
  valid_time before → valid_time t → e ∈ d.(audit_events) → ae_at e = sqlite_text t →
  (e ∈ (final (PruneAudit before) d).(audit_events) ↔ date_before before t) ∧
  ∃ n, value (PruneAudit before) d = Ok n ∧
    n + Z.of_nat (length (final (PruneAudit before) d).(audit_events)) =
    Z.of_nat (length d.(audit_events)).
Proof.
  intros Hb Ht He Ea. split.
  - unfold final. cbn. rewrite elem_of_delete. unfold text_lt. rewrite Ea.
    pose proof (sqlite_below_rfc3339 t before Ht Hb) as Hlt.
    rewrite <- not_true_iff_false, Hlt. unfold date_before.
    split; [intros [_ ?]; lia|intros ?; split; [done|lia]].
  - eexists. split; [done|]. unfold final. cbn. unfold count_rows, delete_rows, select.
    pose proof (filter_length (λ e, text_lt (ae_at e) (rfc3339_text before)) (audit_events d)) as Hl.
    cbn in *. rewrite <- Hl, Nat2Z.inj_add. f_equal.
Qed.

End log.

(** ** Witnesses *)

#[local] Existing Instances ascii_tables max_rowids max_rowids_laws sqlite_parser.

Lemma audit_accepts_marshalled_witness :
  value (Audit (event (Some 2) "bob" "10.0.0.9" "tcp_forward" (Some 1) "failure"
    (jsonString [("bytes_in", JInt 12); ("destination", JString "a<b>:22")]))) sample_db = Ok tt.
Proof.
  apply audit_accepts_marshalled; [by repeat constructor|done|by vm_compute|by vm_compute].
Defined.

Lemma prune_deletes_by_day_witness :
  let e := Audit_row 1 "2026-01-15 12:00:00" (Some 2) "bob" "10.1.1.1" "authentication" None "success" "{}" in
  let before := Time 2026 1 15 0 0 0 in
  time_before before noon ∧ e ∉ (final (PruneAudit before) sample_db).(audit_events).
Proof.
  split; [right; vm_compute; intuition congruence|].
  rewrite (proj1 (prune_deletes_by_day (Time 2026 1 15 0 0 0) sample_db _ noon
    ltac:(unfold valid_time; cbn; lia) ltac:(unfold valid_time; cbn; lia) ltac:(left) eq_refl)).
  unfold date_before. cbn. lia.
Defined.
