(* ===== verification/Policy.v ===== *)
(** * The access policy: what the store promises

    The specification of the store's authorization, by names: the accounts, the
    targets, the groups, who is a member of what, and the rights granted to a
    user or a group on a target.  There are no tables, identifiers, foreign keys
    or statements here.  [policy_step] is what each call of the store means for
    the policy, [accepts] when it may succeed, and [allowed] who may do what.
    [policy_of] reads the policy off a database. *)

From stdpp Require Import functions.
From S2P Require Import Prelude GoStrings GoTime Effects Sql Schema Names StoreUsers StoreOIDC.
From S2P Require Import StoreTargets StoreAccess StoreAudit StoreCalls.

#[export] Instance principal_table_eq_dec : EqDecision principal_table.
Proof. solve_decision. Defined.

Record account := Account { acc_enabled : bool; acc_admin : bool }.
Record rights := Rights { may_shell : bool; may_sftp : bool; may_scp : bool; may_forward : bool }.

Record policy := Policy {
  pol_account : string → option account;
  pol_target : string → option bool;
  pol_group : string → bool;
  pol_member : string * string → bool;
  pol_right : principal_table * string * string → option rights;
}.

(** Policies are compared pointwise. *)
#[export] Instance policy_equiv : Equiv policy := λ p q,
  (∀ n, pol_account p n = pol_account q n) ∧ (∀ n, pol_target p n = pol_target q n) ∧
  (∀ n, pol_group p n = pol_group q n) ∧ (∀ k, pol_member p k = pol_member q k) ∧
  (∀ k, pol_right p k = pol_right q k).

#[export] Instance policy_equivalence : Equivalence (≡@{policy}).
Proof.
  split.
  - by intros p.
  - intros p q (? & ? & ? & ? & ?). split_and!; by symmetry.
  - intros p q r (? & ? & ? & ? & ?) (? & ? & ? & ? & ?). split_and!; intros; etrans; eauto.
Qed.

Definition present {A} (o : option A) : bool := match o with Some _ => true | None => false end.

(** ** What the calls mean *)

Definition no_policy : policy := Policy (λ _, None) (λ _, None) (λ _, false) (λ _, false) (λ _, None).

Definition with_account (f : (string → option account) → string → option account) (p : policy) : policy :=
  Policy (f (pol_account p)) (pol_target p) (pol_group p) (pol_member p) (pol_right p).
Definition with_target (f : (string → option bool) → string → option bool) (p : policy) : policy :=
  Policy (pol_account p) (f (pol_target p)) (pol_group p) (pol_member p) (pol_right p).

(** The entries [P] holds of are gone. *)
Definition without {K T} (P : K → bool) (gone : T) (f : K → T) : K → T := λ k, if P k then gone else f k.

Definition of_principal (kind : principal_table) (n : string) (k : principal_table * string * string) : bool :=
  bool_decide (k.1 = (kind, n)).
Definition on_target (n : string) (k : principal_table * string * string) : bool := bool_decide (k.2 = n).

Definition kind_of (kind : string) : option principal_table :=
  if kind =s "user" then Some UserGrants else if kind =s "group" then Some GroupGrants else None.

Section steps.
Context `{UnicodeTables}.

(** A grant is set or taken away. *)
Definition grant_step (target kind principal : string) (r : option rights) (p : policy) : policy :=
  match kind_of kind with
  | Some k => Policy (pol_account p) (pol_target p) (pol_group p) (pol_member p)
                (<[(k, ToLower principal, target) := r]> (pol_right p))
  | None => p
  end.

(** What a call that succeeded made of the policy. *)
Definition policy_step (c : call) (p : policy) : policy :=
  match c with
  | AddUser_call name role =>
    match validateName name "username" with
    | Ok n => with_account (<[n := Some (Account true (role =s RoleAdmin))]>) p
    | Err _ => p
    end
  | SetUserEnabled_call name b =>
    with_account (alter (fmap (λ a, Account b (acc_admin a))) (ToLower name)) p
  | SetUserRole_call name role =>
    with_account (alter (fmap (λ a, Account (acc_enabled a) (role =s RoleAdmin))) (ToLower name)) p
  | DeleteUser_call name =>
    Policy (<[ToLower name := None]> (pol_account p)) (pol_target p) (pol_group p)
      (without (λ k, k.2 =s ToLower name) false (pol_member p))
      (without (of_principal UserGrants (ToLower name)) None (pol_right p))
  | AddGroup_call name =>
    match validateName name "group" with
    | Ok n => Policy (pol_account p) (pol_target p) (<[n := true]> (pol_group p)) (pol_member p) (pol_right p)
    | Err _ => p
    end
  | DeleteGroup_call name =>
    Policy (pol_account p) (pol_target p) (<[ToLower name := false]> (pol_group p))
      (without (λ k, k.1 =s ToLower name) false (pol_member p))
      (without (of_principal GroupGrants (ToLower name)) None (pol_right p))
  | SetGroupMember_call group username add =>
    Policy (pol_account p) (pol_target p) (pol_group p)
      (<[(ToLower group, ToLower username) := add]> (pol_member p)) (pol_right p)
  | AddTarget_call n => with_target (<[NT_Name n := Some true]>) p
  | SetTargetEnabled_call name b => with_target (<[name := Some b]>) p
  | DeleteTarget_call name =>
    Policy (pol_account p) (<[name := None]> (pol_target p)) (pol_group p) (pol_member p)
      (without (on_target name) None (pol_right p))
  | SetGrant_call target kind principal add =>
    grant_step target kind principal (if add then Some (Rights true true true false) else None) p
  | SetGrantCapabilities_call target kind principal add shell sftp scp tcp =>
    grant_step target kind principal (if add then Some (Rights shell sftp scp tcp) else None) p
  | _ => p
  end.

Definition has_principal (kind principal : string) (p : policy) : bool :=
  match kind_of kind with
  | Some UserGrants => present (pol_account p (ToLower principal))
  | Some GroupGrants => pol_group p (ToLower principal)
  | None => false
  end.

(** When a call may succeed: what it names exists, what it makes does not. *)
Definition accepts (c : call) (p : policy) : bool :=
  match c with
  | AddUser_call name role =>
    match validateName name "username" with
    | Ok n => validRole role && negb (present (pol_account p n))
    | Err _ => false
    end
  | SetUserEnabled_call name _ | DeleteUser_call name => present (pol_account p (ToLower name))
  | SetUserRole_call name role => validRole role && present (pol_account p (ToLower name))
  | AddGroup_call name =>
    match validateName name "group" with Ok n => negb (pol_group p n) | Err _ => false end
  | DeleteGroup_call name => pol_group p (ToLower name)
  | SetGroupMember_call group username _ =>
    pol_group p (ToLower group) && present (pol_account p (ToLower username))
  | AddTarget_call n => negb (present (pol_target p (NT_Name n)))
  | SetTargetEnabled_call name _ | DeleteTarget_call name => present (pol_target p name)
  | SetGrant_call target kind principal _ | SetGrantCapabilities_call target kind principal _ _ _ _ _ =>
    present (pol_target p target) && has_principal kind principal p
  | _ => true
  end.

(** The calls whose success the policy decides.  The others may be refused for
    what it does not have: the last administrator who can log in, the fields of a
    target, keys, codes, identities. *)
Definition decided (c : call) : bool :=
  match c with
  | AddUser_call _ _ | AddGroup_call _ | DeleteGroup_call _ | SetGroupMember_call _ _ _
  | SetTargetEnabled_call _ _ | DeleteTarget_call _ | SetGrant_call _ _ _ _
  | SetGrantCapabilities_call _ _ _ _ _ _ _ _ => true
  | SetUserEnabled_call _ b => b
  | SetUserRole_call _ role => role =s RoleAdmin
  | _ => false
  end.
End steps.

(** ** Who may do what *)

Definition right_named (capability : string) : option (rights → bool) :=
  if capability =s "shell" then Some may_shell
  else if capability =s "sftp" then Some may_sftp
  else if capability =s "scp" then Some may_scp
  else if capability =s "tcp_forward" then Some may_forward
  else None.

(** [holds p kind n target right]: the right was granted to this principal. *)
Definition holds (p : policy) (kind : principal_table) (n target : string) (right : rights → bool) : Prop :=
  ∃ r, pol_right p (kind, n, target) = Some r ∧ right r = true.

Record allowed (p : policy) (user target capability : string) : Prop := {
  allowed_target : pol_target p target = Some true;
  allowed_by : ∃ a right, pol_account p user = Some a ∧ acc_enabled a = true ∧
    right_named capability = Some right ∧
    (acc_admin a = true ∨ holds p UserGrants user target right ∨
     ∃ g, pol_member p (g, user) = true ∧ holds p GroupGrants g target right);
}.

#[export] Instance holds_proper : Proper ((≡) ==> (=) ==> (=) ==> (=) ==> (=) ==> iff) holds.
Proof.
  intros p q (_ & _ & _ & _ & Hr) kind ? <- n ? <- t ? <- right ? <-. unfold holds. by setoid_rewrite Hr.
Qed.

#[export] Instance allowed_proper : Proper ((≡) ==> (=) ==> (=) ==> (=) ==> iff) allowed.
Proof.
  assert (∀ p q u t c, p ≡ q → allowed p u t c → allowed q u t c) as Himp.
  { intros p q u t c E [Ht (a & right & Ha & He & Hn & Hby)].
    pose proof E as (Ea & Et & _ & Em & _). split; [by rewrite <- Et|].
    exists a, right. rewrite <- Ea. split_and!; try done.
    destruct Hby as [?|[Hu|(g & Hg & Hh)]]; [by left|right; left|right; right].
    - by rewrite <- E.
    - exists g. by rewrite <- Em, <- E. }
  intros p q E u ? <- t ? <- c ? <-. split; apply Himp; [done|by symmetry].
Qed.

(** Setting, altering and removing entries respects pointwise equality. *)
Ltac pointwise :=
  split_and!; cbn; try done; intros;
  unfold insert, fn_insert, alter, fn_alter, without;
  repeat case_decide; repeat case_match; congruence.

#[export] Instance policy_step_proper `{UnicodeTables} c : Proper ((≡) ==> (≡)) (policy_step c).
Proof.
  intros p q (Ha & Ht & Hg & Hm & Hr). destruct c; cbn [policy_step]; unfold grant_step, with_account, with_target;
    repeat case_match; pointwise.
Qed.

#[export] Instance accepts_proper `{UnicodeTables} c : Proper ((≡) ==> (=)) (accepts c).
Proof.
  intros p q (Ha & Ht & Hg & Hm & Hr). destruct c; cbn [accepts]; unfold has_principal;
    repeat case_match; congruence.
Qed.

(** ** The policy of a database *)

(** The identifier of the row of that name, and the row that relates two
    identifiers. *)
Definition named {R} (pk : R → Z) (name : R → string) (n : string) (t : list R) : option Z :=
  pk <$> query_row (λ r, name r =s n) t.

Definition related {R} (k1 k2 : R → Z) (a b : option Z) (t : list R) : option R :=
  match a, b with
  | Some i, Some j => query_row (λ r, (k1 r =? i) && (k2 r =? j)) t
  | _, _ => None
  end.

Definition account_of_row (u : user_row) : account := Account (u_enabled u) (u_role u =s RoleAdmin).
Definition rights_of_row (g : grant_row) : rights := Rights (gr_shell g) (gr_sftp g) (gr_scp g) (gr_tcp_forward g).

Definition user_named (n : string) (d : db) : option Z := named u_id u_username n d.(users).
Definition group_named (n : string) (d : db) : option Z := named g_id g_name n d.(groups_table).
Definition target_named (n : string) (d : db) : option Z := named t_id t_name n d.(targets).
Definition principal_named (kind : principal_table) (n : string) (d : db) : option Z :=
  match kind with UserGrants => user_named n d | GroupGrants => group_named n d end.

Definition policy_of (d : db) : policy :=
  Policy (λ n, account_of_row <$> query_row (λ u, u_username u =s n) d.(users))
    (λ n, t_enabled <$> query_row (λ t, t_name t =s n) d.(targets))
    (λ n, present (group_named n d))
    (λ k, present (related gm_group_id gm_user_id (group_named k.1 d) (user_named k.2 d) d.(group_members)))
    (λ k, rights_of_row <$> related gr_principal_id gr_target_id (principal_named k.1.1 k.1.2 d)
            (target_named k.2 d) (grant_table k.1.1 d)).

(** The calls of a history that succeeded. *)
Fixpoint succeeded `{UnicodeTables, Rowids, TimeParser} (cs : list call) (d : db) : list call :=
  match cs with
  | [] => []
  | c :: cs' => let '(r, d') := run (exec c) d in
                if is_ok r then c :: succeeded cs' d' else succeeded cs' d'
  end.

(** The policy a history of calls, all successful, leaves. *)
Definition policy_after `{UnicodeTables} (cs : list call) (p : policy) : policy :=
  foldl (λ p c, policy_step c p) p cs.

#[export] Instance policy_after_proper `{UnicodeTables} cs : Proper ((≡) ==> (≡)) (policy_after cs).
Proof.
  induction cs as [|c cs IH]; intros p q E; [done|]. cbn. apply IH. by apply policy_step_proper.
Qed.
