(* ===== verification/PolicyProps.v ===== *)
(** * The store implements the access policy

    A simulation: each call of the store that succeeds does to the policy of the
    database what [policy_step] says, and a call that fails does nothing to it; a
    call the policy decides succeeds when the policy accepts it.  So after any
    history the access query answers what the policy of that history allows. *)

From stdpp Require Import functions.
From S2P Require Import Prelude GoStrings GoTime Effects Sql Schema Names StoreUsers StoreOIDC.
From S2P Require Import StoreTargets StoreAccess StoreAudit StoreWf StoreCalls StoreWhole StoreAuthz Policy.

(** ** Rows found by name, and rows that relate two identifiers *)

Section directory.
Context {R : Type} (pk : R → Z) (name : R → string).
Implicit Types (t : list R) (r : R).

Lemma by_name_insert n r t :
  query_row (λ x, name x =s name r) t = None →
  query_row (λ x, name x =s n) (insert_row r t) =
    if decide (name r = n) then Some r else query_row (λ x, name x =s n) t.
Proof.
  intros Hn. rewrite query_row_insert. case_decide as E.
  - subst. by rewrite Hn, String.eqb_refl.
  - apply String.eqb_neq in E. rewrite E. by case_match.
Qed.

Lemma by_name_delete n m t :
  query_row (λ x, name x =s n) (delete_rows (λ x, name x =s m) t) =
    if decide (m = n) then None else query_row (λ x, name x =s n) t.
Proof.
  rewrite query_row_delete. case_decide as E.
  - subst. apply query_row_None. intros x _. by destruct (_ =s _).
  - apply query_row_ext. intros x _. destruct (name x =s n) eqn:E1; [|done].
    destruct (name x =s m) eqn:E2; [|done]. bool_simp. congruence.
Qed.

Lemma named_Some n t i : named pk name n t = Some i → ∃ r, r ∈ t ∧ name r = n ∧ pk r = i.
Proof.
  unfold named. intros (r & E & ->)%fmap_Some. apply query_row_Some in E as [Hr E].
  exists r. by apply String.eqb_eq in E.
Qed.

Lemma named_row r t : unique_on name t → r ∈ t → named pk name (name r) t = Some (pk r).
Proof.
  intros Hu Hr. unfold named. rewrite (query_row_unique _ t r); [done|done|apply String.eqb_refl|].
  intros r' Hr' E. apply String.eqb_eq in E. by apply (unique_on_eq name t).
Qed.

Lemma named_inj n m t i : unique_on pk t → named pk name n t = Some i → named pk name m t = Some i → n = m.
Proof.
  intros Hu (r & Hr & <- & E)%named_Some (r' & Hr' & <- & E')%named_Some.
  f_equal. apply (unique_on_eq pk t); congruence.
Qed.

(** Rows picked by identifier and rows picked by name are the same rows. *)
Lemma id_is_name r t x : unique_on pk t → unique_on name t → r ∈ t → x ∈ t →
  (pk x =? pk r) = (name x =s name r).
Proof.
  intros Hp Hn Hr Hx. apply eq_true_iff_eq. rewrite Z.eqb_eq, String.eqb_eq. split; intros E.
  - f_equal. by apply (unique_on_eq pk t).
  - f_equal. by apply (unique_on_eq name t).
Qed.
End directory.

Section related.
Context {R : Type} (k1 k2 : R → Z).
Implicit Types (t : list R) (r : R).

Lemma related_comm a b t : related k1 k2 a b t = related k2 k1 b a t.
Proof. destruct a, b; cbn; try done. apply query_row_ext. intros r _. apply andb_comm. Qed.

(** A row that names one identifier goes; the others stay. *)
Lemma related_delete1 i a b t :
  related k1 k2 a b (delete_rows (λ r, k1 r =? i) t) =
    if decide (a = Some i) then None else related k1 k2 a b t.
Proof.
  destruct a as [a|]; cbn; [|done]. destruct b as [b|]; [|by case_decide].
  rewrite query_row_delete. case_decide as E.
  - simplify_eq. apply query_row_None. intros r _.
    destruct (k1 r =? i); [apply andb_false_r|done].
  - apply query_row_ext. intros r _. destruct (k1 r =? a) eqn:E1; [|done]. bool_simp.
    destruct (k1 r =? i) eqn:E2; bool_simp; [congruence|]. by rewrite andb_true_r.
Qed.

Lemma related_none1 i b t : (∀ r, r ∈ t → k1 r ≠ i) → related k1 k2 (Some i) b t = None.
Proof.
  intros Hi. destruct b as [j|]; [|done]. cbn. apply query_row_None. intros r Hr.
  apply andb_false_iff. left. by apply Z.eqb_neq, Hi.
Qed.

(** The rows of exactly one pair go, or one such row comes. *)
Lemma related_delete i j a b t :
  related k1 k2 a b (delete_rows (λ r, (k1 r =? i) && (k2 r =? j)) t) =
    if decide (a = Some i ∧ b = Some j) then None else related k1 k2 a b t.
Proof.
  destruct a as [a|], b as [b|]; cbn; try (rewrite decide_False; [done|by intros []]).
  rewrite query_row_delete. case_decide as E.
  - destruct E. simplify_eq. apply query_row_None. intros r _. apply andb_negb_r.
  - apply query_row_ext. intros r _.
    destruct ((k1 r =? a) && (k2 r =? b)) eqn:E1; [|done].
    destruct ((k1 r =? i) && (k2 r =? j)) eqn:E2; [|done]. bool_simp. destruct E. split; congruence.
Qed.

Lemma related_insert r a b t :
  exists_row (λ x, (k1 x =? k1 r) && (k2 x =? k2 r)) t = false →
  related k1 k2 a b (insert_row r t) =
    if decide (a = Some (k1 r) ∧ b = Some (k2 r)) then Some r else related k1 k2 a b t.
Proof.
  intros Hn. destruct a as [a|], b as [b|]; cbn; try (rewrite decide_False; [done|by intros []]).
  rewrite query_row_insert. case_decide as E.
  - destruct E. simplify_eq. rewrite exists_row_false in Hn. apply query_row_None in Hn.
    by rewrite Hn, !Z.eqb_refl.
  - assert ((k1 r =? a) && (k2 r =? b) = false) as ->.
    { apply not_true_iff_false. intros E1. bool_simp. destruct E. split; congruence. }
    by case_match.
Qed.

(** The row of one pair is written over. *)
Lemma related_update r a b t :
  exists_row (λ x, (k1 x =? k1 r) && (k2 x =? k2 r)) t = true →
  related k1 k2 a b (update_rows (λ x, (k1 x =? k1 r) && (k2 x =? k2 r)) (λ _, r) t) =
    if decide (a = Some (k1 r) ∧ b = Some (k2 r)) then Some r else related k1 k2 a b t.
Proof.
  intros (x & Hx & Ex)%exists_row_true.
  destruct a as [a|], b as [b|]; cbn; try (rewrite decide_False; [done|by intros []]).
  rewrite query_row_update.
  2:{ intros y Ey. bool_simp. by rewrite <- H, <- H0. }
  destruct (query_row _ _) as [y|] eqn:Ey; cbn.
  - apply query_row_Some in Ey as [_ Ey]. bool_simp. subst. case_decide as E.
    + destruct E. simplify_eq. by rewrite H, H0, !Z.eqb_refl.
    + destruct (_ && _) eqn:E2; [|done]. bool_simp. destruct E. split; congruence.
  - rewrite decide_False; [done|]. intros []. simplify_eq. rewrite query_row_None in Ey.
    by rewrite Ey in Ex.
Qed.

(** A new identifier no row names; an identifier that goes with its rows. *)
Lemma related_new (P : Prop) `{!Decision P} i a b t :
  (∀ r, r ∈ t → k1 r ≠ i) → (P → a = None) →
  related k1 k2 (if decide P then Some i else a) b t = related k1 k2 a b t.
Proof. intros Hi Ha. case_decide; [|done]. rewrite related_none1, Ha by done. done. Qed.

Lemma related_gone (P : Prop) `{!Decision P} i a b t :
  (a = Some i → P) →
  related k1 k2 (if decide P then None else a) b (delete_rows (λ r, k1 r =? i) t) =
    if decide P then None else related k1 k2 a b t.
Proof.
  intros Ha. case_decide; [done|]. rewrite related_delete1, decide_False; [done|]. auto.
Qed.
End related.

(** ** What the changes of the database do to its policy *)

Lemma fresh_rowid `{RowidsLaws} {P} (pk : P → Z) (t : list P) x : x ∈ t → pk x ≠ new_rowid (pk <$> t).
Proof. intros Hx E. apply (new_rowid_fresh (pk <$> t)). rewrite <- E. by apply list_elem_of_fmap_2. Qed.

Lemma refers_fresh `{RowidsLaws} {R P} (col : R → Z) (pk : P → Z) (t : list R) (parent : list P) r :
  refers (Some ∘ col) pk t parent → r ∈ t → col r ≠ new_rowid (pk <$> parent).
Proof. intros Hr Hin. destruct (Hr r _ Hin eq_refl) as (x & Hx & <-). by apply fresh_rowid. Qed.

Lemma by_name_none {R} (name : R → string) n t :
  exists_row (λ r, name r =s n) t = false → query_row (λ r, name r =s n) t = None.
Proof. intros E. by apply query_row_None, exists_row_false. Qed.

Lemma named_None {R} (pk : R → Z) name n t : query_row (λ r, name r =s n) t = None → named pk name n t = None.
Proof. unfold named. by intros ->. Qed.

Lemma named_insert {R} (pk : R → Z) name n r t :
  query_row (λ x, name x =s name r) t = None →
  named pk name n (insert_row r t) = if decide (name r = n) then Some (pk r) else named pk name n t.
Proof. intros Hn. unfold named. rewrite by_name_insert by done. by case_decide. Qed.

Lemma by_name_update {R} (name : R → string) n q f t :
  (∀ r, q r = true → name (f r) = name r) →
  query_row (λ x, name x =s n) (update_rows q f t) =
    (λ r, if q r then f r else r) <$> query_row (λ x, name x =s n) t.
Proof. intros Hf. apply query_row_update. intros r Hr. by rewrite Hf. Qed.

Lemma named_update {R} (pk : R → Z) name n q f t :
  (∀ r, name (f r) = name r ∧ pk (f r) = pk r) →
  named pk name n (update_rows q f t) = named pk name n t.
Proof.
  intros Hf. unfold named. rewrite by_name_update by (intros; apply Hf).
  destruct (query_row _ _) as [r|]; [|done]. cbn. f_equal. destruct (q r); [apply Hf|done].
Qed.

Lemma named_delete {R} (pk : R → Z) name n m t :
  named pk name n (delete_rows (λ x, name x =s m) t) = if decide (m = n) then None else named pk name n t.
Proof. unfold named. rewrite by_name_delete. by case_decide. Qed.

Section changes.
Context `{UnicodeTables, RowidsLaws, TimeParser}.
Implicit Types (d : db).

Lemma insert_user_policy d row :
  wf_db d → u_id row = new_rowid (u_id <$> d.(users)) →
  exists_row (λ u, u_username u =s u_username row) d.(users) = false →
  policy_of (set_users (insert_row row) d) ≡
    with_account (<[u_username row := Some (account_of_row row)]>) (policy_of d).
Proof.
  intros Hd Eid En%by_name_none.
  assert (∀ n, user_named n (set_users (insert_row row) d) =
    if decide (u_username row = n) then Some (u_id row) else user_named n d) as Hn.
  { intros n. by apply named_insert. }
  assert (∀ n, u_username row = n → user_named n d = None) as Hnone.
  { intros n <-. by apply named_None. }
  split_and!; cbn; try done.
  - intros n. rewrite by_name_insert by done. unfold insert, fn_insert. by case_decide.
  - intros [g n]. cbn. f_equal. rewrite related_comm, (related_comm gm_group_id), Hn. apply related_new; [|auto].
    intros r Hr. rewrite Eid. eapply refers_fresh; [apply (wf_gm_user d (wf_db_groups d Hd))|done].
  - intros [[[] n] t]; cbn; [|done]. rewrite Hn. f_equal. apply related_new; [|auto].
    intros r Hr. rewrite Eid. eapply refers_fresh; [apply (wf_ug_user d (wf_db_grants d Hd))|done].
Qed.

Lemma named_is_row {R} (pk : R → Z) name t r n :
  unique_on pk t → r ∈ t → named pk name n t = Some (pk r) → name r = n.
Proof.
  intros Hp Hr (x & Hx & <- & E)%named_Some. f_equal. by apply (unique_on_eq pk t).
Qed.

Lemma delete_user_tables d u d' :
  u ∈ d.(users) → (delete_user (u_id u) d).2 = d' →
  d'.(users) = delete_rows (λ x, u_id x =? u_id u) d.(users) ∧ d'.(targets) = d.(targets) ∧
  d'.(groups_table) = d.(groups_table) ∧
  d'.(group_members) = delete_rows (λ m, gm_user_id m =? u_id u) d.(group_members) ∧
  d'.(user_target_grants) = delete_rows (λ g, gr_principal_id g =? u_id u) d.(user_target_grants) ∧
  d'.(group_target_grants) = d.(group_target_grants).
Proof.
  intros Hu <-. unfold delete_user.
  assert (exists_row (λ x, u_id x =? u_id u) d.(users) = true) as ->.
  { apply exists_row_true. exists u. by rewrite Z.eqb_refl. }
  by destruct d.
Qed.

Lemma delete_user_policy d u d' :
  wf_db d → u ∈ d.(users) → (delete_user (u_id u) d).2 = d' →
  policy_of d' ≡
    Policy (<[u_username u := None]> (pol_account (policy_of d))) (pol_target (policy_of d))
      (pol_group (policy_of d)) (without (λ k, k.2 =s u_username u) false (pol_member (policy_of d)))
      (without (of_principal UserGrants (u_username u)) None (pol_right (policy_of d))).
Proof.
  intros Hd Hu (Eu & Et & Eg & Em & Eug & Egg)%delete_user_tables; [|done].
  destruct (wf_db_users d Hd) as [Hid Hname _ _ _ _].
  rewrite (delete_rows_ext _ (λ x, u_username x =s u_username u)) in Eu
    by (intros x Hx; by apply (id_is_name u_id u_username u d.(users))).
  assert (∀ n, user_named n d' = if decide (u_username u = n) then None else user_named n d) as Hn.
  { intros n. unfold user_named. rewrite Eu. apply named_delete. }
  assert (∀ n, user_named n d = Some (u_id u) → u_username u = n) as Hrow.
  { intros n. by apply named_is_row. }
  unfold policy_of, group_named, target_named. rewrite Eu, Et, Eg, Em.
  split_and!; try done; cbn.
  - intros n. rewrite by_name_delete. unfold insert, fn_insert. by case_decide.
  - intros [g n]. unfold without. cbn. rewrite related_comm, Hn, related_gone by auto.
    rewrite String.eqb_sym, related_comm.
    case_decide as E; [by rewrite (proj2 (String.eqb_eq _ _) E)|].
    by rewrite (proj2 (String.eqb_neq _ _) E).
  - intros [[[] n] t]; unfold without, of_principal; cbn; unfold group_named; rewrite ?Eug, ?Egg, ?Eg; [|done].
    rewrite Hn, related_gone by auto. case_decide; case_bool_decide; try done; congruence.
Qed.

Lemma insert_group_policy d row :
  wf_db d → g_id row = new_rowid (g_id <$> d.(groups_table)) →
  exists_row (λ g, g_name g =s g_name row) d.(groups_table) = false →
  policy_of (set_groups_table (insert_row row) d) ≡
    Policy (pol_account (policy_of d)) (pol_target (policy_of d)) (<[g_name row := true]> (pol_group (policy_of d)))
      (pol_member (policy_of d)) (pol_right (policy_of d)).
Proof.
  intros Hd Eid En%by_name_none.
  assert (∀ n, group_named n (set_groups_table (insert_row row) d) =
    if decide (g_name row = n) then Some (g_id row) else group_named n d) as Hn.
  { intros n. by apply named_insert. }
  assert (∀ n, g_name row = n → group_named n d = None) as Hnone.
  { intros n <-. by apply named_None. }
  split_and!; cbn; try done.
  - intros n. rewrite Hn. unfold insert, fn_insert. by case_decide.
  - intros [g n]. cbn. f_equal. rewrite Hn. apply related_new; [|auto].
    intros r Hr. rewrite Eid. eapply refers_fresh; [apply (wf_gm_group d (wf_db_groups d Hd))|done].
  - intros [[[] n] t]; cbn; [done|]. rewrite Hn. f_equal. apply related_new; [|auto].
    intros r Hr. rewrite Eid. eapply refers_fresh; [apply (wf_gg_group d (wf_db_grants d Hd))|done].
Qed.

Lemma delete_group_tables d g d' :
  wf_db d → g ∈ d.(groups_table) → (delete_group (g_name g) d).2 = d' →
  d'.(users) = d.(users) ∧ d'.(targets) = d.(targets) ∧
  d'.(groups_table) = delete_rows (λ x, g_name x =s g_name g) d.(groups_table) ∧
  d'.(group_members) = delete_rows (λ m, gm_group_id m =? g_id g) d.(group_members) ∧
  d'.(user_target_grants) = d.(user_target_grants) ∧
  d'.(group_target_grants) = delete_rows (λ x, gr_principal_id x =? g_id g) d.(group_target_grants).
Proof.
  intros Hd Hg <-. unfold delete_group.
  assert (∀ id, exists_row (λ x, (g_name x =s g_name g) && (g_id x =? id)) d.(groups_table) = (id =? g_id g)) as E.
  { intros id. apply eq_true_iff_eq. rewrite exists_row_true, Z.eqb_eq. split.
    - intros (x & Hx & E). bool_simp. subst id. f_equal.
      apply (unique_on_eq g_name d.(groups_table)); [apply Hd|done|done|done].
    - intros ->. exists g. by rewrite String.eqb_refl, Z.eqb_refl. }
  split_and!; try (by destruct d); cbn; by apply delete_rows_ext.
Qed.

Lemma delete_group_policy d g d' :
  wf_db d → g ∈ d.(groups_table) → (delete_group (g_name g) d).2 = d' →
  policy_of d' ≡
    Policy (pol_account (policy_of d)) (pol_target (policy_of d)) (<[g_name g := false]> (pol_group (policy_of d)))
      (without (λ k, k.1 =s g_name g) false (pol_member (policy_of d)))
      (without (of_principal GroupGrants (g_name g)) None (pol_right (policy_of d))).
Proof.
  intros Hd Hg (Eu & Et & Eg & Em & Eug & Egg)%delete_group_tables; [|done|done].
  assert (∀ n, group_named n d' = if decide (g_name g = n) then None else group_named n d) as Hn.
  { intros n. unfold group_named. rewrite Eg. apply named_delete. }
  assert (∀ n, group_named n d = Some (g_id g) → g_name g = n) as Hrow.
  { intros n. apply named_is_row; [apply Hd|done]. }
  unfold policy_of, user_named, target_named. rewrite Eu, Et, Em.
  split_and!; try done; cbn.
  - intros n. rewrite Hn. unfold insert, fn_insert. by case_decide.
  - intros [x n]. unfold without. cbn. rewrite Hn, related_gone by auto.
    rewrite String.eqb_sym. case_decide as E; [by rewrite (proj2 (String.eqb_eq _ _) E)|].
    by rewrite (proj2 (String.eqb_neq _ _) E).
  - intros [[[] n] t]; unfold without, of_principal; cbn; unfold user_named; rewrite ?Eug, ?Egg, ?Eu; [done|].
    rewrite Hn, related_gone by auto. case_decide; case_bool_decide; try done; congruence.
Qed.

Lemma insert_target_policy d row :
  wf_db d → t_id row = new_rowid (t_id <$> d.(targets)) →
  exists_row (λ t, t_name t =s t_name row) d.(targets) = false →
  policy_of (set_targets (insert_row row) d) ≡ with_target (<[t_name row := Some (t_enabled row)]>) (policy_of d).
Proof.
  intros Hd Eid En%by_name_none.
  assert (∀ n, target_named n (set_targets (insert_row row) d) =
    if decide (t_name row = n) then Some (t_id row) else target_named n d) as Hn.
  { intros n. by apply named_insert. }
  assert (∀ n, t_name row = n → target_named n d = None) as Hnone.
  { intros n <-. by apply named_None. }
  split_and!; cbn; try done.
  - intros n. rewrite by_name_insert by done. unfold insert, fn_insert. by case_decide.
  - intros [[k n] t]; cbn. f_equal.
    rewrite related_comm, (related_comm gr_principal_id), Hn. destruct k; apply related_new; auto;
      intros r Hr; rewrite Eid; eapply refers_fresh; try done; apply (wf_db_grants d Hd).
Qed.

Lemma delete_target_tables d t d' :
  wf_db d → t ∈ d.(targets) → (delete_target (t_name t) d).2 = d' →
  d'.(users) = d.(users) ∧ d'.(targets) = delete_rows (λ x, t_name x =s t_name t) d.(targets) ∧
  d'.(groups_table) = d.(groups_table) ∧ d'.(group_members) = d.(group_members) ∧
  ∀ k, grant_table k d' = delete_rows (λ x, gr_target_id x =? t_id t) (grant_table k d).
Proof.
  intros Hd Ht <-. unfold delete_target. rewrite (query_row_unique _ d.(targets) t); [|done|apply String.eqb_refl|].
  - split_and!; try (by destruct d). by intros [].
  - intros r Hr E%String.eqb_eq. apply (unique_on_eq t_name d.(targets)); [apply Hd|done|done|done].
Qed.

Lemma delete_target_policy d t d' :
  wf_db d → t ∈ d.(targets) → (delete_target (t_name t) d).2 = d' →
  policy_of d' ≡
    Policy (pol_account (policy_of d)) (<[t_name t := None]> (pol_target (policy_of d)))
      (pol_group (policy_of d)) (pol_member (policy_of d))
      (without (on_target (t_name t)) None (pol_right (policy_of d))).
Proof.
  intros Hd Ht (Eu & Et & Eg & Em & Ek)%delete_target_tables; [|done|done].
  assert (∀ n, target_named n d' = if decide (t_name t = n) then None else target_named n d) as Hn.
  { intros n. unfold target_named. rewrite Et. apply named_delete. }
  assert (∀ n, target_named n d = Some (t_id t) → t_name t = n) as Hrow.
  { intros n. apply named_is_row; [apply Hd|done]. }
  assert (∀ k n, principal_named k n d' = principal_named k n d) as Hp.
  { intros [] n; cbn; unfold user_named, group_named; by rewrite ?Eu, ?Eg. }
  unfold policy_of, user_named, group_named. rewrite Eu, Eg, Em, Et.
  split_and!; try done; cbn.
  - intros n. rewrite by_name_delete. unfold insert, fn_insert. by case_decide.
  - intros [[k n] x]; unfold without, on_target; cbn. rewrite Hp, Ek, Hn, related_comm, related_gone by auto.
    rewrite related_comm. case_decide; case_bool_decide; try done; congruence.
Qed.

Lemma named_iff {R} (pk : R → Z) name t r n :
  unique_on pk t → unique_on name t → r ∈ t → named pk name n t = Some (pk r) ↔ n = name r.
Proof.
  intros Hp Hn Hr. split; [intros E; symmetry; by eapply named_is_row|intros ->; by apply named_row].
Qed.

Lemma insert_member_policy d g u :
  wf_db d → g ∈ d.(groups_table) → u ∈ d.(users) →
  ∃ n d', insert_group_member (g_id g) (u_id u) d = (Ok n, d') ∧
    policy_of d' ≡ Policy (pol_account (policy_of d)) (pol_target (policy_of d)) (pol_group (policy_of d))
                     (<[(g_name g, u_username u) := true]> (pol_member (policy_of d))) (pol_right (policy_of d)).
Proof.
  intros Hd Hg Hu. unfold insert_group_member.
  assert (∀ n, group_named n d = Some (g_id g) ↔ n = g_name g) as Hgn by (intros; apply named_iff; try done; apply Hd).
  assert (∀ n, user_named n d = Some (u_id u) ↔ n = u_username u) as Hun by (intros; apply named_iff; try done; apply Hd).
  destruct (exists_row _ _) eqn:E.
  - eexists _, d. split; [done|]. split_and!; cbn; try done. intros [x n].
    unfold insert, fn_insert. case_decide as Ek; [|done]. simplify_eq. cbn.
    rewrite (proj2 (Hgn _) eq_refl), (proj2 (Hun _) eq_refl). cbn.
    destruct (query_row _ _) eqn:Eq; [done|]. rewrite query_row_None in Eq.
    apply exists_row_true in E as (m & Hm & E). by rewrite Eq in E.
  - assert (group_exists (g_id g) d && user_exists (u_id u) d = true) as ->.
    { apply andb_true_iff. split; [apply group_exists_spec|apply user_exists_spec]; eauto. }
    eexists _, _. split; [done|]. split_and!; cbn; try done. intros [x n]. cbn.
    unfold user_named, group_named. cbn. rewrite related_insert by done. cbn.
    unfold insert, fn_insert. case_decide as Ek; case_decide as Ek'; try done.
    + destruct Ek as [E1%Hgn E2%Hun]. subst. done.
    + simplify_eq. destruct Ek. split; [by apply Hgn|by apply Hun].
Qed.

Lemma delete_member_policy d g u :
  wf_db d → g ∈ d.(groups_table) → u ∈ d.(users) →
  policy_of (delete_group_member (g_id g) (u_id u) d).2 ≡
    Policy (pol_account (policy_of d)) (pol_target (policy_of d)) (pol_group (policy_of d))
      (<[(g_name g, u_username u) := false]> (pol_member (policy_of d))) (pol_right (policy_of d)).
Proof.
  intros Hd Hg Hu.
  assert (∀ n, group_named n d = Some (g_id g) ↔ n = g_name g) as Hgn by (intros; apply named_iff; try done; apply Hd).
  assert (∀ n, user_named n d = Some (u_id u) ↔ n = u_username u) as Hun by (intros; apply named_iff; try done; apply Hd).
  split_and!; cbn; try done. intros [x n]. cbn.
  unfold user_named, group_named. cbn. rewrite related_delete.
  unfold insert, fn_insert. case_decide as Ek; case_decide as Ek'; try done.
  - destruct Ek as [E1%Hgn E2%Hun]. subst. done.
  - simplify_eq. destruct Ek. split; [by apply Hgn|by apply Hun].
Qed.

(** A change of the grants of one table *)
Lemma grant_table_policy d k f (v : principal_table * string * string → option rights) :
  (∀ n t, rights_of_row <$> related gr_principal_id gr_target_id (principal_named k n d) (target_named t d)
            (f (grant_table k d)) = v (k, n, t)) →
  (∀ k' n t, k' ≠ k → v (k', n, t) = pol_right (policy_of d) (k', n, t)) →
  policy_of (set_grant_table k f d) ≡
    Policy (pol_account (policy_of d)) (pol_target (policy_of d)) (pol_group (policy_of d))
      (pol_member (policy_of d)) v.
Proof.
  intros Hv Ho. destruct k; split_and!; try done; intros [[[] n] t]; cbn [pol_right];
    first [rewrite <- Hv; done|rewrite Ho; done].
Qed.

Record principal_row (k : principal_table) (i : Z) (n : string) (d : db) : Prop := {
  principal_row_exists : principal_exists k i d = true;
  principal_row_named m : principal_named k m d = Some i ↔ m = n;
}.

Lemma upsert_grant_policy d k i n t a b c f :
  wf_db d → principal_row k i n d → t ∈ d.(targets) →
  ∃ m d', upsert_grant k i (t_id t) a b c f d = (Ok m, d') ∧
    policy_of d' ≡ Policy (pol_account (policy_of d)) (pol_target (policy_of d)) (pol_group (policy_of d))
      (pol_member (policy_of d)) (<[(k, n, t_name t) := Some (Rights a b c f)]> (pol_right (policy_of d))).
Proof.
  intros Hd [Hx Hn] Ht. unfold upsert_grant.
  assert (∀ m, target_named m d = Some (t_id t) ↔ m = t_name t) as Htn by (intros; apply named_iff; try done; apply Hd).
  assert (∀ v m s, v = Some (Rights a b c f) →
    (if decide (principal_named k m d = Some i ∧ target_named s d = Some (t_id t)) then v
     else pol_right (policy_of d) (k, m, s)) =
    (<[(k, n, t_name t) := Some (Rights a b c f)]> (pol_right (policy_of d))) (k, m, s)) as Hv.
  { intros v m s ->. unfold insert, fn_insert. case_decide as E1; case_decide as E2; try done.
    - destruct E1 as [E1%Hn E1'%Htn]. congruence.
    - simplify_eq. destruct E1. split; [by apply Hn|by apply Htn]. }
  destruct (exists_row _ _) eqn:E.
  - eexists _, _. split; [done|]. apply grant_table_policy.
    + intros m s. rewrite <- (Hv _ m s eq_refl).
      change (grant_is i (t_id t)) with
        (λ x, (gr_principal_id x =? gr_principal_id (Grant_row i (t_id t) a b c f))
              && (gr_target_id x =? gr_target_id (Grant_row i (t_id t) a b c f))).
      rewrite related_update by done. cbn. by case_decide.
    + intros k' m s Hk. rewrite fn_lookup_insert_ne; [done|congruence].
  - rewrite Hx. assert (target_exists (t_id t) d = true) as -> by (apply target_exists_spec; eauto).
    cbn [andb negb].
    eexists _, _. split; [done|]. apply grant_table_policy.
    + intros m s. rewrite <- (Hv _ m s eq_refl). rewrite related_insert by done. cbn. by case_decide.
    + intros k' m s Hk. rewrite fn_lookup_insert_ne; [done|congruence].
Qed.

Lemma delete_grant_policy d k i n t :
  wf_db d → principal_row k i n d → t ∈ d.(targets) →
  policy_of (delete_grant k i (t_id t) d).2 ≡
    Policy (pol_account (policy_of d)) (pol_target (policy_of d)) (pol_group (policy_of d))
      (pol_member (policy_of d)) (<[(k, n, t_name t) := None]> (pol_right (policy_of d))).
Proof.
  intros Hd [_ Hn] Ht.
  assert (∀ m, target_named m d = Some (t_id t) ↔ m = t_name t) as Htn by (intros; apply named_iff; try done; apply Hd).
  apply grant_table_policy.
  - intros m s. unfold grant_is. rewrite related_delete. unfold insert, fn_insert.
    case_decide as E1; case_decide as E2; try done.
    + destruct E1 as [E1%Hn E1'%Htn]. congruence.
    + simplify_eq. destruct E1. split; [by apply Hn|by apply Htn].
  - intros k' m s Hk. rewrite fn_lookup_insert_ne; [done|congruence].
Qed.

Lemma update_users_policy d u f F :
  wf_db d → u ∈ d.(users) →
  (∀ x, u_username (f x) = u_username x ∧ u_id (f x) = u_id x) →
  (∀ x, account_of_row (f x) = F (account_of_row x)) →
  policy_of (set_users (update_rows (λ x, u_id x =? u_id u) f) d) ≡
    with_account (alter (fmap F) (u_username u)) (policy_of d).
Proof.
  intros Hd Hu Hf HF.
  assert (∀ n, user_named n (set_users (update_rows (λ x, u_id x =? u_id u) f) d) = user_named n d) as Hn.
  { intros n. by apply named_update. }
  split_and!; try done; cbn.
  - intros n. rewrite by_name_update by (intros; apply Hf).
    trans ((λ r, if u_id r =? u_id u then F (account_of_row r) else account_of_row r)
             <$> query_row (λ x, u_username x =s n) d.(users)).
    { destruct (query_row _ _) as [r|]; [|done]. cbn. destruct (u_id r =? u_id u); by rewrite ?HF. }
    unfold alter, fn_alter.
    destruct (decide _) as [En|En]; [rewrite En|]; destruct (query_row _ _) as [r|] eqn:E; cbn; try done;
      apply query_row_Some in E as [Hr E%String.eqb_eq];
      rewrite (id_is_name u_id u_username u d.(users)) by (done || apply Hd); rewrite E.
    + by rewrite En, String.eqb_refl.
    + apply not_eq_sym, String.eqb_neq in En. by rewrite En.
  - intros k. by rewrite Hn.
  - intros [[[] n] t]; cbn; by rewrite ?Hn.
Qed.

(** Any other column of the targets, and whether they are enabled *)
Lemma update_targets_policy d q f (F : bool → bool) :
  (∀ x, t_name (f x) = t_name x ∧ t_id (f x) = t_id x) → (∀ x, t_enabled (f x) = F (t_enabled x)) →
  policy_of (set_targets (update_rows q f) d) ≡
    with_target (λ _ n, (λ t, if q t then F (t_enabled t) else t_enabled t)
                          <$> query_row (λ t, t_name t =s n) d.(targets)) (policy_of d).
Proof.
  intros Hf HF.
  assert (∀ n, target_named n (set_targets (update_rows q f) d) = target_named n d) as Hn.
  { intros n. by apply named_update. }
  split_and!; try done; cbn.
  - intros n. rewrite by_name_update by (intros; apply Hf). destruct (query_row _ _) as [t|]; [|done].
    cbn. by destruct (q t); rewrite ?HF.
  - intros [[[] n] t]; cbn; by rewrite Hn.
Qed.

Lemma keep_targets_policy d q f :
  (∀ x, t_name (f x) = t_name x ∧ t_id (f x) = t_id x ∧ t_enabled (f x) = t_enabled x) →
  policy_of (set_targets (update_rows q f) d) ≡ policy_of d.
Proof.
  intros Hf. rewrite (update_targets_policy d q f id).
  - split_and!; try done. intros n. cbn. destruct (query_row _ _) as [t|]; [|done]. cbn. by destruct (q t).
  - intros x. split; apply Hf.
  - intros x. apply Hf.
Qed.

Lemma enable_target_policy d name b t :
  query_row (λ t, t_name t =s name) d.(targets) = Some t →
  policy_of (update_target_enabled b name d).2 ≡ with_target (<[name := Some b]>) (policy_of d).
Proof.
  intros E. unfold update_target_enabled. cbn [snd]. rewrite (update_targets_policy _ _ _ (λ _, b)) by done.
  split_and!; try done. intros n. cbn. unfold insert, fn_insert. case_decide as En.
  - subst. rewrite E. cbn. apply query_row_Some in E as [_ E]. by rewrite E.
  - destruct (query_row (λ x, t_name x =s n) _) as [r|] eqn:Er; [|done].
    apply query_row_Some in Er as [_ Er%String.eqb_eq]. cbn.
    subst. apply not_eq_sym, String.eqb_neq in En. by rewrite En.
Qed.
End changes.

(** ** The simulation, call by call *)

Lemma present_fmap {A B} (f : A → B) o : present (f <$> o) = present o.
Proof. by destruct o. Qed.

Lemma run_after_reads {A B} (p : prog db (result A)) (k : A → prog db (result B)) d :
  reads p → run (bind_ok p k) d = match value p d with Ok a => run (k a) d | Err e => (Err e, d) end.
Proof.
  intros Hp. rewrite run_bind_ok. specialize (Hp d). unfold final, value in *.
  destruct (run p d) as [[a|e] d']; cbn in *; by subst.
Qed.

Lemma run_changed (f : db → result Z * db) d :
  run (let* r := atomic f in Ret (changed r)) d = (changed (f d).1, (f d).2).
Proof. rewrite run_bind. unfold value, final. cbn. by destruct (f d) as [r d']. Qed.

Section calls.
Context `{UnicodeTables, RowidsLaws, TimeParser}.
Implicit Types (d : db).

(** What a call does, by the policy of the database it runs on. *)
Definition simulates (c : call) (d : db) : Prop :=
  match run (exec c) d with
  | (Ok _, d') => accepts c (policy_of d) = true ∧ policy_of d' ≡ policy_step c (policy_of d)
  | (Err _, d') => (decided c = true → accepts c (policy_of d) = false) ∧ policy_of d' ≡ policy_of d
  end.

(** Looking a user, a group, a target up by name *)
Lemma run_user {B} name (k : User → prog db (result B)) d :
  run (let? u := UserByName name in k u) d =
    match query_row (λ u, u_username u =s ToLower name) d.(users) with
    | Some u => run (k (user_of_row d u)) d
    | None => (Err ErrNoRows, d)
    end.
Proof. rewrite run_bind_ok. cbn. by destruct (query_row _ _). Qed.

Lemma run_group {B} name (k : Z → prog db (result B)) d :
  run (let? g := group_id_by_name name in k g) d =
    match query_row (λ g, g_name g =s ToLower name) d.(groups_table) with
    | Some g => run (k (g_id g)) d
    | None => (Err ErrNoRows, d)
    end.
Proof. rewrite run_bind_ok. cbn. by destruct (query_row _ _). Qed.

Lemma run_target {B} name (k : Target → prog db (result B)) d :
  run (let? t := TargetByName name in k t) d =
    match query_row (λ t, t_name t =s name) d.(targets) with
    | Some t => run (k (target_of_row t)) d
    | None => (Err ErrNoRows, d)
    end.
Proof. rewrite run_bind_ok. cbn. by destruct (query_row _ _). Qed.

(** A change of one user, behind a check that only reads *)
Lemma run_guarded name (g : User → prog db (result unit)) (f : User → db → result Z * db) d :
  (∀ u, reads (g u)) →
  run (let? u := UserByName name in let? _ := g u in let* r := atomic (f u) in Ret (changed r)) d =
    match query_row (λ u, u_username u =s ToLower name) d.(users) with
    | Some u => match value (g (user_of_row d u)) d with
                | Ok _ => (changed (f (user_of_row d u) d).1, (f (user_of_row d u) d).2)
                | Err e => (Err e, d)
                end
    | None => (Err ErrNoRows, d)
    end.
Proof.
  intros Hg. rewrite run_user. destruct (query_row _ _) as [u|]; [|done].
  rewrite run_after_reads by apply Hg. destruct (value _ _); [|done]. apply run_changed.
Qed.

Lemma count_user d u : u ∈ d.(users) → (count_rows (λ x, u_id x =? u_id u) d.(users) =? 0) = false.
Proof.
  intros Hu. apply Z.eqb_neq. intros E. rewrite count_rows_zero in E. specialize (E u Hu).
  by rewrite Z.eqb_refl in E.
Qed.

Lemma DeleteUser_simulates name d : wf_db d → simulates (DeleteUser_call name) d.
Proof.
  intros Hd. unfold simulates. cbn [exec]. unfold DeleteUser.
  rewrite run_guarded by (intros; apply reads_if, ensure_reads).
  cbn [accepts policy_of pol_account]. rewrite present_fmap.
  destruct (query_row _ _) as [u|] eqn:E; [|done]. apply query_row_Some in E as [Hu En%String.eqb_eq].
  destruct (value _ _); [|done]. cbn [user_of_row User_ID].
  destruct (delete_user (u_id u) d) as [r d'] eqn:Ed. cbn [fst snd].
  assert (changed r = Ok tt) as ->.
  { unfold delete_user in Ed. rewrite (proj2 (exists_row_true _ _)) in Ed by (exists u; by rewrite Z.eqb_refl).
    injection Ed as <- _. cbn. by rewrite count_user. }
  split; [done|]. cbn [policy_step]. rewrite <- En. apply delete_user_policy; [done|done|by rewrite Ed].
Qed.

Lemma SetUserEnabled_simulates name b d : wf_db d → simulates (SetUserEnabled_call name b) d.
Proof.
  intros Hd. unfold simulates. cbn [exec]. unfold SetUserEnabled.
  rewrite run_guarded by (intros; apply reads_if, ensure_reads).
  cbn [accepts decided policy_of pol_account]. rewrite present_fmap.
  destruct (query_row _ _) as [u|] eqn:E; [|done]. apply query_row_Some in E as [Hu En%String.eqb_eq].
  destruct (value _ _) eqn:Ev; [|by destruct b].
  cbn [user_of_row User_ID update_user_enabled fst snd changed]. rewrite count_user by done.
  split; [done|]. cbn [policy_step]. rewrite <- En.
  by apply (update_users_policy _ _ _ (λ a, Account b (acc_admin a))).
Qed.

Lemma SetUserRole_simulates name role d : wf_db d → simulates (SetUserRole_call name role) d.
Proof.
  intros Hd. unfold simulates. cbn [exec]. unfold SetUserRole.
  cbn [accepts decided policy_of pol_account]. rewrite present_fmap.
  destruct (validRole role) eqn:Er; cbn [negb andb]; [|done].
  rewrite run_guarded by (intros; apply reads_if, ensure_reads).
  destruct (query_row _ _) as [u|] eqn:E; [|done]. apply query_row_Some in E as [Hu En%String.eqb_eq].
  destruct (value _ _) eqn:Ev.
  - cbn [user_of_row User_ID]. unfold update_user_role. rewrite Er, andb_false_r. cbn [fst snd changed].
    rewrite count_user by done. split; [done|]. cbn [policy_step]. rewrite <- En.
    by apply (update_users_policy _ _ _ (λ a, Account (acc_enabled a) (role =s RoleAdmin))).
  - split; [|done]. intros Ea. rewrite Ea in Ev. cbn [negb] in Ev. by rewrite andb_false_r in Ev.
Qed.

Lemma AddUser_simulates name role d : wf_db d → simulates (AddUser_call name role) d.
Proof.
  intros Hd. unfold simulates. cbn [exec accepts policy_step]. unfold AddUser, done_with, lift.
  rewrite run_bind_ok, run_bind_ok. cbn [run].
  destruct (validateName name "username") as [n|] eqn:En; [|done].
  destruct (validRole role) eqn:Er; cbn [negb andb run]; [|done].
  rewrite run_bind_ok. cbn [run atomic]. unfold insert_user.
  cbn [policy_of pol_account]. rewrite present_fmap. destruct (exists_row _ _) eqn:Ex.
  - split; [|done]. intros _. destruct (query_row _ _) eqn:Eq; [done|].
    rewrite query_row_None in Eq. apply exists_row_false in Eq. congruence.
  - rewrite Er. cbn [negb]. unfold UserByID. cbn [run query]. set (row := User_row _ _ _ _ _).
    change (users (set_users (insert_row row) d)) with (insert_row row d.(users)).
    rewrite query_last; [| |apply Z.eqb_refl].
    + cbn [scanUser run]. split; [by rewrite by_name_none|].
      apply (insert_user_policy d row); done.
    + intros x Hx. by apply Z.eqb_neq, fresh_rowid.
Qed.

Lemma AddGroup_simulates name d : wf_db d → simulates (AddGroup_call name) d.
Proof.
  intros Hd. unfold simulates. cbn [exec accepts policy_step]. unfold AddGroup, lift.
  rewrite run_bind_ok. cbn [run]. destruct (validateName name "group") as [n|] eqn:En; [|done].
  rewrite run_bind_ok. cbn [run atomic]. unfold insert_group.
  cbn [policy_of pol_group]. unfold group_named, named. rewrite present_fmap. destruct (exists_row _ _) eqn:Ex.
  - split; [|done]. intros _. destruct (query_row _ _) eqn:Eq; [done|].
    rewrite query_row_None in Eq. apply exists_row_false in Eq. congruence.
  - cbn [run]. split; [by rewrite by_name_none|]. by apply (insert_group_policy d (Group_row _ n _)).
Qed.

Lemma DeleteGroup_simulates name d : wf_db d → simulates (DeleteGroup_call name) d.
Proof.
  intros Hd. unfold simulates. cbn [exec accepts policy_step policy_of pol_group]. unfold DeleteGroup.
  rewrite run_changed. unfold group_named, named. rewrite present_fmap.
  destruct (query_row _ _) as [g|] eqn:E.
  - apply query_row_Some in E as [Hg En%String.eqb_eq]. rewrite <- En.
    assert (changed (delete_group (g_name g) d).1 = Ok tt) as ->.
    { cbn. assert (count_rows (λ x, g_name x =s g_name g) d.(groups_table) ≠ 0) as Hc.
      - intros Hc. rewrite count_rows_zero in Hc. specialize (Hc g Hg). by rewrite String.eqb_refl in Hc.
      - apply Z.eqb_neq in Hc. by rewrite Hc. }
    split; [done|]. by apply delete_group_policy.
  - rewrite query_row_None in E. cbn [delete_group fst]. apply count_rows_zero in E as Ec. rewrite Ec. cbn.
    split; [done|]. pose proof (DeleteGroup_whole name d) as Hw. unfold whole_at, DeleteGroup in Hw.
    rewrite run_changed in Hw. cbn [delete_group fst snd] in Hw. rewrite Ec in Hw. cbn in Hw.
    unfold delete_group. cbn. by rewrite Hw.
Qed.

Lemma SetGroupMember_simulates group name add d : wf_db d → simulates (SetGroupMember_call group name add) d.
Proof.
  intros Hd. unfold simulates. cbn [exec accepts decided policy_step]. unfold SetGroupMember.
  rewrite run_user. cbn [policy_of pol_group pol_account]. unfold group_named, named. rewrite !present_fmap.
  destruct (query_row _ d.(users)) as [u|] eqn:Eu; [|split; [by rewrite andb_false_r|done]].
  rewrite run_group. destruct (query_row _ d.(groups_table)) as [g|] eqn:Eg; [|done].
  apply query_row_Some in Eu as [Hu Eu%String.eqb_eq], Eg as [Hg Eg%String.eqb_eq].
  rewrite run_bind_ok. cbn [user_of_row User_ID]. rewrite <- Eu, <- Eg.
  destruct add; cbn [run atomic].
  - destruct (insert_member_policy d g u Hd Hg Hu) as (n & d' & -> & Hp). by split.
  - cbn [delete_group_member]. split; [done|]. by apply delete_member_policy.
Qed.

Lemma AddTarget_simulates n d : wf_db d → simulates (AddTarget_call n) d.
Proof.
  intros Hd. unfold simulates. cbn [exec accepts decided policy_step]. unfold done_with. rewrite run_bind_ok.
  destruct (AddTarget_run n d) as [(err & ->)|[Hn ->]]; [done|]. cbn [run policy_of pol_target].
  rewrite present_fmap. split; [by rewrite (proj2 (query_row_None _ _) Hn)|].
  apply (insert_target_policy d (target_row_of n d)); [done|done|]. by apply exists_row_false.
Qed.

Lemma count_target d t :
  t ∈ d.(targets) → (count_rows (λ x, t_name x =s t_name t) d.(targets) =? 0) = false.
Proof.
  intros Ht. apply Z.eqb_neq. intros E. rewrite count_rows_zero in E. specialize (E t Ht).
  by rewrite String.eqb_refl in E.
Qed.

Lemma SetTargetEnabled_simulates name b d : wf_db d → simulates (SetTargetEnabled_call name b) d.
Proof.
  intros Hd. unfold simulates. cbn [exec accepts policy_step policy_of pol_target]. unfold SetTargetEnabled.
  rewrite run_changed, present_fmap. destruct (query_row _ _) as [t|] eqn:E.
  - pose proof (enable_target_policy d name b t E) as Hp. apply query_row_Some in E as [Ht <-%String.eqb_eq].
    cbn [update_target_enabled fst changed]. by rewrite count_target.
  - rewrite query_row_None in E. pose proof (SetTargetEnabled_whole name b d) as Hw.
    unfold whole_at, SetTargetEnabled in Hw. rewrite run_changed in Hw.
    cbn [update_target_enabled fst] in *. rewrite (proj2 (count_rows_zero _ _) E) in *. cbn in Hw |- *.
    by rewrite Hw.
Qed.

Lemma DeleteTarget_simulates name d : wf_db d → simulates (DeleteTarget_call name) d.
Proof.
  intros Hd. unfold simulates. cbn [exec accepts policy_step policy_of pol_target]. unfold DeleteTarget.
  rewrite run_changed, present_fmap. destruct (query_row _ _) as [t|] eqn:E.
  - assert ((delete_target name d).1 = Ok (count_rows (λ t, t_name t =s name) d.(targets))) as ->.
    { unfold delete_target. by rewrite E. }
    apply query_row_Some in E as [Ht <-%String.eqb_eq]. cbn [changed]. rewrite count_target by done.
    split; [done|]. by apply delete_target_policy.
  - unfold delete_target. rewrite E. done.
Qed.

Lemma principal_user d u : wf_db d → u ∈ d.(users) → principal_row UserGrants (u_id u) (u_username u) d.
Proof.
  intros Hd Hu. split; cbn; [apply user_exists_spec; eauto|]. intros m. apply named_iff; [apply Hd|apply Hd|done].
Qed.

Lemma principal_group d g : wf_db d → g ∈ d.(groups_table) → principal_row GroupGrants (g_id g) (g_name g) d.
Proof.
  intros Hd Hg. split; cbn; [apply group_exists_spec; eauto|]. intros m. apply named_iff; [apply Hd|apply Hd|done].
Qed.

(** The principal of a grant command, and the policy's answer whether there is one *)
Lemma run_principal {B} kind principal (k : principal_table * Z → prog db (result B)) d :
  wf_db d →
  (∃ table i, kind_of kind = Some table ∧ principal_row table i (ToLower principal) d ∧
     has_principal kind principal (policy_of d) = true ∧
     run (let? p := resolve_principal kind principal in k p) d = run (k (table, i)) d) ∨
  (∃ e, has_principal kind principal (policy_of d) = false ∧
     run (let? p := resolve_principal kind principal in k p) d = (Err e, d)).
Proof.
  intros Hd. unfold has_principal, resolve_principal, kind_of. rewrite run_bind_ok.
  destruct (kind =s "user"); [|destruct (kind =s "group"); [|right; by eexists]].
  - rewrite run_user. cbn [policy_of pol_account]. rewrite present_fmap.
    destruct (query_row _ _) as [u|] eqn:E; [left|right; by eexists].
    apply query_row_Some in E as [Hu <-%String.eqb_eq]. exists UserGrants, (u_id u).
    by split_and!; [|apply principal_user|..].
  - rewrite run_group. cbn [policy_of pol_group]. unfold group_named, named. rewrite present_fmap.
    destruct (query_row _ _) as [g|] eqn:E; [left|right; by eexists].
    apply query_row_Some in E as [Hg <-%String.eqb_eq]. exists GroupGrants, (g_id g).
    by split_and!; [|apply principal_group|..].
Qed.

Lemma SetGrantCapabilities_simulates target kind principal add a b c f d :
  wf_db d → simulates (SetGrantCapabilities_call target kind principal add a b c f) d.
Proof.
  intros Hd. unfold simulates. cbn [exec accepts decided policy_step]. unfold SetGrantCapabilities, grant_step.
  rewrite run_target. cbn [policy_of pol_target]. rewrite present_fmap.
  destruct (query_row _ _) as [t|] eqn:E; [|done]. apply query_row_Some in E as [Ht <-%String.eqb_eq].
  change (policy_of _) with (policy_of d) at 1.
  match goal with |- context [bind_ok (resolve_principal _ _) ?k] =>
    destruct (run_principal kind principal k d Hd) as [(table & i & -> & Hp & -> & ->)|(e & -> & ->)]; [|done] end.
  cbn [fst snd target_of_row Target_ID]. rewrite run_bind_ok. destruct add; cbn [run atomic].
  - destruct (upsert_grant_policy d table i _ t a b c f Hd Hp Ht) as (m & d' & -> & Hpol). by split.
  - cbn [delete_grant]. split; [done|]. by apply delete_grant_policy.
Qed.

Lemma SetGrant_simulates target kind principal add d :
  wf_db d → simulates (SetGrant_call target kind principal add) d.
Proof. apply (SetGrantCapabilities_simulates target kind principal add true true true false). Qed.

(** Every other call leaves the policy alone, step by step. *)
Lemma idle_simulates c d :
  (∀ p, policy_step c p = p) → (∀ p, accepts c p = true) → decided c = false →
  (∀ p, keeps (λ d', policy_of d' ≡ p) (exec c)) → simulates c d.
Proof.
  intros Hs Ha Hdec Hk. unfold simulates. rewrite Hs, Ha, Hdec.
  pose proof (keeps_final _ _ d (Hk (policy_of d)) (reflexivity _)) as Hf. unfold final in Hf.
  destruct (run (exec c) d) as [[] d']; by split.
Qed.

Ltac leaves_policy :=
  cbn [exec]; unfold_store; keeps_tac;
  apply keeps_atomic; intros d' Hp; unfold_statements; split_matches; cbn [snd]; try exact Hp;
  (rewrite keep_targets_policy; [exact Hp|done]).

Lemma exec_simulates c d : wf_db d → simulates c d.
Proof.
  intros Hd. destruct c;
    first [ by apply AddUser_simulates | by apply SetUserEnabled_simulates | by apply SetUserRole_simulates
          | by apply DeleteUser_simulates | by apply AddGroup_simulates | by apply DeleteGroup_simulates
          | by apply SetGroupMember_simulates | by apply AddTarget_simulates
          | by apply SetTargetEnabled_simulates | by apply DeleteTarget_simulates
          | by apply SetGrant_simulates | by apply SetGrantCapabilities_simulates
          | apply idle_simulates; [done|done|done|intros p; leaves_policy] ].
Qed.

(** A history does to the policy what its successful calls mean. *)
Lemma history_simulates cs d :
  wf_db d → policy_of (exec_all cs d) ≡ policy_after (succeeded cs d) (policy_of d).
Proof.
  revert d. induction cs as [|c cs IH]; intros d Hd; [done|].
  pose proof (exec_simulates c d Hd) as Hc. unfold simulates in Hc. cbn [exec_all succeeded].
  pose proof (keeps_final _ _ d (exec_keeps_wf c) Hd) as Hd'. unfold final in *.
  destruct (run (exec c) d) as [[|e] d']; cbn [is_ok snd] in *; rewrite IH by done; cbn;
    apply policy_after_proper; apply Hc.
Qed.

(** ** The access query answers by the policy *)

(** The query as its callers make it: a user and a target, by name. *)
Definition may_use (user target capability : string) : prog db bool :=
  let* u := UserByName user in
  let* t := TargetByName target in
  match u, t with
  | Ok u, Ok t => CanAccessCapability u (Target_ID t) capability
  | _, _ => Ret false
  end.

Lemma related_row {R} (k1 k2 : R → Z) a b t r :
  related k1 k2 a b t = Some r → r ∈ t ∧ a = Some (k1 r) ∧ b = Some (k2 r).
Proof.
  destruct a, b; cbn; try done. intros [Hr E]%query_row_Some. bool_simp. split_and!; [done|congruence..].
Qed.

Lemma related_found {R} (k1 k2 : R → Z) t r :
  unique_on (λ x, (k1 x, k2 x)) t → r ∈ t → related k1 k2 (Some (k1 r)) (Some (k2 r)) t = Some r.
Proof.
  intros Hu Hr. cbn. apply query_row_unique; [done|by rewrite !Z.eqb_refl|].
  intros x Hx E. bool_simp. apply (unique_on_eq (λ x, (k1 x, k2 x)) t); [done..|]. cbn. congruence.
Qed.

(** A right is held by a principal when its grant on the target has the column. *)
Lemma holds_grant d k i n t (column : grant_row → bool) (right : rights → bool) :
  unique_on grant_key (grant_table k d) → principal_named k n d = Some i → target_named (t_name t) d = Some (t_id t) →
  (∀ g, right (rights_of_row g) = column g) →
  holds (policy_of d) k n (t_name t) right ↔
    ∃ g, g ∈ grant_table k d ∧ gr_principal_id g = i ∧ gr_target_id g = t_id t ∧ column g = true.
Proof.
  intros Hu Hn Ht Hc. unfold holds. cbn. rewrite Hn, Ht. split.
  - intros (r & (g & Hg & ->)%fmap_Some & Hr). apply related_row in Hg as (Hin & E1 & E2).
    exists g. rewrite <- Hc. split_and!; [done|congruence..|done].
  - intros (g & Hin & <- & <- & Hr). exists (rights_of_row g). rewrite Hc. split; [|done].
    by rewrite related_found.
Qed.

Lemma granted_holds d u t (column : grant_row → bool) (right : rights → bool) :
  wf_db d → u ∈ d.(users) → t ∈ d.(targets) → (∀ g, right (rights_of_row g) = column g) →
  granted d (u_id u) (t_id t) column ↔
    holds (policy_of d) UserGrants (u_username u) (t_name t) right ∨
    ∃ g, pol_member (policy_of d) (g, u_username u) = true ∧ holds (policy_of d) GroupGrants g (t_name t) right.
Proof.
  intros Hd Hu Ht Hc. pose proof (wf_db_users d Hd). pose proof (wf_db_groups d Hd) as Hgs.
  pose proof (wf_db_grants d Hd) as Hgr. pose proof (wf_db_targets d Hd).
  assert (user_named (u_username u) d = Some (u_id u)) as Hun by (apply named_row; [apply wf_u_name; done|done]).
  assert (target_named (t_name t) d = Some (t_id t)) as Htn by (apply named_row; [apply wf_t_name; done|done]).
  rewrite (holds_grant d UserGrants (u_id u)) by (done || apply wf_ug_key; done). split.
  - intros [g Hg E1 E2 Hcol|m g Hm E1 Hg E2 E3 Hcol]; [left; by exists g|right].
    destruct (wf_gm_group d Hgs m _ Hm eq_refl) as (x & Hx & Ex).
    assert (group_named (g_name x) d = Some (g_id x)) as Hxn by (apply named_row; [apply wf_g_name; done|done]).
    exists (g_name x). cbn [policy_of pol_member fst snd]. rewrite Hxn, Hun, Ex, <- E1.
    rewrite related_found by (done || apply (wf_gm_key d Hgs)). split; [done|].
    apply (holds_grant d GroupGrants (g_id x)) with (column := column); try done; [apply wf_gg_key; done|].
    exists g. split_and!; [done|congruence..|done].
  - intros [(g & Hg & E1 & E2 & Hcol)|(n & Hm & Hh)]; [by eapply granted_user|].
    cbn in Hm. destruct (related _ _ _ _ _) as [m|] eqn:Em; [|done]. apply related_row in Em as (Hin & E1 & E2).
    apply (holds_grant d GroupGrants (gm_group_id m)) with (column := column) in Hh as (g & Hg & Ep & Et & Hcol);
      [|apply wf_gg_key; done|done|done|done].
    eapply (granted_group _ _ _ _ m g); try done; congruence.
Qed.

Lemma column_right cap :
  match capability_column cap, right_named cap with
  | Some column, Some r => ∀ g, r (rights_of_row g) = column g
  | None, None => True
  | _, _ => False
  end.
Proof.
  unfold capability_column, right_named, CapabilityShell, CapabilitySFTP, CapabilitySCP, CapabilityForward.
  destruct (cap =s "shell"); [done|]. destruct (cap =s "sftp"); [done|].
  destruct (cap =s "scp"); [done|]. by destruct (cap =s "tcp_forward").
Qed.

Lemma may_use_run user target cap d :
  value (may_use user target cap) d =
    match query_row (λ u, u_username u =s ToLower user) d.(users), query_row (λ t, t_name t =s target) d.(targets) with
    | Some u, Some t => value (CanAccessCapability (user_of_row d u) (t_id t) cap) d
    | _, _ => false
    end.
Proof.
  unfold may_use, value. cbn.
  by destruct (query_row _ d.(users)), (query_row _ d.(targets)).
Qed.

(** What the access query answers is what the policy of the database allows. *)
Lemma may_use_allowed user target cap d :
  wf_db d → value (may_use user target cap) d = true ↔ allowed (policy_of d) (ToLower user) target cap.
Proof.
  intros Hd. rewrite may_use_run.
  destruct (query_row _ d.(users)) as [u|] eqn:Eu.
  2:{ split; [done|]. intros [_ (a & r & Ha & _)]. cbn in Ha. by rewrite Eu in Ha. }
  destruct (query_row _ d.(targets)) as [t|] eqn:Et.
  2:{ split; [done|]. intros [Ht _]. cbn in Ht. by rewrite Et in Ht. }
  assert (pol_account (policy_of d) (ToLower user) = Some (account_of_row u)) as Ea by (cbn; by rewrite Eu).
  assert (pol_target (policy_of d) target = Some (t_enabled t)) as Eo by (cbn; by rewrite Et).
  apply query_row_Some in Eu as [Hu Eu%String.eqb_eq], Et as [Ht Et%String.eqb_eq].
  rewrite <- Eu in Ea |- *. rewrite <- Et in Eo |- *.
  destruct (CanAccessCapability_run (user_of_row d u) (t_id t) cap d) as (b & E & Hb).
  unfold value. rewrite E. cbn [fst]. rewrite Hb. pose proof (column_right cap) as Hcr. split.
  - intros (column & Ec & [He (t' & Ht' & Eid & Een) Hby]). rewrite Ec in Hcr.
    destruct (right_named cap) as [r|] eqn:Er; [|done].
    assert (t' = t) as -> by (apply (unique_on_eq t_id d.(targets)); [apply Hd|done..]).
    split; [congruence|]. exists (account_of_row u), r. split_and!; try done.
    destruct Hby as [Hr|Hg]; [left; by apply String.eqb_eq|right]. by apply (granted_holds d u t column r Hd Hu Ht Hcr).
  - intros [Een (a & r & Ea' & He & Er & Hby)]. rewrite Er in Hcr.
    destruct (capability_column cap) as [column|] eqn:Ec; [|done].
    assert (a = account_of_row u) as -> by congruence. exists column. split; [done|]. split; [done|exists t; split_and!; congruence|].
    destruct Hby as [Hr|Hg]; [left; by apply String.eqb_eq|right]. by apply (granted_holds d u t column r Hd Hu Ht Hcr).
Qed.

(** ** Properties *)

(** C2: the store refines the access policy, call by call.  On a well-formed
    database a call that succeeds was acceptable to the policy and does to it
    exactly what [policy_step] says: an account, a target or a group comes, goes
    or is switched, a member joins or leaves, a right is set or taken away, and
    nothing else.  A call that fails leaves the policy, and one that only the
    policy can refuse fails because the policy does not accept it.  The other
    calls (keys, codes, identities, credentials, rules, audit, queries) leave it
    alone. *)
Theorem calls_refine_policy c d :
  wf_db d →
  match run (exec c) d with
  | (Ok _, d') => accepts c (policy_of d) = true ∧ policy_of d' ≡ policy_step c (policy_of d)
  | (Err _, d') => (decided c = true → accepts c (policy_of d) = false) ∧ policy_of d' ≡ policy_of d
  end.
Proof. apply exec_simulates. Qed.

(** C3: access follows from the history of calls alone.  After any history of
    calls on a new database, the access query by user name, target name and
    capability answers yes exactly when the policy those calls that succeeded
    describe allows it: the account exists and is enabled, the target exists and
    is enabled, and the account is an administrator's, or the right was granted
    to it, or to a group it is in. *)
Theorem access_follows_history now cs user target cap :
  value (may_use user target cap) (exec_all cs (empty_db now)) = true ↔
  allowed (policy_after (succeeded cs (empty_db now)) no_policy) (ToLower user) target cap.
Proof.
  rewrite may_use_allowed by (apply exec_all_wf, empty_db_wf).
  apply allowed_proper; [|done..]. rewrite history_simulates by apply empty_db_wf.
  apply policy_after_proper. split_and!; try done. by intros [[[] n] t].
Qed.
End calls.

(** ** Witnesses *)

#[local] Existing Instances ascii_tables max_rowids max_rowids_laws sqlite_parser.

Lemma calls_refine_policy_witness :
  pol_right (policy_of (final (SetGrant "web" "user" "Carol" true) sample_db)) (UserGrants, "carol", "web")
    = Some (Rights true true true false) ∧
  accepts (SetGrant_call "web" "user" "Carol" true) (policy_of sample_db) = true ∧
  policy_of (final (SetGrant "web" "user" "Carol" true) sample_db)
    ≡ policy_step (SetGrant_call "web" "user" "Carol" true) (policy_of sample_db).
Proof.
  split; [by vm_compute|].
  apply (calls_refine_policy (SetGrant_call "web" "user" "Carol" true) sample_db), sample_db_wf.
Defined.

(** A member of a granted group may use the target; not what was not granted. *)
Example carol_may_use_db :
  value (may_use "CAROL" "db" "shell") sample_db = true ∧ value (may_use "carol" "web" "shell") sample_db = false.
Proof. by vm_compute. Qed.

(** The grant of a member, from the calls that made it *)
Lemma access_follows_history_witness :
  value (may_use "Bob" "web" "shell") (exec_all sample_calls (empty_db noon)) = true ∧
  allowed (policy_after (succeeded sample_calls (empty_db noon)) no_policy) (ToLower "Bob") "web" "shell".
Proof.
  assert (value (may_use "Bob" "web" "shell") (exec_all sample_calls (empty_db noon)) = true) as E by (by vm_compute).
  split; [exact E|]. by apply (access_follows_history noon sample_calls "Bob" "web" "shell").
Defined.
