(* ===== verification/MigrationProps.v ===== *)
(** * Opening a database loses nothing

    The shape of a file of any version, what the migrations know of it, and the
    theorems: an Open alone brings a file of any version to the current one, and
    any number of Opens at once, also when some stop halfway, leave a file that
    says the same and can be opened. *)

From S2P Require Import Prelude GoStrings GoTime Effects Sql Schema StoreUsers StoreOIDC Paths.
From S2P Require Import StoreTargets StoreAccess StoreAudit StoreWf StoreCalls Migrations.

Definition has_version (v : Z) (d : disk) : bool :=
  match dk_versions d with Some vs => bool_decide (v ∈ vs) | None => false end.

(** The tables of version 1, the table of versions first *)
Definition tables (d : disk) : list bool :=
  [exists_table (dk_versions d); exists_table (dk_users d); exists_table (dk_keys d);
   exists_table (dk_groups d); exists_table (dk_members d); exists_table (dk_targets d);
   exists_table (dk_user_grants d); exists_table (dk_group_grants d); exists_table (dk_audit d)].

Definition base_tables (d : disk) : bool := forallb id (tables d).

#[local] Arguments base_tables _ : simpl never.

(** [H] tells which versions are recorded. *)
Definition kinds_of (H : Z → bool) : list string :=
  [CredentialPassword; CredentialPrivateKey] ++ (if H 2 then [CredentialAgent] else []).

Definition targets_shape (H : Z → bool) (t : option targets_table) : Prop :=
  match t with
  | None => H 2 = false ∧ H 3 = false
  | Some (Targets13 kinds rows) =>
    H 3 = false ∧ kinds = kinds_of H ∧
    ∀ t, t ∈ rows → existsb (String.eqb (ot_credential_kind t)) kinds = true
  | Some (Targets14 _) => H 3 = true
  end.

Definition grants_shape (H : Z → bool) (g : option grants_table) : Prop :=
  H 6 = match g with Some (Grants6 _) => true | _ => false end.

(** The tables a file has are those of the versions it records. *)
Record shape_ok (H : Z → bool) (d : disk) : Prop := {
  sh_base : H 1 = true → base_tables d = true;
  sh_order : H 3 = true → H 2 = true;
  sh_targets : targets_shape H (dk_targets d);
  sh_user_grants : grants_shape H (dk_user_grants d);
  sh_group_grants : grants_shape H (dk_group_grants d);
  sh_identities : exists_table (dk_identities d) = H 3;
  sh_totp : exists_table (dk_totp d) = H 4;
  sh_rules : exists_table (dk_rules d) = H 6;
  sh_oidc : exists_table (dk_oidc d) = H 7;
}.

Lemma shape_ext H H' d : (∀ v, H' v = H v) → shape_ok H d → shape_ok H' d.
Proof.
  intros He []. split; unfold targets_shape, grants_shape, kinds_of in *; rewrite ?He; try done.
Qed.

(** Versions are recorded and tables created, never taken away. *)
Definition tables_grow (d d' : disk) : Prop :=
  Forall2 (λ b b' : bool, b = true → b' = true) (tables d) (tables d').

Definition grows (d d' : disk) : Prop :=
  tables_grow d d' ∧ ∀ v, has_version v d = true → has_version v d' = true.

#[export] Instance tables_grow_preorder : PreOrder tables_grow.
Proof.
  split; unfold tables_grow; [intros d; repeat (constructor; [done|]); constructor|].
  intros a b c Hab. revert Hab. generalize (tables a), (tables b), (tables c). clear.
  intros la lb lc Hab. revert lc. induction Hab as [|x y la lb Hxy _ IH]; intros lc Hbc;
    inversion Hbc; subst; constructor; auto.
Qed.

#[export] Instance grows_preorder : PreOrder grows.
Proof. split; [by intros d|]. intros a b c [Tab Hab] [Tbc Hbc]. split; [by etrans|auto]. Qed.

Lemma base_grows d d' : tables_grow d d' → base_tables d = true → base_tables d' = true.
Proof.
  unfold base_tables, tables_grow. generalize (tables d), (tables d').
  induction 1 as [|x y la lb Hxy _ IH]; [done|]. cbn. rewrite !andb_true_iff. unfold id in *. tauto.
Qed.

(** [tables_tac] compares the tables of a file before and after a change. *)
Ltac tables_tac := unfold tables_grow, tables; cbn;
  repeat match goal with E : dk_targets _ = _ |- _ => rewrite E
         | E : dk_keys _ = _ |- _ => rewrite E
         | E : dk_user_grants _ = _ |- _ => rewrite E
         | E : dk_group_grants _ = _ |- _ => rewrite E end;
  repeat (constructor; [done|]); constructor.

(** ** Copying rows *)

Lemma insert_all_same {R} (check : list R → R → result unit) done rows l :
  insert_all check done rows = Ok l → l = done ++ rows.
Proof.
  revert done. induction rows as [|r rows IH]; intros done; cbn.
  - intros [= <-]. by rewrite app_nil_r.
  - destruct (check done r) as [[]|e]; cbn; [|discriminate]. intros Hl%IH. by rewrite Hl, <- app_assoc.
Qed.

Lemma insert_all_ok {R} (check : list R → R → result unit) rows :
  (∀ l1 r l2, rows = l1 ++ r :: l2 → check l1 r = Ok tt) → insert_all check [] rows = Ok rows.
Proof.
  intros Hc. enough (∀ l2 l1, rows = l1 ++ l2 → insert_all check l1 l2 = Ok rows) as He by by apply He.
  intros l2. induction l2 as [|r l2 IH]; intros l1 Hr; cbn.
  - by rewrite Hr, app_nil_r.
  - rewrite (Hc l1 r l2 Hr). cbn. apply IH. by rewrite Hr, <- app_assoc.
Qed.

(** A UNIQUE column holds for the rows inserted before. *)
Lemma unique_before {R K} (key : R → K) (eqb : R → R → bool) l1 r l2 :
  (∀ a b, eqb a b = true → key a = key b) → unique_on key (l1 ++ r :: l2) →
  existsb (λ o, eqb o r) l1 = false.
Proof.
  intros Heq Hu. apply existsb_false. intros o Ho. destruct (eqb o r) eqn:E; [|done].
  unfold unique_on in Hu. rewrite fmap_app, fmap_cons in Hu.
  apply NoDup_app in Hu as (_ & Hn & _). destruct (Hn (key o)).
  - by apply list_elem_of_fmap_2.
  - rewrite (Heq _ _ E). left.
Qed.

Lemma unique_before_Z {R} (key : R → Z) l1 r l2 :
  unique_on key (l1 ++ r :: l2) → existsb (λ o, key o =? key r) l1 = false.
Proof. apply (unique_before key (λ a b, key a =? key b)). by intros a b ?%Z.eqb_eq. Qed.

Lemma unique_before_string {R} (key : R → string) l1 r l2 :
  unique_on key (l1 ++ r :: l2) → existsb (λ o, key o =s key r) l1 = false.
Proof. apply (unique_before key (λ a b, key a =s key b)). by intros a b ?%String.eqb_eq. Qed.

Lemma refers_ok_true {R S} (ref : R → option Z) (key : S → Z) rows parents :
  refers ref key rows parents → refers_ok ref key rows parents = true.
Proof.
  intros Hr. apply forallb_true. intros r Hin. destruct (ref r) as [id|] eqn:E; [|done].
  apply existsb_true. destruct (Hr r id Hin E) as (p & Hp & Ek). exists p. by rewrite Ek, Z.eqb_refl.
Qed.

Lemma wf_foreign_keys d : wf_db d → foreign_keys_ok d = true.
Proof.
  intros [[] [] [] [] [] []]. unfold foreign_keys_ok.
  rewrite !andb_true_iff. split_and!; by apply refers_ok_true.
Qed.

(** ** A migration's transaction *)

Definition recorded (v : Z) (d : disk) : disk :=
  put_versions (Some (default [] (dk_versions d) ++ [v])) d.

Lemma has_recorded v w d : has_version w (recorded v d) = has_version w d || (w =? v).
Proof.
  unfold has_version, recorded. cbn. destruct (dk_versions d) as [vs|]; cbn.
  - destruct (Z.eqb_spec w v) as [->|Hne]; rewrite ?orb_true_r, ?orb_false_r.
    + apply bool_decide_eq_true. apply elem_of_app. right. by apply list_elem_of_singleton.
    + apply bool_decide_ext. rewrite elem_of_app, list_elem_of_singleton. tauto.
  - destruct (Z.eqb_spec w v) as [->|Hne]; [by apply bool_decide_eq_true, list_elem_of_singleton|].
    apply bool_decide_eq_false. by rewrite list_elem_of_singleton.
Qed.

Lemma recorded_tables v d : tables_grow d (recorded v d).
Proof. tables_tac. Qed.

(** [shapes] closes the parts of a shape that a migration does not touch. *)
Ltac shapes := split; cbn; unfold grants_shape in *; rewrite ?orb_false_r, ?orb_true_r; try done.

(** Without one of the tables of version 1, that version is not recorded. *)
Lemma no_base d : shape_ok (λ v, has_version v d) d →
  dk_targets d = None ∨ dk_keys d = None ∨ dk_users d = None ∨ dk_user_grants d = None ∨
    dk_group_grants d = None → has_version 1 d = false.
Proof.
  intros Hs Hn. destruct (has_version 1 d) eqn:E1; [|done]. apply (sh_base _ _ Hs) in E1.
  unfold base_tables, tables in E1. cbn in E1. rewrite !andb_true_iff in E1. unfold id in E1.
  destruct Hn as [E|[E|[E|[E|E]]]]; rewrite E in E1; cbn in E1; intuition discriminate.
Qed.

Section migrations.
Context `{SqliteTexts} (now : time) (c : db) (c_wf : wf_db c).

(** A file that says [c] *)
Definition says (d : disk) : Prop := shape_ok (λ v, has_version v d) d ∧ disk_content now d = c.

Lemma record_version_run v d :
  run (record_version v) d =
    match dk_versions d with
    | None => (Err (sqlite_fails "no such table: schema_migrations"), d)
    | Some _ => if has_version v d then (Err (Sql Unique), d) else (Ok tt, recorded v d)
    end.
Proof.
  unfold record_version, has_version, recorded. cbn. destruct (dk_versions d) as [vs|]; cbn; [|done].
  by destruct (bool_decide (v ∈ vs)).
Qed.

(** What a body does to a file that says [c] and records [known] *)
Definition body_ok (known : list Z) (v : Z) (body : stmt) : Prop :=
  ∀ d, says d → (∀ w, w ∈ known → has_version w d = true) →
    match run body d with
    | (Ok _, d') => says d' ∧ grows d d' ∧ has_version v d' = true
    | (Err _, _) => has_version v d = true ∨ has_version 1 d = false
    end.

(** The last statement of a body: the file has been given the shape of [v]. *)
Lemma record_ok v d d1 :
  dk_versions d1 = dk_versions d → disk_content now d1 = c → tables_grow d d1 →
  (has_version v d = false → shape_ok (λ w, has_version w d || (w =? v)) d1) →
  match run (record_version v) d1 with
  | (Ok _, d') => says d' ∧ grows d d' ∧ has_version v d' = true
  | (Err _, _) => has_version v d = true ∨ has_version 1 d = false
  end.
Proof.
  intros Ev Hc Htab Hs. rewrite record_version_run, Ev.
  assert (∀ w, has_version w d1 = has_version w d) as Eh by (intros w; unfold has_version; by rewrite Ev).
  destruct (dk_versions d) as [vs|] eqn:Evs.
  - rewrite Eh. destruct (has_version v d) eqn:Ehv; [by left|]. split_and!.
    + split; [|by rewrite <- Hc]. apply (shape_ext (λ w, has_version w d || (w =? v))).
      * intros w. by rewrite has_recorded, Eh.
      * destruct (Hs eq_refl) as [Hb]. split; try done.
        intros H1. apply (base_grows d1); [apply recorded_tables|auto].
    + split; [|by intros w Hw; rewrite has_recorded, Eh, Hw].
      etrans; [exact Htab|apply recorded_tables].
    + by rewrite has_recorded, Z.eqb_refl, orb_true_r.
  - right. unfold has_version. by rewrite Evs.
Qed.

(** The rows of targets and gateway_keys satisfy the constraints of the tables
    they are copied to. *)
Lemma old_rows_copied has d rows : targets_shape has (dk_targets d) → disk_content now d = c →
  dk_targets d = Some (Targets13 (kinds_of has) rows) →
  insert_all (old_target_check [CredentialPassword; CredentialPrivateKey; CredentialAgent]) [] rows = Ok rows.
Proof.
  intros Hs Hc Et. apply insert_all_ok. intros l1 t l2 Er. rewrite Et in Hs. destruct Hs as (_ & _ & Hk).
  assert (targets c = with_identity <$> rows) as Ec by by rewrite <- Hc; unfold disk_content; rewrite Et.
  assert (t ∈ rows) as Ht by (rewrite Er; apply elem_of_app; right; left).
  destruct c_wf as [_ _ [Hid _ Hname Hport _ _ _ _ _] _ _ _]. rewrite Ec in *.
  unfold unique_on in *. rewrite <- !list_fmap_compose in *.
  unfold old_target_check, check_constraint.
  assert (valid_port (ot_port t) = true) as -> by (apply (Hport (with_identity t)), list_elem_of_fmap_2, Ht).
  cbn [rbind].
  replace (existsb _ _) with true; [cbn [rbind]|].
  - rewrite Er in *. rewrite (unique_before_Z ot_id l1 t l2) by done.
    by rewrite (unique_before_string ot_name l1 t l2).
  - symmetry. specialize (Hk t Ht). unfold kinds_of in Hk. destruct (has 2); [done|].
    cbn in Hk |- *. by destruct (ot_credential_kind t =s _), (ot_credential_kind t =s _).
Qed.

Lemma rows_copied d rows : disk_content now d = c →
  target_rows <$> dk_targets d = Some rows → insert_all target_check [] rows = Ok rows.
Proof.
  intros Hc Et. apply insert_all_ok. intros l1 t l2 Er.
  assert (targets c = rows) as Ec by by rewrite <- Hc; unfold disk_content; rewrite Et.
  assert (t ∈ rows) as Ht by (rewrite Er; apply elem_of_app; right; left).
  destruct c_wf as [_ _ [Hid _ Hname Hport Hkind _ _ _ _] _ _ _]. rewrite Ec in *.
  unfold target_check, check_constraint. rewrite Hport by done. rewrite Hkind by done. cbn [rbind].
  rewrite Er in *. rewrite (unique_before_Z t_id l1 t l2) by done.
  by rewrite (unique_before_string t_name l1 t l2).
Qed.

Lemma keys_copied d keys us : disk_content now d = c → dk_keys d = Some keys → dk_users d = Some us →
  insert_all (key_check us) [] keys = Ok keys.
Proof.
  intros Hc Ek Eu. apply insert_all_ok. intros l1 k l2 Er.
  assert (gateway_keys c = keys ∧ users c = us) as [Ec Ec'].
  { rewrite <- Hc. unfold disk_content. by rewrite Ek, Eu. }
  assert (k ∈ keys) as Hk by (rewrite Er; apply elem_of_app; right; left).
  destruct c_wf as [[_ _ _ Hid Hkey Huser] _ _ _ _ _]. rewrite Ec, Ec' in *.
  destruct (Huser k _ Hk eq_refl) as (u & Hu & Eu').
  unfold key_check, check_constraint. rewrite Er in *.
  rewrite (unique_before_Z k_id l1 k l2) by done. cbn [rbind negb].
  pose proof (unique_before gateway_key_key (λ a b, (k_user_id a =? k_user_id b) && (k_fingerprint a =s k_fingerprint b))
    l1 k l2) as Hb. cbv beta in Hb. rewrite Hb; [| |done].
  - cbn [rbind negb]. replace (existsb _ us) with true; [done|].
    symmetry. apply existsb_true. exists u. by rewrite Eu', Z.eqb_refl.
  - intros a b Hab. bool_simp. unfold gateway_key_key. congruence.
Qed.

(** Version 2 *)
Lemma body_v2 known : body_ok known 2 (let? _ := rebuild_targets_v2 false in record_version 2).
Proof.
  intros d [Hs Hc] _. rewrite run_bind_ok. unfold rebuild_targets_v2. cbn [run atomic].
  pose proof (sh_targets _ _ Hs) as Ht.
  destruct (dk_targets d) as [[kinds rows|rows]|] eqn:Et.
  - pose proof Ht as (H3 & -> & Hk).
    rewrite (old_rows_copied (λ v, has_version v d) d rows); [|by rewrite Et|done|done].
    apply record_ok; [done|rewrite <- Hc; unfold disk_content; by rewrite Et|tables_tac|].
    intros H2. unfold kinds_of in *. rewrite H2 in *.
    destruct Hs; shapes.
    + intros H1. by apply (base_grows d); [tables_tac|apply sh_base0].
    + split_and!; [done|done|].
      intros t Hin. specialize (Hk t Hin). cbn in Hk.
      by destruct (ot_credential_kind t =s _), (ot_credential_kind t =s _).
  - left. by apply (sh_order _ _ Hs).
  - right. by apply no_base; [done|left].
Qed.

(** Version 3, on a file that records version 2 *)
Lemma body_v3 known : 2 ∈ known →
  body_ok known 3 (
    let? _ := create_table "ssh_identities" (λ d, exists_table (dk_identities d)) (put_identities (Some [])) in
    let? _ := rebuild_targets_v3 false in record_version 3).
Proof.
  intros Hk d [Hs Hc] Hknown. specialize (Hknown 2 Hk). rewrite run_bind_ok. cbn [create_table run atomic].
  destruct (exists_table (dk_identities d)) eqn:Ei; [by left; rewrite <- (sh_identities _ _ Hs)|].
  rewrite run_bind_ok. unfold rebuild_targets_v3. cbn [run atomic put_identities dk_targets].
  pose proof (sh_targets _ _ Hs) as Ht. destruct (dk_targets d) as [t|] eqn:Et.
  - assert (dk_identities d = None) as Ei' by by destruct (dk_identities d).
    destruct t as [kinds rows|rows]; [|by rewrite (sh_identities _ _ Hs), Ht in Ei].
    replace (without_identity <$> _) with (with_identity <$> rows)
      by (cbn [target_rows]; rewrite <- list_fmap_compose; by apply list_fmap_ext).
    rewrite (rows_copied d); [|done|by rewrite Et].
    apply (record_ok 3 d); [done|rewrite <- Hc; unfold disk_content; cbn; by rewrite Et, Ei'|tables_tac|].
    intros H3. destruct Hs; shapes.
    intros H1. by apply (base_grows d); [tables_tac|apply sh_base0].
  - right. by apply no_base; [done|left].
Qed.

(** Version 4 *)
Lemma body_v4 known : body_ok known 4 (
  let? _ := wrap_error "migrate user TOTP" (create_missing (λ d, exists_table (dk_totp d)) (put_totp (Some []))) in
  wrap_error "record user TOTP migration" (record_version 4)).
Proof.
  intros d [Hs Hc] _. rewrite run_bind_ok. unfold wrap_error. rewrite run_bind.
  unfold value, final. cbn [create_missing run atomic fst snd]. rewrite run_bind.
  unfold value, final. set (d1 := if exists_table (dk_totp d) then d else _).
  assert (dk_versions d1 = dk_versions d ∧ disk_content now d1 = c ∧ tables_grow d d1 ∧ (has_version 4 d = false →
    shape_ok (λ w, has_version w d || (w =? 4)) d1)) as (Ev & Hc1 & Ht1 & Hs1).
  { unfold d1. destruct (exists_table (dk_totp d)) eqn:Et.
    - split_and!; [done..|]. intros H4. by rewrite (sh_totp _ _ Hs), H4 in Et.
    - split_and!; [done|rewrite <- Hc; unfold disk_content; cbn; by destruct (dk_totp d)|tables_tac|].
      intros _. destruct Hs; shapes. unfold targets_shape, kinds_of in *. by rewrite !orb_false_r. }
  pose proof (record_ok 4 d d1 Ev Hc1 Ht1 Hs1) as Hr. by destruct (run (record_version 4) d1) as [[[]|e] d2].
Qed.

(** Version 5 *)
Lemma body_v5 known : body_ok known 5 (let? _ := rebuild_keys_v5 in record_version 5).
Proof.
  intros d [Hs Hc] _. rewrite run_bind_ok. unfold rebuild_keys_v5. cbn [run atomic].
  destruct (dk_keys d) as [keys|] eqn:Ek; [|by right; apply no_base; [done|right; left]].
  destruct (dk_users d) as [us|] eqn:Eu; [|by right; apply no_base; [done|right; right; left]].
  rewrite (keys_copied d) by done.
  apply (record_ok 5 d); [done|rewrite <- Hc; unfold disk_content; cbn; by rewrite Ek|tables_tac|].
  intros _. destruct Hs; shapes.
  - intros H1. by apply (base_grows d); [tables_tac|apply sh_base0].
  - unfold targets_shape, kinds_of in *. by rewrite !orb_false_r.
Qed.

(** Version 6 *)
Lemma body_v6 known : body_ok known 6 (
  let? _ := alter_grants in
  let? _ := create_table "target_forward_rules" (λ d, exists_table (dk_rules d)) (put_rules (Some [])) in
  record_version 6).
Proof.
  intros d [Hs Hc] _. rewrite run_bind_ok. unfold alter_grants. cbn [run atomic].
  pose proof (sh_user_grants _ _ Hs) as Hu. pose proof (sh_group_grants _ _ Hs) as Hg.
  unfold grants_shape in Hu, Hg.
  destruct (dk_user_grants d) as [[us|us]|] eqn:Eu; cbn [add_capabilities]; [|by left|
    by right; apply no_base; [done|right; right; right; left]].
  destruct (dk_group_grants d) as [[gs|gs]|] eqn:Eg; cbn [add_capabilities]; [|by left|
    by right; apply no_base; [done|right; right; right; right]].
  rewrite run_bind_ok. cbn [create_table run atomic].
  assert (dk_rules d = None) as Er.
  { pose proof (sh_rules _ _ Hs) as Hr. cbv beta in Hr. rewrite Hu in Hr. by destruct (dk_rules d). }
  unfold put_grants at 1. cbn [dk_rules]. rewrite Er. cbn [exists_table].
  apply (record_ok 6 d); [done|rewrite <- Hc; unfold disk_content; cbn; by rewrite Eu, Eg, Er|tables_tac|].
  intros _. destruct Hs; shapes.
  - intros H1. by apply (base_grows d); [tables_tac|apply sh_base0].
  - unfold targets_shape, kinds_of in *. by rewrite !orb_false_r.
Qed.

(** Version 7 *)
Lemma body_v7 known : body_ok known 7 (
  let? _ := create_table "oidc_identities" (λ d, exists_table (dk_oidc d)) (put_oidc (Some [])) in
  record_version 7).
Proof.
  intros d [Hs Hc] _. rewrite run_bind_ok. cbn [create_table run atomic].
  destruct (exists_table (dk_oidc d)) eqn:Eo; [by left; rewrite <- (sh_oidc _ _ Hs)|].
  apply (record_ok 7 d); [done|rewrite <- Hc; unfold disk_content; cbn; by destruct (dk_oidc d)|tables_tac|].
  intros _. destruct Hs; shapes. unfold targets_shape, kinds_of in *. by rewrite !orb_false_r.
Qed.

(** ** A migration among other Opens, and alone *)

Definition knows (vs : list Z) (d : disk) : Prop := ∀ v, v ∈ vs → has_version v d = true.

Lemma knows_grows vs d d' : knows vs d → grows d d' → knows vs d'.
Proof. intros Hk [_ Hg] v Hv. auto. Qed.

(** [p] leaves [vs] recorded when it succeeds. *)
Definition leaves (vs : list Z) (r : result unit) (d : disk) : Prop := r = Ok tt → knows vs d.

Lemma leaves_later vs e d d' : leaves vs (Err e) d → grows d d' → says d' → leaves vs (Err e) d'.
Proof. by intros _ _ _. Qed.

(** A stage: where [K] holds, it leaves [Q] when it succeeds, among others; alone
    it succeeds. *)
Definition stage_ok (K Q : disk → Prop) (p : stmt) : Prop :=
  ∀ d, says d → K d →
    assures says grows (λ r d', r = Ok tt → Q d') p d ∧ is_ok (value p d) = true.

Definition stable (K : disk → Prop) : Prop := ∀ d d', K d → grows d d' → K d'.

Lemma stage_after K Q Q' p (k : stmt) : stable K →
  stage_ok K Q p → stage_ok (λ d, Q d ∧ K d) Q' k → stage_ok K Q' (let? _ := p in k).
Proof.
  intros HK Hp Hk d Hd Hn. destruct (Hp d Hd Hn) as [Ha Hv]. split.
  - apply (assures_bind_ok says grows (λ _, Q)).
    + refine (assures_mono says grows _ _ p d _ Ha). intros [[]|e] d' Hg Hs Hl; [exact (Hl eq_refl)|by intros].
    + intros e d1 d2 _ _ _. by intros.
    + intros [] d1 Hg Hs Hl. refine (proj1 (Hk d1 Hs _)). split; [done|by eapply HK].
  - destruct (assures_run says grows _ p d Hd Ha) as (Hs' & Hg & Hl).
    unfold value in *. rewrite run_bind_ok.
    unfold final in *. destruct (run p d) as [[[]|e] d1]; [|discriminate Hv]. cbn in *.
    refine (proj2 (Hk d1 Hs' _)). split; [by apply Hl|by eapply HK].
Qed.

Lemma stage_mono K K' Q Q' p : (∀ d, K' d → K d) → (∀ d, Q d → Q' d) → stage_ok K Q p → stage_ok K' Q' p.
Proof.
  intros HK HQ Hp d Hd Hn. destruct (Hp d Hd (HK d Hn)) as [Ha Hv]. split; [|done].
  refine (assures_mono says grows _ _ p d _ Ha). intros r d' _ _ Hl Hr. auto.
Qed.

Lemma knows_stable vs : stable (knows vs).
Proof. intros d d'. apply knows_grows. Qed.

(** Alone, a version that is not recorded is migrated to. *)
Definition once_ok (known : list Z) (v : Z) (p : stmt) : Prop :=
  ∀ d, says d → knows known d →
    assures says grows (leaves [v]) p d ∧ (has_version v d = false → is_ok (value p d) = true).

Lemma transaction_once known v body : 1 ∈ known → body_ok known v body → once_ok known v (transaction body).
Proof.
  intros H1 Hb d Hd Hn. unfold transaction, atomic. split.
  - intros d0 Hg Hd0. pose proof (Hb d0 Hd0 (knows_grows _ _ _ Hn Hg)) as Hr.
    destruct (run body d0) as [[[]|e] d1]; cbn.
    + destruct Hr as (Hs1 & Hg1 & Hv). split_and!; [done..|]. intros d2 Hg2 Hs2 _ w Hw.
      apply list_elem_of_singleton in Hw as ->. by apply Hg2.
    + split_and!; [done..|]. intros d2 _ _ He. discriminate He.
  - intros Hv. unfold value. cbn. pose proof (Hb d Hd Hn) as Hr.
    destruct (run body d) as [[[]|e] d1]; [done|]. destruct Hr as [Hr|Hr]; [congruence|].
    by rewrite (Hn 1 H1) in Hr.
Qed.

Lemma wrap_once known v text p : once_ok known v p → once_ok known v (wrap_error text p).
Proof.
  intros Hp d Hd Hn. destruct (Hp d Hd Hn) as [Ha Hv]. unfold wrap_error. split.
  - refine (assures_bind says grows _ _ _ _ d Ha _). intros [[]|e] d' Hg Hs Hl d'' Hg' Hs' Hr; [|discriminate Hr].
    eapply knows_grows; [by apply Hl|done].
  - intros Hf. specialize (Hv Hf). unfold value in *. rewrite run_bind. unfold value, final.
    by destruct (run p d) as [[[]|e] d1].
Qed.

(** A file that says [c] passes the check of the foreign keys. *)
Lemma check_run text d : says d → run (check_foreign_keys text) d = (Ok tt, d).
Proof.
  intros [_ Hc]. unfold check_foreign_keys. rewrite run_bind_ok. cbn.
  assert (foreign_keys_ok (disk_content zero_time d) = foreign_keys_ok (disk_content now d)) as -> by done.
  by rewrite Hc, wf_foreign_keys.
Qed.

Lemma checked_once known v text p : once_ok known v p →
  once_ok known v (let? _ := p in check_foreign_keys text).
Proof.
  intros Hp d Hd Hn. destruct (Hp d Hd Hn) as [Ha Hv]. split.
  - apply (assures_bind_ok says grows (λ _, knows [v])).
    + refine (assures_mono says grows (leaves _) _ p d _ Ha). intros [[]|e] d' Hg Hs Hl; [exact (Hl eq_refl)|by intros].
    + intros e d1 d2 _ _ _. by intros.
    + intros [] d1 Hg Hs Hl d2 Hg2 Hs2. cbn. split_and!; [done..|].
      destruct (foreign_keys_ok _); intros d3 Hg3 Hs3 Hr; [|discriminate Hr].
      eapply knows_grows; [exact Hl|by etrans].
  - intros Hf. specialize (Hv Hf). destruct (assures_run says grows _ p d Hd Ha) as (Hs' & _ & _).
    unfold value, final in *. rewrite run_bind_ok. destruct (run p d) as [[[]|e] d1]; [|discriminate Hv].
    by rewrite check_run.
Qed.

Lemma migrate_once_stage known v p : 1 ∈ known → once_ok known v p → stage_ok (knows known) (knows [v]) (migrate_once v p).
Proof.
  intros H1 Hp d Hd Hn. unfold migrate_once, count_version. split.
  - intros d0 Hg Hd0. split_and!; [done..|]. cbn [fst snd query bind].
    pose proof (knows_grows _ _ _ Hn Hg) as Hn0. pose proof (Hn0 1 H1) as H1'. unfold has_version in H1'.
    destruct (dk_versions d0) as [vs|] eqn:Ev; [|discriminate]. cbn [bind].
    destruct (count_rows (Z.eqb v) vs =? 0) eqn:Ec; [by apply Hp|].
    intros d1 Hg1 Hs1 _ w Hw. apply list_elem_of_singleton in Hw as ->. apply Hg1.
    unfold has_version. rewrite Ev. apply bool_decide_eq_true.
    apply Z.eqb_neq in Ec. pose proof (count_rows_nonneg (Z.eqb v) vs).
    destruct (proj1 (count_rows_pos (Z.eqb v) vs) ltac:(lia)) as (w & Hw & Ew). by apply Z.eqb_eq in Ew as ->.
  - unfold value. rewrite run_bind_ok. cbn [query run]. pose proof (Hn 1 H1) as H1'. unfold has_version in H1'.
    destruct (dk_versions d) as [vs|] eqn:Ev; [|discriminate].
    destruct (count_rows (Z.eqb v) vs =? 0) eqn:Ec; [|done]. apply (Hp d Hd Hn).
    unfold has_version. rewrite Ev. apply bool_decide_eq_false. intros Hin.
    apply Z.eqb_eq, count_rows_zero with (r := v) in Ec; [|done]. by rewrite Z.eqb_refl in Ec.
Qed.

(** ** The schema of version 1 *)

Definition has_table (i : nat) (d : disk) : Prop := nth i (tables d) false = true.

Lemma has_table_grows i d d' : has_table i d → grows d d' → has_table i d'.
Proof.
  unfold has_table. intros Hi [Ht _]. revert Hi. unfold tables_grow in Ht. revert i.
  induction Ht as [|x y la lb Hxy _ IH]; intros [|i]; cbn; auto.
Qed.

(** CREATE TABLE IF NOT EXISTS of the [i]-th table *)
Lemma create_stage i there make :
  (∀ d, there d = nth i (tables d) false) →
  (∀ d, says d → there d = false → says (make d) ∧ grows d (make d) ∧ there (make d) = true) →
  stage_ok (λ _, True) (has_table i) (create_missing there make).
Proof.
  intros Ht Hm d Hd _. split; [|done]. intros d0 Hg Hd0. cbn [fst snd].
  unfold has_table. destruct (there d0) eqn:E.
  - split_and!; [done..|]. intros d1 Hg1 _ _. rewrite Ht in E. by eapply (has_table_grows i).
  - destruct (Hm d0 Hd0 E) as (Hs & Hg' & Hthere). split_and!; [done..|]. intros d1 Hg1 _ _.
    rewrite Ht in Hthere. by eapply (has_table_grows i).
Qed.

Lemma created d d' : says d → dk_versions d' = dk_versions d → disk_content now d' = c → tables_grow d d' →
  dk_identities d' = dk_identities d → dk_totp d' = dk_totp d → dk_rules d' = dk_rules d → dk_oidc d' = dk_oidc d →
  targets_shape (λ v, has_version v d) (dk_targets d') →
  grants_shape (λ v, has_version v d) (dk_user_grants d') →
  grants_shape (λ v, has_version v d) (dk_group_grants d') → says d' ∧ grows d d'.
Proof.
  intros [Hs Hc] Ev Hc' Htab Ei Eto Er Eo Ht Hu Hg.
  assert (∀ w, has_version w d' = has_version w d) as Eh by (intros w; unfold has_version; by rewrite Ev).
  split; [|split; [done|intros v; by rewrite Eh]]. split; [|done].
  apply (shape_ext (λ v, has_version v d)); [intros v; apply Eh|].
  destruct Hs. split; rewrite ?Ei, ?Eto, ?Er, ?Eo; try done.
  intros H1. by apply (base_grows d); auto.
Qed.

Ltac created := intros d Hd E; pose proof Hd as [Hs Hc]; destruct Hs;
  match type of E with exists_table ?t = _ =>
    let Et := fresh "Et" in destruct t eqn:Et; [discriminate E|];
    match goal with |- ?A ∧ ?B ∧ _ => cut (A ∧ B); [intros [? ?]; by split_and!|] end;
    apply created; try done;
    [rewrite <- Hc; unfold disk_content; cbn; by rewrite Et|unfold tables_grow, tables; cbn; rewrite Et;
     repeat (constructor; [done|]); constructor|..]
  end.

Lemma schema_creates i s : take 9 schema_v1 !! i = Some s → stage_ok (λ _, True) (has_table i) s.
Proof.
  intros Hi. do 9 (try destruct i as [|i]); [injection Hi as <-; apply create_stage; [done|]..|].
  - intros d [Hs Hc] E. destruct (dk_versions d) eqn:Et; [discriminate E|].
    assert (∀ w, has_version w (put_versions (Some []) d) = has_version w d) as Eh
      by (intros w; unfold has_version; by rewrite Et).
    split_and!; [|split; [|intros v; by rewrite Eh]|done].
    + split; [|done]. apply (shape_ext (λ v, has_version v d)); [exact Eh|].
      destruct Hs. split; try done. unfold has_version. by rewrite Et.
    + unfold tables_grow, tables. cbn. rewrite Et. repeat (constructor; [done|]). constructor.
  - created.
  - created.
  - created.
  - created.
  - created. destruct sh_targets0 as [H2 H3]. cbn.
    unfold kinds_of. rewrite H2. split_and!; [done|done|]. intros t Ht. by apply not_elem_of_nil in Ht.
  - created.
  - created.
  - created.
  - done.
Qed.

(** INSERT OR IGNORE INTO schema_migrations(version) VALUES(1) *)
Lemma version_1_stage s : last schema_v1 = Some s →
  stage_ok (λ d, ∀ i, (i < 9)%nat → has_table i d) (knows [1]) s.
Proof.
  intros [= <-] d Hd Hk. split.
  - intros d0 Hg Hd0. assert (∀ i, (i < 9)%nat → has_table i d0) as Hk0
      by (intros i Hi; eapply has_table_grows; [by apply Hk|done]).
    pose proof (Hk0 0%nat ltac:(lia)) as H0. unfold has_table in H0. cbn in H0.
    destruct (dk_versions d0) as [vs|] eqn:Ev; [|discriminate H0]. cbn [fst snd].
    destruct (bool_decide (1 ∈ vs)) eqn:E1.
    + split_and!; [done..|]. intros d1 Hg1 _ _ v Hv. apply list_elem_of_singleton in Hv as ->.
      apply Hg1. unfold has_version. by rewrite Ev.
    + assert (put_versions (Some (vs ++ [1])) d0 = recorded 1 d0) as -> by (unfold recorded; by rewrite Ev).
      assert (grows d0 (recorded 1 d0)) as Hr.
      { split; [apply recorded_tables|]. intros v Hv. by rewrite has_recorded, Hv. }
      split_and!; [|done|].
      * destruct Hd0 as [Hs Hc]. split; [|done].
        apply (shape_ext (λ w, has_version w d0 || (w =? 1))); [intros w; apply has_recorded|].
        destruct Hs; shapes.
        -- intros _. apply (base_grows d0); [apply recorded_tables|]. unfold base_tables, tables. cbn.
           by rewrite (Hk0 0%nat), (Hk0 1%nat), (Hk0 2%nat), (Hk0 3%nat), (Hk0 4%nat), (Hk0 5%nat), (Hk0 6%nat),
             (Hk0 7%nat), (Hk0 8%nat) by lia.
        -- unfold targets_shape, kinds_of in *. by rewrite !orb_false_r.
      * intros d1 Hg1 _ _ v Hv. apply list_elem_of_singleton in Hv as ->. apply Hg1.
        by rewrite has_recorded, orb_true_r.
  - pose proof (Hk 0%nat ltac:(lia)) as H0. unfold has_table in H0. cbn in H0. unfold value. cbn.
    by destruct (dk_versions d).
Qed.

Lemma done_stage K Q : stable Q → stage_ok (λ d, Q d ∧ K d) Q (Ret (Ok tt)).
Proof. intros HQ d Hd [Hq _]. split; [|done]. intros d' Hg _ _. by eapply HQ. Qed.

Lemma exec_stage l s k Q : stable Q →
  (∀ i p, l !! i = Some p → stage_ok (λ _, True) (has_table (k + i)) p) →
  stage_ok (λ d, ∀ i, (i < k + length l)%nat → has_table i d) Q s →
  stage_ok (λ d, ∀ i, (i < k)%nat → has_table i d) Q (exec_script (l ++ [s])).
Proof.
  assert (∀ k, stable (λ d, ∀ i, (i < k)%nat → has_table i d)) as Hst.
  { intros n d d' Hd Hg i Hi. eapply has_table_grows; [by apply Hd|done]. }
  intros HQ. revert k. induction l as [|p l IH]; intros k Hl Hs; cbn [exec_script app].
  - apply (stage_after _ Q); [apply Hst| |by apply done_stage]. eapply stage_mono; [| |exact Hs]; [|done].
    cbn. intros d Hd i Hi. apply Hd. lia.
  - apply (stage_after _ (has_table k)); [apply Hst| |].
    + eapply stage_mono; [| |exact (Hl 0%nat p eq_refl)]; [done|]. by rewrite Nat.add_0_r.
    + eapply stage_mono; [| |apply (IH (S k))]; [|done| |].
      * intros d [Hk Hd] i Hi. destruct (decide (i = k)) as [->|]; [done|]. apply Hd. lia.
      * intros i q Hq. replace (S k + i)%nat with (k + S i)%nat by lia. by apply Hl.
      * eapply stage_mono; [| |exact Hs]; [|done]. cbn. intros d Hd i Hi. apply Hd. lia.
Qed.

Lemma schema_stage : stage_ok (λ _, True) (knows [1]) (exec_script schema_v1).
Proof.
  change schema_v1 with (take 9 schema_v1 ++ [List.last schema_v1 (Ret (Ok tt))]).
  eapply stage_mono; [| |apply (exec_stage (take 9 schema_v1) _ 0)]; [intros d _ i Hi; lia|done|..].
  - apply knows_stable.
  - intros i p Hp. by apply schema_creates.
  - by apply version_1_stage.
Qed.

(** ** [migrate] *)

Definition current (d : disk) : Prop := knows [7; 6; 5; 4; 3; 2; 1] d.

Lemma knows_cons known v d : knows [v] d → knows known d → knows (v :: known) d.
Proof. intros Hv Hd w [->|Hw]%elem_of_cons; [|auto]. apply Hv. by apply list_elem_of_singleton. Qed.

Lemma stage_keep K Q p : stable K → stage_ok K Q p → stage_ok K (λ d, Q d ∧ K d) p.
Proof.
  intros HK Hp d Hd Hn. destruct (Hp d Hd Hn) as [Ha Hv]. split; [|done].
  refine (assures_mono says grows _ _ p d _ Ha). intros r d' Hg _ Hl Hr. split; [auto|by eapply HK].
Qed.

Lemma stage_knows known v p (k : stmt) Q :
  stage_ok (knows known) (knows [v]) p → stage_ok (knows (v :: known)) Q k →
  stage_ok (knows known) Q (let? _ := p in k).
Proof.
  intros Hp Hk. eapply stage_after; [apply knows_stable|exact Hp|].
  eapply stage_mono; [| |exact Hk]; [|done]. intros d [Hv Hd]. by apply knows_cons.
Qed.

Lemma migrate_stage : stage_ok (λ _, True) current migrate.
Proof.
  unfold migrate. eapply stage_after; [by intros|apply schema_stage|].
  apply (stage_mono (knows [1]) _ current); [by intros d [Hd _]|done|].
  eapply stage_knows. { apply migrate_once_stage, checked_once, wrap_once, transaction_once, body_v2; left. }
  eapply stage_knows.
  { apply migrate_once_stage, checked_once, wrap_once, transaction_once, body_v3; [right; left..|left]. }
  eapply stage_knows. { apply migrate_once_stage, transaction_once, body_v4; set_solver. }
  eapply stage_knows. { apply migrate_once_stage, wrap_once, transaction_once, body_v5; set_solver. }
  eapply stage_knows. { apply migrate_once_stage, wrap_once, transaction_once, body_v6; set_solver. }
  eapply stage_mono; [| |apply stage_keep; [apply (knows_stable [6; 5; 4; 3; 2; 1])|]].
  - done.
  - intros d [Hv Hd]. by apply knows_cons.
  - apply migrate_once_stage, wrap_once, transaction_once, body_v7; set_solver.
Qed.

End migrations.

(** ** What an Open leaves *)

(** The database in a file of the current version *)
Definition opened (now : time) (d : disk) : option db :=
  match dk_users d, dk_keys d, dk_groups d, dk_members d, dk_targets d, dk_user_grants d, dk_group_grants d with
  | Some us, Some ks, Some gs, Some ms, Some (Targets14 ts), Some (Grants6 ug), Some (Grants6 gg) =>
    match dk_rules d, dk_audit d, dk_identities d, dk_totp d, dk_oidc d with
    | Some rs, Some au, Some ids, Some to, Some oi => Some (Db us ks gs ms ts ug gg rs au ids to oi now)
    | _, _, _, _, _ => None
    end
  | _, _, _, _, _, _, _ => None
  end.

(** A file of any version, or none yet: its tables are those of the versions it
    records, and its rows satisfy the constraints. *)
Definition good_file (now : time) (d : disk) : Prop :=
  shape_ok (λ v, has_version v d) d ∧ wf_db (disk_content now d).

Lemma version_listed v : 1 <= v <= 7 → v ∈ [7; 6; 5; 4; 3; 2; 1].
Proof. intros Hv. rewrite !elem_of_cons. lia. Qed.

Lemma current_opened now d : shape_ok (λ v, has_version v d) d → current d →
  opened now d = Some (disk_content now d).
Proof.
  intros Hs Hc. assert (∀ v, 1 <= v <= 7 → has_version v d = true) as Hv.
  { intros v Hv. by apply Hc, version_listed. }
  destruct Hs. unfold targets_shape, grants_shape in *. rewrite !Hv in * by lia.
  specialize (sh_base0 eq_refl). unfold base_tables, tables in sh_base0. cbn in sh_base0.
  unfold id in sh_base0. rewrite !andb_true_iff in sh_base0. unfold opened, disk_content.
  destruct (dk_users d), (dk_keys d), (dk_groups d), (dk_members d); try (cbn in sh_base0; intuition discriminate).
  destruct (dk_targets d) as [[]|]; try (cbn in *; intuition discriminate).
  destruct (dk_user_grants d) as [[]|]; try discriminate.
  destruct (dk_group_grants d) as [[]|]; try discriminate.
  destruct (dk_audit d); [|cbn in *; intuition discriminate].
  by destruct (dk_rules d), (dk_identities d), (dk_totp d), (dk_oidc d).
Qed.

Section open.
Context `{SqliteTexts}.

Lemma exec_script_skip l d : Forall (λ s, run s d = (Ok tt, d)) l → run (exec_script l) d = (Ok tt, d).
Proof. induction 1 as [|s l Hs _ IH]; [done|]. cbn [exec_script]. by rewrite run_bind_ok, Hs. Qed.

(** Nothing is left to do on a file of the current version. *)
Lemma migrate_again d : shape_ok (λ v, has_version v d) d → current d → run migrate d = (Ok tt, d).
Proof.
  intros Hs Hc. assert (run (exec_script schema_v1) d = (Ok tt, d)) as Hschema.
  { pose proof (sh_base _ _ Hs (Hc 1 (version_listed 1 ltac:(lia)))) as Hb. pose proof (Hc 1 (version_listed 1 ltac:(lia))) as H1.
    unfold base_tables, tables in Hb. cbn in Hb. unfold id in Hb. rewrite !andb_true_iff in Hb.
    destruct Hb as (B0 & B1 & B2 & B3 & B4 & B5 & B6 & B7 & B8 & _).
    apply exec_script_skip. unfold schema_v1.
    do 9 (constructor; [cbn; by rewrite ?B0, ?B1, ?B2, ?B3, ?B4, ?B5, ?B6, ?B7, ?B8|]).
    constructor; [|done]. unfold has_version in H1. cbn. destruct (dk_versions d); [|discriminate]. by rewrite H1. }
  assert (∀ v p, v ∈ [7; 6; 5; 4; 3; 2; 1] → run (migrate_once v p) d = (Ok tt, d)) as Honce.
  { intros v p Hv. specialize (Hc v Hv). unfold migrate_once, count_version, has_version in *.
    rewrite run_bind_ok. cbn [query run]. destruct (dk_versions d) as [vs|]; [|discriminate].
    destruct (Z.eqb_spec (count_rows (Z.eqb v) vs) 0) as [E|]; [|done].
    apply bool_decide_eq_true in Hc. rewrite count_rows_zero in E. specialize (E v Hc).
    by rewrite Z.eqb_refl in E. }
  unfold migrate. rewrite run_bind_ok, Hschema. do 5 (rewrite run_bind_ok, Honce by by apply version_listed).
  by apply Honce, version_listed.
Qed.

#[local] Opaque migrate.

(** C32: a file of every version, from one that does not exist to one of the
    current version, is opened: the migrations it needs succeed, and it then holds
    the database the file described - every row it had, targets without a stored
    identity, grants with shell, SFTP and SCP but not forwarding - with no handle
    closed.  Opening it again changes nothing. *)
Theorem every_version_opens now e path d :
  good_file now d → check_file path (oe_lstat e path) = Ok tt → (∀ call, oe_answer e call = Ok tt) →
  ∃ trace d', run (Open e path) d = ((Ok tt, trace), d') ∧ CloseHandle ∉ trace ∧
    opened now d' = Some (disk_content now d) ∧ run migrate d' = (Ok tt, d').
Proof.
  intros [Hs Hw] Hf Ha. destruct (migrate_stage now _ Hw d (conj Hs eq_refl) Logic.I) as [Hm Hv].
  destruct (assures_run _ _ _ _ d (conj Hs eq_refl) Hm) as ([Hs' Hc'] & _ & Hcur).
  unfold value, final in *. unfold Open, prepare. rewrite Hf, Ha.
  assert (∀ calls, open_calls (oe_answer e) calls = (Ok tt, fst <$> calls)) as ->.
  { induction calls as [|[c w] calls IH]; [done|]. cbn. by rewrite Ha, IH. }
  rewrite run_bind. unfold value, final. destruct (run migrate d) as [[[]|] d'] eqn:Er; [|discriminate Hv].
  cbn [fst snd] in *. specialize (Hcur eq_refl). eexists _, d'. split; [reflexivity|]. split_and!.
  - rewrite app_nil_r. unfold setup_calls. destruct (path =s memory); cbn; rewrite !elem_of_cons, elem_of_nil; intuition discriminate.
  - rewrite <- Hc'. by apply current_opened.
  - by apply migrate_again, Hcur.
Qed.

(** C33: however many processes open the file at once, however their steps
    interleave, and wherever some of them stop, the file describes the same
    database and stays in a state some version has; a process whose migration has
    succeeded finds it at the current version; and an Open that comes later
    succeeds. *)
Theorem opens_lose_nothing now d n ps d' :
  good_file now d → interleaves (replicate n migrate, d) (ps, d') →
  good_file now d' ∧ disk_content now d' = disk_content now d ∧
  (Ret (Ok tt) ∈ ps → opened now d' = Some (disk_content now d)) ∧
  ∃ d'', run migrate d' = (Ok tt, d'') ∧ opened now d'' = Some (disk_content now d).
Proof.
  intros [Hs Hw] Hi. set (c := disk_content now d) in *.
  destruct (assures_pool (says now c) grows (λ r d', r = Ok tt → current d') (replicate n migrate) ps d d')
    as (Hd' & _ & Hps); [done|done| |].
  { apply Forall_replicate. apply (proj1 (migrate_stage now c Hw d (conj Hs eq_refl) Logic.I)). }
  pose proof Hd' as [Hs' Hc']. split_and!; [by split; rewrite ?Hc'|done| |].
  - intros Hin. rewrite Forall_forall in Hps. specialize (Hps _ Hin d' ltac:(done) Hd' eq_refl).
    rewrite <- Hc'. by apply current_opened.
  - destruct (migrate_stage now c Hw d' Hd' Logic.I) as [Hm Hv].
    destruct (assures_run _ _ _ _ d' Hd' Hm) as ([Hs2 Hc2] & _ & Hcur). unfold value, final in *.
    destruct (run migrate d') as [[[]|] d'']; [|discriminate Hv]. exists d''. split; [done|].
    rewrite <- Hc2. apply current_opened; [done|by apply Hcur].
Qed.

(** A handle that was opened is closed when Open fails. *)
Lemma failed_open_closes e path d err trace d' : run (Open e path) d = ((Err err, trace), d') →
  trace = [] ∨ trace = [SqlOpen (dsn_of e path)] ∨ last trace = Some CloseHandle.
Proof.
  assert (∀ calls r tr, open_calls (oe_answer e) calls = (r, tr) → is_ok r = false → last tr = Some CloseHandle) as Hcalls.
  { induction calls as [|[c w] calls IH]; cbn; intros r tr Hc Hr; [by simplify_eq|].
    destruct (oe_answer e c); [|by simplify_eq]. destruct (open_calls _ calls) as [r' tr'] eqn:E.
    simplify_eq. specialize (IH _ _ eq_refl Hr). cbn. by destruct tr'. }
  unfold Open. destruct (check_file _ _); [|intros [= <- <- <-]; by left]. unfold prepare.
  destruct (oe_answer e _); [|intros [= <- <- <-]; by right; left].
  destruct (open_calls _ _) as [[[]|er] tr] eqn:E; cbn [run].
  - rewrite run_bind. unfold value, final. destruct (run migrate d) as [[[]|er'] d1]; cbn; [discriminate|].
    intros [= <- <- <-]. right. right. by rewrite app_comm_cons, last_snoc.
  - intros [= <- <- <-]. right. right. specialize (Hcalls _ _ _ E eq_refl). by destruct tr.
Qed.

End open.

(** ** A file of version 1 *)

#[local] Existing Instances ascii_tables max_rowids max_rowids_laws sqlite_parser.

Definition sample_texts : SqliteTexts :=
  {| sqlite_error := λ text, "SQL logic error: " +:+ text; violation_report := λ _, "user_target_grants:1" |}.
#[local] Existing Instance sample_texts.

Definition before_identity (t : target_row) : old_target_row :=
  Old_target_row (t_id t) (t_name t) (t_host t) (t_port t) (t_remote_username t) (t_credential_kind t)
    (t_nonce t) (t_ciphertext t) (t_host_key_algorithm t) (t_host_public_key t) (t_enabled t)
    (t_created_at t) (t_updated_at t).

(** A database as version 1 stores it *)
Definition version_1 (d : db) : disk :=
  Disk (Some [1]) (Some d.(users)) (Some d.(gateway_keys)) (Some d.(groups_table)) (Some d.(group_members))
    (Some (Targets13 [CredentialPassword; CredentialPrivateKey] (before_identity <$> d.(targets))))
    (Some (Grants2 (grant_key <$> d.(user_target_grants)))) (Some (Grants2 (grant_key <$> d.(group_target_grants))))
    (Some d.(audit_events)) None None None None.

Definition legacy_calls : list call :=
  [AddUser_call "alice" "admin"; AddGatewayKey_call "alice" "SHA256:a" "ssh-ed25519 A" "laptop";
   AddUser_call "bob" "member"; AddGroup_call "ops"; SetGroupMember_call "ops" "bob" true;
   AddTarget_call (sample_target "web" "10.0.0.1"); SetGrant_call "web" "user" "bob" true;
   SetGrant_call "web" "group" "ops" true;
   Audit_call (event (Some 2) "bob" "10.1.1.1" "authentication" (Some 1) "" "")].

Definition legacy_db : db := Eval vm_compute in exec_all legacy_calls (empty_db noon).
Definition legacy_file : disk := Eval vm_compute in version_1 legacy_db.

Lemma legacy_db_wf : wf_db legacy_db.
Proof.
  assert (legacy_db = exec_all legacy_calls (empty_db noon)) as -> by by vm_compute.
  apply exec_all_wf, empty_db_wf.
Qed.

Lemma legacy_file_says : disk_content noon legacy_file = legacy_db.
Proof. by vm_compute. Qed.

Lemma legacy_file_good : good_file noon legacy_file.
Proof.
  split; [|rewrite legacy_file_says; apply legacy_db_wf].
  split; try done. cbn. split_and!; [done|done|].
  intros t [->|Ht]%elem_of_cons; [done|by apply not_elem_of_nil in Ht].
Qed.

Definition home : open_env :=
  {| oe_lstat := λ _, Found true 0x180; oe_file_url := λ path q, "file://" +:+ path +:+ "?" +:+ q;
     oe_answer := λ _, Ok tt |}.

Lemma every_version_opens_witness :
  ∃ trace d', run (Open home "/var/lib/sshgatew.db") legacy_file = ((Ok tt, trace), d') ∧
    CloseHandle ∉ trace ∧ opened noon d' = Some (disk_content noon legacy_file) ∧
    run migrate d' = (Ok tt, d').
Proof.
  apply (every_version_opens noon home "/var/lib/sshgatew.db" legacy_file); [apply legacy_file_good|done|done].
Defined.

(** Two processes open the file; one of them is overtaken and fails. *)
Definition two_opens : list (stmt) * disk :=
  schedule (replicate 11 0%nat ++ replicate 40 1%nat ++ replicate 10 0%nat)
    (replicate 2 migrate) legacy_file.

Lemma opens_lose_nothing_witness :
  two_opens.1 !! 1%nat = Some (Ret (Ok tt)) ∧
  (∃ e, two_opens.1 !! 0%nat = Some (Ret (Err e))) ∧
  good_file noon two_opens.2 ∧ opened noon two_opens.2 = Some legacy_db.
Proof.
  assert (interleaves (replicate 2 migrate, legacy_file) two_opens) as Hi by apply schedule_interleaves.
  split_and!; [by vm_compute|by eexists; vm_compute| |].
  - rewrite (surjective_pairing two_opens) in Hi.
    by apply (opens_lose_nothing noon legacy_file 2 two_opens.1 two_opens.2 legacy_file_good).
  - by vm_compute.
Defined.

(** A grant whose target is gone: the file is migrated, and refused by the check
    that follows - but the migration is recorded, so the check runs once only,
    and the third Open succeeds on the same rows. *)
Definition orphaned_file : disk := put_grants (Some (Grants2 [(2, 9)])) (Some (Grants2 [])) legacy_file.

Example failed_check_is_forgotten :
  let first := run migrate orphaned_file in
  let second := run migrate first.2 in
  let third := run migrate second.2 in
  first.1 = Err (Msg "foreign key check failed after migration: user_target_grants:1") ∧
  second.1 = Err (Msg "foreign key check failed after identity migration: user_target_grants:1") ∧
  third.1 = Ok tt ∧ foreign_keys_ok (disk_content noon third.2) = false.
Proof. by vm_compute. Qed.

(** Without the PRAGMA, dropping the old table would delete what refers to it. *)
Example pragma_keeps_the_grants :
  dk_user_grants (final (rebuild_targets_v2 true) legacy_file) = Some (Grants2 []) ∧
  dk_user_grants (final (rebuild_targets_v2 false) legacy_file) = Some (Grants2 [(2, 1)]).
Proof. by vm_compute. Qed.
