(* ===== verification/Crypto.v ===== *)
(** * The hashing and encoding the TOTP code uses

    crypto/sha1, crypto/hmac and encoding/base32 (standard alphabet, no padding)
    of the Go standard library, on bytes as integers below 256. *)

From S2P Require Import Prelude GoStrings.

(** ** 32-bit words *)

Definition w32 (z : Z) : Z := Z.land z 0xFFFFFFFF.
Definition add32 (a b : Z) : Z := w32 (a + b).
Definition rotl (n z : Z) : Z := w32 (Z.lor (Z.shiftl z n) (Z.shiftr z (32 - n))).
Definition not32 (z : Z) : Z := Z.lxor z 0xFFFFFFFF.

(** Big-endian groups of bytes. *)
Definition be32 (a b c d : Z) : Z :=
  Z.lor (Z.shiftl a 24) (Z.lor (Z.shiftl b 16) (Z.lor (Z.shiftl c 8) d)).

Definition be_bytes (n : nat) (z : Z) : list Z :=
  (λ i, Z.land (Z.shiftr z (8 * Z.of_nat i)) 0xFF) <$> rev (seq 0 n).

Fixpoint be_words (l : list Z) : list Z :=
  match l with
  | a :: b :: c :: d :: r => be32 a b c d :: be_words r
  | _ => []
  end.

(** ** SHA-1 *)

Record digest := Digest { h0 : Z; h1 : Z; h2 : Z; h3 : Z; h4 : Z }.

Definition sha1_init : digest := Digest 0x67452301 0xEFCDAB89 0x98BADCFE 0x10325476 0xC3D2E1F0.

(** The message schedule, newest word first: sixteen words of the block, then
    rotl 1 of the exclusive or of four earlier words. *)
Fixpoint sha1_expand (n : nat) (ws : list Z) : list Z :=
  match n with
  | O => ws
  | S n' =>
    let w := rotl 1 (Z.lxor (Z.lxor (nth 2 ws 0) (nth 7 ws 0)) (Z.lxor (nth 13 ws 0) (nth 15 ws 0))) in
    sha1_expand n' (w :: ws)
  end.

Definition sha1_f (i : Z) (b c d : Z) : Z * Z :=
  if i <? 20 then (Z.lor (Z.land b c) (Z.land (not32 b) d), 0x5A827999)
  else if i <? 40 then (Z.lxor b (Z.lxor c d), 0x6ED9EBA1)
  else if i <? 60 then (Z.lor (Z.land (Z.lor b c) d) (Z.land b c), 0x8F1BBCDC)
  else (Z.lxor b (Z.lxor c d), 0xCA62C1D6).

Definition sha1_round (x : digest) (i : Z) (w : Z) : digest :=
  let '(f, k) := sha1_f i (h1 x) (h2 x) (h3 x) in
  Digest (w32 (rotl 5 (h0 x) + f + h4 x + w + k)) (h0 x) (rotl 30 (h1 x)) (h2 x) (h3 x).

Fixpoint sha1_rounds (x : digest) (i : Z) (ws : list Z) : digest :=
  match ws with
  | [] => x
  | w :: r => sha1_rounds (sha1_round x i w) (i + 1) r
  end.

Definition sha1_block (h : digest) (block : list Z) : digest :=
  let x := sha1_rounds h 0 (rev (sha1_expand 64 (rev (be_words block)))) in
  Digest (add32 (h0 h) (h0 x)) (add32 (h1 h) (h1 x)) (add32 (h2 h) (h2 x))
         (add32 (h3 h) (h3 x)) (add32 (h4 h) (h4 x)).

(** The message, the byte 0x80, zeros, and the length in bits. *)
Definition sha1_pad (m : list Z) : list Z :=
  let n := length m in
  let zeros := ((119 - n mod 64) mod 64)%nat in
  m ++ 0x80 :: replicate zeros 0 ++ be_bytes 8 (8 * Z.of_nat n).

Fixpoint sha1_blocks (fuel : nat) (h : digest) (m : list Z) : digest :=
  match fuel, m with
  | S f, _ :: _ => sha1_blocks f (sha1_block h (take 64 m)) (drop 64 m)
  | _, _ => h
  end.

Definition digest_bytes (h : digest) : list Z :=
  be_bytes 4 (h0 h) ++ be_bytes 4 (h1 h) ++ be_bytes 4 (h2 h) ++ be_bytes 4 (h3 h) ++ be_bytes 4 (h4 h).

Definition sha1_Sum (m : list Z) : list Z :=
  digest_bytes (sha1_blocks (length (sha1_pad m)) sha1_init (sha1_pad m)).

(** ** HMAC *)

Definition hmac_sha1 (key message : list Z) : list Z :=
  let k := if (64 <? length key)%nat then sha1_Sum key else key in
  let block := k ++ replicate (64 - length k) 0 in
  sha1_Sum ((Z.lxor 0x5C <$> block) ++ sha1_Sum ((Z.lxor 0x36 <$> block) ++ message)).

(** ** Base 32, without padding *)

Definition base32_char (v : Z) : ascii := if v <? 26 then chr (0x41 + v) else chr (0x32 + (v - 26)).

Definition base32_value (c : ascii) : option Z :=
  if in_range 0x41 0x5A (byte c) then Some (byte c - 0x41)
  else if in_range 0x32 0x37 (byte c) then Some (byte c - 0x32 + 26)
  else None.

(** Five bytes as eight groups of five bits. *)
Definition quantum (a b c d e : Z) : list Z :=
  [Z.shiftr a 3;
   Z.lor (Z.land (Z.shiftl a 2) 0x1C) (Z.shiftr b 6);
   Z.land (Z.shiftr b 1) 0x1F;
   Z.lor (Z.land (Z.shiftl b 4) 0x10) (Z.shiftr c 4);
   Z.lor (Z.land (Z.shiftl c 1) 0x1E) (Z.shiftr d 7);
   Z.land (Z.shiftr d 2) 0x1F;
   Z.lor (Z.land (Z.shiftl d 3) 0x18) (Z.shiftr e 5);
   Z.land e 0x1F].

Fixpoint base32_groups (l : list Z) : list Z :=
  match l with
  | [] => []
  | [a] => take 2 (quantum a 0 0 0 0)
  | [a; b] => take 4 (quantum a b 0 0 0)
  | [a; b; c] => take 5 (quantum a b c 0 0)
  | [a; b; c; d] => take 7 (quantum a b c d 0)
  | a :: b :: c :: d :: e :: r => quantum a b c d e ++ base32_groups r
  end.

Definition base32_EncodeToString (l : list Z) : string :=
  String.string_of_list_ascii (base32_char <$> base32_groups l).

Definition b8 (z : Z) : Z := Z.land z 0xFF.

(** The bytes of a quantum of [dlen] groups; 1, 3 and 6 groups give none. *)
Definition unquantum (v : list Z) : list Z :=
  let g i := nth i v 0 in
  let b0 := b8 (Z.lor (Z.shiftl (g 0%nat) 3) (Z.shiftr (g 1%nat) 2)) in
  let b1 := b8 (Z.lor (Z.lor (Z.shiftl (g 1%nat) 6) (Z.shiftl (g 2%nat) 1)) (Z.shiftr (g 3%nat) 4)) in
  let b2 := b8 (Z.lor (Z.shiftl (g 3%nat) 4) (Z.shiftr (g 4%nat) 1)) in
  let b3 := b8 (Z.lor (Z.lor (Z.shiftl (g 4%nat) 7) (Z.shiftl (g 5%nat) 2)) (Z.shiftr (g 6%nat) 3)) in
  let b4 := b8 (Z.lor (Z.shiftl (g 6%nat) 5) (g 7%nat)) in
  match length v with
  | 8%nat => [b0; b1; b2; b3; b4]
  | 7%nat => [b0; b1; b2; b3]
  | 5%nat => [b0; b1; b2]
  | 4%nat => [b0; b1]
  | 2%nat => [b0]
  | _ => []
  end.

Fixpoint base32_bytes (vs : list Z) : list Z :=
  match vs with
  | a :: b :: c :: d :: e :: f :: g :: h :: r => unquantum [a; b; c; d; e; f; g; h] ++ base32_bytes r
  | _ => unquantum vs
  end.

Fixpoint base32_values (s : string) : option (list Z) :=
  match s with
  | EmptyString => Some []
  | String c t =>
    if (byte c =? 0x0D) || (byte c =? 0x0A) then base32_values t
    else match base32_value c, base32_values t with
         | Some v, Some r => Some (v :: r)
         | _, _ => None
         end
  end.

(** Line breaks are dropped, any other byte outside the alphabet is an error. *)
Definition base32_DecodeString (s : string) : option (list Z) :=
  match base32_values s with
  | Some vs => Some (base32_bytes vs)
  | None => None
  end.

(** ** The round trip of base 32 *)

Definition is_byte (z : Z) : Prop := 0 <= z < 256.

(** The length of the message is fuel enough for its blocks of 64 bytes. *)
Lemma sha1_blocks_fuel f g h m :
  (length m <= f)%nat → (length m <= g)%nat → sha1_blocks f h m = sha1_blocks g h m.
Proof.
  revert g h m. induction f as [|f IH]; intros [|g] h [|b m] Hf Hg; cbn in Hf, Hg; try done; try lia.
  cbn [sha1_blocks]. apply IH; rewrite length_drop; cbn [length]; lia.
Qed.

Lemma byte_high z n : is_byte z → 8 <= n → Z.testbit z n = false.
Proof.
  intros Hz Hn. destruct (Z.eq_dec z 0) as [->|]; [apply Z.testbit_0_l|].
  apply Z.bits_above_log2; [unfold is_byte in Hz; lia|].
  apply Z.log2_lt_pow2; [unfold is_byte in Hz; lia|].
  apply Z.lt_le_trans with (2 ^ 8); [unfold is_byte in Hz; lia|]. apply Z.pow_le_mono_r; lia.
Qed.

(** [byte_bits] proves an equation of bytes bit by bit. *)
Ltac eval_bits :=
  repeat first
    [ rewrite Z.land_spec | rewrite Z.lor_spec | rewrite Z.lxor_spec
    | rewrite Z.shiftl_spec by lia | rewrite Z.shiftr_spec by lia
    | rewrite Z.testbit_neg_r by lia ];
  repeat match goal with
  | |- context [Z.testbit ?x ?n] =>
      let m := eval vm_compute in n in progress change (Z.testbit x n) with (Z.testbit x m)
  end;
  repeat match goal with
  | |- context [Z.testbit ?x ?n] =>
      first [ is_var x; fail 1
            | let v := eval vm_compute in (Z.testbit x n) in change (Z.testbit x n) with v ]
  end;
  rewrite ?andb_true_r, ?andb_false_r, ?orb_false_r, ?orb_false_l.

Ltac byte_bits :=
  apply Z.bits_inj'; intros n Hn; unfold b8;
  destruct (Z.lt_ge_cases n 8) as [Hlt|Hge];
  [ assert (n = 0 ∨ n = 1 ∨ n = 2 ∨ n = 3 ∨ n = 4 ∨ n = 5 ∨ n = 6 ∨ n = 7) as Hcase by lia;
    clear Hn Hlt; repeat (destruct Hcase as [->|Hcase]; [|]); try subst n; eval_bits;
    rewrite ?(byte_high _ 8), ?(byte_high _ 9), ?(byte_high _ 10), ?(byte_high _ 11),
      ?(byte_high _ 12), ?(byte_high _ 13), ?(byte_high _ 14),
      ?(byte_high _ 15), ?(byte_high _ 16), ?(byte_high _ 17) by (done || lia);
    rewrite ?orb_false_r, ?orb_false_l; try reflexivity
  | rewrite Z.land_spec, (byte_high 0xFF), andb_false_r by (unfold is_byte; lia);
    symmetry; by apply byte_high ].

Lemma unquantum_quantum a b c d e :
  is_byte a → is_byte b → is_byte c → is_byte d → is_byte e →
  unquantum (quantum a b c d e) = [a; b; c; d; e].
Proof.
  intros Ha Hb Hc Hd He. unfold unquantum, quantum. cbn [length nth].
  repeat f_equal. 
  - byte_bits.
  - byte_bits.
  - byte_bits.
  - byte_bits.
  - byte_bits.
Qed.

Lemma zero_byte : is_byte 0.
Proof. unfold is_byte. lia. Qed.

Lemma base32_bytes_groups l : Forall is_byte l → base32_bytes (base32_groups l) = l.
Proof.
  remember (length l) as n eqn:En. revert l En.
  induction (lt_wf n) as [n _ IH]; intros l -> Hl. pose proof zero_byte as H0.
  destruct l as [|a [|b [|c [|d [|e r]]]]]; [done|..]; rewrite ?Forall_cons in Hl; destruct_and! Hl.
  - pose proof (unquantum_quantum a 0 0 0 0) as E. ospecialize* E; [done..|]. cbn [take base32_groups quantum base32_bytes unquantum length nth] in *; congruence.
  - pose proof (unquantum_quantum a b 0 0 0) as E. ospecialize* E; [done..|]. cbn [take base32_groups quantum base32_bytes unquantum length nth] in *; congruence.
  - pose proof (unquantum_quantum a b c 0 0) as E. ospecialize* E; [done..|]. cbn [take base32_groups quantum base32_bytes unquantum length nth] in *; congruence.
  - pose proof (unquantum_quantum a b c d 0) as E. ospecialize* E; [done..|]. cbn [take base32_groups quantum base32_bytes unquantum length nth] in *; congruence.
  - change (base32_bytes (base32_groups (a :: b :: c :: d :: e :: r))) with
      (unquantum (quantum a b c d e) ++ base32_bytes (base32_groups r)).
    rewrite unquantum_quantum by done. cbn. do 5 f_equal. by apply (IH (length r)); [cbn; lia| |].
Qed.

Definition five_bits (z : Z) : Prop := 0 <= z < 32.

Lemma five_bits_lor a b : five_bits a → five_bits b → five_bits (Z.lor a b).
Proof.
  unfold five_bits. intros Ha Hb. split; [by apply Z.lor_nonneg; lia|].
  destruct (Z.eq_dec (Z.lor a b) 0) as [->|Hne]; [lia|].
  assert (0 <= Z.lor a b) by (apply Z.lor_nonneg; lia).
  apply (Z.log2_lt_pow2 _ 5); [lia|]. rewrite Z.log2_lor by lia.
  assert (∀ x, 0 <= x < 32 → Z.log2 x < 5) as Hx.
  { intros x Hx. destruct (Z.eq_dec x 0) as [->|]; [by vm_compute|]. apply Z.log2_lt_pow2; lia. }
  apply Z.max_lub_lt; by apply Hx.
Qed.

Lemma five_bits_land a m : five_bits m → five_bits (Z.land a m).
Proof.
  unfold five_bits. intros Hm.
  assert (Z.land a m = (Z.land a m) mod 2 ^ 5) as ->; [|by apply Z.mod_pos_bound].
  rewrite <- Z.land_ones, <- Z.land_assoc, Z.land_ones by lia. by rewrite (Z.mod_small m).
Qed.

Lemma five_bits_shiftr a k : is_byte a → 3 <= k → five_bits (Z.shiftr a k).
Proof.
  unfold is_byte, five_bits. intros Ha Hk. rewrite Z.shiftr_div_pow2 by lia.
  assert (2 ^ 3 <= 2 ^ k) by (apply Z.pow_le_mono_r; lia).
  split; [by apply Z.div_pos; lia|]. apply Z.div_lt_upper_bound; nia.
Qed.

Lemma quantum_five_bits a b c d e :
  is_byte a → is_byte b → is_byte c → is_byte d → is_byte e → Forall five_bits (quantum a b c d e).
Proof.
  intros. unfold quantum. repeat constructor; repeat apply five_bits_lor;
    try (by apply five_bits_shiftr; [|lia]); try (by apply five_bits_land; unfold five_bits; lia).
Qed.

Lemma groups_five_bits l : Forall is_byte l → Forall five_bits (base32_groups l).
Proof.
  remember (length l) as n eqn:En. revert l En.
  induction (lt_wf n) as [n _ IH]; intros l -> Hl. pose proof zero_byte as H0.
  destruct l as [|a [|b [|c [|d [|e r]]]]]; [done|..]; rewrite ?Forall_cons in Hl; destruct_and! Hl.
  1-4: by apply Forall_take, quantum_five_bits.
  change (base32_groups (a :: b :: c :: d :: e :: r)) with (quantum a b c d e ++ base32_groups r).
  apply Forall_app. split; [by apply quantum_five_bits|]. by apply (IH (length r)); [cbn; lia| |].
Qed.

Lemma five_bits_check (p : Z → bool) :
  forallb p (Z.of_nat <$> seq 0 32) = true → ∀ v, five_bits v → p v = true.
Proof.
  intros Hp v Hv. rewrite forallb_true in Hp. apply Hp, list_elem_of_fmap.
  exists (Z.to_nat v). unfold five_bits in Hv. split; [lia|]. apply elem_of_seq. lia.
Qed.

Lemma base32_value_char v : five_bits v → base32_value (base32_char v) = Some v.
Proof.
  intros Hv.
  pose proof (five_bits_check
    (λ v, match base32_value (base32_char v) with Some w => w =? v | None => false end)) as Hc.
  specialize (Hc ltac:(by vm_compute) v Hv). cbn in Hc.
  destruct (base32_value (base32_char v)) as [w|]; [|done]. by apply Z.eqb_eq in Hc as ->.
Qed.

(** The alphabet: no white space, no line break, no lower case. *)
Definition base32_byte (c : ascii) : bool := in_range 0x41 0x5A (byte c) || in_range 0x32 0x37 (byte c).

Lemma base32_char_byte v : five_bits v → base32_byte (base32_char v) = true.
Proof. apply (five_bits_check (λ v, base32_byte (base32_char v))). by vm_compute. Qed.

Lemma base32_values_chars vs : Forall five_bits vs →
  base32_values (String.string_of_list_ascii (base32_char <$> vs)) = Some vs.
Proof.
  induction 1 as [|v vs Hv _ IH]; [done|]. cbn [fmap list_fmap String.string_of_list_ascii base32_values].
  pose proof (base32_char_byte v Hv) as Hb. rewrite base32_value_char, IH by done.
  assert ((byte (base32_char v) =? 0x0D) || (byte (base32_char v) =? 0x0A) = false) as ->; [|done].
  unfold base32_byte, in_range in Hb. apply orb_false_iff. rewrite !Z.eqb_neq.
  apply orb_true_iff in Hb as [Hb|Hb]; bool_simp; lia.
Qed.

(** Decoding what was encoded. *)
Lemma base32_decode_encode l : Forall is_byte l →
  base32_DecodeString (base32_EncodeToString l) = Some l.
Proof.
  intros Hl. unfold base32_DecodeString, base32_EncodeToString.
  rewrite base32_values_chars by by apply groups_five_bits. by rewrite base32_bytes_groups.
Qed.

Lemma base32_encode_bytes l : Forall is_byte l → sforall base32_byte (base32_EncodeToString l) = true.
Proof.
  intros Hl%groups_five_bits. unfold base32_EncodeToString.
  induction Hl as [|v vs Hv _ IH]; [done|]. cbn. rewrite base32_char_byte by done. exact IH.
Qed.
