(* ===== verification/Totp.v ===== *)
(** * internal/totp

    Enrolment secrets, codes and their validation, the otpauth URI and the
    rendering of its QR code.  An instant is given by its Unix seconds. *)

From S2P Require Import Prelude GoStrings Crypto.

Definition Period : Z := 30.
Definition Digits : Z := 6.

(** 64-bit integers *)
Definition to_uint64 (z : Z) : Z := z mod 2 ^ 64.
Definition wrap_int64 (z : Z) : Z := (z + 2 ^ 63) mod 2 ^ 64 - 2 ^ 63.

(** The bytes of the secret come from crypto/rand. *)
Definition GenerateSecret (random : list Z) : string := base32_EncodeToString (take 20 random).

Section totp.
Context `{UnicodeTables}.

(** [fmt.Sprintf("%06d", v)] for a non-negative [v] *)
Definition format_code (v : Z) : string :=
  let s := Itoa v in String.string_of_list_ascii (replicate (Z.to_nat Digits - String.length s) "0"%char) +:+ s.

(** The dynamic truncation of RFC 4226. *)
Definition truncate (sum : list Z) : Z :=
  let offset := Z.to_nat (Z.land (nth (length sum - 1) sum 0) 0x0F) in
  match take 4 (drop offset sum) with
  | [a; b; c; d] => Z.land (be32 a b c d) 0x7FFFFFFF
  | _ => 0
  end.

Definition codeAt (secret : string) (counter : Z) : option string :=
  match base32_DecodeString (ToUpper (TrimSpace secret)) with
  | None => None
  | Some key =>
    let sum := hmac_sha1 key (be_bytes 8 (to_uint64 counter)) in
    Some (format_code (truncate sum mod 1000000))
  end.

Definition counter_at (unix : Z) : Z := Z.quot unix Period.

Definition Code (secret : string) (unix : Z) : option (string * Z) :=
  let counter := counter_at unix in
  match codeAt secret counter with
  | Some code => Some (code, counter)
  | None => None
  end.

(** The loop over the offsets -1, 0 and 1 *)
Fixpoint first_match (secret candidate : string) (counters : list Z) : option Z :=
  match counters with
  | [] => None
  | c :: r =>
    match codeAt secret c with
    | Some expected => if expected =s candidate then Some c else first_match secret candidate r
    | None => first_match secret candidate r
    end
  end.

Definition Validate (secret candidate : string) (unix : Z) : option Z :=
  let candidate := TrimSpace candidate in
  if negb (len candidate =? Digits) then None
  else
    let counter := counter_at unix in
    first_match secret candidate [wrap_int64 (counter - 1); counter; wrap_int64 (counter + 1)].

End totp.

(** ** The otpauth URI *)

(** net/url: a byte as %XX *)
Definition hex_upper (d : Z) : ascii := if d <? 10 then chr (0x30 + d) else chr (0x37 + d).
Definition percent (c : ascii) : string :=
  String "%" (String (hex_upper (byte c / 16)) (str1 (hex_upper (byte c mod 16)))).

Definition unreserved (c : ascii) : bool :=
  is_lower_ascii (byte c) || is_upper_ascii (byte c) || is_digit c || mem_byte c "-_.~".

Fixpoint escape_with (keep : ascii → bool) (space : string) (s : string) : string :=
  match s with
  | EmptyString => ""
  | String c t =>
    (if Ascii.eqb c " " then space else if keep c then str1 c else percent c)
    +:+ escape_with keep space t
  end.

(** [url.PathEscape] and [url.QueryEscape] *)
Definition PathEscape (s : string) : string :=
  escape_with (λ c, unreserved c || mem_byte c "$&+:=@") "%20" s.
Definition QueryEscape (s : string) : string := escape_with unreserved "+" s.

(** [url.Values.Encode] sorts the keys: issuer, secret. *)
Definition URI (issuer account secret : string) : string :=
  "otpauth://totp/" +:+ PathEscape account +:+ "?" +:+
  "issuer=" +:+ QueryEscape issuer +:+ "&secret=" +:+ QueryEscape secret.

(** ** The QR code *)

(** The modules of a code, by row: the library's bitmap without a border, which
    is square, so that the indices below stay in range. *)
Definition bitmap := list (list bool).

Inductive half_block := FullBlock | UpperHalf | LowerHalf | Blank.

Definition half_block_rune (h : half_block) : Z :=
  match h with FullBlock => 0x2588 | UpperHalf => 0x2580 | LowerHalf => 0x2584 | Blank => 0x20 end.

Definition quiet : Z := 4.

(** [y >= 0 && y < size && x >= 0 && x < size && bitmap[y][x]] *)
Definition module_at (b : bitmap) (y x : Z) : bool :=
  let size := Z.of_nat (length b) in
  if (0 <=? y) && (y <? size) && (0 <=? x) && (x <? size)
  then nth (Z.to_nat x) (nth (Z.to_nat y) b []) false else false.

Definition qr_cell (b : bitmap) (y x : Z) : half_block :=
  match module_at b y x, module_at b (y + 1) x with
  | true, true => FullBlock
  | true, false => UpperHalf
  | false, true => LowerHalf
  | false, false => Blank
  end.

Definition upto (lo hi step : Z) : list Z :=
  (λ i, lo + step * Z.of_nat i) <$> seq 0 (Z.to_nat ((hi - lo + step - 1) / step)).

Definition qr_line (b : bitmap) (y : Z) : list half_block :=
  qr_cell b y <$> upto (- quiet) (Z.of_nat (length b) + quiet) 1.

Definition qr_lines (b : bitmap) : list (list half_block) :=
  qr_line b <$> upto (- quiet) (Z.of_nat (length b) + quiet) 2.

(** [QR]: the library makes the bitmap or fails. *)
Definition QR (encode : string → option bitmap) (content : string) : option (list string) :=
  match encode content with
  | None => None
  | Some b => Some (map (λ line, concat_strings (map (λ h, encode_rune (half_block_rune h)) line)) (qr_lines b))
  end.

(** ** Codes *)

Lemma truncate_range sum : 0 <= truncate sum < 2 ^ 31.
Proof.
  unfold truncate. destruct (take 4 _) as [|a [|b [|c [|d [|? ?]]]]]; try lia.
  change 0x7FFFFFFF with (Z.ones 31). rewrite Z.land_ones by lia. by apply Z.mod_pos_bound.
Qed.

Lemma length_string_of_list l : String.length (String.string_of_list_ascii l) = length l.
Proof. induction l; cbn; congruence. Qed.

Lemma sforall_replicate p n c : p c = true →
  sforall p (String.string_of_list_ascii (replicate n c)) = true.
Proof. intros Hp. induction n; cbn; [done|]. by rewrite Hp. Qed.

Lemma digits_value_zeros n s :
  digits_value 0 (String.string_of_list_ascii (replicate n "0"%char) +:+ s) = digits_value 0 s.
Proof. induction n; cbn; done. Qed.

(** A code has six digits, and they are its value. *)
Lemma format_code_spec v : 0 <= v < 10 ^ 6 →
  len (format_code v) = 6 ∧ sforall is_digit (format_code v) = true ∧ digits_value 0 (format_code v) = Some v.
Proof.
  intros Hv. destruct (Itoa_nonneg v) as (Hd & Hs & _); [lia|].
  pose proof (Itoa_len v 6 ltac:(lia) ltac:(lia)) as Hl. unfold format_code. split_and!.
  - unfold len in *. rewrite length_append, length_string_of_list, length_replicate. unfold Digits. lia.
  - rewrite sforall_app, Hs, sforall_replicate by done. done.
  - by rewrite digits_value_zeros.
Qed.

Section codes.
Context `{UnicodeTables}.

Lemma codeAt_shape secret counter code : codeAt secret counter = Some code →
  len code = 6 ∧ sforall is_digit code = true.
Proof.
  unfold codeAt. destruct (base32_DecodeString _) as [key|]; intros [= <-].
  destruct (format_code_spec (truncate (hmac_sha1 key (be_bytes 8 (to_uint64 counter))) mod 1000000))
    as (? & ? & _); [|done].
  by apply Z.mod_pos_bound.
Qed.

Lemma first_match_spec secret candidate cs :
  match first_match secret candidate cs with
  | Some c => c ∈ cs ∧ codeAt secret c = Some candidate
  | None => ∀ c, c ∈ cs → codeAt secret c ≠ Some candidate
  end.
Proof.
  induction cs as [|c cs IH]; cbn; [by intros c ?%not_elem_of_nil|].
  destruct (codeAt secret c) as [e|] eqn:E; [destruct (e =s candidate) eqn:Ee|].
  - bool_simp. subst. split; [left|done].
  - destruct (first_match _ _ cs) as [c'|]; [destruct IH; split; [by right|done]|].
    intros c' [->|Hc]%elem_of_cons; [|by apply IH]. rewrite E. intros [= ->].
    by rewrite String.eqb_refl in Ee.
  - destruct (first_match _ _ cs) as [c'|]; [destruct IH; split; [by right|done]|].
    intros c' [->|Hc]%elem_of_cons; [|by apply IH]. by rewrite E.
Qed.

Lemma wrap_small z : in_int64 z = true → wrap_int64 z = z.
Proof.
  unfold in_int64, in_range, wrap_int64, min_int64, max_int64. intros. bool_simp.
  rewrite Z.mod_small; lia.
Qed.

Lemma counter_in_window unix c : in_int64 unix = true → -1 <= c <= 1 →
  wrap_int64 (counter_at unix + c) = counter_at unix + c.
Proof.
  intros Hu Hc. apply wrap_small. unfold in_int64, in_range, min_int64, max_int64, counter_at, Period in *.
  bool_simp. pose proof (Z.quot_rem' unix 30). pose proof (Z.rem_bound_abs unix 30 ltac:(done)).
  apply andb_true_iff. rewrite !Z.leb_le. lia.
Qed.

Lemma Validate_run secret candidate unix : in_int64 unix = true →
  match Validate secret candidate unix with
  | Some c => counter_at unix - 1 <= c <= counter_at unix + 1 ∧ codeAt secret c = Some (TrimSpace candidate)
  | None => ∀ c, counter_at unix - 1 <= c <= counter_at unix + 1 →
                 codeAt secret c ≠ Some (TrimSpace candidate)
  end.
Proof.
  intros Hu. unfold Validate. destruct (negb _) eqn:El.
  - intros c _ Hc. apply codeAt_shape in Hc as [Hc _]. by rewrite Hc in El.
  - pose proof (first_match_spec secret (TrimSpace candidate)
      [wrap_int64 (counter_at unix - 1); counter_at unix; wrap_int64 (counter_at unix + 1)]) as Hm.
    pose proof (counter_in_window unix (-1) Hu ltac:(lia)) as E1.
    pose proof (counter_in_window unix 1 Hu ltac:(lia)) as E2.
    change (counter_at unix + -1) with (counter_at unix - 1) in E1. rewrite E1, E2 in *.
    destruct (first_match _ _ _) as [c|].
    + destruct Hm as [Hc Hcode]. split; [|done]. rewrite !elem_of_cons, elem_of_nil in Hc. lia.
    + intros c Hc. apply Hm. rewrite !elem_of_cons. lia.
Qed.

(** Codes are plain digits: trimming leaves them alone. *)
Lemma TrimSpace_digits s : sforall is_digit s = true → TrimSpace s = s.
Proof.
  intros Hs. apply TrimSpace_ascii_id. eapply sforall_impl; [|exact Hs]. intros c Hc.
  pose proof (ascii_forall (λ c, implb (is_digit c) (ascii_byte c && negb (IsSpace (byte c))))
    ltac:(vm_compute; reflexivity) c) as Hi. cbn beta in Hi. by rewrite Hc in Hi.
Qed.

(** ** Secrets *)

Lemma ToUpper_base32 s : sforall base32_byte s = true → ToUpper (TrimSpace s) = s.
Proof.
  intros Hs. rewrite TrimSpace_ascii_id.
  - unfold ToUpper. assert (is_ascii s = true) as ->.
    { eapply sforall_impl; [|exact Hs]. intros c Hc.
      pose proof (ascii_forall (λ c, implb (base32_byte c) (ascii_byte c))
        ltac:(vm_compute; reflexivity) c) as Hi. cbn beta in Hi. by rewrite Hc in Hi. }
    apply smap_id. eapply sforall_impl; [|exact Hs]. intros c Hc.
    pose proof (ascii_forall (λ c, implb (base32_byte c) (Ascii.eqb (upper_byte c) c))
      ltac:(vm_compute; reflexivity) c) as Hi. cbn beta in Hi. by rewrite Hc in Hi.
  - eapply sforall_impl; [|exact Hs]. intros c Hc.
    pose proof (ascii_forall (λ c, implb (base32_byte c) (ascii_byte c && negb (IsSpace (byte c))))
      ltac:(vm_compute; reflexivity) c) as Hi. cbn beta in Hi. by rewrite Hc in Hi.
Qed.

(** The secret an enrolment generates decodes to the random bytes. *)
Lemma codeAt_generated random counter : Forall is_byte random →
  codeAt (GenerateSecret random) counter =
    Some (format_code (truncate (hmac_sha1 (take 20 random) (be_bytes 8 (to_uint64 counter))) mod 1000000)).
Proof.
  intros Hr. unfold codeAt, GenerateSecret.
  rewrite ToUpper_base32 by by apply base32_encode_bytes, Forall_take.
  by rewrite base32_decode_encode by by apply Forall_take.
Qed.

(** ** Properties *)

(** RFC 6238.  With the RFC's SHA-1 secret, the codes at its six instants
    are the last six digits of its test vectors. *)
Theorem rfc6238_test_vectors :
  map (Code (base32_EncodeToString (bytes_of "12345678901234567890")))
      [59; 1111111109; 1111111111; 1234567890; 2000000000; 20000000000] =
  [Some ("287082", 1); Some ("081804", 37037036); Some ("050471", 37037037);
   Some ("005924", 41152263); Some ("279037", 66666666); Some ("353130", 666666666)].
Proof. by vm_compute. Qed.

(** An enrolled secret always yields codes.  Base 32 decodes what
    [GenerateSecret] encoded, so every counter has a code - the RFC 4226
    truncation of the HMAC of the random bytes - of exactly six digits. *)
Theorem generated_secret_yields_codes random counter :
  Forall is_byte random →
  ∃ code, codeAt (GenerateSecret random) counter = Some code ∧
    len code = 6 ∧ sforall is_digit code = true ∧
    digits_value 0 code =
      Some (truncate (hmac_sha1 (take 20 random) (be_bytes 8 (to_uint64 counter))) mod 1000000).
Proof.
  intros Hr. rewrite (codeAt_generated random counter Hr). eexists. split; [reflexivity|].
  apply format_code_spec. by apply Z.mod_pos_bound.
Qed.

(** [Validate] is sound and complete.  It answers with a counter of the
    window - the current 30 second step and its two neighbours - whose code is
    the candidate without surrounding space, and rejects exactly when no counter
    of the window has that code. *)
Theorem validate_window secret candidate unix :
  in_int64 unix = true →
  match Validate secret candidate unix with
  | Some c => counter_at unix - 1 <= c <= counter_at unix + 1 ∧ codeAt secret c = Some (TrimSpace candidate)
  | None => ∀ c, counter_at unix - 1 <= c <= counter_at unix + 1 →
                 codeAt secret c ≠ Some (TrimSpace candidate)
  end.
Proof. apply Validate_run. Qed.

(** Clock skew.  A code computed at one instant validates at every instant
    at most 30 seconds away. *)
Theorem code_valid_with_skew secret t1 t2 code c :
  in_int64 t2 = true → Z.abs (t1 - t2) <= Period →
  Code secret t1 = Some (code, c) → ∃ c', Validate secret code t2 = Some c'.
Proof.
  intros Ht Hd. unfold Code. destruct (codeAt secret (counter_at t1)) as [s|] eqn:E; intros [= -> <-].
  pose proof (Validate_run secret code t2 Ht) as Hv. destruct (Validate _ _ _) as [c'|]; [by exists c'|].
  destruct (Hv (counter_at t1)).
  - unfold counter_at, Period in *.
    Z.to_euclidean_division_equations. lia.
  - rewrite E. f_equal. symmetry. apply TrimSpace_digits. by apply codeAt_shape in E as [_ E].
Qed.
End codes.

(** ** Witnesses *)

#[local] Existing Instance ascii_tables.

Definition rfc_secret : string := "GEZDGNBVGY3TQOJQGEZDGNBVGY3TQOJQ".

Lemma generated_secret_yields_codes_witness :
  ∃ code, codeAt (GenerateSecret (bytes_of "12345678901234567890")) 1 = Some code ∧
    len code = 6 ∧ sforall is_digit code = true ∧
    digits_value 0 code = Some (truncate (hmac_sha1 (take 20 (bytes_of "12345678901234567890"))
      (be_bytes 8 (to_uint64 1))) mod 1000000).
Proof.
  apply generated_secret_yields_codes. unfold is_byte. by repeat (constructor; [vm_compute; intuition congruence|]).
Defined.

Lemma validate_window_witness :
  Validate rfc_secret " 287082 " 89 = Some 1 ∧
  ∀ c, counter_at 120 - 1 <= c <= counter_at 120 + 1 → codeAt rfc_secret c ≠ Some (TrimSpace "287082").
Proof.
  split; [vm_compute; reflexivity|].
  assert (Validate rfc_secret "287082" 120 = None) as E by (by vm_compute).
  pose proof (validate_window rfc_secret "287082" 120 eq_refl) as Hv.
  rewrite E in Hv. exact Hv.
Defined.

Lemma code_valid_with_skew_witness : ∃ c', Validate rfc_secret "287082" 89 = Some c'.
Proof.
  apply (code_valid_with_skew rfc_secret 59 89 "287082" 1); [by vm_compute|by vm_compute|by vm_compute].
Defined.

(** ** The QR code on the terminal *)

Definition upper_lit (h : half_block) : bool := match h with FullBlock | UpperHalf => true | _ => false end.
Definition lower_lit (h : half_block) : bool := match h with FullBlock | LowerHalf => true | _ => false end.

Lemma qr_cell_lit b y x :
  upper_lit (qr_cell b y x) = module_at b y x ∧ lower_lit (qr_cell b y x) = module_at b (y + 1) x.
Proof. unfold qr_cell. by destruct (module_at b y x), (module_at b (y + 1) x). Qed.

Lemma upto_lookup lo hi step i : 0 < step → 0 <= i → lo + step * i < hi →
  upto lo hi step !! Z.to_nat i = Some (lo + step * i).
Proof.
  intros Hs Hi Hlt. unfold upto. rewrite list_lookup_fmap, lookup_seq_lt.
  - cbn. f_equal. lia.
  - apply Z2Nat.inj_lt; [done|apply Z.div_pos; lia|].
    apply Z.lt_le_trans with (i + 1); [lia|]. apply Z.div_le_lower_bound; lia.
Qed.

Lemma upto_length lo hi : length (upto lo hi 1) = Z.to_nat (hi - lo).
Proof. unfold upto. rewrite length_fmap, length_seq. f_equal. rewrite Z.div_1_r. lia. Qed.

(** The QR code drawn on the terminal is the code.  Two rows of modules
    share a line: for every module of the bitmap with its quiet zone of four,
    the half block at line (y+4)/2, column x+4 is lit exactly as the module is,
    and every line is as wide as the others. *)
Theorem qr_lines_show_bitmap b y x :
  - quiet <= y < Z.of_nat (length b) + quiet → - quiet <= x < Z.of_nat (length b) + quiet →
  ∃ line h, qr_lines b !! Z.to_nat ((y + quiet) / 2) = Some line ∧
    line !! Z.to_nat (x + quiet) = Some h ∧
    (if Z.even y then upper_lit h else lower_lit h) = module_at b y x ∧
    Z.of_nat (length line) = Z.of_nat (length b) + 2 * quiet.
Proof.
  unfold quiet. intros Hy Hx. set (i := (y + 4) / 2).
  pose proof (Z.div_mod (y + 4) 2 ltac:(done)) as Hdm. fold i in Hdm.
  pose proof (Z.mod_pos_bound (y + 4) 2 ltac:(done)) as Hm.
  assert (0 <= i) by (apply Z.div_pos; lia).
  exists (qr_line b (-4 + 2 * i)), (qr_cell b (-4 + 2 * i) x). split_and!.
  - unfold qr_lines, quiet. rewrite list_lookup_fmap, upto_lookup by lia. done.
  - unfold qr_line, quiet. rewrite list_lookup_fmap, upto_lookup by lia. cbn [option_map fmap option_fmap].
    by replace (- (4) + 1 * (x + 4)) with x by lia.
  - destruct (qr_cell_lit b (-4 + 2 * i) x) as [-> ->]. destruct (Z.even y) eqn:Ey; f_equal.
    + apply Zeven_bool_iff in Ey. apply Zeven_ex in Ey as [k ->]. lia.
    + rewrite <- Z.negb_odd in Ey. apply negb_false_iff, Zodd_bool_iff, Zodd_ex in Ey as [k ->]. lia.
  - unfold qr_line, quiet. rewrite length_fmap, upto_length. lia.
Qed.

Lemma qr_lines_show_bitmap_witness :
  ∃ line h, qr_lines [[true; false]; [false; true]] !! Z.to_nat ((1 + quiet) / 2) = Some line ∧
    line !! Z.to_nat (1 + quiet) = Some h ∧
    (if Z.even 1 then upper_lit h else lower_lit h) = module_at [[true; false]; [false; true]] 1 1 ∧
    Z.of_nat (length line) = Z.of_nat (length [[true; false]; [false; true]]) + 2 * quiet.
Proof. apply qr_lines_show_bitmap; unfold quiet; cbn; lia. Defined.
