(* ===== verification/Sessions.v ===== *)
(** * Session limits (gateway/server.go: acquire, release)

    The counters of [Server] under its mutex, as a state machine: sessions start
    when [acquire] lets them and end with [release]. *)

From S2P Require Import Prelude.

(** The limits of the configuration. *)
Record limits := Limits { MaxSessions : Z; MaxSessionsPerUser : Z }.

(** server.go: the fields [total] and [perUser] of [Server] *)
Record counters := Counters { total : Z; perUser : gmap Z Z }.

Definition new_counters : counters := Counters 0 ∅.

(** A Go map gives zero for a key it does not hold. *)
Definition sessions_of (s : counters) (uid : Z) : Z := default 0 (perUser s !! uid).

Definition acquire (cfg : limits) (uid : Z) (s : counters) : bool * counters :=
  if (MaxSessions cfg <=? total s) || (MaxSessionsPerUser cfg <=? sessions_of s uid) then (false, s)
  else (true, Counters (total s + 1) (<[uid := sessions_of s uid + 1]> (perUser s))).

Definition release (uid : Z) (s : counters) : counters :=
  let m := <[uid := sessions_of s uid - 1]> (perUser s) in
  Counters (total s - 1)
    (if default 0 (m !! uid) <=? 0 then base.delete uid m else m).

(** The server with its live sessions, by user: a session starts only when
    [acquire] returns true, and only a live session is released (the deferred
    call of its handler). *)
Record server := Server { srv_counters : counters; live : list Z }.

Definition start : server := Server new_counters [].

Inductive server_step (cfg : limits) : server → server → Prop :=
  | session_starts uid s s' l :
      acquire cfg uid s = (true, s') → server_step cfg (Server s l) (Server s' (uid :: l))
  | session_refused uid s s' l :
      acquire cfg uid s = (false, s') → server_step cfg (Server s l) (Server s' l)
  | session_ends uid s l1 l2 :
      server_step cfg (Server s (l1 ++ uid :: l2)) (Server (release uid s) (l1 ++ l2)).

Definition count_of (uid : Z) (l : list Z) : Z := Z.of_nat (length (List.filter (Z.eqb uid) l)).

(** The counters count the live sessions, and no user without a live session
    has an entry. *)
Definition counts (s : server) : Prop :=
  total (srv_counters s) = Z.of_nat (length (live s)) ∧
  ∀ uid, perUser (srv_counters s) !! uid =
         if count_of uid (live s) =? 0 then None else Some (count_of uid (live s)).

Lemma count_of_cons uid x l : count_of uid (x :: l) = (if uid =? x then 1 else 0) + count_of uid l.
Proof. unfold count_of. cbn. destruct (uid =? x); cbn [length]; lia. Qed.

Lemma count_of_app uid l1 l2 : count_of uid (l1 ++ l2) = count_of uid l1 + count_of uid l2.
Proof. unfold count_of. rewrite List.filter_app, length_app. lia. Qed.

Lemma count_of_nonneg uid l : 0 <= count_of uid l.
Proof. unfold count_of. lia. Qed.

Lemma count_of_le uid l : count_of uid l <= Z.of_nat (length l).
Proof. unfold count_of. pose proof (filter_length_le (Z.eqb uid) l). lia. Qed.

Lemma counts_sessions_of s uid : counts s → sessions_of (srv_counters s) uid = count_of uid (live s).
Proof.
  intros [_ Hu]. unfold sessions_of. rewrite Hu. destruct (_ =? 0) eqn:E; [|done]. bool_simp. done.
Qed.

Lemma acquire_counts cfg uid s s' l :
  counts (Server s l) → acquire cfg uid s = (true, s') →
  counts (Server s' (uid :: l)) ∧ total s < MaxSessions cfg ∧ count_of uid l < MaxSessionsPerUser cfg.
Proof.
  intros Hc. pose proof (counts_sessions_of _ uid Hc) as Hs. cbn in Hs. unfold acquire.
  destruct (_ || _) eqn:E; [done|]. intros [= <-]. bool_simp. destruct Hc as [Ht Hu]. cbn in *.
  split; [|lia]. split; cbn [srv_counters live total perUser]; [cbn [length]; lia|]. intros u.
  rewrite count_of_cons. pose proof (count_of_nonneg u l). destruct (Z.eqb_spec u uid) as [->|Hne].
  - rewrite lookup_insert_eq. rewrite Hs. destruct (Z.eqb_spec (1 + count_of uid l) 0); [lia|]. f_equal. lia.
  - rewrite lookup_insert_ne by done. apply Hu.
Qed.

Lemma release_counts uid s l1 l2 :
  counts (Server s (l1 ++ uid :: l2)) → counts (Server (release uid s) (l1 ++ l2)).
Proof.
  intros Hc. pose proof (counts_sessions_of _ uid Hc) as Hs. cbn in Hs.
  destruct Hc as [Ht Hu]. cbn in *. unfold release. rewrite Hs.
  rewrite count_of_app, count_of_cons, Z.eqb_refl in *. rewrite lookup_insert_eq. cbn [default]. unfold id.
  pose proof (count_of_nonneg uid l1). pose proof (count_of_nonneg uid l2).
  split; cbn [srv_counters live total perUser].
  { rewrite length_app in *. cbn [length] in Ht. lia. }
  intros u. specialize (Hu u). rewrite count_of_app, count_of_cons in Hu. rewrite count_of_app.
  destruct (Z.leb_spec (count_of uid l1 + (1 + count_of uid l2) - 1) 0) as [Hle|Hgt];
    (destruct (decide (u = uid)) as [->|Hne]; [rewrite Z.eqb_refl in Hu|
      rewrite (proj2 (Z.eqb_neq u uid) Hne) in Hu]).
  - rewrite lookup_delete_eq. destruct (Z.eqb_spec (count_of uid l1 + count_of uid l2) 0); [done|lia].
  - rewrite lookup_delete_ne, lookup_insert_ne by done. exact Hu.
  - rewrite lookup_insert_eq. destruct (Z.eqb_spec (count_of uid l1 + count_of uid l2) 0); [lia|].
    f_equal. lia.
  - rewrite lookup_insert_ne by done. exact Hu.
Qed.

(** A session that ends gives back what it took: the counters are as before. *)
Lemma release_acquire cfg uid s s' :
  (∀ u n, perUser s !! u = Some n → 0 < n) → acquire cfg uid s = (true, s') → release uid s' = s.
Proof.
  intros Hpos. unfold acquire. destruct (_ || _); [done|]. intros [= <-]. unfold release.
  assert (sessions_of (Counters (total s + 1) (<[uid:=sessions_of s uid + 1]> (perUser s))) uid
    = sessions_of s uid + 1) as ->.
  { unfold sessions_of. cbn [perUser]. by rewrite lookup_insert_eq. }
  cbn [total perUser]. rewrite insert_insert_eq, lookup_insert_eq. cbn [default from_option]. unfold id.
  destruct s as [n m]. cbn [total perUser] in *. unfold sessions_of. cbn [perUser].
  f_equal; [lia|]. destruct (m !! uid) as [k|] eqn:E; cbn [default from_option]; unfold id.
  - specialize (Hpos uid k E). assert ((k + 1 - 1 <=? 0) = false) as -> by (apply Z.leb_gt; lia).
    replace (k + 1 - 1) with k by lia. by apply insert_id.
  - cbn. rewrite delete_insert_eq. by apply delete_id.
Qed.

Lemma counts_positive s : counts s → ∀ u n, perUser (srv_counters s) !! u = Some n → 0 < n.
Proof.
  intros [_ Hu] u n. rewrite Hu. pose proof (count_of_nonneg u (live s)).
  destruct (Z.eqb_spec (count_of u (live s)) 0); [done|]. intros [= <-]. lia.
Qed.

(** Within the limits. *)
Definition bounded (cfg : limits) (s : server) : Prop :=
  Z.of_nat (length (live s)) <= Z.max 0 (MaxSessions cfg) ∧
  ∀ uid, count_of uid (live s) <= Z.max 0 (MaxSessionsPerUser cfg).

Lemma server_step_invariant cfg s s' :
  server_step cfg s s' → counts s ∧ bounded cfg s → counts s' ∧ bounded cfg s'.
Proof.
  intros Hst [Hc [Hb Hbu]]. destruct Hst as [uid s s' l Ha|uid s s' l Ha|uid s l1 l2].
  - destruct (acquire_counts cfg uid s s' l Hc Ha) as (Hc' & Ht & Hn). split; [done|].
    destruct Hc as [Hct _]. cbn in *. split; cbn [live length]; [lia|]. intros u.
    specialize (Hbu u). rewrite count_of_cons. destruct (Z.eqb_spec u uid) as [->|]; lia.
  - unfold acquire in Ha. destruct (_ || _); [by injection Ha as <-|done].
  - split; [by apply release_counts|]. cbn in *. rewrite length_app in *. cbn [length] in Hb.
    split; cbn; rewrite ?length_app; [lia|]. intros u. specialize (Hbu u).
    rewrite count_of_app, count_of_cons in *. destruct (u =? uid); lia.
Qed.

Lemma reachable_invariant cfg s : rtc (server_step cfg) start s → counts s ∧ bounded cfg s.
Proof.
  assert (counts start ∧ bounded cfg start) as H0.
  { split; [split; [done|]; intros uid; done|].
    split; [cbn; lia|intros uid; change (count_of uid (live start)) with 0; lia]. }
  generalize dependent start. intros s0 H0 Hr.
  induction Hr as [|s1 s2 s3 Hst _ IH]; [done|]. apply IH. by apply (server_step_invariant cfg s1).
Qed.

(** ** Properties *)

(** C31: session limits hold in every reachable state.  However sessions start,
    are refused and end, the counters of the server are exactly the live
    sessions - in total and of each user, with no entry left for a user without
    one - and neither limit is ever exceeded. *)
Theorem session_limits_hold cfg s :
  rtc (server_step cfg) start s →
  counts s ∧ Z.of_nat (length (live s)) <= Z.max 0 (MaxSessions cfg) ∧
  ∀ uid, count_of uid (live s) <= Z.max 0 (MaxSessionsPerUser cfg).
Proof.
  intros Hr%reachable_invariant. by destruct Hr as [? [? ?]].
Qed.

(** No session is refused below the limits.  In a reachable state, a
    session of a user is refused exactly when all sessions or all of the user's
    sessions are taken, and a refusal changes nothing. *)
Theorem refused_only_at_limit cfg s uid :
  rtc (server_step cfg) start s →
  (acquire cfg uid (srv_counters s)).1 = false ↔
    MaxSessions cfg <= Z.of_nat (length (live s)) ∨ MaxSessionsPerUser cfg <= count_of uid (live s).
Proof.
  intros [Hc _]%reachable_invariant.
  unfold acquire. rewrite (counts_sessions_of s uid Hc). destruct Hc as [-> _].
  destruct (_ || _) eqn:E; cbn [fst].
  - apply orb_true_iff in E. rewrite !Z.leb_le in E. tauto.
  - bool_simp. split; [done|lia].
Qed.

(** ** Witnesses *)

Definition two_per_user : limits := Limits 3 2.

Lemma reach_two : rtc (server_step two_per_user) start
  (Server (acquire two_per_user 7 (acquire two_per_user 7 new_counters).2).2 [7; 7]).
Proof.
  eapply rtc_l; [by apply (session_starts _ 7)|]. apply rtc_once. by apply session_starts.
Qed.

Lemma session_limits_hold_witness :
  let s := Server (acquire two_per_user 7 (acquire two_per_user 7 new_counters).2).2 [7; 7] in
  counts s ∧ Z.of_nat (length (live s)) <= 3 ∧ ∀ uid, count_of uid (live s) <= 2.
Proof. apply (session_limits_hold two_per_user). apply reach_two. Defined.

Lemma refused_only_at_limit_witness :
  let s := Server (acquire two_per_user 7 (acquire two_per_user 7 new_counters).2).2 [7; 7] in
  (acquire two_per_user 7 (srv_counters s)).1 = false ↔ 3 <= 2 ∨ 2 <= 2.
Proof. apply (refused_only_at_limit two_per_user _ 7 reach_two). Defined.
