(* ===== verification/Auth.v ===== *)
(** * Logging in (gateway/auth.go)

    Public key login with an optional TOTP second factor, OIDC login over
    keyboard-interactive, and the state a session derives from the connection.
    The database steps are programs of [Effects]; the user's answers, the
    identity provider and the cipher are the arguments of the handlers. *)

From S2P Require Import Prelude GoStrings Json GoTime Effects Sql Schema Names StoreUsers StoreOIDC.
From S2P Require Import StoreTargets StoreAccess StoreAudit Totp.

(** ** Interfaces *)

(** internal/secrets: the payload of a credential, and what the gateway asks of
    [*secrets.Cipher]. *)
Record Payload := mkPayload {
  Version : Z;
  Password : string;
  PrivateKey : string;
  PublicKey : string;
  Passphrase : string;
  TOTPSecret : string;
}.

Class CipherOps := {
  Decrypt : Z → string → string → string → result Payload;
  DecryptSSHIdentity : Z → string → string → result Payload;
  DecryptTOTP : Z → string → string → result string;
}.

(** What the menu asks of it; the first argument is what [rand.Read] yields for
    the nonce, the result nonce and ciphertext. *)
Class SealOps := {
  Encrypt : result string → Z → string → Payload → result (string * string);
  EncryptSSHIdentity : result string → Z → Payload → result (string * string);
  EncryptTOTP : result string → Z → string → result (string * string);
}.

(** keyboard-interactive: name, instruction, questions and echo flags. *)
Definition KeyboardInteractiveChallenge := string → string → list string → list bool → result (list string).

(** internal/oidcdevice: a device login and the identity it ends with, and the
    interface [oidcAuthenticator] of server.go. *)
Record Login := mkLogin { UserCode : string; VerificationURI : string; VerificationURIComplete : string }.
Record Identity := mkIdentity { Identity_Subject : string; Identity_Username : string }.
Record oidcAuthenticator := mkOidc {
  Begin : result Login;
  Complete : Login → result Identity;
}.

(** gossh.Permissions: the three extensions the gateway sets. *)
Record Permissions := mkPermissions {
  sshgatew_user : string;
  sshgatew_target : string;
  sshgatew_auth_method : string;
}.

Record authState := mkAuthState {
  AS_User : User;
  AS_TargetName : string;
  AS_AuthMethod : string;
}.

Definition authPermissions (username target method : string) : Permissions :=
  mkPermissions username target method.

(** server.go: nullableUserID *)
Definition nullableUserID (u : result User) : option Z :=
  match u with Ok u => Some (User_ID u) | Err _ => None end.

Definition validOIDCSubject (subject : string) : bool :=
  negb (subject =s "") && (len subject <=? 512) && ValidString subject.

Section auth.
Context `{UnicodeTables, Rowids, TimeParser, CipherOps}.

Definition stateFromContext (user : string) (permissions : Permissions) : prog db (option authState) :=
  match splitRoutedUsername user with
  | Err _ => Ret None
  | Ok (username, target) =>
    let* r := UserByName username in
    match r with
    | Ok u => if negb (User_Enabled u) then Ret None
              else Ret (Some (mkAuthState u target (sshgatew_auth_method permissions)))
    | Err _ => Ret None
    end
  end.

Definition auditTOTP (u : User) (username source outcome : string) : prog db (result unit) :=
  Audit (event (Some (User_ID u)) username source "gateway.auth.totp" None outcome "").

Definition auditOIDC (issuer : string) (userID : option Z) (username source target subject outcome : string) :
    prog db (result unit) :=
  let details := [("issuer", JString issuer)]
    ++ (if validOIDCSubject subject then [("subject", JString subject)] else [])
    ++ [("target", JString target)] in
  Audit (event userID username source "gateway.auth.oidc" None outcome (jsonString details)).

(** [now] is the Unix time of the answer. *)
Definition authenticateTOTP (now : Z) (u : User) (username source : string)
    (challenge : KeyboardInteractiveChallenge) : prog db (result unit) :=
  match challenge "SSHGateW two-factor authentication" "" ["TOTP code: "] [false] with
  | Ok [answer] =>
    let* verified :=
      (let? config := UserTOTP (User_ID u) in
       let? secret := lift (DecryptTOTP (User_ID u) (TOTP_Nonce config) (TOTP_Ciphertext config)) in
       match Validate secret answer now with
       | None => Ret (Err (Msg "invalid TOTP code"))
       | Some counter => ConsumeTOTPCounter (User_ID u) counter
       end) in
    match verified with
    | Err _ =>
      let* _ := auditTOTP u username source "denied" in
      Ret (Err (Msg "invalid TOTP code"))
    | Ok _ =>
      let* _ := auditTOTP u username source "success" in
      Ret (Ok tt)
    end
  | _ =>
    let* _ := auditTOTP u username source "denied" in
    Ret (Err (Msg "TOTP required"))
  end.

(** ** Public keys *)

(** What a PublicKeyCallback answers: permissions, an error, or partial success
    with the keyboard-interactive callback that comes next. *)
Inductive key_answer :=
  | Granted (permissions : Permissions)
  | Rejected (e : error)
  | PartialSuccess (u : User) (username target : string).

(** serverConfig: PublicKeyCallback, for a key with the fingerprint [fp] *)
Definition publicKeyCallback (user source fp : string) : prog db key_answer :=
  match splitRoutedUsername user with
  | Err e => Ret (Rejected e)
  | Ok (username, target) =>
    let* r := AuthenticateKey username fp in
    let outcome := if is_ok r then "success" else "denied" in
    let uid := nullableUserID r in
    let* _ := Audit (event uid username source "gateway.auth.key" None outcome
      (jsonString [("key_fingerprint", JString fp); ("target", JString target)])) in
    match r with
    | Err _ => Ret (Rejected (Msg "permission denied"))
    | Ok u =>
      if negb (User_TOTPEnabled u) then Ret (Granted (authPermissions username target "publickey"))
      else Ret (PartialSuccess u username target)
    end
  end.

(** The KeyboardInteractiveCallback of the partial success *)
Definition secondFactorCallback (now : Z) (u : User) (username target source : string)
    (challenge : KeyboardInteractiveChallenge) : prog db (result Permissions) :=
  let? _ := authenticateTOTP now u username source challenge in
  Ret (Ok (authPermissions username target "publickey")).

(** ** OIDC *)

Definition newline : string := str1 (chr 0x0A).

Definition oidc_instruction (login : Login) : string :=
  ("Open " +:+ VerificationURI login +:+ newline +:+ "Enter code: " +:+ UserCode login +:+ newline
   +:+ "Confirm that the provider page identifies this SSHGateW login.")
  +:+ (if VerificationURIComplete login =s "" then ""
       else newline +:+ "Direct link: " +:+ VerificationURIComplete login).

Definition authenticateOIDC (oidc : oidcAuthenticator) (issuer : string) (now : Z)
    (claimedUsername source : string) (challenge : KeyboardInteractiveChallenge) :
    prog db (result Permissions) :=
  match splitRoutedUsername claimedUsername with
  | Err _ => Ret (Err (Msg "permission denied"))
  | Ok (username, target) =>
    let* r := UserByName username in
    match r with
    | Ok u =>
      if negb (User_Enabled u) then
        let* _ := auditOIDC issuer None username source target "" "denied" in
        Ret (Err (Msg "permission denied"))
      else
      let audit := auditOIDC issuer (Some (User_ID u)) username source target in
      match Begin oidc with
      | Err _ =>
        let* _ := audit "" "failure" in
        Ret (Err (Msg "OIDC authentication unavailable"))
      | Ok login =>
        match challenge "SSHGateW OIDC authentication" (oidc_instruction login)
                ["Press Enter after completing sign-in: "] [true] with
        | Ok [_] =>
          match Complete oidc login with
          | Err _ =>
            let* _ := audit "" "denied" in
            Ret (Err (Msg "OIDC identity could not be verified"))
          | Ok identity =>
            if negb (validOIDCSubject (Identity_Subject identity)) then
              let* _ := audit (Identity_Subject identity) "denied" in
              Ret (Err (Msg "OIDC identity could not be verified"))
            else
            let* m := AuthenticateOIDC username issuer (Identity_Subject identity) (Identity_Username identity) in
            match m with
            | Err _ =>
              let* _ := audit (Identity_Subject identity) "denied" in
              Ret (Err (Msg "OIDC identity is not linked to this SSHGateW user"))
            | Ok mappedUser =>
              let* _ := audit (Identity_Subject identity) "success" in
              let? _ := if User_TOTPEnabled mappedUser
                        then authenticateTOTP now mappedUser username source challenge
                        else Ret (Ok tt) in
              Ret (Ok (authPermissions username target "oidc"))
            end
          end
        | _ =>
          let* _ := audit "" "denied" in
          Ret (Err (Msg "OIDC authentication cancelled"))
        end
      end
    | Err _ =>
      let* _ := auditOIDC issuer None username source target "" "denied" in
      Ret (Err (Msg "permission denied"))
    end
  end.

(** The values a connection's context holds: whether OIDC was attempted, and the
    permissions. *)
Record connection := Connection {
  oidc_attempted : bool;
  conn_permissions : option Permissions;
}.

Definition keyboardInteractive (oidc : option oidcAuthenticator) (issuer : string) (now : Z)
    (user source : string) (challenge : KeyboardInteractiveChallenge) (c : connection) :
    prog db (bool * connection) :=
  match oidc with
  | None => Ret (false, c)
  | Some oidc =>
    if oidc_attempted c then Ret (false, c)
    else
      let c := Connection true (conn_permissions c) in
      let* r := authenticateOIDC oidc issuer now user source challenge in
      match r with
      | Err _ => Ret (false, c)
      | Ok permissions => Ret (true, Connection true (Some permissions))
      end
  end.

End auth.
