(* ===== verification/AuthProps.v ===== *)
(** * What a login proves

    Theorems about the handlers of [Auth]: who gets permissions, what a second
    factor consumes, and what the audit log records. *)

From S2P Require Import Prelude GoStrings Json GoTime Effects Sql Schema Names StoreUsers StoreOIDC.
From S2P Require Import StoreTargets StoreAccess StoreAudit StoreWf StoreCalls StoreAuthz.
From S2P Require Import StoreAuthn StoreLog Totp Auth.

Section props.
Context `{UnicodeTables, Rowids, TimeParser, CipherOps}.

(** The database with an event recorded, if it can be. *)
Definition log_event (e : AuditEvent) (d : db) : db :=
  if loggable e d then set_audit_events (insert_row (audit_row_of e d)) d else d.

Lemma run_audit {A} e (k : prog db A) d :
  run (let* _ := Audit e in k) d = run k (log_event e d).
Proof.
  rewrite run_bind. f_equal. unfold final, log_event. rewrite Audit_run. by destruct (loggable e d).
Qed.

Lemma log_event_tables e d :
  users (log_event e d) = users d ∧ gateway_keys (log_event e d) = gateway_keys d ∧
  user_totp (log_event e d) = user_totp d ∧ oidc_identities (log_event e d) = oidc_identities d.
Proof. unfold log_event. by destruct (loggable e d). Qed.

(** ** TOTP *)

Definition totp_event (u : User) (username source outcome : string) : AuditEvent :=
  event (Some (User_ID u)) username source "gateway.auth.totp" None outcome "".

(** What makes a second factor pass: one answer, an enrolled secret that opens,
    and a code of the window whose counter is above the last one used. *)
Record totp_passes (now : Z) (u : User) (challenge : KeyboardInteractiveChallenge) (d : db)
    (counter : Z) : Prop := {
  passes_answer : ∃ answer t secret,
    challenge "SSHGateW two-factor authentication" "" ["TOTP code: "] [false] = Ok [answer] ∧
    t ∈ d.(user_totp) ∧ ut_user_id t = User_ID u ∧ ut_last_counter t < counter ∧
    DecryptTOTP (User_ID u) (ut_nonce t) (ut_ciphertext t) = Ok secret ∧
    Validate secret answer now = Some counter;
}.

(** ConsumeTOTPCounter on a well-formed database: it is the user's own row that
    decides. *)
Lemma ConsumeTOTPCounter_run uid c d t : wf_db d → t ∈ d.(user_totp) → ut_user_id t = uid →
  run (ConsumeTOTPCounter uid c) d =
    if ut_last_counter t <? c then (Ok tt, (update_totp_counter uid c d).2)
    else (Err (Msg "TOTP code was already used"), d).
Proof.
  intros Hd Ht Hid. unfold ConsumeTOTPCounter. rewrite run_bind_ok. cbn [run atomic].
  unfold update_totp_counter.
  assert (∀ t', t' ∈ user_totp d → (ut_user_id t' =? uid) = true → t' = t) as Hone.
  { intros t' Ht' E. bool_simp. apply (unique_on_eq ut_user_id d.(user_totp)); [apply Hd|done|done|congruence]. }
  destruct (ut_last_counter t <? c) eqn:E.
  - rewrite (count_rows_one _ _ t); [done| |done| |].
    + by eapply NoDup_fmap_1, (wf_ut_user _ (wf_db_factors _ Hd)).
    + by rewrite Hid, Z.eqb_refl.
    + intros t' Ht' [E' _]%andb_true_iff. by apply Hone.
  - assert (∀ t', t' ∈ user_totp d → (ut_user_id t' =? uid) && (ut_last_counter t' <? c) = false) as Hz.
    { intros t' Ht'. destruct (ut_user_id t' =? uid) eqn:E'; [|done]. by rewrite (Hone t'). }
    rewrite (proj2 (count_rows_zero _ _) Hz). unfold set_user_totp. rewrite (update_rows_id _ _ _ Hz).
    by destruct d.
Qed.

Lemma authenticateTOTP_run now u username source challenge d : wf_db d →
  (∃ counter, totp_passes now u challenge d counter ∧
     run (authenticateTOTP now u username source challenge) d =
       (Ok tt, log_event (totp_event u username source "success") (update_totp_counter (User_ID u) counter d).2)) ∨
  ((∀ counter, ¬ totp_passes now u challenge d counter) ∧
   ∃ e, run (authenticateTOTP now u username source challenge) d =
       (Err e, log_event (totp_event u username source "denied") d)).
Proof.
  intros Hd. unfold authenticateTOTP.
  destruct (challenge _ _ _ _) as [[|answer [|? ?]]|] eqn:Ec.
  1,3,4: right; (split; [intros ? [(? & ? & ? & ? & _)]; congruence|]);
    unfold auditTOTP; rewrite run_audit; by eexists.
  rewrite run_bind. unfold value, final. rewrite run_bind_ok. cbn [run query fst snd UserTOTP].
  assert (∀ c, totp_passes now u challenge d c → ∃ t secret, query_row (λ t, ut_user_id t =? User_ID u) (user_totp d) = Some t ∧
    DecryptTOTP (User_ID u) (ut_nonce t) (ut_ciphertext t) = Ok secret ∧ Validate secret answer now = Some c ∧
    ut_last_counter t < c) as Hp.
  { intros c [(a & t & sec & E & Ht & Hid & Hl & Hs & Hv)].
    rewrite Ec in E. injection E as <-. exists t, sec. split_and!; try done.
    apply query_row_unique; [done|by apply Z.eqb_eq|]. intros t' Ht' E'. bool_simp.
    apply (unique_on_eq ut_user_id d.(user_totp)); [apply Hd|done|done|congruence]. }
  destruct (query_row _ _) as [t|] eqn:Et.
  2:{ right. split; [intros c Hc; by destruct (Hp c Hc) as (? & ? & [=] & _)|]. cbn.
      unfold auditTOTP. rewrite run_audit. by eexists. }
  rewrite run_bind_ok. cbn [run lift TOTP_Nonce TOTP_Ciphertext].
  apply query_row_Some in Et as [Ht Eid]. bool_simp.
  destruct (DecryptTOTP _ _ _) as [secret|] eqn:Es.
  2:{ right. split; [intros c Hc; destruct (Hp c Hc) as (? & ? & [= <-] & ? & _); congruence|]. cbn [fst snd].
      unfold auditTOTP. rewrite run_audit. by eexists. }
  destruct (Validate secret answer now) as [c|] eqn:Ev.
  2:{ right. split; [intros c Hc; destruct (Hp c Hc) as (? & ? & [= <-] & ? & ? & _); congruence|]. cbn [run fst snd].
      unfold auditTOTP. rewrite run_audit. by eexists. }
  rewrite (ConsumeTOTPCounter_run _ _ _ t) by done.
  destruct (ut_last_counter t <? c) eqn:El; cbn [fst snd]; bool_simp; [left|right].
  - exists c. split; [split; by exists answer, t, secret|]. unfold auditTOTP. by rewrite run_audit.
  - split; [|unfold auditTOTP; rewrite run_audit; by eexists].
    intros c' Hc. destruct (Hp c' Hc) as (? & ? & [= <-] & ? & ? & ?).
    assert (c' = c) as -> by congruence. lia.
Qed.

(** ** Keys *)

(** The user a key login is of. *)
Definition key_user (d : db) (username fp : string) (u : user_row) : Prop :=
  u ∈ d.(users) ∧ u_username u = ToLower username ∧ u_enabled u = true ∧
  ∃ k, k ∈ d.(gateway_keys) ∧ k_user_id k = u_id u ∧ k_fingerprint k = fp.

Definition key_event (uid : option Z) (username source target fp outcome : string) : AuditEvent :=
  event uid username source "gateway.auth.key" None outcome
    (jsonString [("key_fingerprint", JString fp); ("target", JString target)]).

Lemma publicKeyCallback_run user source fp d : wf_db d →
  match splitRoutedUsername user with
  | Err e => run (publicKeyCallback user source fp) d = (Rejected e, d)
  | Ok (username, target) =>
    (∃ u, key_user d username fp u ∧
       run (publicKeyCallback user source fp) d =
         (if has_totp (u_id u) d then PartialSuccess (user_of_row d u) username target
          else Granted (authPermissions username target "publickey"),
          log_event (key_event (Some (u_id u)) username source target fp "success") d)) ∨
    ((∀ u, ¬ key_user d username fp u) ∧
       run (publicKeyCallback user source fp) d =
         (Rejected (Msg "permission denied"),
          log_event (key_event None username source target fp "denied") d))
  end.
Proof.
  intros Hd. unfold publicKeyCallback. destruct (splitRoutedUsername user) as [[username target]|e]; [|done].
  rewrite run_bind. unfold value, final.
  destruct (AuthenticateKey_run username fp d Hd) as (r & -> & Hok & _). cbn [fst snd].
  destruct r as [v|e]; [left|right].
  - destruct (proj1 (Hok v) eq_refl) as (u & k & Hu & En & He & Hk & E1 & E2 & ->).
    exists u. split; [split_and!; [done..|by exists k]|]. rewrite run_audit.
    unfold key_event. cbn [user_of_row User_TOTPEnabled User_ID nullableUserID is_ok].
    destruct (has_totp (u_id u) d); reflexivity.
  - split; [|rewrite run_audit; reflexivity].
    intros u (Hu & En & He & k & Hk & E1 & E2).
    assert (Err e = Ok (user_of_row d u)) as [=]. apply Hok. by exists u, k.
Qed.

(** ** Sessions and OIDC *)

Lemma stateFromContext_run user perms d :
  ∃ r, run (stateFromContext user perms) d = (r, d) ∧
    ∀ st, r = Some st → ∃ username target u,
      splitRoutedUsername user = Ok (username, target) ∧ u ∈ d.(users) ∧
      u_username u = ToLower username ∧ u_enabled u = true ∧
      st = mkAuthState (user_of_row d u) target (sshgatew_auth_method perms).
Proof.
  unfold stateFromContext. destruct (splitRoutedUsername user) as [[username target]|e]; [|by eexists].
  rewrite run_bind. unfold value, final. rewrite UserByName_run. cbn [fst snd].
  destruct (scanUser _ _) as [v|] eqn:E; [|by eexists].
  apply scanUser_Ok in E as (u & Hu & En & ->). bool_simp. cbn [user_of_row User_Enabled].
  destruct (u_enabled u) eqn:Ee; cbn; eexists; (split; [reflexivity|]); [|done].
  intros st [= <-]. by exists username, target, u.
Qed.

(** One connection: its keyboard-interactive requests, one after another. *)
Fixpoint attempts (oidc : option oidcAuthenticator) (issuer : string)
    (tries : list (Z * KeyboardInteractiveChallenge)) (user source : string) (c : connection) (d : db) :
    list bool * connection * db :=
  match tries with
  | [] => ([], c, d)
  | (now, challenge) :: rest =>
    let '((b, c1), d1) := run (keyboardInteractive oidc issuer now user source challenge c) d in
    let '(bs, c2, d2) := attempts oidc issuer rest user source c1 d1 in (b :: bs, c2, d2)
  end.

Lemma attempted_refused oidc issuer tries user source c d : oidc_attempted c = true →
  attempts oidc issuer tries user source c d = (replicate (length tries) false, c, d).
Proof.
  intros Hc. induction tries as [|[now ch] tries IH]; [done|]. cbn [attempts].
  assert (run (keyboardInteractive oidc issuer now user source ch c) d = ((false, c), d)) as ->.
  { unfold keyboardInteractive. destruct oidc; [|done]. by rewrite Hc. }
  by rewrite IH.
Qed.

(** An OIDC login that was accepted. *)
Record oidc_accepted (oidc : oidcAuthenticator) (issuer : string) (now : Z) (user source : string)
    (challenge : KeyboardInteractiveChallenge) (p : Permissions) (d d' : db) : Prop := {
  accepted : ∃ username target login identity mapped d1,
    splitRoutedUsername user = Ok (username, target) ∧ Begin oidc = Ok login ∧
    Complete oidc login = Ok identity ∧ validOIDCSubject (Identity_Subject identity) = true ∧
    run (AuthenticateOIDC username issuer (Identity_Subject identity) (Identity_Username identity)) d = (Ok mapped, d1) ∧
    (if User_TOTPEnabled mapped
     then ∃ d2, user_totp d2 = user_totp d1 ∧
            run (authenticateTOTP now mapped username source challenge) d2 = (Ok tt, d')
     else user_totp d' = user_totp d1) ∧
    p = authPermissions username target "oidc";
}.

Lemma authenticateOIDC_run oidc issuer now user source challenge d p d' :
  run (authenticateOIDC oidc issuer now user source challenge) d = (Ok p, d') →
  oidc_accepted oidc issuer now user source challenge p d d'.
Proof.
  unfold authenticateOIDC. destruct (splitRoutedUsername user) as [[username target]|e] eqn:Es; [|done].
  rewrite run_bind. unfold value, final. rewrite UserByName_run. cbn [fst snd].
  destruct (scanUser _ _) as [u|]; [|unfold auditOIDC; by rewrite run_audit].
  destruct (negb (User_Enabled u)); [unfold auditOIDC; by rewrite run_audit|].
  destruct (Begin oidc) as [login|] eqn:Eb; [|unfold auditOIDC; by rewrite run_audit].
  destruct (challenge _ _ _ [true]) as [[|a [|? ?]]|];
    [unfold auditOIDC; by rewrite run_audit| |unfold auditOIDC; by rewrite run_audit..].
  destruct (Complete oidc login) as [identity|] eqn:Ec; [|unfold auditOIDC; by rewrite run_audit].
  destruct (negb (validOIDCSubject _)) eqn:Ev; [unfold auditOIDC; by rewrite run_audit|].
  rewrite run_bind. unfold value, final.
  destruct (run (AuthenticateOIDC _ _ _ _) d) as [[mapped|e] d1] eqn:Ea; cbn [fst snd];
    [|unfold auditOIDC; by rewrite run_audit].
  unfold auditOIDC at 1. rewrite run_audit, run_bind_ok. set (d2 := log_event _ d1).
  assert (user_totp d2 = user_totp d1) as Et by apply log_event_tables. clearbody d2.
  apply negb_false_iff in Ev.
  destruct (User_TOTPEnabled mapped) eqn:Em.
  - destruct (run (authenticateTOTP _ _ _ _ _) d2) as [[[]|e] d3] eqn:Er; cbn; [|done].
    intros [= <- <-]. split. exists username, target, login, identity, mapped, d1.
    split_and!; try done. rewrite Em. by exists d2.
  - cbn. intros [= <- <-]. split. exists username, target, login, identity, mapped, d1.
    split_and!; try done. by rewrite Em.
Qed.

(** ** Properties *)

(** C5: the second factor.  [authenticateTOTP] succeeds exactly when the user
    gives one answer that is a code of the window for a counter above the last
    one consumed, under the secret that is enrolled and opens; it then consumes
    that counter.  Otherwise it fails and consumes nothing.  Either way it
    records the outcome. *)
Theorem second_factor_sound now u username source challenge d :
  wf_db d →
  match run (authenticateTOTP now u username source challenge) d with
  | (Ok _, d') => ∃ counter, totp_passes now u challenge d counter ∧
      d' = log_event (totp_event u username source "success") (update_totp_counter (User_ID u) counter d).2
  | (Err _, d') => (∀ counter, ¬ totp_passes now u challenge d counter) ∧
      d' = log_event (totp_event u username source "denied") d
  end.
Proof.
  intros Hd. by destruct (authenticateTOTP_run now u username source challenge d Hd)
    as [(c & Hc & ->)|[Hn [e ->]]]; [exists c|].
Qed.

(** Key login.  [PublicKeyCallback] grants permissions at once exactly to an
    enabled user of the name before the plus sign that has the key and no TOTP;
    a user with TOTP gets a partial success, never permissions; everything else
    is rejected.  The outcome is recorded, and nothing else changes. *)
Theorem public_key_callback_decides user source fp d :
  wf_db d →
  match splitRoutedUsername user with
  | Err e => run (publicKeyCallback user source fp) d = (Rejected e, d)
  | Ok (username, target) =>
    (∃ u, key_user d username fp u ∧
       run (publicKeyCallback user source fp) d =
         (if has_totp (u_id u) d then PartialSuccess (user_of_row d u) username target
          else Granted (authPermissions username target "publickey"),
          log_event (key_event (Some (u_id u)) username source target fp "success") d)) ∨
    ((∀ u, ¬ key_user d username fp u) ∧
       run (publicKeyCallback user source fp) d =
         (Rejected (Msg "permission denied"),
          log_event (key_event None username source target fp "denied") d))
  end.
Proof. apply publicKeyCallback_run. Qed.

(** OIDC login.  When [keyboardInteractive] accepts, this is the
    connection's first attempt, the provider completed the login with a valid
    subject, the store resolved that subject to an enabled user of the claimed
    name, and a user with TOTP also passed the second factor; the permissions
    name that user and target. *)
Theorem oidc_login_accepted oidc issuer now user source challenge c c' d d' :
  run (keyboardInteractive oidc issuer now user source challenge c) d = ((true, c'), d') →
  oidc_attempted c = false ∧ ∃ o p, oidc = Some o ∧ c' = Connection true (Some p) ∧
  oidc_accepted o issuer now user source challenge p d d'.
Proof.
  unfold keyboardInteractive. destruct oidc as [o|]; [|done]. destruct (oidc_attempted c); [done|].
  rewrite run_bind. unfold value, final.
  destruct (run (authenticateOIDC _ _ _ _ _ _) d) as [[p|e] d1] eqn:E; cbn; [|done].
  intros [= <- <-]. split; [done|]. exists o, p. split_and!; [done|done|].
  by apply authenticateOIDC_run.
Qed.

(** One OIDC attempt per connection.  Of all keyboard-interactive requests
    of a connection at most the first can succeed; the others are refused without
    any effect on the connection or the database. *)
Theorem one_oidc_attempt oidc issuer now challenge rest user source d :
  ∃ b c' d', attempts oidc issuer ((now, challenge) :: rest) user source (Connection false None) d =
    (b :: replicate (length rest) false, c', d') ∧
    ∀ c1 d1, run (keyboardInteractive oidc issuer now user source challenge (Connection false None)) d =
      ((b, c1), d1) → c' = c1 ∧ d' = d1.
Proof.
  cbn [attempts].
  destruct (run (keyboardInteractive _ _ _ _ _ _ _) d) as [[b c1] d1] eqn:E.
  destruct oidc as [o|].
  - assert (oidc_attempted c1 = true) as Hc.
    { unfold keyboardInteractive in E. cbn [oidc_attempted] in E. rewrite run_bind in E.
      by destruct (value _ d) as [p|e]; cbn in E; injection E as _ <- _. }
    rewrite attempted_refused by done. exists b, c1, d1. split; [done|]. by intros ? ? [= <- <-].
  - injection E as <- <- <-. exists false, (Connection false None), d.
    split; [|by intros ? ? [= <- <-]].
    assert (∀ l, attempts None issuer l user source (Connection false None) d =
      (replicate (length l) false, Connection false None, d)) as ->; [|done].
    induction l as [|[n ch] l IH]; [done|]. cbn. by rewrite IH.
Qed.

(** A session's state is re-read.  [stateFromContext] answers only for a
    well-formed login name whose user exists and is enabled at that moment, with
    that user's current row. *)
Theorem session_state_is_current user perms d :
  ∃ r, run (stateFromContext user perms) d = (r, d) ∧
    ∀ st, r = Some st → ∃ username target u,
      splitRoutedUsername user = Ok (username, target) ∧ u ∈ d.(users) ∧
      u_username u = ToLower username ∧ u_enabled u = true ∧
      st = mkAuthState (user_of_row d u) target (sshgatew_auth_method perms).
Proof. apply stateFromContext_run. Qed.

End props.

(** ** A code works once *)

Section replay.
Context `{UnicodeTables, RowidsLaws, TimeParser, CipherOps}.

(** What may happen between two logins of the user [uid]: any call of the store
    but a new enrolment of that user, and second factors, of any user. *)
Definition login_or_call (uid : Z) (p : prog db (result unit)) : Prop :=
  (∃ c, enrolls uid c = false ∧ p = exec c) ∨
  ∃ now u username source challenge, p = authenticateTOTP now u username source challenge.

Lemma authenticateTOTP_keeps (I : db → Prop) now u username source challenge :
  (∀ uid n, keeps I (ConsumeTOTPCounter uid n)) → (∀ e, keeps I (Audit e)) →
  keeps I (authenticateTOTP now u username source challenge).
Proof. intros Hc Ha. unfold authenticateTOTP, auditTOTP. keeps_tac; first [apply Ha | apply Hc | apply keeps_query]. Qed.

Lemma login_or_call_wf uid p : login_or_call uid p → keeps wf_db p.
Proof.
  intros [(c & _ & ->)|(now & u & name & src & ch & ->)]; [apply exec_keeps_wf|].
  apply authenticateTOTP_keeps; intros; wf_keeps.
Qed.

Lemma login_or_call_counter uid n p : login_or_call uid p → keeps (counter_used uid n) p.
Proof.
  intros [(c & Hc & ->)|(now & u & name & src & ch & ->)]; [by apply exec_keeps_counter|].
  apply authenticateTOTP_keeps; intros.
  - by apply (exec_keeps_counter uid n (ConsumeTOTPCounter_call uid0 n0)).
  - by apply (exec_keeps_counter uid n (Audit_call e)).
Qed.

Lemma accepted_counter now u username source challenge d d' counter :
  wf_db d → totp_passes now u challenge d counter →
  run (authenticateTOTP now u username source challenge) d = (Ok tt, d') →
  wf_db d' ∧ counter_used (User_ID u) counter d'.
Proof.
  intros Hd Hp Hrun. split.
  { pose proof (keeps_final wf_db (authenticateTOTP now u username source challenge) d) as Hk.
    unfold final in Hk. rewrite Hrun in Hk. apply Hk; [|done].
    apply (login_or_call_wf (User_ID u)). right. by do 5 eexists. }
  destruct (authenticateTOTP_run now u username source challenge d Hd) as [(c & Hc & E)|[Hn [e E]]];
    rewrite E in Hrun; [|done].
  assert (d' = log_event (totp_event u username source "success") (update_totp_counter (User_ID u) c d).2)
    as -> by congruence.
  assert (c = counter) as ->.
  { destruct Hp as [(a1 & t1 & s1 & E1 & Ht1 & Hid1 & _ & Hs1 & Hv1)].
    destruct Hc as [(a2 & t2 & s2 & E2 & Ht2 & Hid2 & _ & Hs2 & Hv2)].
    assert (t1 = t2) as ->; [|congruence].
    apply (unique_on_eq ut_user_id d.(user_totp)); [apply Hd|done|done|congruence]. }
  eapply counter_same; [apply log_event_tables|]. apply consume_uses.
Qed.

(** C12: a code works once.  After a second factor of a user passed with the code
    of some counter, and after any interleaving of calls of the store and of second
    factors, of this user and of others, a second factor of that user passes only
    with a code of a later counter, whatever is answered and whenever - until the
    user enrols again, which replaces the secret. *)
Theorem second_factor_not_replayable now u username source challenge d d' counter
    ps ps' d'' now' u' username' source' challenge' d''' :
  wf_db d → totp_passes now u challenge d counter →
  run (authenticateTOTP now u username source challenge) d = (Ok tt, d') →
  (∀ p, p ∈ ps → login_or_call (User_ID u) p) → interleaves (ps, d') (ps', d'') →
  User_ID u' = User_ID u →
  run (authenticateTOTP now' u' username' source' challenge') d'' = (Ok tt, d''') →
  ∃ counter', totp_passes now' u' challenge' d'' counter' ∧ counter < counter'.
Proof.
  intros Hd Hp Hrun Hps Hi Eu Hrun'.
  destruct (accepted_counter now u username source challenge d d' counter Hd Hp Hrun) as [Hd' Hused].
  assert (wf_db d'' ∧ counter_used (User_ID u) counter d'') as [Hd'' Hused''].
  { split.
    - apply (interleaves_keeps wf_db _ _ Hi); [|done]. apply Forall_forall. intros p Hin.
      by eapply login_or_call_wf, Hps.
    - apply (interleaves_keeps (counter_used (User_ID u) counter) _ _ Hi); [|done]. apply Forall_forall.
      intros p Hin. by apply login_or_call_counter, Hps. }
  destruct (authenticateTOTP_run now' u' username' source' challenge' d'' Hd'') as [(c & Hc & E)|[Hn [e E]]];
    rewrite E in Hrun'; [|done].
  exists c. split; [done|]. destruct Hc as [(a & t & sec & _ & Ht & Hid & Hl & _)].
  rewrite Eu in Hid. specialize (Hused'' t Ht Hid). lia.
Qed.
End replay.

(** ** Witnesses *)

#[local] Existing Instances ascii_tables max_rowids max_rowids_laws sqlite_parser.

(** A cipher that opens every enrolment to the secret of RFC 6238. *)
Definition sample_cipher : CipherOps := {|
  Decrypt _ _ _ _ := Err (Msg "credential authentication failed");
  DecryptSSHIdentity _ _ _ := Err (Msg "credential authentication failed");
  DecryptTOTP _ _ _ := Ok rfc_secret |}.
#[local] Existing Instance sample_cipher.

Definition bob : User := user_of_row sample_db (User_row 2 "bob" "member" true "2026-01-15 12:00:00").
Definition answers (code : string) : KeyboardInteractiveChallenge := λ _ _ _ _, Ok [code].

Lemma bob_passes : totp_passes 59 bob (answers "287082") sample_db 1.
Proof.
  split. exists "287082", (Totp_row 2 "nonce" "sealed" (-1) "2026-01-15 12:00:00"), rfc_secret.
  split_and!; [done|vm_compute; left|done|done|done|vm_compute; reflexivity].
Qed.

Lemma second_factor_sound_witness :
  is_ok (value (authenticateTOTP 59 bob "bob" "10.0.0.9" (answers "287082")) sample_db) = true ∧
  ∃ d', final (authenticateTOTP 59 bob "bob" "10.0.0.9" (answers "000000")) sample_db = d' ∧
    d' = log_event (totp_event bob "bob" "10.0.0.9" "denied") sample_db.
Proof.
  split; [vm_compute; reflexivity|]. eexists. split; [reflexivity|].
  pose proof (second_factor_sound 59 bob "bob" "10.0.0.9" (answers "000000") sample_db sample_db_wf) as Hs.
  assert (is_ok (value (authenticateTOTP 59 bob "bob" "10.0.0.9" (answers "000000")) sample_db) = false) as E
    by (vm_compute; reflexivity).
  unfold final, value in *. destruct (run _ sample_db) as [[[]|e] d']; [discriminate E|apply Hs].
Defined.

(** Bob's database after a login with the code of counter 1; then someone tries
    the same code, and an administrator disables and enables Bob's account. *)
Definition after_login : db := final (authenticateTOTP 59 bob "bob" "10.0.0.9" (answers "287082")) sample_db.

Definition between : list (prog db (result unit)) :=
  [authenticateTOTP 61 bob "bob" "10.9.9.9" (answers "287082");
   exec (SetUserEnabled_call "bob" false); exec (SetUserEnabled_call "bob" true)].

Definition later : list (prog db (result unit)) * db :=
  schedule ([0; 1; 0; 2; 0; 1; 0; 2; 1; 0; 2])%nat between after_login.

Lemma second_factor_not_replayable_witness :
  is_ok (value (authenticateTOTP 61 bob "bob" "10.0.0.9" (answers "287082")) later.2) = false ∧
  ∃ counter', totp_passes 100 bob (answers "969429") later.2 counter' ∧ 1 < counter'.
Proof.
  split; [vm_compute; reflexivity|].
  apply (second_factor_not_replayable 59 bob "bob" "10.0.0.9" (answers "287082") sample_db after_login 1
           between later.1 later.2 100 bob "bob" "10.0.0.9" (answers "969429")
           (final (authenticateTOTP 100 bob "bob" "10.0.0.9" (answers "969429")) later.2) sample_db_wf bob_passes).
  - vm_compute. reflexivity.
  - intros p Hp. unfold between in Hp. rewrite !elem_of_cons, elem_of_nil in Hp.
    destruct Hp as [->|[->|[->|[]]]]; [right; by do 5 eexists|left; by exists (SetUserEnabled_call "bob" false)|
      left; by exists (SetUserEnabled_call "bob" true)].
  - rewrite <- surjective_pairing. apply schedule_interleaves.
  - reflexivity.
  - vm_compute. reflexivity.
Defined.

Lemma public_key_callback_decides_witness :
  ∃ u, key_user sample_db "bob" "SHA256:b" u ∧ has_totp (u_id u) sample_db = true ∧
    (run (publicKeyCallback "bob+web" "10.0.0.9" "SHA256:b") sample_db).1 =
      PartialSuccess (user_of_row sample_db u) "bob" "web".
Proof.
  pose proof (public_key_callback_decides "bob+web" "10.0.0.9" "SHA256:b" sample_db sample_db_wf) as Hk.
  assert (splitRoutedUsername "bob+web" = Ok ("bob", "web")) as E by (vm_compute; reflexivity).
  rewrite E in Hk. destruct Hk as [(u & Hu & Er)|[Hn _]].
  - exists u. rewrite Er. destruct Hu as (Hin & En & Hu).
    assert (u = User_row 2 "bob" "member" true "2026-01-15 12:00:00") as ->; [|done].
    apply (unique_on_eq u_username sample_db.(users)); [apply sample_db_wf|done| |by rewrite En].
    right. left.
  - exfalso. apply (Hn (User_row 2 "bob" "member" true "2026-01-15 12:00:00")).
    split_and!; [right; left|done|done|].
    exists (Key_row 2 2 "SHA256:b" "ssh-ed25519 B" "laptop" "2026-01-15 12:00:00").
    split_and!; [right; left|done|done].
Defined.

(** A provider that completes the login of bob. *)
Definition sample_oidc : oidcAuthenticator := mkOidc
  (Ok (mkLogin "ABCD-EFGH" "https://id.example/device" ""))
  (λ _, Ok (mkIdentity "sub-1" "bob@example")).

(** The user presses Enter, and types the code when asked for it. *)
Definition signs_in : KeyboardInteractiveChallenge := λ _ _ questions _,
  Ok (map (λ q, if q =s "TOTP code: " then "287082" else "") questions).

Lemma oidc_login_accepted_witness :
  let r := run (keyboardInteractive (Some sample_oidc) "https://id.example" 59 "bob" "10.0.0.9" signs_in
                 (Connection false None)) sample_db in
  r.1 = (true, Connection true (Some (authPermissions "bob" "" "oidc"))) ∧
  ∃ o p, Some sample_oidc = Some o ∧ r.1.2 = Connection true (Some p) ∧
    oidc_accepted o "https://id.example" 59 "bob" "10.0.0.9" signs_in p sample_db r.2.
Proof.
  cbn zeta. split; [vm_compute; reflexivity|].
  apply (oidc_login_accepted (Some sample_oidc) "https://id.example" 59 "bob" "10.0.0.9" signs_in
           (Connection false None)).
  vm_compute. reflexivity.
Defined.
