(* ===== verification/Scp.v ===== *)
(** * Legacy SCP commands (downstream/protocols.go: SafeSCPCommand, shellQuote)

    The command a client sends is split by a shell lexer, checked against the
    shape of a legacy SCP server command and quoted again for the target's
    shell.  The lexer is a library: an interface. *)

From S2P Require Import Prelude GoStrings Effects.

(** [shlex.Split(s, posix)] of go-shlex *)
Class Shlex := { shlex_Split : string → bool → option (list string) }.

(** The characters [shellQuote] looks for. *)
Definition shell_special : string :=
  " " +:+ str1 (chr 0x09) +:+ "'" +:+ str1 (chr 0x22) +:+ "\$`;&|<>()*?![]{}".

(** A quote inside single quotes: close them, quote it, open them again. *)
Definition escaped_quote : string := "'" +:+ str1 (chr 0x22) +:+ "'" +:+ str1 (chr 0x22) +:+ "'".

Definition shellQuote (value : string) : string :=
  if negb (value =s "") && negb (ContainsAny value shell_special) then value
  else "'" +:+ replace_byte "'" escaped_quote value +:+ "'".

(** NUL, CR and LF *)
Definition line_controls : string := of_bytes [0x00; 0x0D; 0x0A].

Definition transfer_mode (flag : Z) : bool := (flag =? 0x66) || (flag =? 0x74).
Definition scp_flag (flag : Z) : bool :=
  transfer_mode flag || (flag =? 0x72) || (flag =? 0x70) || (flag =? 0x64).

(** The loop over the flags of one option; the accumulator is [mode]. *)
Fixpoint scan_flags (flags : list (Z * string)) (mode : bool) : result bool :=
  match flags with
  | [] => Ok mode
  | (flag, _) :: rest =>
    if negb (scp_flag flag)
    then Err (Msg ("SCP option -" +:+ encode_rune flag +:+ " is not allowed"))
    else if transfer_mode flag then
      if mode then Err (Msg "SCP command has multiple transfer modes") else scan_flags rest true
    else scan_flags rest mode
  end.

Fixpoint scan_options (args : list string) (mode : bool) : result bool :=
  match args with
  | [] => Ok mode
  | arg :: rest =>
    if negb (HasPrefix arg "-") || (len arg <? 2) then Err (Msg "invalid SCP option")
    else let! mode := scan_flags (runes (TrimPrefix arg "-")) mode in scan_options rest mode
  end.

(** [args[1 : len(args)-1]] and [args[len(args)-1]] *)
Definition middle (args : list string) : list string := removelast (drop 1 args).
Definition last_arg (args : list string) : string := List.last args "".

Section scp.
Context `{Shlex}.

Definition not_scp : error := Msg "only legacy SCP server commands are allowed".

Definition SafeSCPCommand (raw : string) : result string :=
  if ContainsAny raw line_controls then Err (Msg "invalid SCP command")
  else
    match shlex_Split raw true with
    | None => Err not_scp
    | Some args =>
      if (Z.of_nat (length args) <? 3) || negb (nth 0 args "" =s "scp") then Err not_scp
      else
        let! mode := scan_options (middle args) false in
        if negb mode || (last_arg args =s "")
        then Err (Msg "SCP command requires -f or -t and a path")
        else Ok (Join (map shellQuote args) " ")
    end.

End scp.

(** ** The target's shell

    How a POSIX shell cuts a command into words, as far as the command is free
    of expansions: [None] as soon as an unquoted character has another meaning
    to the shell (an operator, an expansion, a pattern, a comment). *)

Inductive quoting := Bare | Single | Double.

Definition shell_active : string := "\$`;&|<>()*?![]{}" +:+ of_bytes [0x0A].

Fixpoint shell_words (s : string) (q : quoting) (word : option string) : option (list string) :=
  match s, q with
  | EmptyString, Bare => Some (match word with Some w => [w] | None => [] end)
  | EmptyString, _ => None
  | String c t, Bare =>
    if Ascii.eqb c " " || Ascii.eqb c (chr 0x09) then
      match word with
      | Some w => (λ ws, w :: ws) <$> shell_words t Bare None
      | None => shell_words t Bare None
      end
    else if Ascii.eqb c "'" then shell_words t Single (Some (default "" word))
    else if Ascii.eqb c (chr 0x22) then shell_words t Double (Some (default "" word))
    else if mem_byte c shell_active then None
    else match word with
         | None => if Ascii.eqb c "#" || Ascii.eqb c "~" then None
                   else shell_words t Bare (Some (str1 c))
         | Some w => shell_words t Bare (Some (w +:+ str1 c))
         end
  | String c t, Single =>
    if Ascii.eqb c "'" then shell_words t Bare word
    else shell_words t Single (Some (default "" word +:+ str1 c))
  | String c t, Double =>
    if Ascii.eqb c (chr 0x22) then shell_words t Bare word
    else if Ascii.eqb c "$" || Ascii.eqb c "`" || Ascii.eqb c "\" then None
    else shell_words t Double (Some (default "" word +:+ str1 c))
  end.

(** An unquoted word that the shell would read as a comment or expand. *)
Definition starts_active (w : string) : bool :=
  match w with String c _ => Ascii.eqb c "#" || Ascii.eqb c "~" | EmptyString => false end.

(** A line has no line break. *)
Definition one_line (w : string) : bool := negb (mem_byte (chr 0x0A) w).

(** ** What is accepted *)

(** The letters f, t, r, p and d; the first two say in which direction to copy. *)
Definition option_letters : list Z := [0x66; 0x74; 0x72; 0x70; 0x64].
Definition mode_letters : list Z := [0x66; 0x74].

Definition letter_of (letters : list Z) (flag : Z) : bool := existsb (Z.eqb flag) letters.

Definition option_flags (arg : string) : list Z := fst <$> runes (TrimPrefix arg "-").
Definition is_option (arg : string) : bool :=
  HasPrefix arg "-" && (2 <=? len arg) && forallb (letter_of option_letters) (option_flags arg).

Definition modes_in (flags : list Z) : Z := Z.of_nat (length (List.filter (letter_of mode_letters) flags)).

Lemma scp_flag_letter flag : scp_flag flag = letter_of option_letters flag.
Proof.
  unfold scp_flag, transfer_mode. cbn.
  by destruct (flag =? 0x66), (flag =? 0x74), (flag =? 0x72), (flag =? 0x70), (flag =? 0x64).
Qed.

Lemma transfer_mode_letter flag : transfer_mode flag = letter_of mode_letters flag.
Proof. unfold transfer_mode. cbn. by destruct (flag =? 0x66), (flag =? 0x74). Qed.

Definition bool_Z (b : bool) : Z := if b then 1 else 0.

Lemma modes_nonneg l : 0 <= modes_in l.
Proof. unfold modes_in. lia. Qed.

Lemma modes_app l1 l2 : modes_in (l1 ++ l2) = modes_in l1 + modes_in l2.
Proof. unfold modes_in. rewrite List.filter_app, length_app. lia. Qed.

Lemma scan_flags_spec fl m m' :
  scan_flags fl m = Ok m' ↔
    forallb (letter_of option_letters) (fst <$> fl) = true ∧ bool_Z m + modes_in (fst <$> fl) <= 1 ∧
    bool_Z m' = bool_Z m + modes_in (fst <$> fl).
Proof.
  revert m. induction fl as [|[r raw] fl IH]; intros m; cbn [scan_flags fmap list_fmap forallb fst].
  - unfold modes_in. destruct m, m'; cbn; (split; [intros [=]; split_and!; done|]);
      intros (_ & ? & ?); done.
  - unfold modes_in in *. cbn [List.filter]. pose proof (modes_nonneg (fst <$> fl)). unfold modes_in in *.
    rewrite scp_flag_letter, transfer_mode_letter.
    destruct (letter_of option_letters r); cbn [negb andb]; [|split; [done|by intros [? _]]].
    destruct (letter_of mode_letters r); cbn [length]; [destruct m|]; rewrite ?IH; cbn [bool_Z] in *.
    + split; [done|]. intros (_ & ? & _). lia.
    + split; intros (? & ? & ?); split_and!; try done; lia.
    + done.
Qed.

Lemma scan_options_spec opts m m' :
  scan_options opts m = Ok m' ↔
    forallb is_option opts = true ∧ bool_Z m + modes_in (opts ≫= option_flags) <= 1 ∧
    bool_Z m' = bool_Z m + modes_in (opts ≫= option_flags).
Proof.
  revert m. induction opts as [|arg opts IH]; intros m; cbn [scan_options forallb mbind list_bind].
  - unfold modes_in. destruct m, m'; cbn; (split; [intros [=]; split_and!; done|]);
      intros (_ & ? & ?); done.
  - rewrite modes_app. unfold is_option at 1.
    pose proof (modes_nonneg (option_flags arg)). pose proof (modes_nonneg (opts ≫= option_flags)).
    assert ((len arg <? 2) = negb (2 <=? len arg)) as -> by (rewrite <- Z.ltb_antisym; done).
    destruct (HasPrefix arg "-"), (2 <=? len arg); cbn [negb orb andb];
      try (split; [done|by intros [? _]]).
    destruct (scan_flags _ m) as [m1|e] eqn:E; cbn [rbind].
    + apply scan_flags_spec in E as (Ef & Hle & Em). fold (option_flags arg) in *.
      rewrite Ef, IH, Em. cbn [andb]. split; intros (? & ? & ?); split_and!; try done; lia.
    + split; [done|]. intros (Hf & Hle & _). apply andb_true_iff in Hf as [Hf _]. exfalso.
      assert (∃ m1, scan_flags (runes (TrimPrefix arg "-")) m = Ok m1) as [m1 ?]; [|congruence].
      exists (bool_decide (bool_Z m + modes_in (option_flags arg) = 1)). apply scan_flags_spec.
      fold (option_flags arg). split_and!; [done|lia|]. destruct m; cbn [bool_Z] in *;
        case_bool_decide; cbn [bool_Z]; lia.
Qed.

(** A legacy SCP server command: scp, options of the five flags with exactly one
    transfer mode, and a path. *)
Record scp_server_command (args : list string) (opts : list string) (path : string) : Prop := {
  scp_words : args = "scp" :: opts ++ [path];
  scp_has_option : opts ≠ [];
  scp_options : forallb is_option opts = true;
  scp_one_mode : modes_in (opts ≫= option_flags) = 1;
  scp_path : path ≠ "";
}.

Lemma args_split args : 3 <= Z.of_nat (length args) →
  args = nth 0 args "" :: middle args ++ [last_arg args] ∧ middle args ≠ [].
Proof.
  destruct args as [|a [|b [|c r]]]; cbn [length]; [lia..|]. intros _. unfold middle, last_arg.
  cbn [drop nth]. split; [|by destruct r]. f_equal.
  change (List.last (a :: b :: c :: r) "") with (List.last (b :: c :: r) "").
  apply app_removelast_last. done.
Qed.

Section accepted.
Context `{Shlex}.

Lemma SafeSCPCommand_spec raw cmd :
  SafeSCPCommand raw = Ok cmd ↔
    ContainsAny raw line_controls = false ∧ ∃ args opts path,
      shlex_Split raw true = Some args ∧ scp_server_command args opts path ∧
      cmd = Join (map shellQuote args) " ".
Proof.
  unfold SafeSCPCommand. destruct (ContainsAny _ _); [split; [done|by intros [? _]]|].
  destruct (shlex_Split raw true) as [args|]; [|split; [done|by intros (_ & ? & ? & ? & ? & _)]].
  destruct (_ || _) eqn:Eg.
  { split; [done|]. intros (_ & args' & opts & path & [= <-] & [-> Ho _ _ _] & _).
    cbn [nth] in Eg. rewrite String.eqb_refl, orb_false_r in Eg. apply Z.ltb_lt in Eg.
    cbn [length] in Eg. rewrite length_app in Eg. destruct opts; cbn in *; [done|lia]. }
  apply orb_false_iff in Eg as [El En]. apply Z.ltb_ge in El. apply negb_false_iff in En. bool_simp.
  destruct (args_split args El) as [Ea Hm]. rewrite En in Ea.
  destruct (scan_options (middle args) false) as [mode|e] eqn:Eo; cbn [rbind].
  - apply scan_options_spec in Eo as (Ho & Hle & Hmode). cbn [bool_Z] in *.
    destruct (negb mode || _) eqn:Ef.
    + split; [done|]. intros (_ & args' & opts & path & [= <-] & [Ew _ _ Hone Hp] & _).
      pose proof (eq_trans (eq_sym Ea) Ew) as [= E2]. apply app_inj_tail in E2 as [<- <-].
      destruct mode; cbn in *; [|lia]. by apply String.eqb_eq in Ef.
    + apply orb_false_iff in Ef as [Em Ep]. apply negb_false_iff in Em as ->. bool_simp. cbn in Hmode.
      split.
      * intros [= <-]. split; [done|]. exists args, (middle args), (last_arg args).
        split_and!; [done|split; [done|done|done|lia|done]|done].
      * intros (_ & args' & opts & path & [= <-] & _ & ->). done.
  - split; [done|]. intros (_ & args' & opts & path & [= <-] & [Ew _ Ho Hone _] & _).
    pose proof (eq_trans (eq_sym Ea) Ew) as [= E2]. apply app_inj_tail in E2 as [<- <-].
    assert (scan_options (middle args) false = Ok true) as Eok.
    { apply scan_options_spec. cbn [bool_Z]. split_and!; [done|lia|lia]. }
    congruence.
Qed.
End accepted.

(** ** What the target's shell reads *)

Lemma str1_app w c t : w +:+ String c t = (w +:+ str1 c) +:+ t.
Proof. by rewrite append_assoc. Qed.

Lemma special_active c : mem_byte c shell_special = false →
  (Ascii.eqb c " " || Ascii.eqb c (chr 0x09)) = false ∧ Ascii.eqb c "'" = false ∧
  Ascii.eqb c (chr 0x22) = false ∧ (c ≠ chr 0x0A → mem_byte c shell_active = false).
Proof.
  intros Hc.
  pose proof (ascii_forall (λ c, mem_byte c shell_special ||
    (negb (Ascii.eqb c " " || Ascii.eqb c (chr 0x09)) && negb (Ascii.eqb c "'")
     && negb (Ascii.eqb c (chr 0x22)) && (Ascii.eqb c (chr 0x0A) || negb (mem_byte c shell_active))))
    ltac:(vm_compute; reflexivity) c) as Hi. cbn beta in Hi. rewrite Hc in Hi. cbn [orb] in Hi.
  apply andb_true_iff in Hi as [Hi Ha]. apply andb_true_iff in Hi as [Hi H3].
  apply andb_true_iff in Hi as [H1 H2]. apply negb_true_iff in H1, H2, H3.
  split_and!; try done. intros Hn. apply Ascii.eqb_neq in Hn. rewrite Hn in Ha. by apply negb_true_iff in Ha.
Qed.

(** Plain characters extend the word. *)
Lemma shell_words_plain v t w : ContainsAny v shell_special = false → one_line v = true →
  shell_words (v +:+ t) Bare (Some w) = shell_words t Bare (Some (w +:+ v)).
Proof.
  revert w. induction v as [|c v IH]; intros w Hs Hl; [by rewrite append_nil_r|].
  cbn [ContainsAny] in Hs. apply orb_false_iff in Hs as [Hc Hs].
  unfold one_line in *. cbn [mem_byte] in Hl. apply negb_true_iff, orb_false_iff in Hl as [Hn Hl].
  destruct (special_active c Hc) as (E1 & E2 & E3 & E4).
  rewrite append_cons. cbn [shell_words]. rewrite E1, E2, E3, E4.
  - rewrite IH by (done || by apply negb_true_iff). by rewrite <- str1_app.
  - intros ->. done.
Qed.

Lemma shell_words_single v t w :
  shell_words (replace_byte "'" escaped_quote v +:+ String "'" t)
    Single (Some w) = shell_words t Bare (Some (w +:+ v)).
Proof.
  revert w. induction v as [|c v IH]; intros w; [by rewrite append_nil_r|].
  cbn [replace_byte]. rewrite append_assoc. destruct (Ascii.eqb c "'") eqn:E.
  - apply Ascii.eqb_eq in E as ->.
    change (shell_words (escaped_quote +:+ replace_byte "'" escaped_quote v +:+ String "'" t) Single (Some w))
      with (shell_words (replace_byte "'" escaped_quote v +:+ String "'" t) Single (Some (w +:+ str1 "'"))).
    rewrite IH. by rewrite <- str1_app.
  - unfold str1. rewrite append_cons. cbn [shell_words]. rewrite E. cbn [default from_option id].
    rewrite IH. by rewrite <- str1_app.
Qed.

(** A word the shell takes as it is: no line break, and not the start of a
    comment or of a home directory. *)
Definition plain_word (w : string) : bool := one_line w && negb (starts_active w).

Lemma shell_words_quote v t : plain_word v = true →
  shell_words (shellQuote v +:+ t) Bare None = shell_words t Bare (Some v).
Proof.
  intros [Hl Ha]%andb_true_iff. apply negb_true_iff in Ha. unfold shellQuote.
  destruct (negb _ && negb _) eqn:Eq.
  - apply andb_true_iff in Eq as [Ene Es]. apply negb_true_iff in Ene, Es. bool_simp.
    destruct v as [|c v]; [done|]. cbn [ContainsAny] in Es. apply orb_false_iff in Es as [Hc Hs].
    unfold one_line in *. cbn [mem_byte] in Hl. apply negb_true_iff, orb_false_iff in Hl as [Hn Hl].
    destruct (special_active c Hc) as (E1 & E2 & E3 & E4). cbn [starts_active] in Ha.
    rewrite append_cons. cbn [shell_words]. rewrite E1, E2, E3, E4, Ha by (by intros ->).
    rewrite shell_words_plain by (done || by apply negb_true_iff). done.
  - rewrite !append_assoc.
    change (shell_words ("'" +:+ replace_byte "'" escaped_quote v
      +:+ "'" +:+ t) Bare None) with
      (shell_words (replace_byte "'" escaped_quote v
        +:+ String "'" t) Single (Some "")).
    by rewrite shell_words_single.
Qed.

Lemma shell_words_join args : args ≠ [] → forallb plain_word args = true →
  shell_words (Join (map shellQuote args) " ") Bare None = Some args.
Proof.
  induction args as [|a args IH]; intros Hne Hp; [done|]. cbn [forallb] in Hp.
  apply andb_true_iff in Hp as [Ha Hp]. destruct args as [|b args].
  - unfold Join. cbn [map String.concat]. rewrite <- (append_nil_r (shellQuote a)).
    by rewrite shell_words_quote.
  - change (Join (map shellQuote (a :: b :: args)) " ") with
      (shellQuote a +:+ String " " (Join (map shellQuote (b :: args)) " ")).
    rewrite shell_words_quote by done. cbn [shell_words]. change (Ascii.eqb " " " ") with true. cbn [orb].
    by rewrite IH.
Qed.

Lemma no_controls_one_line s : ContainsAny s line_controls = false → one_line s = true.
Proof.
  unfold one_line. intros Hs. apply negb_true_iff. induction s as [|d s IH]; [done|]. cbn [ContainsAny] in Hs.
  apply orb_false_iff in Hs as [Hd Hs]. cbn [mem_byte]. rewrite (IH Hs), orb_false_r.
  apply Ascii.eqb_neq. intros <-. by vm_compute in Hd.
Qed.

Section properties.
Context `{Shlex}.

(** What passes is a legacy SCP server command.  [SafeSCPCommand] accepts
    exactly the one-line commands that the lexer reads as scp, then options made
    of the flags f, t, r, p and d with exactly one f or t in all, then a path;
    and it answers with these words, quoted. *)
Theorem scp_commands_accepted raw cmd :
  SafeSCPCommand raw = Ok cmd ↔
    ContainsAny raw line_controls = false ∧ ∃ args opts path,
      shlex_Split raw true = Some args ∧ scp_server_command args opts path ∧
      cmd = Join (map shellQuote args) " ".
Proof. apply SafeSCPCommand_spec. Qed.

(** C13: the target's shell reads the command that was checked.  A command that
    passes has no line break and is, as the lexer reads it, scp with options made
    of the letters f, t, r, p and d, exactly one f or t among them, and a path; and
    the command that is sent is cut by a POSIX shell into exactly these words, with
    nothing expanded or interpreted, unless the path starts with # or ~ or the
    lexer put a line break into a word. *)
Theorem scp_command_reaches_shell raw cmd :
  SafeSCPCommand raw = Ok cmd →
  one_line raw = true ∧
  ∃ args opts path, shlex_Split raw true = Some args ∧ scp_server_command args opts path ∧
    (forallb one_line args = true → starts_active path = false → shell_words cmd Bare None = Some args).
Proof.
  intros (Hc & args & opts & path & Hs & Hcmd & ->)%SafeSCPCommand_spec.
  split; [by apply no_controls_one_line|].
  exists args, opts, path. split_and!; [done|done|]. intros Hline Hp.
  destruct Hcmd as [Ew _ Ho _ _]. rewrite forallb_true in Hline.
  apply shell_words_join; [by rewrite Ew|]. apply forallb_true. intros a Ha.
  unfold plain_word. rewrite Hline by done. cbn [andb]. apply negb_true_iff.
  rewrite Ew in Ha. apply elem_of_cons in Ha as [->|Ha]; [done|].
  apply elem_of_app in Ha as [Ha|Ha].
  - rewrite forallb_true in Ho. specialize (Ho a Ha). unfold is_option in Ho.
    apply andb_true_iff in Ho as [Ho _]. apply andb_true_iff in Ho as [Ho _].
    destruct a as [|c a]; [done|]. unfold HasPrefix in Ho. cbn [String.prefix] in Ho.
    by destruct (ascii_dec "-" c) as [<-|].
  - by apply list_elem_of_singleton in Ha as ->.
Qed.

End properties.

(** ** Witnesses *)

(** A lexer for two commands. *)
Definition sample_lexer (s : string) : option (list string) :=
  if s =s "scp -prf '/tmp/a b'" then Some ["scp"; "-prf"; "/tmp/a b"]
  else if s =s "scp -t '~/x'" then Some ["scp"; "-t"; "~/x"]
  else None.

Definition sample_shlex : Shlex := {| shlex_Split s _ := sample_lexer s |}.
#[local] Existing Instance sample_shlex.

Lemma scp_command_reaches_shell_witness :
  SafeSCPCommand "scp -prf '/tmp/a b'" = Ok "scp -prf '/tmp/a b'" ∧ one_line "scp -prf '/tmp/a b'" = true ∧
  ∃ args opts path, shlex_Split "scp -prf '/tmp/a b'" true = Some args ∧ scp_server_command args opts path ∧
    (forallb one_line args = true → starts_active path = false →
     shell_words "scp -prf '/tmp/a b'" Bare None = Some args).
Proof.
  split; [vm_compute; reflexivity|].
  apply scp_command_reaches_shell. vm_compute. reflexivity.
Defined.

(** A quoted tilde loses its quotes: the target's shell expands it. *)
Lemma quoted_tilde_is_expanded :
  SafeSCPCommand "scp -t '~/x'" = Ok "scp -t ~/x" ∧
  shell_words "scp -t '~/x'" Bare None = Some ["scp"; "-t"; "~/x"] ∧
  shell_words "scp -t ~/x" Bare None = None.
Proof. split_and!; vm_compute; reflexivity. Qed.
