(* ===== verification/Routing.v ===== *)
(** * Sessions and forwarding (gateway/routing.go, server.go: handle)

    What an authenticated connection may do: the session requests it may make,
    the routed session to one target, TCP forwarding, and the interactive loop
    of the menu.  The handlers are programs over a [world]: the database, the
    session counters and the trace of what was done outside.  What the network
    answers is the environment [env]. *)

From S2P Require Import Prelude GoStrings Json GoTime Effects Sql Schema Names StoreUsers StoreOIDC.
From S2P Require Import StoreTargets StoreAccess StoreAudit Sessions Auth Scp Net.

(** ** The world *)

(** What the gateway does outside: towards the target and towards the client. *)
Inductive action :=
  | Dial (t : Target) (credential : Payload)
  | ProxyShell
  | ProxySubsystem (name : string)
  | ProxySCP
  | DialTCP (address : string)
  | Print (text : string)
  | Exit (code : Z)
  | Reject (reason message : string)
  | Accept.

Record world := World {
  w_db : db;
  w_counters : counters;
  w_trace : list action;
}.

Definition on_db {A} (p : prog db A) : prog world A :=
  zoom w_db (λ d w, World d (w_counters w) (w_trace w)) p.

Definition do (a : action) : prog world unit :=
  atomic (λ w, (tt, World (w_db w) (w_counters w) (w_trace w ++ [a]))).

Definition acquire_session (cfg : limits) (u : User) : prog world bool :=
  atomic (λ w, let '(b, c) := acquire cfg (User_ID u) (w_counters w) in (b, World (w_db w) c (w_trace w))).
Definition release_session (u : User) : prog world unit :=
  atomic (λ w, (tt, World (w_db w) (release (User_ID u) (w_counters w)) (w_trace w))).

(** ** The copying of a TCP forwarding

    The two goroutines of [handleDirectTCPIP], each an [io.Copy], the [CloseWrite]
    of what it wrote to and the deferred [wg.Done]; and the handler, which waits
    for both and closes the channel. *)

Inductive leg_phase := LegCopies | LegShut | LegOver.

Record leg := MkLeg {
  lg_copy : stream;
  lg_phase : leg_phase;
  lg_half_closed : bool;
}.

(** [fw_closed]: the channel of the client is closed, and the handler goes on. *)
Record forwarding := MkForwarding {
  fw_up : leg;
  fw_down : leg;
  fw_closed : bool;
}.

Definition forwarding_start (up down : string) (up_end down_end : result unit) : forwarding :=
  MkForwarding (MkLeg (copying up up_end) LegCopies false) (MkLeg (copying down down_end) LegCopies false) false.

(** A goroutine after its copy: [CloseWrite], where the connection has it, then
    [wg.Done] *)
Definition leg_moves (has_CloseWrite : bool) (l : leg) : list leg :=
  match lg_phase l with
  | LegCopies => match st_result (lg_copy l) with
                 | Some _ => [MkLeg (lg_copy l) LegShut has_CloseWrite]
                 | None => []
                 end
  | LegShut => [MkLeg (lg_copy l) LegOver (lg_half_closed l)]
  | LegOver => []
  end.

(** [wg.Wait(); channel.Close()] *)
Definition forwarding_moves (has_CloseWrite : bool) (r : forwarding) : list forwarding :=
  ((λ l, MkForwarding l (fw_down r) (fw_closed r)) <$> leg_moves has_CloseWrite (fw_up r))
  ++ ((λ l, MkForwarding (fw_up r) l (fw_closed r)) <$> leg_moves true (fw_down r))
  ++ match lg_phase (fw_up r), lg_phase (fw_down r), fw_closed r with
     | LegOver, LegOver, false => [MkForwarding (fw_up r) (fw_down r) true]
     | _, _, _ => []
     end.

Inductive forwarding_step (has_CloseWrite : bool) : forwarding → forwarding → Prop :=
  | forwarding_own r r' : r' ∈ forwarding_moves has_CloseWrite r → forwarding_step has_CloseWrite r r'
  | forwarding_up s s' ph h d c : copy_step s s' →
      forwarding_step has_CloseWrite (MkForwarding (MkLeg s ph h) d c) (MkForwarding (MkLeg s' ph h) d c)
  | forwarding_down s s' ph h u c : copy_step s s' →
      forwarding_step has_CloseWrite (MkForwarding u (MkLeg s ph h) c) (MkForwarding u (MkLeg s' ph h) c).

(** What the two [io.Copy] returned: the bytes they wrote *)
Definition forwarded_bytes (r : forwarding) : Z * Z := (len (st_passed (lg_copy (fw_up r))), len (st_passed (lg_copy (fw_down r)))).

(** What the outside answers: the agent the client forwards, the connection to
    the target, the proxied session, a connection through the target, the
    acceptance of the channel, the forwarding when it is over, the milliseconds
    elapsed. *)
Record env := Env {
  env_agent : result unit;
  env_dial : Target → Payload → result unit;
  env_proxy : result unit;
  env_dial_tcp : string → result unit;
  env_accept : result unit;
  env_forwarding : forwarding;
  env_elapsed_ms : Z;
}.

(** A session channel as the handlers read it. *)
Record Session := mkSession {
  Sess_Subsystem : string;
  Sess_RawCommand : string;
  Sess_Pty : bool;
  Sess_RemoteAddr : string;
}.

(** ** server.go: sanitize, sanitizeError *)

Definition sanitize (v : string) : string := if 240 <? len v then take_str 240 v else v.

Definition sanitizeError `{DriverTexts} {A} (r : result A) : string :=
  match r with Ok _ => "" | Err e => sanitize (error_text e) end.

Definition allowSessionRequest `{Shlex} (sess : Session) (typ : string) : bool :=
  if typ =s "shell" then true
  else if typ =s "subsystem" then Sess_Subsystem sess =s "sftp"
  else if typ =s "exec" then is_ok (SafeSCPCommand (Sess_RawCommand sess))
  else false.

Section routing.
Context `{UnicodeTables, Rowids, TimeParser, CipherOps, DriverTexts}.

Definition loadCredential (target : Target) : prog db (result Payload) :=
  if Target_CredentialKind target =s CredentialStoredKey then
    match Target_IdentityID target with
    | None => Ret (Err (Msg "stored SSH key reference is missing"))
    | Some id =>
      let? identity := SSHIdentityByID id in
      lift (DecryptSSHIdentity (SI_ID identity) (SI_Nonce identity) (SI_Ciphertext identity))
    end
  else lift (Decrypt (Target_ID target) (Target_CredentialKind target) (Target_Nonce target) (Target_Ciphertext target)).

(** [TargetByName], its missing row reported as an unavailable target *)
Definition routed_target (name : string) : prog db (result Target) :=
  let* r := TargetByName name in
  match r with
  | Err ErrNoRows => Ret (Err (Msg "target not found or unavailable"))
  | _ => Ret r
  end.

(** The capability and the protocol a session asks for. *)
Definition session_protocol (sess : Session) : string * string :=
  if Sess_Subsystem sess =s "sftp" then (CapabilitySFTP, "sftp")
  else if negb (Sess_RawCommand sess =s "") then (CapabilitySCP, "scp")
  else (CapabilityShell, "shell").

Definition proxy_action (protocol : string) : action :=
  if protocol =s "shell" then ProxyShell
  else if protocol =s "sftp" then ProxySubsystem "sftp"
  else ProxySCP.

Definition session_event (u : User) (sess : Session) (type : string) (target : option Z)
    (outcome details : string) : AuditEvent :=
  event (Some (User_ID u)) (User_Username u) (Sess_RemoteAddr sess) type target outcome details.

Definition end_details {A} (e : env) (err : result A) : string :=
  jsonString [("duration_ms", JInt (env_elapsed_ms e)); ("error", JString (sanitizeError err))].

(** The checks before the connection: the target exists, the capability is
    granted, a shell has a PTY. *)
Definition check_routed (u : User) (sess : Session) (found : result Target) : prog db (result Target) :=
  let '(capability, protocol) := session_protocol sess in
  match found with
  | Err e => Ret (Err e)
  | Ok target =>
    let* ok := CanAccessCapability u (Target_ID target) capability in
    if negb ok then Ret (Err (Msg "access to this target protocol is denied"))
    else if (protocol =s "shell") && negb (Sess_Pty sess)
    then Ret (Err (Msg "routed shell requires a PTY"))
    else Ret (Ok target)
  end.

(** Credential, agent and connection. *)
Definition open_target (e : env) (target : Target) : prog world (result unit) :=
  let? credential := on_db (loadCredential target) in
  let? _ := if Target_CredentialKind target =s CredentialAgent then Ret (env_agent e) else Ret (Ok tt) in
  let* _ := do (Dial target credential) in
  Ret (env_dial e target credential).

Definition handleRouted (cfg : limits) (e : env) (sess : Session) (state : authState) : prog world unit :=
  let u := AS_User state in
  let* admitted := acquire_session cfg u in
  if negb admitted then
    let* _ := do (Print "Session limit reached.") in do (Exit 1)
  else
    let protocol := (session_protocol sess).2 in
    let* found := on_db (routed_target (AS_TargetName state)) in
    let* checked := on_db (check_routed u sess found) in
    let* err :=
      match checked with
      | Err x => Ret (Err x)
      | Ok target =>
        let* _ := on_db (Audit (session_event u sess ("target." +:+ protocol +:+ ".start")
                                  (Some (Target_ID target)) "success" "")) in
        let? _ := open_target e target in
        let* _ := do (proxy_action protocol) in
        Ret (env_proxy e)
      end in
    let* _ :=
      match err with
      | Ok _ => Ret tt
      | Err x => let* _ := do (Print ("SSHGateW: " +:+ sanitize (error_text x))) in do (Exit 1)
      end in
    let targetID := match found with
                    | Ok t => if Target_ID t =? 0 then None else Some (Target_ID t)
                    | Err _ => None
                    end in
    let* _ := on_db (Audit (session_event u sess ("target." +:+ protocol +:+ ".end") targetID
                       (if is_ok err then "success" else "failure") (end_details e err))) in
    release_session u.

(** ** TCP forwarding *)

Record directTCPIPData := mkDirectTCPIP {
  DestAddr : string;
  DestPort : Z;
  OriginAddr : string;
  OriginPort : Z;
}.

Definition destination (r : directTCPIPData) : string := JoinHostPort (DestAddr r) (Itoa (DestPort r)).

Definition auditForward {A} (e : env) (state : authState) (found : result Target) (source : string)
    (r : directTCPIPData) (up down : Z) (outcome : string) (err : result A) : prog db (result unit) :=
  let targetID := match found with
                  | Ok t => if Target_ID t =? 0 then None else Some (Target_ID t)
                  | Err _ => None
                  end in
  Audit (event (Some (User_ID (AS_User state))) (User_Username (AS_User state)) source
    "target.tcp_forward" targetID outcome
    (jsonString [("bytes_down", JInt down); ("bytes_up", JInt up); ("destination", JString (destination r));
                 ("duration_ms", JInt (env_elapsed_ms e)); ("error", JString (sanitizeError err))])).

Definition check_forward (u : User) (r : directTCPIPData) (found : result Target) : prog db (result Target) :=
  match found with
  | Err e => Ret (Err e)
  | Ok target =>
    let* granted := CanAccessCapability u (Target_ID target) CapabilityForward in
    if negb granted then Ret (Err (Msg "TCP forwarding is not granted"))
    else
      let* allowed := ForwardAllowed (Target_ID target) (DestAddr r) (DestPort r) in
      if negb allowed then Ret (Err (Msg "TCP destination is not allowed"))
      else if Target_CredentialKind target =s CredentialAgent
      then Ret (Err (Msg "TCP forwarding requires a stored target credential"))
      else Ret (Ok target)
  end.

(** [request] is the unmarshalled extra data, when it unmarshals. *)
Definition handleDirectTCPIP (cfg : limits) (e : env) (request : option directTCPIPData)
    (user source : string) (permissions : Permissions) : prog world unit :=
  match request with
  | None => do (Reject "ConnectionFailed" "invalid forwarding request")
  | Some request =>
    let* st := on_db (stateFromContext user permissions) in
    match st with
    | None => do (Reject "Prohibited" "use USER+TARGET for forwarding")
    | Some state =>
      if AS_TargetName state =s "" then do (Reject "Prohibited" "use USER+TARGET for forwarding")
      else
        let* found := on_db (routed_target (AS_TargetName state)) in
        let* checked := on_db (check_forward (AS_User state) request found) in
        match checked with
        | Err x =>
          let* _ := do (Reject "Prohibited" (sanitize (error_text x))) in
          let* _ := on_db (auditForward e state found source request 0 0 "denied" checked) in
          Ret tt
        | Ok target =>
          let* admitted := acquire_session cfg (AS_User state) in
          if negb admitted then do (Reject "ResourceShortage" "session limit reached")
          else
            let* opened :=
              (let? credential := on_db (loadCredential target) in
               let* _ := do (Dial target credential) in
               let? _ := Ret (env_dial e target credential) in
               let* _ := do (DialTCP (destination request)) in
               Ret (env_dial_tcp e (destination request))) in
            let* _ :=
              match opened with
              | Err x =>
                let* _ := do (Reject "ConnectionFailed" (sanitize (error_text x))) in
                let* _ := on_db (auditForward e state found source request 0 0 "failure" opened) in
                Ret tt
              | Ok _ =>
                match env_accept e with
                | Err _ => Ret tt
                | Ok _ =>
                  let* _ := do Accept in
                  let* _ := on_db (auditForward (A := unit) e state found source request
                                     (forwarded_bytes (env_forwarding e)).1 (forwarded_bytes (env_forwarding e)).2 "success" (Ok tt)) in
                  Ret tt
                end
              end in
            release_session (AS_User state)
        end
    end
  end.

(** ** The interactive session *)

(** How the menu ends: an error, quitting, or the target to connect to; with
    what the outside answers to that connection. *)
Inductive menu_result :=
  | MenuError
  | MenuQuit
  | MenuTarget (id : Z) (e : env).

(** One connection from the menu. *)
Definition connect_once (u : User) (sess : Session) (id : Z) (e : env) : prog world unit :=
  let* ok := on_db (CanAccess u id) in
  if negb ok then Ret tt
  else
    let* found := on_db (TargetByID id) in
    match found with
    | Err _ => Ret tt
    | Ok target =>
      let* _ := on_db (Audit (session_event u sess "target.connect.start" (Some (Target_ID target)) "success" "")) in
      let* err :=
        (let? _ := open_target e target in
         let* _ := do ProxyShell in
         Ret (env_proxy e)) in
      let* _ := on_db (Audit (session_event u sess "target.connect.end" (Some (Target_ID target))
                         (if is_ok err then "success" else "failure") (end_details e err))) in
      Ret tt
    end.

(** The loop, over what the menu returns each time it runs. *)
Fixpoint menu_loop (u : User) (sess : Session) (menus : list menu_result) : prog world unit :=
  match menus with
  | [] | MenuError :: _ | MenuQuit :: _ => Ret tt
  | MenuTarget id e :: rest => let* _ := connect_once u sess id e in menu_loop u sess rest
  end.

Definition handle (cfg : limits) (e : env) (menus : list menu_result) (sess : Session)
    (user : string) (permissions : Permissions) : prog world unit :=
  let* st := on_db (stateFromContext user permissions) in
  match st with
  | None => let* _ := do (Print "Authentication context unavailable.") in do (Exit 1)
  | Some state =>
    let u := AS_User state in
    if negb (AS_TargetName state =s "") then handleRouted cfg e sess state
    else if negb (Sess_Pty sess) then
      let* _ := do (Print "SSHGateW requires an interactive PTY.") in do (Exit 1)
    else
      let* admitted := acquire_session cfg u in
      if negb admitted then
        let* _ := do (Print "Session limit reached. Try again later.") in
        let* _ := on_db (Audit (session_event u sess "gateway.session" None "denied"
                           (jsonString [("reason", JString "session_limit")]))) in
        do (Exit 1)
      else
        let* _ := on_db (Audit (session_event u sess "gateway.session.start" None "success" "")) in
        let* _ := menu_loop u sess menus in
        let* _ := on_db (Audit (session_event u sess "gateway.session.end" None "success" "")) in
        release_session u
  end.

End routing.
