(* ===== verification/RoutingProps.v ===== *)
(** * What sessions may reach

    Theorems about the handlers of [Routing]: every connection to a target was
    permitted, and session slots are given back. *)

From S2P Require Import Prelude GoStrings Json GoTime Effects Sql Schema Names StoreUsers StoreOIDC.
From S2P Require Import StoreTargets StoreAccess StoreAudit StoreWf StoreCalls StoreAuthz.
From S2P Require Import StoreAuthn StoreLog Sessions Auth AuthProps Scp Net Routing.

(** ** Running over the world *)

Definition with_db (d : db) (w : world) : world := World d (w_counters w) (w_trace w).
Definition with_trace (l : list action) (w : world) : world := World (w_db w) (w_counters w) (w_trace w ++ l).

Lemma run_on_db {A B} (p : prog db A) (k : A → prog world B) w :
  run (let* x := on_db p in k x) w = run (k (value p (w_db w))) (with_db (final p (w_db w)) w).
Proof.
  rewrite run_bind. unfold on_db. unfold value at 1, final at 1.
  rewrite run_zoom; [done|done|done|by intros []].
Qed.

Lemma run_do {B} a (k : unit → prog world B) w :
  run (let* x := do a in k x) w = run (k tt) (with_trace [a] w).
Proof. done. Qed.

(** ** The trace *)

(** [p] adds to the trace only actions that [P] allows. *)
Definition adds {A} (P : action → Prop) (p : prog world A) (w : world) : Prop :=
  ∃ l, w_trace (final p w) = w_trace w ++ l ∧ Forall P l.

Lemma adds_ret {A} P (a : A) w : adds P (Ret a) w.
Proof. exists []. by rewrite app_nil_r. Qed.

Lemma adds_do P a w : P a → adds P (do a) w.
Proof. intros Ha. exists [a]. split; [done|]. by constructor. Qed.

Lemma adds_on_db {A} P (p : prog db A) w : adds P (on_db p) w.
Proof.
  exists []. unfold final, on_db. rewrite run_zoom; [|done|done|by intros []]. cbn. by rewrite app_nil_r.
Qed.

Lemma adds_bind {A B} P (p : prog world A) (k : A → prog world B) w :
  adds P p w → adds P (k (value p w)) (final p w) → adds P (bind p k) w.
Proof.
  intros (l1 & E1 & F1) (l2 & E2 & F2). exists (l1 ++ l2). unfold final at 1. rewrite run_bind.
  fold (final (k (value p w)) (final p w)). rewrite E2, E1, (assoc_L app).
  split; [done|]. by apply Forall_app.
Qed.

(** The same when the continuation is harmless wherever it starts. *)
Lemma adds_then {A B} P (p : prog world A) (k : A → prog world B) w :
  adds P p w → (∀ a w', adds P (k a) w') → adds P (bind p k) w.
Proof. intros Hp Hk. apply adds_bind; auto. Qed.

Section props.
Context `{UnicodeTables, Rowids, TimeParser, CipherOps, DriverTexts}.

(** ** The checks *)

Lemma routed_target_run name d :
  final (routed_target name) d = d ∧
  ∀ t, value (routed_target name) d = Ok t →
    ∃ row, row ∈ d.(targets) ∧ t_name row = name ∧ t = target_of_row row.
Proof.
  unfold routed_target, final, value. rewrite run_bind. unfold value, final. cbn.
  destruct (query_row _ _) as [row|] eqn:E; cbn; [|by split].
  apply query_row_Some in E as [Hr E]. bool_simp. split; [done|]. intros t [= <-]. by exists row.
Qed.

Lemma check_routed_run u sess found d :
  final (check_routed u sess found) d = d ∧
  ∀ t, value (check_routed u sess found) d = Ok t →
    found = Ok t ∧ ∃ column, capability_column (session_protocol sess).1 = Some column ∧
      permitted d u (Target_ID t) column ∧
      ((session_protocol sess).2 = "shell" → Sess_Pty sess = true).
Proof.
  unfold check_routed, final, value. destruct (session_protocol sess) as [cap proto].
  destruct found as [t|e]; [|by split]. rewrite run_bind. unfold value, final.
  destruct (CanAccessCapability_run u (Target_ID t) cap d) as (b & -> & Hb). cbn [fst snd].
  destruct b; cbn [negb]; [|by split].
  destruct (proj1 Hb eq_refl) as (col & Hcol & Hperm).
  destruct ((proto =s "shell") && _) eqn:Ep; cbn [run fst snd]; [by split|].
  split; [done|]. intros t' [= <-]. split; [done|]. exists col. split_and!; [done|done|].
  intros ->. cbn in Ep. by apply negb_false_iff in Ep.
Qed.

Lemma check_forward_run u r found d :
  final (check_forward u r found) d = d ∧
  ∀ t, value (check_forward u r found) d = Ok t →
    found = Ok t ∧ permitted d u (Target_ID t) gr_tcp_forward ∧
    value (ForwardAllowed (Target_ID t) (DestAddr r) (DestPort r)) d = true ∧
    Target_CredentialKind t ≠ CredentialAgent.
Proof.
  unfold check_forward, final, value. destruct found as [t|e]; [|by split].
  rewrite run_bind. unfold value, final.
  destruct (CanAccessCapability_run u (Target_ID t) CapabilityForward d) as (b & -> & Hb). cbn [fst snd].
  destruct b; cbn [negb]; [|by split].
  destruct (proj1 Hb eq_refl) as (col & [= <-] & Hperm).
  rewrite run_bind. unfold value, final.
  destruct (ForwardAllowed_run (Target_ID t) (DestAddr r) (DestPort r) d) as (b & Er & _). rewrite Er. cbn [fst snd].
  destruct b; cbn [negb]; [|by split].
  destruct (_ =s _) eqn:Ek; cbn [run fst snd]; [by split|]. bool_simp.
  split; [done|]. intros t' [= <-]. rewrite Er. by split_and!.
Qed.

(** ** Connections *)

Lemma loadCredential_same t d d' :
  ssh_identities d' = ssh_identities d → value (loadCredential t) d' = value (loadCredential t) d.
Proof.
  intros E. unfold loadCredential. destruct (_ =s _); [|done].
  destruct (Target_IdentityID t) as [id|]; [|done]. unfold value. rewrite !run_bind_ok. cbn.
  rewrite E. by destruct (query_row _ _).
Qed.

Lemma loadCredential_final t d : final (loadCredential t) d = d.
Proof.
  unfold loadCredential, final. destruct (_ =s _); [|done].
  destruct (Target_IdentityID t) as [id|]; [|done]. rewrite run_bind_ok. cbn.
  by destruct (query_row _ _).
Qed.

(** A connection to [t] with the credential the store and the cipher hold. *)
Definition dials_to (t : Target) (d : db) (a : action) : Prop :=
  ∃ c, a = Dial t c ∧ value (loadCredential t) d = Ok c.

Lemma open_target_adds e t w : adds (dials_to t (w_db w)) (open_target e t) w.
Proof.
  unfold open_target, bind_ok at 1. apply adds_bind; [apply adds_on_db|].
  unfold value at 1, final at 1. unfold on_db. rewrite run_zoom; [|done|done|by intros []]. cbn [fst snd].
  destruct (value (loadCredential t) (w_db w)) as [c|] eqn:Ec; [|apply adds_ret].
  apply adds_then; [destruct (_ =s _); apply adds_ret|]. intros [[]|x] w'; [|apply adds_ret].
  apply adds_then; [apply adds_do; by exists c|]. intros ? ?. apply adds_ret.
Qed.

Lemma adds_weaken {A} (P Q : action → Prop) (p : prog world A) w :
  (∀ a, P a → Q a) → adds P p w → adds Q p w.
Proof. intros HPQ (l & E & F). exists l. split; [done|]. by eapply Forall_impl. Qed.

Lemma value_final_on_db {A} (p : prog db A) w :
  value (on_db p) w = value p (w_db w) ∧ final (on_db p) w = with_db (final p (w_db w)) w.
Proof. unfold value at 1, final at 1, on_db. rewrite run_zoom; [done|done|done|by intros []]. Qed.

Lemma Audit_keeps_identities e d : ssh_identities (final (Audit e) d) = ssh_identities d.
Proof. unfold final. rewrite Audit_run. by destruct (loggable e d). Qed.

(** What a session asks for: the capability it needs and what is proxied. *)
Inductive asks (sess : Session) : string → action → Prop :=
  | asks_sftp : Sess_Subsystem sess = "sftp" → asks sess "sftp" (ProxySubsystem "sftp")
  | asks_scp : Sess_Subsystem sess ≠ "sftp" → Sess_RawCommand sess ≠ "" → asks sess "scp" ProxySCP
  | asks_shell : Sess_Subsystem sess ≠ "sftp" → Sess_RawCommand sess = "" → Sess_Pty sess = true →
      asks sess "shell" ProxyShell.

(** The credential of a target: the stored identity it refers to, opened, or its
    own secret, opened. *)
Inductive credential_of (d : db) (t : Target) (c : Payload) : Prop :=
  | own_credential :
      Target_CredentialKind t ≠ "stored_key" →
      Decrypt (Target_ID t) (Target_CredentialKind t) (Target_Nonce t) (Target_Ciphertext t) = Ok c →
      credential_of d t c
  | identity_credential i :
      Target_CredentialKind t = "stored_key" → i ∈ d.(ssh_identities) → Target_IdentityID t = Some (si_id i) →
      DecryptSSHIdentity (si_id i) (si_nonce i) (si_ciphertext i) = Ok c → credential_of d t c.

Lemma loadCredential_of t d c : value (loadCredential t) d = Ok c → credential_of d t c.
Proof.
  unfold loadCredential, CredentialStoredKey. destruct (String.eqb_spec (Target_CredentialKind t) "stored_key") as [E|E].
  - destruct (Target_IdentityID t) as [id|] eqn:Ei; [|done]. unfold value. rewrite run_bind_ok. cbn.
    destruct (query_row _ _) as [i|] eqn:Eq; [|done]. cbn. apply query_row_Some in Eq as [Hi Eq]. bool_simp.
    intros Hc. apply (identity_credential _ _ _ i); [done|done|congruence|exact Hc].
  - by apply own_credential.
Qed.

Lemma credential_of_same t d d' c :
  ssh_identities d' = ssh_identities d → credential_of d' t c → credential_of d t c.
Proof. intros E [Hk Hc|i Hk Hi Hid Hc]; [by apply own_credential|]. rewrite E in Hi. by eapply identity_credential. Qed.

(** What a routed session does outside, in this order: it connects to the target
    of its login name, if its user may use it for what the session asks for; it
    proxies what was asked for, if the connection was made; it prints a message
    and exits. *)
Definition notice (a : action) : Prop := match a with Print _ | Exit _ => True | _ => False end.

Record routed_to (d : db) (state : authState) (capability : string) (t : Target) (c : Payload) : Prop := {
  routed_row : ∃ row, row ∈ d.(targets) ∧ t_name row = AS_TargetName state ∧ t = target_of_row row;
  routed_may : may_use d (AS_User state) (Target_ID t) capability;
  routed_credential : credential_of d t c;
}.

Inductive routed_trace (d : db) (e : env) (state : authState) (sess : Session) : list action → Prop :=
  | routed_refused l : Forall notice l → routed_trace d e state sess l
  | routed_unreachable capability proxy t c x l :
      asks sess capability proxy → routed_to d state capability t c → env_dial e t c = Err x →
      Forall notice l → routed_trace d e state sess (Dial t c :: l)
  | routed_proxied capability proxy t c l :
      asks sess capability proxy → routed_to d state capability t c → env_dial e t c = Ok tt →
      Forall notice l → routed_trace d e state sess (Dial t c :: proxy :: l).

Lemma adds_audit {A} P e (k : result unit → prog world A) w :
  (∀ x, adds P (k x) (with_db (final (Audit e) (w_db w)) w)) → adds P (let* x := on_db (Audit e) in k x) w.
Proof.
  intros Hk. apply adds_bind; [apply adds_on_db|]. destruct (value_final_on_db (Audit e) w) as [-> ->]. apply Hk.
Qed.

(** [open_target] and then harmless actions. *)
Lemma opened_adds {A} P d e t (k : unit → prog world (result A)) w :
  ssh_identities (w_db w) = ssh_identities d →
  (∀ c, value (loadCredential t) d = Ok c → P (Dial t c)) →
  (∀ w', adds P (k tt) w') →
  adds P (let? x := open_target e t in k x) w.
Proof.
  intros Ed Hd Hk. apply adds_then.
  - eapply adds_weaken; [|apply open_target_adds]. intros a (c & -> & Hc). apply Hd.
    by rewrite <- (loadCredential_same t _ _ Ed).
  - intros [[]|x] w'; [apply Hk|apply adds_ret].
Qed.

Lemma acquire_session_state cfg u w :
  w_db (final (acquire_session cfg u) w) = w_db w ∧ w_trace (final (acquire_session cfg u) w) = w_trace w.
Proof. unfold acquire_session, final. cbn. by destruct (acquire _ _ _). Qed.

(** The capability the code looks up and the action it takes are those asked for. *)
Lemma session_protocol_asks sess :
  ((session_protocol sess).2 = "shell" → Sess_Pty sess = true) →
  asks sess (session_protocol sess).1 (proxy_action (session_protocol sess).2).
Proof.
  unfold session_protocol. destruct (String.eqb_spec (Sess_Subsystem sess) "sftp") as [E|E]; [by constructor|].
  destruct (String.eqb_spec (Sess_RawCommand sess) "") as [Ec|Ec]; cbn; [|by constructor].
  intros Hpty. constructor; [done|done|by apply Hpty].
Qed.

(** What [p] adds to the trace satisfies [P]. *)
Definition emits {A} (P : list action → Prop) (p : prog world A) (w : world) : Prop :=
  ∃ l, w_trace (final p w) = w_trace w ++ l ∧ P l.

Lemma emits_bind {A B} P Q (p : prog world A) (k : A → prog world B) w :
  emits P p w → (∀ l, P l → emits (λ l', Q (l ++ l')) (k (value p w)) (final p w)) → emits Q (bind p k) w.
Proof.
  intros (l1 & E1 & F1) Hk. destruct (Hk l1 F1) as (l2 & E2 & F2). exists (l1 ++ l2). split; [|done].
  unfold final at 1. rewrite run_bind. fold (final (k (value p w)) (final p w)).
  by rewrite E2, E1, (assoc_L app).
Qed.

Lemma emits_adds {A} (P : action → Prop) (Q : list action → Prop) (p : prog world A) w :
  adds P p w → (∀ l, Forall P l → Q l) → emits Q p w.
Proof. intros (l & E & F) HQ. exists l. auto. Qed.

Lemma emits_on_db {A B} Q (p : prog db A) (k : A → prog world B) w :
  emits Q (k (value p (w_db w))) (with_db (final p (w_db w)) w) → emits Q (let* x := on_db p in k x) w.
Proof.
  intros Hk. apply (emits_bind (λ l, l = [])).
  - exists []. rewrite app_nil_r. split; [|done]. by destruct (value_final_on_db p w) as [_ ->].
  - intros l ->. by destruct (value_final_on_db p w) as [-> ->].
Qed.

(** [open_target] connects at most once, with the credential of the target, and
    answers what the network does. *)
Lemma open_target_trace e t w :
  (∃ x, value (open_target e t) w = Err x ∧ w_trace (final (open_target e t) w) = w_trace w) ∨
  (∃ c, credential_of (w_db w) t c ∧ value (open_target e t) w = env_dial e t c ∧
        w_trace (final (open_target e t) w) = w_trace w ++ [Dial t c]).
Proof.
  unfold open_target, bind_ok, value, final. rewrite !run_on_db.
  fold (value (loadCredential t) (w_db w)). destruct (value (loadCredential t) (w_db w)) as [c|x] eqn:Ec; [|left; by eexists].
  apply loadCredential_of in Ec. rewrite !run_bind.
  destruct (if Target_CredentialKind t =s _ then Ret (env_agent e) else _) as [r|] eqn:Er;
    [|by destruct (_ =s _) in Er].
  unfold value, final. cbn [run fst snd]. destruct r as [[]|x]; [|left; by eexists].
  right. exists c. split; [done|]. by rewrite !run_do.
Qed.

(** Everything [handleRouted] does outside *)
Lemma handleRouted_emits cfg e sess state w :
  emits (routed_trace (w_db w) e state sess) (handleRouted cfg e sess state) w.
Proof.
  unfold handleRouted. set (d := w_db w). destruct (acquire_session_state cfg (AS_User state) w) as [Ed Et].
  apply (emits_bind (λ l, l = [])).
  { exists []. by rewrite app_nil_r. }
  intros l ->. revert Ed. generalize (final (acquire_session cfg (AS_User state)) w). clear Et. intros w1 Ed.
  destruct (negb _).
  { eapply (emits_adds notice); [|by apply routed_refused]. apply adds_then; [by apply adds_do|].
    intros. by apply adds_do. }
  apply emits_on_db. destruct (routed_target_run (AS_TargetName state) (w_db w1)) as [-> Hfound].
  apply emits_on_db. cbn [w_db with_db]. rewrite Ed in *. fold d in Hfound |- *.
  destruct (check_routed_run (AS_User state) sess (value (routed_target (AS_TargetName state)) d) d) as [-> Hchecked].
  set (Q := λ l, ∀ l', Forall notice l' → routed_trace d e state sess (l ++ l')).
  apply (emits_bind Q); cycle 1.
  { intros l Hl. eapply (emits_adds notice); [|exact Hl]. apply adds_then.
    - match goal with |- adds _ (match ?v with _ => _ end) _ => destruct v as [[]|x] end; [apply adds_ret|].
      apply adds_then; [by apply adds_do|]. intros; by apply adds_do.
    - intros _ w3. apply adds_then; [apply adds_on_db|]. intros _ w4. exists []. by rewrite app_nil_r. }
  destruct (value (check_routed _ _ _) d) as [t|x]; cycle 1.
  { exists []. rewrite app_nil_r. split; [done|]. intros l'. apply routed_refused. }
  destruct (Hchecked t eq_refl) as (Hf & Hperm). destruct (Hfound t Hf) as (row & Hrow & Hname & Et).
  assert (may_use d (AS_User state) (Target_ID t) (session_protocol sess).1) as Hmay.
  { destruct Hperm as (col & Hcol & Hp & _). apply permitted_may_use. by exists col. }
  assert (asks sess (session_protocol sess).1 (proxy_action (session_protocol sess).2)) as Hasks.
  { apply session_protocol_asks. by destruct Hperm as (_ & _ & _ & ?). }
  apply emits_on_db. cbn [w_db with_db]. set (w2 := with_db _ _).
  assert (∀ c, credential_of (w_db w2) t c → routed_to d state (session_protocol sess).1 t c) as Hto.
  { intros c Hc. split; [by exists row|done|]. eapply credential_of_same; [|exact Hc]. apply Audit_keeps_identities. }
  unfold bind_ok. destruct (open_target_trace e t w2) as [(x & Ev & El)|(c & Hc & Ev & El)].
  - apply (emits_bind (λ l, l = [])); [exists []; by rewrite app_nil_r|]. intros l ->. rewrite Ev.
    exists []. rewrite app_nil_r. split; [done|]. intros l'. apply routed_refused.
  - apply (emits_bind (λ l, l = [Dial t c])); [by exists [Dial t c]|]. intros l ->. rewrite Ev.
    destruct (env_dial e t c) as [[]|x] eqn:Edial.
    + exists [proxy_action (session_protocol sess).2]. split; [done|]. intros l' Hl'. eapply routed_proxied; eauto.
    + exists []. rewrite app_nil_r. split; [done|]. intros l' Hl'. eapply routed_unreachable; eauto.
Qed.

(** ** Forwarding *)

(** What permits forwarding to the target [row]. *)
Definition forward_permitted (d : db) (user : string) (permissions : Permissions) (request : directTCPIPData)
    (row : target_row) : Prop :=
  ∃ st, value (stateFromContext user permissions) d = Some st ∧ row ∈ d.(targets) ∧
    t_name row = AS_TargetName st ∧ permitted d (AS_User st) (t_id row) gr_tcp_forward ∧
    value (ForwardAllowed (t_id row) (DestAddr request) (DestPort request)) d = true ∧
    t_credential_kind row ≠ CredentialAgent.

Definition forward_action (d : db) (user : string) (permissions : Permissions) (request : directTCPIPData)
    (a : action) : Prop :=
  match a with
  | Dial t c => ∃ row, forward_permitted d user permissions request row ∧ t = target_of_row row ∧
      value (loadCredential t) d = Ok c
  | DialTCP address => address = destination request ∧ ∃ row, forward_permitted d user permissions request row
  | Accept => ∃ row, forward_permitted d user permissions request row
  | ProxyShell | ProxySubsystem _ | ProxySCP => False
  | _ => True
  end.

Lemma acquire_session_adds P cfg u w : adds P (acquire_session cfg u) w.
Proof.
  exists []. rewrite app_nil_r. destruct (acquire_session_state cfg u w) as [_ ->]. by split.
Qed.

Lemma release_session_adds P u w : adds P (release_session u) w.
Proof. exists []. by rewrite app_nil_r. Qed.

Lemma reject_then_adds {A} P (p : prog db A) r m w :
  P (Reject r m) → adds P (let* _ := do (Reject r m) in let* _ := on_db p in Ret tt) w.
Proof.
  intros HP. apply adds_then; [by apply adds_do|]. intros ? ?. apply adds_then; [apply adds_on_db|].
  intros. apply adds_ret.
Qed.

Lemma handleDirectTCPIP_adds cfg e request user source permissions w :
  adds (λ a, match request with Some r => forward_action (w_db w) user permissions r a | None =>
                  match a with Reject _ _ => True | _ => False end end)
    (handleDirectTCPIP cfg e request user source permissions) w.
Proof.
  unfold handleDirectTCPIP. destruct request as [r|]; [|by apply adds_do]. set (d := w_db w).
  apply adds_bind; [apply adds_on_db|].
  destruct (value_final_on_db (stateFromContext user permissions) w) as [-> ->].
  destruct (stateFromContext_run user permissions d) as (st & Est & _).
  unfold value at 1, final at 1. fold d. rewrite Est. cbn [fst snd].
  destruct st as [state|]; [|by apply adds_do].
  destruct (_ =s ""); [by apply adds_do|].
  apply adds_bind; [apply adds_on_db|].
  destruct (value_final_on_db (routed_target (AS_TargetName state)) (with_db d w)) as [-> ->]. cbn [w_db with_db].
  destruct (routed_target_run (AS_TargetName state) d) as [-> Hfound].
  set (found := value (routed_target _) d) in *.
  apply adds_bind; [apply adds_on_db|].
  destruct (value_final_on_db (check_forward (AS_User state) r found) (with_db d (with_db d w))) as [-> ->].
  cbn [w_db with_db]. destruct (check_forward_run (AS_User state) r found d) as [-> Hchecked].
  destruct (value (check_forward _ _ _) d) as [t|x]; [|by apply reject_then_adds].
  destruct (Hchecked t eq_refl) as (Hf & Hperm & Hallow & Hkind).
  destruct (Hfound t Hf) as (row & Hrow & Hname & ->).
  assert (forward_permitted d user permissions r row) as Hok.
  { exists state. unfold value. rewrite Est. by split_and!. }
  apply adds_bind; [apply acquire_session_adds|].
  set (w1 := final (acquire_session _ _) _).
  assert (w_db w1 = d) as Ew1 by apply acquire_session_state. clearbody w1.
  destruct (negb _); [by apply adds_do|].
  apply adds_then.
  - apply adds_bind; [apply adds_on_db|].
    destruct (value_final_on_db (loadCredential (target_of_row row)) w1) as [-> ->]. rewrite Ew1.
    destruct (value (loadCredential _) d) as [c|x] eqn:Ec; [|apply adds_ret].
    apply adds_then; [apply adds_do; by exists row|]. intros _ w2.
    apply adds_then; [apply adds_ret|]. intros [[]|x] w3; [|apply adds_ret].
    apply adds_then; [apply adds_do; by split; [|exists row]|]. intros. apply adds_ret.
  - intros opened w2. apply adds_then; [|intros; apply release_session_adds].
    destruct opened as [[]|x]; [|by apply reject_then_adds].
    destruct (env_accept e); [|apply adds_ret].
    apply adds_then; [apply adds_do; by exists row|]. intros _ w3.
    apply adds_then; [apply adds_on_db|]. intros. apply adds_ret.
Qed.

(** ** Slots *)

Lemma keeps_on_db {A} c (p : prog db A) : keeps (λ w, w_counters w = c) (on_db p).
Proof.
  unfold on_db. induction p as [a|X f k IH]; cbn; [done|]. split; [|done].
  intros w Hw. by destruct (f (w_db w)).
Qed.

Lemma keeps_do c a : keeps (λ w, w_counters w = c) (do a).
Proof. by apply keeps_atomic. Qed.

Ltac slots_tac :=
  keeps_tac; try apply keeps_on_db; try apply keeps_do.

(** [p] gives one slot of the user back and does nothing else to the counters. *)
Definition gives_back {A} (uid : Z) (p : prog world A) : Prop :=
  ∀ w, w_counters (final p w) = release uid (w_counters w).

Lemma keeps_counters {A} (p : prog world A) w :
  (∀ c, keeps (λ w, w_counters w = c) p) → w_counters (final p w) = w_counters w.
Proof. intros Hk. by apply (keeps_final (λ w', w_counters w' = w_counters w)). Qed.

Lemma gives_back_bind {A B} uid (p : prog world A) (k : A → prog world B) :
  (∀ c, keeps (λ w, w_counters w = c) p) → (∀ a, gives_back uid (k a)) → gives_back uid (bind p k).
Proof.
  intros Hp Hk w. unfold final. rewrite run_bind. fold (final (k (value p w)) (final p w)).
  rewrite Hk. by rewrite keeps_counters.
Qed.

Lemma gives_back_release u : gives_back (User_ID u) (release_session u).
Proof. done. Qed.

(** The counters after a handler that takes a slot and gives it back. *)
Lemma slot_returned {A} cfg u (refused body : prog world A) w :
  (∀ u n, perUser (w_counters w) !! u = Some n → 0 < n) →
  (∀ c, keeps (λ w, w_counters w = c) refused) → gives_back (User_ID u) body →
  w_counters (final (let* admitted := acquire_session cfg u in
                     if negb admitted then refused else body) w) = w_counters w.
Proof.
  intros Hpos Hr Hb. unfold final. rewrite run_bind. unfold value, final, acquire_session. cbn.
  destruct (acquire cfg (User_ID u) (w_counters w)) as [[] c] eqn:E; cbn.
  - fold (final body (World (w_db w) c (w_trace w))). rewrite Hb. cbn. by eapply release_acquire.
  - assert (c = w_counters w) as ->. { unfold acquire in E. destruct (_ || _); by injection E. }
    fold (final refused (World (w_db w) (w_counters w) (w_trace w))). by rewrite keeps_counters.
Qed.

(** [p] leaves the counters as they were, slots it takes included. *)
Definition same_slots {A} (p : prog world A) : Prop :=
  ∀ w, (∀ u n, perUser (w_counters w) !! u = Some n → 0 < n) → w_counters (final p w) = w_counters w.

Lemma same_keeps {A} (p : prog world A) : (∀ c, keeps (λ w, w_counters w = c) p) → same_slots p.
Proof. intros Hk w _. by apply keeps_counters. Qed.

Lemma same_bind {A B} (p : prog world A) (k : A → prog world B) :
  same_slots p → (∀ a, same_slots (k a)) → same_slots (bind p k).
Proof.
  intros Hp Hk w Hw. unfold final. rewrite run_bind. fold (final (k (value p w)) (final p w)).
  assert (w_counters (final p w) = w_counters w) as E by by apply Hp.
  rewrite Hk; [done|]. by rewrite E.
Qed.

Lemma same_slot {A} cfg u (refused body : prog world A) :
  (∀ c, keeps (λ w, w_counters w = c) refused) → gives_back (User_ID u) body →
  same_slots (let* admitted := acquire_session cfg u in if negb admitted then refused else body).
Proof. intros Hr Hb w Hw. by apply slot_returned. Qed.

Ltac gives_back_tac :=
  repeat (apply gives_back_bind; [intros; unfold open_target; slots_tac|intros]); apply gives_back_release.

Lemma handleRouted_slots cfg e sess state : same_slots (handleRouted cfg e sess state).
Proof. apply same_slot; [intros; slots_tac|]. gives_back_tac. Qed.

Lemma handleDirectTCPIP_slots cfg e request user source permissions :
  same_slots (handleDirectTCPIP cfg e request user source permissions).
Proof.
  unfold handleDirectTCPIP. destruct request as [r|]; [|apply same_keeps; intros; slots_tac].
  apply same_bind; [apply same_keeps; intros; slots_tac|]. intros [state|];
    [|apply same_keeps; intros; slots_tac].
  destruct (_ =s ""); [apply same_keeps; intros; slots_tac|].
  apply same_bind; [apply same_keeps; intros; slots_tac|]. intros found.
  apply same_bind; [apply same_keeps; intros; slots_tac|]. intros [t|x];
    [|apply same_keeps; intros; slots_tac].
  apply same_slot; [intros; slots_tac|]. gives_back_tac.
Qed.

Lemma menu_loop_keeps u sess menus c : keeps (λ w, w_counters w = c) (menu_loop u sess menus).
Proof.
  induction menus as [|[| |id e] menus IH]; cbn [menu_loop]; try done.
  apply keeps_bind; [|done]. unfold connect_once, open_target. slots_tac.
Qed.

Lemma handle_slots cfg e menus sess user permissions :
  same_slots (handle cfg e menus sess user permissions).
Proof.
  apply same_bind; [apply same_keeps; intros; slots_tac|]. intros [state|];
    [|apply same_keeps; intros; slots_tac].
  destruct (negb _); [apply handleRouted_slots|].
  destruct (negb _); [apply same_keeps; intros; apply keeps_bind; intros; apply keeps_do|].
  apply same_slot; [intros; slots_tac|].
  apply gives_back_bind; [intros; slots_tac|intros].
  apply gives_back_bind; [intros; apply menu_loop_keeps|intros]. gives_back_tac.
Qed.

(** ** The menu *)

(** A connection from the menu: to a target [u] may use at that moment. *)
Lemma connect_once_adds u sess id e w :
  adds (λ a, match a with
             | Dial t c => ∃ row, row ∈ (w_db w).(targets) ∧ t_id row = id ∧ t = target_of_row row ∧
                 permitted (w_db w) u id gr_shell ∧ value (loadCredential t) (w_db w) = Ok c
             | ProxyShell => permitted (w_db w) u id gr_shell
             | _ => False
             end) (connect_once u sess id e) w.
Proof.
  unfold connect_once. set (d := w_db w). apply adds_bind; [apply adds_on_db|].
  destruct (value_final_on_db (CanAccess u id) w) as [-> ->]. fold d.
  destruct (CanAccessCapability_run u id CapabilityShell d) as (b & Er & Hb).
  assert (value (CanAccess u id) d = b ∧ final (CanAccess u id) d = d) as [-> ->].
  { unfold value, final, CanAccess. by rewrite Er. }
  destruct b; [|apply adds_ret]. destruct (proj1 Hb eq_refl) as (col & [= <-] & Hperm). cbn [negb].
  apply adds_bind; [apply adds_on_db|].
  destruct (value_final_on_db (TargetByID id) (with_db d w)) as [-> ->]. cbn [w_db with_db].
  assert (value (TargetByID id) d = scanTarget (query_row (λ t, t_id t =? id) d.(targets)) ∧
    final (TargetByID id) d = d) as [-> ->] by done.
  destruct (query_row _ _) as [row|] eqn:E; [|apply adds_ret]. cbn [scanTarget].
  apply query_row_Some in E as [Hr E]. bool_simp.
  apply adds_audit. intros _. apply adds_then; [|intros; apply adds_then; [apply adds_on_db|intros; apply adds_ret]].
  apply (opened_adds _ d).
  - cbn [w_db with_db]. apply Audit_keeps_identities.
  - intros c Hc. by exists row.
  - intros w'. apply adds_then; [by apply adds_do|]. intros. apply adds_ret.
Qed.

(** ** Properties *)

(** C4: routed sessions reach only what is granted.  Whatever the network and
    the agent answer, a routed session connects at most once, to the target its
    login name gives, with the credential the store and the cipher hold for it,
    and only if its user may use the target for what the session asks for at that
    moment: "sftp" for the subsystem, "scp" for a command, "shell" for neither,
    and that only with a PTY.  After the connection it proxies exactly what it
    was asked for; besides it only prints messages and exits. *)
Theorem routed_session_reaches_granted cfg e sess state w :
  ∃ l, w_trace (final (handleRouted cfg e sess state) w) = w_trace w ++ l ∧
    routed_trace (w_db w) e state sess l.
Proof. apply handleRouted_emits. Qed.

(** C17: forwarding reaches only allowed destinations.  A direct-tcpip channel
    connects, dials and is accepted only if the login re-read from the database
    is of an enabled user who is permitted TCP forwarding on the named target, a
    rule allows the destination, and the target does not need a forwarded agent;
    the only destination dialled is the one requested. *)
Theorem forwarding_reaches_allowed cfg e request user source permissions w :
  ∃ l, w_trace (final (handleDirectTCPIP cfg e request user source permissions) w) = w_trace w ++ l ∧
    Forall (λ a, match request with
                 | Some r => forward_action (w_db w) user permissions r a
                 | None => match a with Reject _ _ => True | _ => False end
                 end) l.
Proof. apply handleDirectTCPIP_adds. Qed.

(** Slots are given back.  When a session handler - routed, forwarding or
    interactive - is done, whatever failed on the way, the session counters are
    what they were before it. *)
Theorem handlers_return_slots cfg e menus sess user permissions request source w s :
  counts s → srv_counters s = w_counters w →
  w_counters (final (handle cfg e menus sess user permissions) w) = w_counters w ∧
  w_counters (final (handleDirectTCPIP cfg e request user source permissions) w) = w_counters w.
Proof.
  intros Hc E. assert (∀ u n, perUser (w_counters w) !! u = Some n → 0 < n) as Hpos.
  { rewrite <- E. by apply counts_positive. }
  split; [by apply handle_slots|by apply handleDirectTCPIP_slots].
Qed.
End props.

(** ** The copying of a forwarding *)

Section copying.
Context (up down : string) (up_end down_end : result unit) (has_CloseWrite : bool).

(** A leg passes its source on in order; it is past its copying only when that
    has ended, and only then was [CloseWrite] called. *)
Record leg_ok (all : string) (e : result unit) (half : bool) (l : leg) : Prop := {
  lk_stream : stream_ok all e (lg_copy l);
  lk_copies : lg_phase l = LegCopies → lg_half_closed l = false;
  lk_past : lg_phase l ≠ LegCopies → st_result (lg_copy l) ≠ None ∧ lg_half_closed l = half;
}.

Record forwarding_ok (r : forwarding) : Prop := {
  fk_up : leg_ok up up_end has_CloseWrite (fw_up r);
  fk_down : leg_ok down down_end true (fw_down r);
  fk_closed : fw_closed r = true → lg_phase (fw_up r) = LegOver ∧ lg_phase (fw_down r) = LegOver;
}.

Lemma leg_moves_ok all e half l l' : l' ∈ leg_moves half l → leg_ok all e half l → leg_ok all e half l'.
Proof.
  unfold leg_moves. intros H [Hs Hc Hp]. destruct (lg_phase l).
  - destruct (st_result (lg_copy l)) eqn:E; [|by apply not_elem_of_nil in H].
    apply list_elem_of_singleton in H as ->. split; cbn; [done|done|]. rewrite E. by split.
  - apply list_elem_of_singleton in H as ->. split; cbn; [done|done|]. intros _. by apply Hp.
  - by apply not_elem_of_nil in H.
Qed.

Lemma leg_copies_ok all e half s s' ph h :
  copy_step s s' → leg_ok all e half (MkLeg s ph h) → ph = LegCopies ∧ leg_ok all e half (MkLeg s' ph h).
Proof.
  intros Hs [Hok Hc Hp]. cbn in *. assert (ph = LegCopies) as ->.
  { destruct ph; [done|..]; destruct (Hp ltac:(done)) as [Hn _]; by destruct Hs. }
  split; [done|]. split; cbn; [by eapply copy_step_ok|done|done].
Qed.

Lemma forwarding_step_ok r r' : forwarding_step has_CloseWrite r r' → forwarding_ok r → forwarding_ok r'.
Proof.
  intros Hs [Hu Hd Hc]. destruct Hs as [r r' H|s s' ph h d c Hs|s s' ph h u c Hs].
  - unfold forwarding_moves in H. rewrite !elem_of_app, !list_elem_of_fmap in H.
    destruct H as [(l & -> & Hl)|[(l & -> & Hl)|H]].
    + split; cbn; [by eapply leg_moves_ok|done|]. intros [E _]%Hc. unfold leg_moves in Hl. rewrite E in Hl.
      by apply not_elem_of_nil in Hl.
    + split; cbn; [done|by eapply leg_moves_ok|]. intros [_ E]%Hc. unfold leg_moves in Hl. rewrite E in Hl.
      by apply not_elem_of_nil in Hl.
    + destruct (lg_phase (fw_up r)) eqn:E1, (lg_phase (fw_down r)) eqn:E2, (fw_closed r) eqn:E3;
        try (by apply not_elem_of_nil in H).
      apply list_elem_of_singleton in H as ->. by split.
  - destruct (leg_copies_ok _ _ _ _ _ _ _ Hs Hu) as [-> Hu']. split; cbn; [done|done|]. by intros [? _]%Hc.
  - destruct (leg_copies_ok _ _ _ _ _ _ _ Hs Hd) as [-> Hd']. split; cbn; [done|done|]. by intros [_ ?]%Hc.
Qed.

Definition forwarding_reachable : forwarding → Prop :=
  rtc (forwarding_step has_CloseWrite) (forwarding_start up down up_end down_end).

Lemma forwarding_reachable_ok r : forwarding_reachable r → forwarding_ok r.
Proof.
  intros Hr. assert (forwarding_ok (forwarding_start up down up_end down_end)) as H0.
  { split; cbn; [split; [apply copying_ok|done|done]..|done]. }
  revert H0. induction Hr as [|r r1 r2 Hs _ IH]; [done|]. intros H0. apply IH. by eapply forwarding_step_ok.
Qed.

Lemma leg_moves_copy half l l' : l' ∈ leg_moves half l → lg_copy l' = lg_copy l.
Proof.
  unfold leg_moves. destruct (lg_phase l); [destruct (st_result _)|..]; intros H;
    try (by apply not_elem_of_nil in H); by apply list_elem_of_singleton in H as ->.
Qed.

(** Each step of the handler's own goroutines uses up some of this. *)
Definition phase_weight (p : leg_phase) : nat := match p with LegCopies => 2 | LegShut => 1 | LegOver => 0 end.
Definition forwarding_weight (r : forwarding) : nat :=
  phase_weight (lg_phase (fw_up r)) + phase_weight (lg_phase (fw_down r)) + (if fw_closed r then 0 else 1).

Lemma forwarding_weight_decreases r r' :
  r' ∈ forwarding_moves has_CloseWrite r → (forwarding_weight r' < forwarding_weight r)%nat.
Proof.
  unfold forwarding_moves, forwarding_weight. rewrite !elem_of_app, !list_elem_of_fmap.
  assert (∀ half l l', l' ∈ leg_moves half l → (phase_weight (lg_phase l') < phase_weight (lg_phase l))%nat) as Hl.
  { intros half l l'. unfold leg_moves. destruct (lg_phase l); [destruct (st_result _)|..];
      rewrite ?list_elem_of_singleton; intros H; try (by apply not_elem_of_nil in H); subst; cbn; lia. }
  intros [(l & -> & H%Hl)|[(l & -> & H%Hl)|H]]; cbn; [lia|lia|].
  destruct (lg_phase (fw_up r)) eqn:E1, (lg_phase (fw_down r)) eqn:E2, (fw_closed r) eqn:E3;
    try (by apply not_elem_of_nil in H). apply list_elem_of_singleton in H as ->. cbn. rewrite E1, E2. cbn. lia.
Qed.

(** Both copies over and nothing left to do: the channel is closed. *)
Lemma forwarding_stuck r :
  st_result (lg_copy (fw_up r)) ≠ None → st_result (lg_copy (fw_down r)) ≠ None →
  forwarding_moves has_CloseWrite r = [] → fw_closed r = true.
Proof.
  intros Hu Hd. unfold forwarding_moves, leg_moves.
  destruct (st_result (lg_copy (fw_up r))), (st_result (lg_copy (fw_down r))); try done.
  by destruct (lg_phase (fw_up r)), (lg_phase (fw_down r)), (fw_closed r).
Qed.

(** A forwarding comes to its end: once both copies have ended, at most five
    steps of the handler and its goroutines close the channel, in whatever order
    they are taken; and none waits for the other direction before its own
    [CloseWrite]. *)
Theorem forwarding_comes_to_an_end r :
  forwarding_reachable r → st_result (lg_copy (fw_up r)) ≠ None → st_result (lg_copy (fw_down r)) ≠ None →
  (forwarding_weight r <= 5)%nat ∧
  (∀ r', r' ∈ forwarding_moves has_CloseWrite r → (forwarding_weight r' < forwarding_weight r)%nat) ∧
  ∃ r', rtc (λ a b, b ∈ forwarding_moves has_CloseWrite a) r r' ∧ fw_closed r' = true ∧
        forwarded_bytes r' = forwarded_bytes r.
Proof.
  intros _ Hu Hd. split_and!; [|apply forwarding_weight_decreases|].
  { unfold forwarding_weight, phase_weight. destruct (lg_phase (fw_up r)), (lg_phase (fw_down r)), (fw_closed r); lia. }
  remember (forwarding_weight r) as n eqn:En. revert r En Hu Hd.
  induction (lt_wf n) as [n _ IH]. intros r -> Hu Hd.
  destruct (forwarding_moves has_CloseWrite r) as [|r1 l] eqn:E.
  - exists r. split_and!; [apply rtc_refl|by apply forwarding_stuck|done].
  - assert (r1 ∈ forwarding_moves has_CloseWrite r) as H1 by (rewrite E; left).
    assert (lg_copy (fw_up r1) = lg_copy (fw_up r) ∧ lg_copy (fw_down r1) = lg_copy (fw_down r)) as [Eu Ed].
    { clear E. unfold forwarding_moves in H1. rewrite !elem_of_app, !list_elem_of_fmap in H1.
      destruct H1 as [(l0 & -> & H%leg_moves_copy)|[(l0 & -> & H%leg_moves_copy)|H]]; cbn; [done|done|].
      destruct (lg_phase (fw_up r)), (lg_phase (fw_down r)), (fw_closed r); try (by apply not_elem_of_nil in H).
      by apply list_elem_of_singleton in H as ->. }
    destruct (IH (forwarding_weight r1) (forwarding_weight_decreases _ _ H1) r1 eq_refl) as (r' & Hr & Hc & Hb);
      [by rewrite Eu|by rewrite Ed|].
    exists r'. split_and!; [by eapply rtc_l|done|]. rewrite Hb. unfold forwarded_bytes. by rewrite Eu, Ed.
Qed.
End copying.

(** ** What a forwarding logs *)

Section accounting.
Context `{UnicodeTables, Rowids, TimeParser, CipherOps, DriverTexts}.

(** From [w] to [w'] no channel was accepted. *)
Definition not_accepted (w w' : world) : Prop := Accept ∈ w_trace w' → Accept ∈ w_trace w.

Lemma not_accepted_do a w : a ≠ Accept → not_accepted w (with_trace [a] w).
Proof. intros Ha. unfold not_accepted. cbn. rewrite elem_of_app, list_elem_of_singleton. intros [?|?]; congruence. Qed.

Lemma opened_not_accepted e target request w :
  let p := let? credential := on_db (loadCredential target) in
           let* _ := do (Dial target credential) in
           let? _ := Ret (env_dial e target credential) in
           let* _ := do (DialTCP (destination request)) in
           Ret (env_dial_tcp e (destination request)) in
  w_db (final p w) = w_db w ∧ not_accepted w (final p w).
Proof.
  cbn zeta. unfold bind_ok, final. rewrite !run_on_db, loadCredential_final.
  destruct (value (loadCredential target) (w_db w)) as [c|x]; [|split; [done|by unfold not_accepted]].
  rewrite !run_do. cbn [bind]. destruct (env_dial e target c) as [[]|x].
  - rewrite !run_do. cbn. split; [done|]. unfold not_accepted. cbn. rewrite !elem_of_app, !list_elem_of_singleton.
    intros [[?|?]|?]; congruence.
  - cbn. split; [done|]. by apply (not_accepted_do (Dial target c) (with_db (w_db w) w)).
Qed.

Lemma not_accepted_on_db {A} (p : prog db A) w : not_accepted w (final (on_db p) w).
Proof. destruct (value_final_on_db p w) as [_ ->]. by unfold not_accepted. Qed.

(** The event of a forwarding that is over, from the bytes that were passed on *)
Definition forward_event (e : env) (u : User) (tid : Z) (source : string) (r : directTCPIPData)
    (to_target to_client : string) : AuditEvent :=
  event (Some (User_ID u)) (User_Username u) source "target.tcp_forward" (if tid =? 0 then None else Some tid) "success"
    (jsonString [("bytes_down", JInt (len to_client)); ("bytes_up", JInt (len to_target));
                 ("destination", JString (JoinHostPort (DestAddr r) (Itoa (DestPort r))));
                 ("duration_ms", JInt (env_elapsed_ms e)); ("error", JString "")]).

(** What the two copies passed on *)
Definition passed_up (e : env) : string := st_passed (lg_copy (fw_up (env_forwarding e))).
Definition passed_down (e : env) : string := st_passed (lg_copy (fw_down (env_forwarding e))).

(** Running [p], no channel is accepted, or the event of the forwarding of a user
    and a target that [who] relates is all that changes the database. *)
Definition accounted {A} (who : User → Z → Prop) (e : env) (source : string) (r : directTCPIPData)
    (p : prog world A) (w : world) : Prop :=
  not_accepted w (final p w) ∨
  ∃ u tid, who u tid ∧
    w_db (final p w) = final (Audit (forward_event e u tid source r (passed_up e) (passed_down e))) (w_db w).

Section accounts.
Context (who : User → Z → Prop).

Lemma accounted_bind {A B} e source r (p : prog world A) (k : A → prog world B) w :
  w_db (final p w) = w_db w → not_accepted w (final p w) →
  accounted who e source r (k (value p w)) (final p w) → accounted who e source r (bind p k) w.
Proof.
  intros Ed Ha Hk. assert (final (bind p k) w = final (k (value p w)) (final p w)) as Eb.
  { unfold final at 1. by rewrite run_bind. }
  unfold accounted. rewrite Eb.
  destruct Hk as [Hn|(u & tid & Hw & E)]; [left|right; exists u, tid; by rewrite E, Ed].
  unfold not_accepted in *. auto.
Qed.

Lemma accounted_read {A B} e source r (p : prog db A) (k : A → prog world B) w :
  final p (w_db w) = w_db w → (∀ w', w_db w' = w_db w → accounted who e source r (k (value p (w_db w))) w') →
  accounted who e source r (let* x := on_db p in k x) w.
Proof.
  intros Ep Hk. destruct (value_final_on_db p w) as [Ev Ef].
  apply accounted_bind; rewrite ?Ev, ?Ef, ?Ep; [done|by unfold not_accepted|]. by apply Hk.
Qed.

(** A channel that is rejected and logged *)
Lemma accounted_reject {A} e source r reason m (p : prog db A) w :
  accounted who e source r (let* _ := do (Reject reason m) in let* _ := on_db p in Ret tt) w.
Proof.
  left. unfold final. rewrite run_do, run_on_db. cbn. by apply (not_accepted_do (Reject reason m) w).
Qed.

Lemma accounted_release e source r u (p : prog world unit) w :
  accounted who e source r p w → accounted who e source r (let* _ := p in release_session u) w.
Proof.
  assert (w_db (final (let* _ := p in release_session u) w) = w_db (final p w) ∧
    w_trace (final (let* _ := p in release_session u) w) = w_trace (final p w)) as [Ed Et].
  { unfold final at 1 3. by rewrite run_bind. }
  intros [Hn|(u' & tid & Hw & E)]; [left|right; exists u', tid; by rewrite Ed].
  unfold not_accepted in *. by rewrite Et.
Qed.

Lemma accounted_success e source r state t w : who (AS_User state) (Target_ID t) →
  accounted who e source r
    (let* _ := do Accept in
     let* _ := on_db (auditForward (A := unit) e state (Ok t) source r (forwarded_bytes (env_forwarding e)).1
                        (forwarded_bytes (env_forwarding e)).2 "success" (Ok tt)) in
     Ret tt) w.
Proof.
  intros Hw. right. exists (AS_User state), (Target_ID t). split; [done|].
  change (auditForward _ _ _ _ _ _ _ _ _) with
    (Audit (forward_event e (AS_User state) (Target_ID t) source r (passed_up e) (passed_down e))).
  generalize (Audit (forward_event e (AS_User state) (Target_ID t) source r (passed_up e) (passed_down e))).
  intros p. unfold final at 1. by rewrite run_do, run_on_db.
Qed.

End accounts.

(** The user a forwarding is of and the target it goes through *)
Definition forwards_for (d : db) (user : string) (permissions : Permissions) (u : User) (tid : Z) : Prop :=
  ∃ st row, value (stateFromContext user permissions) d = Some st ∧ row ∈ d.(targets) ∧
    t_name row = AS_TargetName st ∧ u = AS_User st ∧ tid = t_id row.

Lemma handleDirectTCPIP_accounted cfg e r user source permissions w :
  accounted (forwards_for (w_db w) user permissions) e source r
    (handleDirectTCPIP cfg e (Some r) user source permissions) w.
Proof.
  unfold handleDirectTCPIP.
  apply accounted_read. { destruct (stateFromContext_run user permissions (w_db w)) as (st & E & _). unfold final. by rewrite E. }
  intros w1 E1. destruct (value _ _) as [state|] eqn:Est; [|left; by apply not_accepted_do].
  destruct (_ =s ""); [left; by apply not_accepted_do|].
  apply accounted_read; [apply routed_target_run|]. intros w2 E2.
  destruct (routed_target_run (AS_TargetName state) (w_db w1)) as [_ Hfound].
  revert Hfound. generalize (value (routed_target (AS_TargetName state)) (w_db w1)). intros found Hfound.
  apply accounted_read; [apply check_forward_run|]. intros w3 E3.
  destruct (check_forward_run (AS_User state) r found (w_db w2)) as [_ Hchecked].
  destruct (value (check_forward _ _ _) _) as [t|x]; [|apply accounted_reject].
  destruct (Hchecked t eq_refl) as [-> _]. destruct (Hfound t eq_refl) as (row & Hrow & Hname & Et).
  assert (forwards_for (w_db w) user permissions (AS_User state) (Target_ID t)) as Hw.
  { exists state, row. rewrite E1 in Hrow. rewrite Et. by split_and!. }
  destruct (acquire_session_state cfg (AS_User state) w3) as [Ed Ew].
  apply accounted_bind; [exact Ed|unfold not_accepted; by rewrite Ew|].
  destruct (negb _); [left; by apply not_accepted_do|].
  generalize (final (acquire_session cfg (AS_User state)) w3). intros w4.
  destruct (opened_not_accepted e t r w4) as [Eo Ho].
  apply accounted_bind; [exact Eo|exact Ho|].
  apply accounted_release. destruct (value _ w4) as [[]|x]; [|apply accounted_reject].
  destruct (env_accept e) as [[]|x]; [by apply accounted_success|left; by unfold not_accepted].
Qed.

(** C18: what a forwarding logs is what it passed on.  Whatever the order in which
    the two copies, the client and the destination take their steps, and whether
    they end well or with an error: when a channel was accepted, all that changes
    the database is the event of the user of the login and the target of its name,
    with the number of bytes that were written to the destination as "bytes_up" and
    of those written to the client as "bytes_down".  What was written are the first
    bytes of what the other side sent, in order, and all of them when the copy ended
    without an error.  Each direction is closed for writing once its copy has ended,
    and the channel only after both. *)
Theorem forwarded_bytes_are_logged cfg e r user source permissions w up down up_end down_end has_CloseWrite :
  forwarding_reachable up down up_end down_end has_CloseWrite (env_forwarding e) → fw_closed (env_forwarding e) = true →
  let w' := final (handleDirectTCPIP cfg e (Some r) user source permissions) w in
  Accept ∉ w_trace w → Accept ∈ w_trace w' →
  (∃ u tid, forwards_for (w_db w) user permissions u tid ∧
     w_db w' = final (Audit (forward_event e u tid source r (passed_up e) (passed_down e))) (w_db w)) ∧
  (∃ rest, up = passed_up e +:+ rest) ∧ (∃ rest, down = passed_down e +:+ rest) ∧
  (st_result (lg_copy (fw_up (env_forwarding e))) = Some (Ok tt) → passed_up e = up) ∧
  (st_result (lg_copy (fw_down (env_forwarding e))) = Some (Ok tt) → passed_down e = down) ∧
  lg_half_closed (fw_up (env_forwarding e)) = has_CloseWrite ∧ lg_half_closed (fw_down (env_forwarding e)) = true.
Proof.
  intros Hr Hc w' Hn Ha.
  destruct (handleDirectTCPIP_accounted cfg e r user source permissions w) as [Hno|E];
    [by destruct Hn; apply Hno|].
  apply forwarding_reachable_ok in Hr as [[Hu _ Hup] [Hd _ Hdp] Hcl]. destruct (Hcl Hc) as [Pu Pd].
  destruct Hu as [Eu _ Du], Hd as [Ed _ Dd]. unfold passed_up, passed_down in *.
  split_and!; [exact E|by eexists|by eexists| | |apply Hup; congruence|apply Hdp; congruence].
  - intros [Es _]%Du. by rewrite Es, append_nil_r in Eu.
  - intros [Es _]%Dd. by rewrite Es, append_nil_r in Ed.
Qed.
End accounting.

(** ** Witnesses *)

#[local] Existing Instances ascii_tables max_rowids max_rowids_laws sqlite_parser.

(** A cipher that opens everything, and no driver texts. *)
Definition open_cipher : CipherOps := {|
  Decrypt _ _ _ _ := Ok (mkPayload 1 "secret" "" "" "" "");
  DecryptSSHIdentity _ _ _ := Ok (mkPayload 1 "" "key" "" "" "");
  DecryptTOTP _ _ _ := Ok "JBSWY3DPEHPK3PXP" |}.
Definition no_texts : DriverTexts := {| violation_text _ := "constraint failed" |}.
#[local] Existing Instances open_cipher no_texts.

(** A forwarding that passed ten bytes up, and seven of twenty down *)
Definition broken_forwarding : forwarding :=
  MkForwarding (MkLeg (MkStream "" (Ok tt) "SELECT 1;;" (Some (Ok tt))) LegOver true)
    (MkLeg (MkStream ", one column." (Ok tt) "one row" (Some (Err (Ext "broken pipe")))) LegOver true) true.

Definition quiet_env : env := Env (Ok tt) (λ _ _, Ok tt) (Ok tt) (λ _, Ok tt) (Ok tt) broken_forwarding 5.
Definition pty_session : Session := mkSession "" "" true "10.0.0.9".
Definition sample_world (d : db) : world := World d new_counters [].

Lemma handlers_return_slots_witness :
  let w := sample_world sample_db in
  let perms := mkPermissions "bob" "web" "publickey" in
  let limits := Limits 10 2 in
  w_counters (final (handle limits quiet_env [] pty_session "bob+web" perms) w) = w_counters w ∧
  w_counters (final (handleDirectTCPIP limits quiet_env None "bob+web" "10.0.0.9" perms) w) = w_counters w.
Proof.
  cbn zeta. apply (handlers_return_slots _ _ _ _ _ _ _ _ _ start); [|done].
  split; [done|]. intros uid. done.
Defined.

(** The user as a menu session holds it from its start. *)
Definition bob_at_login : User := user_of_row sample_db (User_row 2 "bob" "member" true "2026-01-15 12:00:00").

(** The menu authorizes the user of its start.  The interactive loop checks
    access with the user read when the session started: a user disabled since
    then is refused a new session and a routed one, but the open menu still
    connects to a target. *)
Theorem disabled_user_keeps_menu :
  let d := exec_all [SetUserEnabled_call "bob" false] sample_db in
  (∃ u, u ∈ d.(users) ∧ u_id u = User_ID bob_at_login ∧ u_enabled u = false) ∧
  value (stateFromContext "bob" (mkPermissions "bob" "" "publickey")) d = None ∧
  ∃ t c, Dial t c ∈ w_trace (final (connect_once bob_at_login pty_session 1 quiet_env) (sample_world d)).
Proof.
  cbn zeta. split_and!.
  - exists (User_row 2 "bob" "member" false "2026-01-15 12:00:00"). split; [|done].
    vm_compute. right. left.
  - vm_compute. reflexivity.
  - eexists _, _. vm_compute. left.
Qed.

(** A query through a forwarding, and an answer the client stops reading *)
Lemma broken_forwarding_reached :
  forwarding_reachable "SELECT 1;;" "one row, one column." (Ok tt) (Ok tt) true broken_forwarding.
Proof.
  unfold forwarding_reachable.
  eapply rtc_l; [apply forwarding_up, (copy_passes "SELECT 1;;" "" (Ok tt) "")|].
  eapply rtc_l; [apply forwarding_down, (copy_passes "one row" ", one column." (Ok tt) "")|].
  eapply rtc_l; [apply forwarding_up, copy_ends|].
  eapply rtc_l; [apply forwarding_own; cbn; left|].
  eapply rtc_l; [apply forwarding_down, (copy_fails ", one column." (Ok tt) "one row" (Ext "broken pipe"))|].
  eapply rtc_l; [apply forwarding_own; cbn; left|].
  eapply rtc_l; [apply forwarding_own; cbn; left|].
  eapply rtc_l; [apply forwarding_own; cbn; left|].
  eapply rtc_l; [apply forwarding_own; cbn; left|]. apply rtc_refl.
Qed.

Definition to_intra : directTCPIPData := mkDirectTCPIP "intra.example" 5432 "10.0.0.9" 40000.

(** The sample database, with forwarding granted *)
Definition forwarding_db : db := final (SetGrantCapabilities "web" "user" "bob" true true false true true) sample_db.

Lemma forwarded_bytes_are_logged_witness :
  let w' := final (handleDirectTCPIP (Limits 10 2) quiet_env (Some to_intra) "bob+web" "10.0.0.9"
                     (mkPermissions "bob" "web" "publickey")) (sample_world forwarding_db) in
  Accept ∈ w_trace w' ∧
  ∃ u tid, forwards_for forwarding_db "bob+web" (mkPermissions "bob" "web" "publickey") u tid ∧
    w_db w' = final (Audit (forward_event quiet_env u tid "10.0.0.9" to_intra "SELECT 1;;" "one row")) forwarding_db.
Proof.
  cbn zeta.
  assert (Accept ∈ w_trace (final (handleDirectTCPIP (Limits 10 2) quiet_env (Some to_intra) "bob+web" "10.0.0.9"
    (mkPermissions "bob" "web" "publickey")) (sample_world forwarding_db))) as Ha.
  { vm_compute. right. right. left. }
  split; [exact Ha|].
  refine (proj1 (forwarded_bytes_are_logged (Limits 10 2) quiet_env to_intra "bob+web" "10.0.0.9"
    (mkPermissions "bob" "web" "publickey") (sample_world forwarding_db) _ _ _ _ _ broken_forwarding_reached eq_refl _ Ha)).
  by intros ?%not_elem_of_nil.
Defined.

Lemma forwarding_comes_to_an_end_witness :
  let r := MkForwarding (MkLeg (MkStream "" (Ok tt) "SELECT" (Some (Ok tt))) LegShut true)
             (MkLeg (MkStream "rows" (Ok tt) "" (Some (Err (Ext "broken pipe")))) LegCopies false) false in
  ∃ r', rtc (λ a b, b ∈ forwarding_moves true a) r r' ∧ fw_closed r' = true ∧ forwarded_bytes r' = (6, 0).
Proof.
  cbn zeta. apply (forwarding_comes_to_an_end "SELECT" "rows" (Ok tt) (Ok tt) true); [|done|done].
  unfold forwarding_reachable.
  eapply rtc_l; [apply forwarding_up, (copy_passes "SELECT" "" (Ok tt) "")|].
  eapply rtc_l; [apply forwarding_up, copy_ends|].
  eapply rtc_l; [apply forwarding_own; cbn; left|].
  eapply rtc_l; [apply forwarding_down, (copy_fails "rows" (Ok tt) "" (Ext "broken pipe"))|]. apply rtc_refl.
Defined.
