(* ===== verification/Input.v ===== *)
(** * The terminal input parser of the menu

    [internal/tui/remote.go] turns the bytes read from the SSH channel into key
    and paste events.  [parseInput] consumes what is complete and hands the
    unfinished rest back to [RunRemote], which puts it in front of the next
    read. *)

From S2P Require Import Prelude GoStrings Effects.

(** What a read of the terminal ends with: [io.EOF] or another error *)
Inductive read_error := EOF | ReadFailed (e : error).

Record inputEvent := InputEvent { key : string; paste : string }.

Definition key_event (k : string) : inputEvent := InputEvent k "".

(** The bytes the sequences are made of. *)
Definition ESC : ascii := chr 0x1b.
Definition csi (s : string) : string := String ESC (String "[" s).
Definition ss3 (s : string) : string := String ESC (String "O" s).
Definition paste_start : string := csi "200~".
Definition paste_end : string := csi "201~".

(** ** [parseExtendedKey] *)

(** [strings.SplitN(field, ":", 2)[0]]: up to the first colon *)
Definition before_colon (field : string) : string := default "" (head (split_byte ":" field)).

Definition leadingNumber (field : string) : option Z := Atoi (before_colon field).

(** [rune(code)]: an [int] cut to 32 bits, with its sign *)
Definition int32_of (z : Z) : Z := (z + 2 ^ 31) mod 2 ^ 32 - 2 ^ 31.

Definition string_of_rune (code : Z) : string := encode_rune (int32_of code).

Section Parser.
Context `{UnicodeTables}.

Definition extendedKeyName (code modifiers : Z) : string :=
  if (0 <? modifiers) && negb (Z.land (modifiers - 1) 4 =? 0) then
    "ctrl+" +:+ ToLower (string_of_rune code)
  else if code =? 9 then "tab"
  else if code =? 13 then "enter"
  else if code =? 27 then "esc"
  else if code =? 127 then "backspace"
  else string_of_rune code.

(** The results of [parseExtendedKey]: an event with the bytes it consumed, no
    extended key, or a sequence that is not finished. *)
Inductive extended :=
  | Extended (event : inputEvent) (consumed : nat)
  | NotExtended
  | Incomplete.

(** A final byte of a control sequence *)
Definition final_byte (c : ascii) : bool := negb ((byte c <? 0x40) || (0x7e <? byte c)).

(** The loop over [data[2:]] up to the first final byte: the body, the byte
    and the number of bytes before it. *)
Fixpoint scan_final (s : string) : option (string * ascii) :=
  match s with
  | EmptyString => None
  | String c t =>
    if final_byte c then Some ("", c)
    else match scan_final t with
         | Some (body, f) => Some (String c body, f)
         | None => None
         end
  end.

(** A sequence that ends in [u] (Kitty's CSI-u) or [~] (modifyOtherKeys) *)
Definition extended_key (body : string) (final : ascii) : option inputEvent :=
  let fields := split_byte ";" body in
  if Ascii.eqb final "u" then
    match fields with
    | [] => None
    | f0 :: more =>
      match leadingNumber f0 with
      | None => None
      | Some code =>
        let modifiers := match more with
                         | f1 :: _ => default 1 (leadingNumber f1)
                         | [] => 1
                         end in
        Some (key_event (extendedKeyName code modifiers))
      end
    end
  else if Ascii.eqb final "~" then
    match fields with
    | [f0; f1; f2] =>
      if f0 =s "27" then
        match leadingNumber f1, leadingNumber f2 with
        | Some modifiers, Some code => Some (key_event (extendedKeyName code modifiers))
        | _, _ => None
        end
      else None
    | _ => None
    end
  else None.

Definition parseExtendedKey (data : string) : extended :=
  if HasPrefix data (csi "") then
    match scan_final (drop_str 2 data) with
    | None => Incomplete
    | Some (body, final) =>
      match extended_key body final with
      | Some event => Extended event (2 + String.length body + 1)
      | None => NotExtended
      end
    end
  else NotExtended.

(** ** [parseInput] *)

Definition sequences : list (string * string) :=
  [(csi "A", "up"); (csi "B", "down"); (csi "C", "right"); (csi "D", "left");
   (csi "5~", "pgup"); (csi "6~", "pgdown"); (csi "H", "home"); (csi "F", "end");
   (ss3 "H", "home"); (ss3 "F", "end")].

(** The first sequence [data] begins with *)
Fixpoint match_sequence (seqs : list (string * string)) (data : string) : option (string * string) :=
  match seqs with
  | [] => None
  | (raw, k) :: more => if HasPrefix data raw then Some (raw, k) else match_sequence more data
  end.

Definition control_key (b : Z) : option string :=
  if b =? 3 then Some "ctrl+c"
  else if b =? 4 then Some "ctrl+d"
  else if (b =? 13) || (b =? 10) then Some "enter"
  else if (b =? 8) || (b =? 127) then Some "backspace"
  else if b =? 9 then Some "tab"
  else if b =? 21 then Some "ctrl+u"
  else if b =? 32 then Some "space"
  else None.

(** One iteration of the loop: an early return with its last events, or the
    events appended and the data left. *)
Inductive iteration :=
  | Return (events : list inputEvent) (rest : string)
  | Continue (events : list inputEvent) (data : string).

(** The escape branch *)
Definition escape_step (data : string) : iteration :=
  match match_sequence sequences data with
  | Some (raw, k) => Continue [key_event k] (drop_str (String.length raw) data)
  | None =>
    if existsb (λ '(raw, _), HasPrefix raw data) sequences then Return [] data
    else match parseExtendedKey data with
         | Extended event consumed => Continue [event] (drop_str consumed data)
         | Incomplete => Return [] data
         | NotExtended => Continue [key_event "esc"] (drop_str 1 data)
         end
  end.

Definition rune_step (data : string) : iteration :=
  if FullRune data then
    let '(r, size) := DecodeRune data in
    if (r =? RuneError) && (size =? 1) then Continue [] (drop_str 1 data)
    else Continue [key_event (encode_rune r)] (drop_str (Z.to_nat size) data)
  else Return [] data.

Definition input_step (data : string) : iteration :=
  if data =s str1 ESC then Return [key_event "esc"] ""
  else if HasPrefix paste_start data && (len data <? len paste_start) then Return [] data
  else if HasPrefix data paste_start then
    match Index (drop_str 6 data) paste_end with
    | None => Return [] data
    | Some e =>
      Continue [InputEvent "" (take_str e (drop_str 6 data))] (drop_str (6 + e + 6) data)
    end
  else match data with
       | EmptyString => Return [] ""
       | String c t =>
         if Ascii.eqb c ESC then escape_step data
         else match control_key (byte c) with
              | Some k => Continue [key_event k] t
              | None => rune_step data
              end
       end.

(** The loop [for len(data) > 0]; every iteration that continues consumes a
    byte, so the length of the data bounds their number. *)
Fixpoint parse_loop (fuel : nat) (data : string) : list inputEvent * string :=
  match fuel, data with
  | O, _ | _, EmptyString => ([], data)
  | S fuel', _ =>
    match input_step data with
    | Return evs rest => (evs, rest)
    | Continue evs data' =>
      let '(more, rest) := parse_loop fuel' data' in (evs ++ more, rest)
    end
  end.

Definition parseInput (data : string) : list inputEvent * string :=
  parse_loop (String.length data) data.

(** [RunRemote]'s use of the parser: every read is appended to what is pending. *)
Fixpoint read_all (pending : string) (reads : list string) : list inputEvent * string :=
  match reads with
  | [] => ([], pending)
  | data :: more =>
    if data =s "" then read_all pending more
    else let '(events, rest) := parseInput (pending +:+ data) in
         let '(events', rest') := read_all rest more in
         (events ++ events', rest')
  end.

End Parser.

Section Tests.
#[local] Existing Instance ascii_tables.

Example parse_keys :
  parseInput ("j" +:+ str1 (chr 13) +:+ csi "A" +:+ str1 (chr 127)) =
  ([key_event "j"; key_event "enter"; key_event "up"; key_event "backspace"], "").
Proof. vm_compute. reflexivity. Qed.

Example parse_kitty :
  map (λ s, parseInput (csi s)) ["99;5u"; "100;5u"; "117;5u"; "120;5u"; "100;5:1u"; "100:68;5u"] =
  map (λ k, ([key_event k], "")) ["ctrl+c"; "ctrl+d"; "ctrl+u"; "ctrl+x"; "ctrl+d"; "ctrl+d"].
Proof. vm_compute. reflexivity. Qed.

Example parse_paste :
  parseInput (paste_start +:+ "secret" +:+ str1 (chr 10) +:+ "text" +:+ paste_end) =
  ([InputEvent "" ("secret" +:+ str1 (chr 10) +:+ "text")], "").
Proof. vm_compute. reflexivity. Qed.

(** The Ctrl+Right of most terminals is no sequence of the table, and is read as
    an Escape followed by its printable bytes, the 5 among them. *)
Example parse_ctrl_right :
  parseInput (csi "1;5C") =
  (map key_event ["esc"; "["; "1"; ";"; "5"; "C"], "").
Proof. vm_compute. reflexivity. Qed.
End Tests.
