(* ===== verification/InputProps.v ===== *)
(** * Theorems about the terminal input parser

    The loop ends, what it consumes is decided by the bytes it consumes, and
    how the bytes are cut into reads changes no event, save a cut after an
    escape byte. *)

From S2P Require Import Prelude GoStrings StringFacts Input.

Fixpoint ends_with_escape (s : string) : bool :=
  match s with
  | EmptyString => false
  | String c EmptyString => Ascii.eqb c ESC
  | String _ t => ends_with_escape t
  end.

Lemma ends_drop n s : ends_with_escape (drop_str n s) = true → ends_with_escape s = true.
Proof.
  revert s. induction n as [|n IH]; intros [|c s]; cbn [drop_str]; try done.
  intros ?%IH. by destruct s.
Qed.

Lemma ends_append s t : t ≠ "" → ends_with_escape (s +:+ t) = ends_with_escape t.
Proof.
  intros Ht. induction s as [|c s IH]; [done|]. rewrite append_cons. cbn [ends_with_escape].
  rewrite <-IH. destruct (s +:+ t) eqn:E; [|done].
  destruct s; [|discriminate E]. by cbn in E.
Qed.

(** ** What an iteration decides does not depend on the bytes after it *)

Lemma scan_final_app s t body f : scan_final s = Some (body, f) →
  scan_final (s +:+ t) = Some (body, f) ∧ (String.length body < String.length s)%nat.
Proof.
  revert body f. induction s as [|c s IH]; intros body f; [discriminate|].
  rewrite append_cons. cbn [scan_final]. destruct (final_byte c).
  - intros [= <- <-]. split; [done|]. cbn. lia.
  - destruct (scan_final s) as [[b' f']|]; [|discriminate]. intros [= <- <-].
    destruct (IH b' f' eq_refl) as [-> ?]. split; [done|]. cbn. lia.
Qed.

(** [FullRune]: the first rune is decided by the bytes that are there. *)
Lemma full_rune_app s t : FullRune s = true →
  FullRune (s +:+ t) = true ∧ DecodeRune (s +:+ t) = DecodeRune s.
Proof.
  destruct s as [|a s]; [discriminate|]. unfold DecodeRune. rewrite append_cons.
  cbn [FullRune runes]. destruct (lead_of (byte a)) as [| |lo hi|lo hi|] eqn:El; intros Hf.
  - done.
  - destruct s as [|b s]; [discriminate|]. rewrite append_cons.
    by destruct (cont_byte (byte b)).
  - destruct s as [|b s]; [discriminate|]. rewrite append_cons.
    destruct s as [|c s].
    + apply negb_true_iff in Hf. destruct t as [|c t]; cbn [String.append]; rewrite Hf; done.
    + rewrite append_cons. split; [done|].
      by destruct (in_range lo hi (byte b)), (cont_byte (byte c)).
  - destruct s as [|b s]; [discriminate|]. rewrite append_cons.
    destruct s as [|c s].
    + apply negb_true_iff in Hf.
      destruct t as [|c [|d t]]; cbn [String.append]; rewrite Hf; done.
    + rewrite append_cons. destruct s as [|d s].
      * apply orb_true_iff in Hf. rewrite !negb_true_iff in Hf.
        destruct t as [|d t]; cbn [String.append]; destruct Hf as [->| ->]; rewrite ?orb_true_r, ?andb_false_r; try done.
        all: by destruct (in_range lo hi (byte b)).
      * rewrite append_cons. split; [done|].
        by destruct (in_range lo hi (byte b)), (cont_byte (byte c)), (cont_byte (byte d)).
  - done.
Qed.

Lemma decode_size s r size : FullRune s = true → DecodeRune s = (r, size) →
  (1 ≤ Z.to_nat size ≤ String.length s)%nat.
Proof.
  intros Hf. pose proof (runes_raw s) as Hr. pose proof (runes_shape s) as Hs.
  unfold DecodeRune. destruct (runes s) as [|[r' raw] rs].
  - cbn in Hr. by subst s.
  - intros [= <- <-]. inversion_clear Hs as [|? ? H1 _]. cbn in Hr. subst s.
    rewrite length_append. unfold len. rewrite Nat2Z.id. split; [|lia].
    destruct raw; [|cbn; lia]. by destruct H1 as [(c & [= _ ?] & ?)|(? & ? & ?)].
Qed.

Lemma match_sequence_spec seqs s raw k :
  match_sequence seqs s = Some (raw, k) → (raw, k) ∈ seqs ∧ HasPrefix s raw = true.
Proof.
  induction seqs as [|[raw' k'] seqs IH]; [discriminate|]. cbn [match_sequence].
  destruct (HasPrefix s raw') eqn:E.
  - intros [= <- <-]. split; [left|done].
  - intros [? ?]%IH. split; [by right|done].
Qed.

Lemma match_sequence_None seqs s :
  match_sequence seqs s = None ↔ Forall (λ '(raw, _), HasPrefix s raw = false) seqs.
Proof.
  induction seqs as [|[raw k] seqs IH]; cbn [match_sequence]; [by split|].
  rewrite Forall_cons, <-IH. destruct (HasPrefix s raw); [split; [discriminate|by intros [? _]]|].
  split; [done|by intros [_ ?]].
Qed.

(** No sequence of the table is the beginning of another. *)
Lemma match_sequence_app s t raw k :
  match_sequence sequences s = Some (raw, k) → match_sequence sequences (s +:+ t) = Some (raw, k).
Proof.
  intros Hm. destruct (match_sequence_spec _ _ _ _ Hm) as [Hin [u ->]%prefix_split].
  rewrite append_assoc. revert Hin Hm. generalize (u +:+ t). unfold sequences.
  intros v Hin _. rewrite !elem_of_cons, elem_of_nil in Hin.
  destruct_or!; try done; injection Hin as -> ->; by destruct v.
Qed.

Lemma no_sequence_app s t : match_sequence sequences s = None →
  existsb (λ '(raw, _), HasPrefix raw s) sequences = false →
  match_sequence sequences (s +:+ t) = None ∧
  existsb (λ '(raw, _), HasPrefix raw (s +:+ t)) sequences = false.
Proof.
  rewrite !match_sequence_None, !existsb_false, !Forall_forall. intros Hm Hp.
  split; intros [raw k] Hin; specialize (Hm _ Hin); specialize (Hp _ Hin); cbn in *.
  - destruct (HasPrefix (s +:+ t) raw) eqn:E; [|done].
    by destruct (prefix_app_cases _ _ _ E); congruence.
  - destruct (HasPrefix raw (s +:+ t)) eqn:E; [|done]. apply prefix_of_app in E. congruence.
Qed.

Section Step.
Context `{UnicodeTables}.

(** A branch that goes on consumes a number of bytes that are there, and does
    the same whatever follows them. *)
Definition consumes (step : string → iteration) (s : string) (evs : list inputEvent) (rest : string) : Prop :=
  ∃ n, (1 ≤ n ≤ String.length s)%nat ∧ rest = drop_str n s ∧
       ∀ t, step (s +:+ t) = Continue evs (drop_str n (s +:+ t)).

Lemma extended_app s t e n : parseExtendedKey s = Extended e n →
  parseExtendedKey (s +:+ t) = Extended e n ∧ (1 ≤ n ≤ String.length s)%nat.
Proof.
  unfold parseExtendedKey. destruct (HasPrefix s (csi "")) eqn:E; [|discriminate].
  rewrite (prefix_app _ t _ E). pose proof (prefix_length _ _ E) as Hl. cbn in Hl.
  rewrite drop_str_app by done.
  destruct (scan_final (drop_str 2 s)) as [[body f]|] eqn:Es; [|discriminate].
  destruct (scan_final_app _ t _ _ Es) as [-> Hb]. rewrite length_drop_str in Hb.
  destruct (extended_key body f); [|discriminate]. intros [= <- <-]. split; [done|lia].
Qed.

Lemma not_extended_app s t : (2 ≤ String.length s)%nat →
  parseExtendedKey s = NotExtended → parseExtendedKey (s +:+ t) = NotExtended.
Proof.
  intros Hl. unfold parseExtendedKey. rewrite prefix_app_long by done.
  destruct (HasPrefix s (csi "")) eqn:E; [|done]. rewrite drop_str_app by done.
  destruct (scan_final (drop_str 2 s)) as [[body f]|] eqn:Es; [|discriminate].
  destruct (scan_final_app _ t _ _ Es) as [-> Hb]. by destruct (extended_key body f).
Qed.

Lemma escape_step_app s evs rest : (2 ≤ String.length s)%nat →
  escape_step s = Continue evs rest → consumes escape_step s evs rest.
Proof.
  intros Hl. unfold consumes, escape_step.
  destruct (match_sequence sequences s) as [[raw k]|] eqn:Em.
  - intros [= <- <-]. destruct (match_sequence_spec _ _ _ _ Em) as [Hin Hp%prefix_length].
    exists (String.length raw). split_and!; [|done|done|].
    + clear -Hin. unfold sequences in Hin. rewrite !elem_of_cons, elem_of_nil in Hin.
      destruct_or!; try done; injection Hin as -> ->; cbn; lia.
    + intros t. by rewrite (match_sequence_app _ t _ _ Em).
  - destruct (existsb _ sequences) eqn:Ep; [discriminate|].
    destruct (parseExtendedKey s) as [e n| |] eqn:Ee; [| |discriminate]; intros [= <- <-].
    + exists n. destruct (extended_app s "" e n Ee) as [_ [H1 H2]]. split_and!; try done.
      intros t. destruct (no_sequence_app s t Em Ep) as [-> ->].
      by destruct (extended_app s t e n Ee) as [-> _].
    + exists 1%nat. split_and!; [lia|lia|done|].
      intros t. destruct (no_sequence_app s t Em Ep) as [-> ->]. by rewrite not_extended_app.
Qed.

Lemma rune_step_app s evs rest :
  rune_step s = Continue evs rest → consumes rune_step s evs rest.
Proof.
  unfold consumes, rune_step. destruct (FullRune s) eqn:Ef; [|discriminate].
  destruct (DecodeRune s) as [r size] eqn:Ed.
  pose proof (decode_size _ _ _ Ef Ed) as Hs.
  destruct ((r =? RuneError) && (size =? 1)) eqn:E; intros [= <- <-];
    [exists 1%nat|exists (Z.to_nat size)]; (split; [lia|split; [done|]]).
  all: intros t; destruct (full_rune_app s t Ef) as [-> ->]; by rewrite Ed, E.
Qed.

(** A return hands all its bytes back, save for a lone escape byte. *)
Lemma input_step_return s evs rest : input_step s = Return evs rest →
  s = str1 ESC ∨ (evs = [] ∧ rest = s).
Proof.
  unfold input_step, escape_step, rune_step. destruct (s =s str1 ESC) eqn:E; [by left; bool_simp|].
  intros Hr. right. destruct (HasPrefix paste_start s && _); [by injection Hr|].
  destruct (HasPrefix s paste_start).
  { destruct (Index _ _); [discriminate|by injection Hr]. }
  destruct s as [|c s]; [by injection Hr|].
  repeat match type of Hr with context [match ?x with _ => _ end] => destruct x end;
    try discriminate Hr; by injection Hr.
Qed.

Lemma input_step_app s evs rest :
  input_step s = Continue evs rest → consumes input_step s evs rest.
Proof.
  unfold input_step at 1. destruct (s =s str1 ESC) eqn:E1; [discriminate|].
  destruct (HasPrefix paste_start s && _) eqn:E2; [discriminate|]. intros Hc.
  assert (s ≠ "") as Hne by (intros ->; by vm_compute in E2).
  (* the first two tests of the loop fail with more bytes too *)
  assert (∀ t, (s +:+ t =s str1 ESC) = false) as H1.
  { intros t. apply String.eqb_neq. intros Et. bool_simp.
    destruct s as [|c [|d s]]; [done| |discriminate].
    rewrite append_cons in Et. cbn in Et. by injection Et as -> ->. }
  assert (∀ t, HasPrefix paste_start (s +:+ t) && (len (s +:+ t) <? len paste_start) = false) as H2.
  { intros t. apply andb_false_iff in E2 as [E2|E2].
    - destruct (HasPrefix paste_start (s +:+ t)) eqn:Ep; [|done].
      apply prefix_of_app in Ep. congruence.
    - apply andb_false_iff. right. rewrite len_append. apply Z.ltb_ge. apply Z.ltb_ge in E2.
      pose proof (len_nonneg t). lia. }
  destruct (HasPrefix s paste_start) eqn:E3.
  - pose proof (prefix_length _ _ E3) as Hl. cbn in Hl.
    destruct (Index (drop_str 6 s) paste_end) as [e|] eqn:Ei; [|discriminate].
    injection Hc as <- <-. pose proof (Index_bound _ _ _ Ei) as Hb.
    rewrite length_drop_str in Hb. cbn [String.length paste_end csi] in Hb.
    exists (6 + e + 6)%nat. split_and!; [lia|lia|done|]. intros t. unfold input_step.
    rewrite H1, H2, (prefix_app _ t _ E3), drop_str_app by lia.
    rewrite (Index_app _ t _ _ Ei), take_str_app; [done|]. rewrite length_drop_str. lia.
  - assert (∀ t, HasPrefix (s +:+ t) paste_start = false) as H3.
    { intros t. destruct (HasPrefix (s +:+ t) paste_start) eqn:Ep; [|done].
      destruct (prefix_app_cases _ _ _ Ep) as [?|Hp]; [congruence|]. rewrite Hp in E2.
      cbn [andb] in E2. rewrite <-(prefix_app_long s t), Ep in E3; [done|].
      apply Z.ltb_ge in E2. unfold len in E2. lia. }
    destruct s as [|c s]; [done|]. unfold consumes, input_step.
    setoid_rewrite H1. setoid_rewrite H2. setoid_rewrite H3. setoid_rewrite append_cons.
    destruct (Ascii.eqb c ESC) eqn:Ec.
    + apply (escape_step_app (String c s)); [|done].
      apply Ascii.eqb_eq in Ec as ->. destruct s; [discriminate E1|cbn; lia].
    + destruct (control_key (byte c)) as [k|].
      * injection Hc as <- <-. exists 1%nat. split_and!; [lia|cbn; lia|done|done].
      * by apply (rune_step_app (String c s)).
Qed.
End Step.

Section Loop.
Context `{UnicodeTables}.

(** Every iteration that goes on is left with fewer bytes. *)
Lemma step_shrinks s evs rest :
  input_step s = Continue evs rest → (String.length rest < String.length s)%nat.
Proof. intros (n & ? & -> & _)%input_step_app. rewrite length_drop_str. lia. Qed.

(** So the length of the data is fuel enough. *)
Lemma parse_loop_fuel n s : (String.length s ≤ n)%nat → parse_loop n s = parseInput s.
Proof.
  unfold parseInput. assert (∀ m n s, (String.length s ≤ n)%nat → (String.length s ≤ m)%nat →
    parse_loop n s = parse_loop m s) as Hm; [|by intros; apply Hm].
  clear n s. intros m. induction m as [|m IH]; intros [|n] [|c s] Hn Hl; cbn in Hn, Hl; try done; try lia.
  cbn [parse_loop]. destruct (input_step (String c s)) as [|evs rest] eqn:E; [done|].
  pose proof (step_shrinks _ _ _ E) as Hs. cbn in Hs.
  by rewrite (IH n rest) by lia.
Qed.

(** The loop as the code writes it: [parseInput] takes one iteration and goes on
    with what is left, or returns. *)
Lemma parseInput_unfold s : parseInput s =
  if s =s "" then ([], "")
  else match input_step s with
       | Return evs rest => (evs, rest)
       | Continue evs rest => let '(more, rest') := parseInput rest in (evs ++ more, rest')
       end.
Proof.
  destruct s as [|c s]; [done|]. unfold parseInput at 1. cbn [String.length parse_loop String.eqb].
  destruct (input_step (String c s)) as [|evs rest] eqn:E; [done|].
  pose proof (step_shrinks _ _ _ E) as Hs. cbn in Hs.
  by rewrite parse_loop_fuel by lia.
Qed.

Lemma parseInput_app s t : ends_with_escape s = false →
  parseInput (s +:+ t) =
  let '(evs, rest) := parseInput s in
  let '(evs', rest') := parseInput (rest +:+ t) in (evs ++ evs', rest').
Proof.
  induction s as [s IH] using string_length_ind. intros He.
  destruct (s =s "") eqn:Es.
  { apply String.eqb_eq in Es as ->. change (parseInput "") with (@nil inputEvent, "").
    cbn [String.append app]. by destruct (parseInput t). }
  rewrite (parseInput_unfold s), Es. destruct (input_step s) as [evs rest|evs rest] eqn:E.
  - destruct (input_step_return _ _ _ E) as [->|[-> ->]]; [discriminate He|].
    by destruct (parseInput (s +:+ t)).
  - pose proof (step_shrinks _ _ _ E) as Hs.
    destruct (input_step_app _ _ _ E) as (n & Hn & -> & Ht).
    rewrite (parseInput_unfold (s +:+ t)). destruct s as [|c s]; [done|].
    rewrite append_cons at 1. cbn [String.eqb]. rewrite Ht, drop_str_app by lia.
    rewrite IH; [|done|].
    + destruct (parseInput (drop_str n (String c s))) as [more rest].
      destruct (parseInput (rest +:+ t)) as [evs' rest']. by rewrite app_assoc.
    + destruct (ends_with_escape (drop_str n (String c s))) eqn:Ed; [|done].
      apply ends_drop in Ed. congruence.
Qed.

(** What is handed back is not finished: parsed again, it yields nothing and is
    handed back again. *)
Lemma parseInput_rest s evs rest :
  parseInput s = (evs, rest) → parseInput rest = ([], rest).
Proof.
  revert evs rest. induction s as [s IH] using string_length_ind. intros evs rest Hp.
  rewrite parseInput_unfold in Hp. destruct (s =s "") eqn:Es; [by injection Hp as <- <-|].
  destruct (input_step s) as [evs' rest'|evs' rest'] eqn:E.
  - injection Hp as -> ->. destruct (input_step_return _ _ _ E) as [->|[-> ->]].
    + vm_compute in E. by injection E as <- <-.
    + by rewrite parseInput_unfold, Es, E.
  - pose proof (step_shrinks _ _ _ E). destruct (parseInput rest') as [more rest''] eqn:Er.
    injection Hp as <- <-. by apply (IH rest') in Er.
Qed.

Lemma read_all_app pending reads :
  parseInput pending = ([], pending) →
  Forall (λ s, ends_with_escape s = false) reads →
  read_all pending reads =
  (let '(evs, rest) := parseInput (pending +:+ concat_strings reads) in (evs, rest)).
Proof.
  intros Hp Hr. revert pending Hp. induction Hr as [|data more He Hr IH]; intros pending Hp.
  - cbn. by rewrite append_nil_r, Hp.
  - cbn [read_all concat_strings]. destruct (data =s "") eqn:Ed.
    + bool_simp. subst data. cbn [String.append]. by apply IH.
    + rewrite <-append_assoc. bool_simp. rewrite (parseInput_app (pending +:+ data)).
      2: by rewrite ends_append.
      destruct (parseInput (pending +:+ data)) as [evs rest] eqn:E.
      rewrite (IH rest) by exact (parseInput_rest _ _ _ E).
      by destruct (parseInput (rest +:+ concat_strings more)).
Qed.

(** C14: the menu sees the same keys and pastes however the terminal's bytes are
    cut into reads.  [RunRemote] parses every read behind the rest of the one
    before; if no read ends in an escape byte (which the parser takes for the
    Escape key at once), the events and the final rest are those of all the
    bytes parsed together.  So an escape sequence, a bracketed paste or a
    multi-byte character that arrives in pieces is put together again. *)
Theorem reads_make_no_difference (reads : list string) :
  Forall (λ s, ends_with_escape s = false) reads →
  read_all "" reads = parseInput (concat_strings reads).
Proof.
  intros Hr. rewrite read_all_app by done. cbn [String.append].
  by destruct (parseInput (concat_strings reads)).
Qed.

End Loop.

#[local] Existing Instance ascii_tables.

Lemma reads_make_no_difference_witness :
  Forall (λ s, ends_with_escape s = false) [csi "10"; "0;5u" +:+ csi "200~a"; "b" +:+ paste_end] ∧
  parseInput (csi "100;5u" +:+ paste_start +:+ "ab" +:+ paste_end) =
    ([key_event "ctrl+d"; InputEvent "" "ab"], "") ∧
  read_all "" [csi "10"; "0;5u" +:+ csi "200~a"; "b" +:+ paste_end] =
    parseInput (concat_strings [csi "10"; "0;5u" +:+ csi "200~a"; "b" +:+ paste_end]).
Proof.
  assert (Forall (λ s, ends_with_escape s = false)
    [csi "10"; "0;5u" +:+ csi "200~a"; "b" +:+ paste_end]) as Hf by (repeat constructor).
  split; [exact Hf|]. split; [vm_compute; reflexivity|].
  by apply (reads_make_no_difference [csi "10"; "0;5u" +:+ csi "200~a"; "b" +:+ paste_end]).
Defined.

(** A read that ends in an escape byte is different: the arrow key of these two
    reads is three keys. *)
Example escape_alone_is_a_key :
  read_all "" [str1 ESC; "[A"] = (map key_event ["esc"; "["; "A"], "") ∧
  parseInput (csi "A") = ([key_event "up"], "").
Proof. split; vm_compute; reflexivity. Qed.
