(* ===== verification/InputSession.v ===== *)
(** * The reader of a session's input ([internal/gateway/input.go])

    [interactiveSession] has one goroutine, the pump, that reads the SSH channel.
    [ReadContext] gives what it read to one consumer at a time: the goroutine of
    [tui.RunRemote] that reads for the menu, and the worker of
    [downstream.ProxyShell] that feeds the target.  The consumers, the code that
    starts and stops them ([handle], [RunRemote], [ProxyShell]) and the pump run
    concurrently: [step] is one of their steps. *)

From S2P Require Import Prelude GoStrings StringFacts Effects Input.

(** ** The session *)

(** [inputResult] *)
Record input_result := MkInput { in_data : string; in_err : option read_error }.

(** The pump is in [sess.Read], or at the [select] with what it read, or it has
    returned and closed the channel. *)
Inductive pump :=
  | PumpReads
  | PumpSends (r : input_result)
  | PumpGone.

(** [is_source] is what [sess.Read] will return; [is_reads] the channel of one
    element; [is_done] that the context of the SSH session is done. *)
Record interactiveSession := MkSession {
  is_source : list input_result;
  is_pump : pump;
  is_reads : option input_result;
  is_pending : string;
  is_err : option read_error;
  is_done : bool;
}.

Definition newInteractiveSession (source : list input_result) : interactiveSession :=
  MkSession source PumpReads None "" None false.

(** The steps of the pump *)
Definition pump_read (s : interactiveSession) : option interactiveSession :=
  match is_pump s, is_source s with
  | PumpReads, r :: rest =>
    Some (MkSession rest (PumpSends r) (is_reads s) (is_pending s) (is_err s) (is_done s))
  | _, _ => None
  end.

Definition pump_send (s : interactiveSession) : option interactiveSession :=
  match is_pump s, is_reads s with
  | PumpSends r, None =>
    Some (MkSession (is_source s) (match in_err r with Some _ => PumpGone | None => PumpReads end)
            (Some r) (is_pending s) (is_err s) (is_done s))
  | _, _ => None
  end.

Definition pump_quit (s : interactiveSession) : option interactiveSession :=
  match is_pump s with
  | PumpSends _ =>
    if is_done s then Some (MkSession (is_source s) PumpGone (is_reads s) (is_pending s) (is_err s) true)
    else None
  | _ => None
  end.

(** ** [ReadContext] *)

Inductive read_failure :=
  | Cancelled
  | Failed (e : read_error).

(** What a call returns: [(n, err)] with the bytes it copied *)
Definition answer : Type := string * option read_failure.

(** [copy(p, s.pending)], with [len(p)] being [size] *)
Definition take_pending (size : nat) (s : interactiveSession) : string * interactiveSession :=
  (take_str size (is_pending s),
   MkSession (is_source s) (is_pump s) (is_reads s) (drop_str size (is_pending s)) (is_err s) (is_done s)).

(** One pass of the loop up to the [select]: it returns, or waits there. *)
Definition attempt (ctx_done : bool) (size : nat) (s : interactiveSession) :
    option answer * interactiveSession :=
  if (size =? 0)%nat then (Some ("", None), s)
  else if ctx_done then (Some ("", Some Cancelled), s)
  else if negb (is_pending s =s "") then
    let '(data, s) := take_pending size s in (Some (data, None), s)
  else match is_err s with
       | Some e => (Some ("", Some (Failed e)), s)
       | None => (None, s)
       end.

(** [r, ok := <-s.reads]: a pass is over, or the channel is closed and empty;
    [None] when there is nothing to receive. *)
Definition receive (s : interactiveSession) : option (option answer * interactiveSession) :=
  match is_reads s with
  | Some r =>
    Some (None, MkSession (is_source s) (is_pump s) None (in_data r) (in_err r) (is_done s))
  | None =>
    match is_pump s with
    | PumpGone => Some (Some ("", Some (Failed EOF)), s)
    | _ => None
    end
  end.

(** ** The consumers *)

(** In a call of [ReadContext]: at the top of its loop, or at the [select] *)
Inductive reading := AtLoop | AtSelect.

(** The goroutine of a call of [RunRemote] *)
Inductive menu_state :=
  | AwaitsRequest
  | MenuReads (at_ : reading)
  | MenuHolds (a : answer)
  | MenuGone.

(** With its channel [reads] of one element, and whether [done] is closed (the
    call of [RunRemote] has returned) *)
Record menu_reader := MkReader {
  mr_state : menu_state;
  mr_answer : option answer;
  mr_done : bool }.

(** The worker of [ProxyShell] *)
Inductive worker :=
  | NoWorker
  | WorkerReads (at_ : reading)
  | WorkerWrites (a : answer)
  | WorkerGone.

(** The session's own goroutine: in [RunRemote] - about to request a read, at the
    [select], or with the answer of a read - or between the calls of [handle], or
    in [ProxyShell] - the shell runs, or has ended and the worker is waited for -
    or [handle] has returned. *)
Inductive main_stage :=
  | Requesting
  | Selecting
  | Handling (a : answer)
  | Between
  | ShellRuns
  | ShellJoins
  | Finished.

Inductive consumer := TheMenu | TheShell.

(** [sys_readers]: the goroutines of the calls of [RunRemote], the current one
    first; [sys_cancelled]: [cancelInput] was called; [sys_got]: what the calls
    of [ReadContext] returned, in order. *)
Record system := MkSystem {
  sys_session : interactiveSession;
  sys_readers : list menu_reader;
  sys_worker : worker;
  sys_cancelled : bool;
  sys_stage : main_stage;
  sys_got : list (consumer * string);
}.

(** [handle] makes the session and enters the menu. *)
Definition initial (source : list input_result) : system :=
  MkSystem (newInteractiveSession source) [MkReader AwaitsRequest None false] NoWorker false Requesting [].

Definition buffer_size : nat := 4096.

Definition with_session (s' : interactiveSession) (s : system) : system :=
  MkSystem s' (sys_readers s) (sys_worker s) (sys_cancelled s) (sys_stage s) (sys_got s).
Definition with_readers (l : list menu_reader) (s : system) : system :=
  MkSystem (sys_session s) l (sys_worker s) (sys_cancelled s) (sys_stage s) (sys_got s).
Definition with_worker (w : worker) (s : system) : system :=
  MkSystem (sys_session s) (sys_readers s) w (sys_cancelled s) (sys_stage s) (sys_got s).
Definition with_cancelled (b : bool) (s : system) : system :=
  MkSystem (sys_session s) (sys_readers s) (sys_worker s) b (sys_stage s) (sys_got s).
Definition with_stage (st : main_stage) (s : system) : system :=
  MkSystem (sys_session s) (sys_readers s) (sys_worker s) (sys_cancelled s) st (sys_got s).
Definition log_got (c : consumer) (a : answer) (s : system) : system :=
  MkSystem (sys_session s) (sys_readers s) (sys_worker s) (sys_cancelled s) (sys_stage s)
    (sys_got s ++ [(c, a.1)]).

(** The steps of a call of [ReadContext], given whether its context is done: the
    outcome is the next point of the call, or its answer. *)
Definition read_step (ctx_done : bool) (at_ : reading) (s : interactiveSession) :
    list ((reading + answer) * interactiveSession) :=
  match at_ with
  | AtLoop =>
    match attempt ctx_done buffer_size s with
    | (Some a, s') => [(inr a, s')]
    | (None, s') => [(inl AtSelect, s')]
    end
  | AtSelect =>
    (if ctx_done then [(inr ("", Some Cancelled), s)] else [])
    ++ match receive s with
       | Some (Some a, s') => [(inr a, s')]
       | Some (None, s') => [(inl AtLoop, s')]
       | None => []
       end
  end.

(** The goroutine of [RunRemote] after a call of [ReadContext], and once it has
    put the answer in its channel: an error ends it. *)
Definition menu_next (o : reading + answer) : menu_state :=
  match o with inl at_ => MenuReads at_ | inr a => MenuHolds a end.
Definition after_answer (a : answer) : menu_state :=
  match a.2 with Some _ => MenuGone | None => AwaitsRequest end.

(** [if n > 0 { stdin.Write }; if readErr != nil { return }] *)
Definition after_write (a : answer) : worker :=
  match a.2 with Some _ => WorkerGone | None => WorkerReads AtLoop end.
Definition worker_next (o : reading + answer) : worker :=
  match o with
  | inl at_ => WorkerReads at_
  | inr a => if a.1 =s "" then after_write a else WorkerWrites a
  end.

Definition log_outcome (c : consumer) (o : reading + answer) (s : system) : system :=
  match o with inl _ => s | inr a => log_got c a s end.

Definition set_reader (i : nat) (r : menu_reader) (s : system) : system :=
  with_readers (<[i := r]> (sys_readers s)) s.

(** [defer close(done)] of the call of [RunRemote] that returns *)
Definition close_done (s : system) : system :=
  with_readers (alter (λ r, MkReader (mr_state r) (mr_answer r) true) 0%nat (sys_readers s)) s.

(** [case reads <- readResult{...}], received by the current call or by nobody *)
Inductive step : system → system → Prop :=
  (* the pump, and the end of the SSH session *)
  | step_pump s s' f : f ∈ [pump_read; pump_send; pump_quit] → f (sys_session s) = Some s' →
      step s (with_session s' s)
  | step_done s x : x = sys_session s →
      step s (with_session (MkSession (is_source x) (is_pump x) (is_reads x) (is_pending x) (is_err x) true) s)
  (* the goroutines of RunRemote *)
  | step_menu_reads s i r at_ o x :
      sys_readers s !! i = Some r → mr_state r = MenuReads at_ →
      (o, x) ∈ read_step (is_done (sys_session s)) at_ (sys_session s) →
      step s (log_outcome TheMenu o
                (set_reader i (MkReader (menu_next o) (mr_answer r) (mr_done r)) (with_session x s)))
  | step_menu_answers s i r a :
      sys_readers s !! i = Some r → mr_state r = MenuHolds a → mr_answer r = None →
      step s (set_reader i (MkReader (after_answer a) (Some a) (mr_done r)) s)
  | step_menu_quits s i r :
      sys_readers s !! i = Some r → mr_done r = true →
      (mr_state r = AwaitsRequest ∨ ∃ a, mr_state r = MenuHolds a) →
      step s (set_reader i (MkReader MenuGone (mr_answer r) true) s)
  (* RunRemote *)
  | step_request s r :
      sys_stage s = Requesting → sys_readers s !! 0%nat = Some r → mr_state r = AwaitsRequest →
      step s (with_stage Selecting (set_reader 0 (MkReader (MenuReads AtLoop) (mr_answer r) (mr_done r)) s))
  | step_select s r a :
      sys_stage s = Selecting → sys_readers s !! 0%nat = Some r → mr_answer r = Some a →
      step s (with_stage (Handling a) (set_reader 0 (MkReader (mr_state r) None (mr_done r)) s))
  | step_handled s data :
      sys_stage s = Handling (data, None) → step s (with_stage Requesting s)
  | step_result s data err :
      sys_stage s = Handling (data, err) → data ≠ "" → step s (with_stage Between (close_done s))
  | step_fails s :
      (sys_stage s = Selecting ∨ ∃ a, sys_stage s = Handling a) →
      step s (with_stage Finished (close_done s))
  (* handle *)
  | step_menu_again s :
      sys_stage s = Between →
      step s (with_stage Requesting (with_readers (MkReader AwaitsRequest None false :: sys_readers s) s))
  | step_quits s : sys_stage s = Between → step s (with_stage Finished s)
  | step_shell s :
      sys_stage s = Between →
      step s (with_stage ShellRuns (with_worker (WorkerReads AtLoop) (with_cancelled false s)))
  (* ProxyShell and its worker *)
  | step_worker_reads s at_ o x :
      sys_worker s = WorkerReads at_ →
      (o, x) ∈ read_step (sys_cancelled s || is_done (sys_session s)) at_ (sys_session s) →
      step s (log_outcome TheShell o (with_worker (worker_next o) (with_session x s)))
  | step_worker_writes s a :
      sys_worker s = WorkerWrites a → step s (with_worker (after_write a) s)
  | step_write_fails s a :
      sys_worker s = WorkerWrites a → step s (with_worker WorkerGone s)
  | step_shell_ends s :
      sys_stage s = ShellRuns → step s (with_stage ShellJoins (with_cancelled true s))
  | step_joined s :
      sys_stage s = ShellJoins → sys_worker s = WorkerGone →
      step s (with_stage Between (with_worker NoWorker s)).

Definition reachable (source : list input_result) (s : system) : Prop := rtc step (initial source) s.
