(* ===== verification/InputSessionProps.v ===== *)
(** * One reader, and no byte lost

    The invariants of [InputSession.step]: at most one consumer is inside
    [ReadContext], the menu's only while the menu is shown and the shell's only
    while the shell runs; the bytes of the channel reach the consumers in order;
    and the consumers never wait for each other. *)

From S2P Require Import Prelude GoStrings StringFacts Effects Input InputSession.

(** ** Who reads *)

Definition idle (r : menu_reader) : Prop := mr_state r = AwaitsRequest ∨ mr_state r = MenuGone.

(** The current goroutine of [RunRemote], by the stage of the session's own *)
Definition current_ok (st : main_stage) (r : menu_reader) : Prop :=
  match st with
  | Requesting => mr_state r = AwaitsRequest ∧ mr_answer r = None ∧ mr_done r = false
  | Selecting =>
    mr_done r = false ∧
    (((∃ at_, mr_state r = MenuReads at_) ∨ (∃ a, mr_state r = MenuHolds a)) ∧ mr_answer r = None ∨
     ∃ a, mr_state r = after_answer a ∧ mr_answer r = Some a)
  | Handling a => mr_state r = after_answer a ∧ mr_answer r = None ∧ mr_done r = false
  | Between | ShellRuns | ShellJoins => idle r
  | Finished => True
  end.

Definition worker_ok (st : main_stage) (w : worker) (cancelled : bool) : Prop :=
  match st with
  | ShellRuns => w ≠ NoWorker
  | ShellJoins => w ≠ NoWorker ∧ cancelled = true
  | _ => w = NoWorker
  end.

Record roles_ok (s : system) : Prop := {
  ro_current : ∃ r more, sys_readers s = r :: more ∧ current_ok (sys_stage s) r ∧ Forall idle more;
  ro_worker : worker_ok (sys_stage s) (sys_worker s) (sys_cancelled s);
}.

Lemma after_answer_idle a r : mr_state r = after_answer a → idle r.
Proof. unfold idle, after_answer. destruct (a.2); auto. Qed.

Lemma worker_next_some o : worker_next o ≠ NoWorker.
Proof. destruct o as [at_|[data err]]; cbn; [done|]. destruct (data =s ""), err; done. Qed.

Lemma after_write_some a : after_write a ≠ NoWorker.
Proof. unfold after_write. by destruct (a.2). Qed.

Lemma log_outcome_fields c o s :
  sys_readers (log_outcome c o s) = sys_readers s ∧ sys_worker (log_outcome c o s) = sys_worker s ∧
  sys_cancelled (log_outcome c o s) = sys_cancelled s ∧ sys_stage (log_outcome c o s) = sys_stage s ∧
  sys_session (log_outcome c o s) = sys_session s.
Proof. by destruct o. Qed.

(** A change of the current goroutine, or of an idle one to another idle one *)
Lemma set_reader_ok s i r r' : roles_ok s → sys_readers s !! i = Some r →
  (i = 0%nat → current_ok (sys_stage s) r → current_ok (sys_stage s) r') →
  (i ≠ 0%nat → idle r → idle r') →
  ∃ r0 more, sys_readers (set_reader i r' s) = r0 :: more ∧ current_ok (sys_stage s) r0 ∧ Forall idle more.
Proof.
  intros [(r0 & more & El & Hc & Hm) _] Hi H0 Hn. cbn. rewrite El in *. destruct i as [|i]; cbn in Hi.
  - injection Hi as ->. exists r', more. auto.
  - exists r0, (<[i := r']> more). split_and!; [done|done|]. apply Forall_insert; [done|].
    apply Hn; [done|]. by eapply Forall_lookup_1.
Qed.

Lemma menu_reads_ok st r at_ o : mr_state r = MenuReads at_ → current_ok st r →
  current_ok st (MkReader (menu_next o) (mr_answer r) (mr_done r)).
Proof.
  intros Hr. destruct st; cbn; unfold idle; rewrite ?Hr; try (intuition discriminate).
  - intros (Hd & [[_ Ha]|(a & Ha & _)]); [|unfold after_answer in Ha; by destruct (a.2)].
    split; [done|]. left. split; [|done]. destruct o; cbn; eauto.
  - intros (Ha & _). unfold after_answer in Ha. by destruct (a.2).
Qed.

Lemma menu_answers_ok st r a : mr_state r = MenuHolds a → mr_answer r = None → current_ok st r →
  current_ok st (MkReader (after_answer a) (Some a) (mr_done r)).
Proof.
  intros Hr Ha. destruct st; cbn; unfold idle; rewrite ?Hr; try (intuition discriminate).
  - intros (Hd & _). split; [done|]. right. by exists a.
  - intros (Hx & _). unfold after_answer in Hx. by destruct (a0.2).
Qed.

Lemma menu_quits_ok st r : mr_done r = true → current_ok st r → current_ok st (MkReader MenuGone (mr_answer r) true).
Proof. intros Hd. destruct st; cbn; unfold idle; intuition congruence. Qed.

Lemma step_roles s s' : step s s' → roles_ok s → roles_ok s'.
Proof.
  intros Hs Ho. pose proof Ho as [(r0 & more & El & Hc & Hm) Hw]. destruct Hs; split; cbn in *;
    try match goal with E : sys_stage _ = _ |- _ => rewrite E in * end; cbn in *;
    rewrite ?(proj1 (log_outcome_fields _ _ _)), ?(proj1 (proj2 (log_outcome_fields _ _ _))),
      ?(proj1 (proj2 (proj2 (log_outcome_fields _ _ _)))), ?(proj1 (proj2 (proj2 (proj2 (log_outcome_fields _ _ _)))));
    cbn; try done; try (by eauto).
  - eapply (set_reader_ok s); [exact Ho|done| |].
    + intros _. by apply menu_reads_ok with at_.
    + intros _ [Hi|Hi]; congruence.
  - eapply (set_reader_ok s); [exact Ho|done| |].
    + intros _. by apply menu_answers_ok.
    + intros _ [Hi|Hi]; congruence.
  - eapply (set_reader_ok s); [exact Ho|done| |].
    + intros _. by apply menu_quits_ok.
    + intros _ _. by right.
  - rewrite El in *. simplify_eq/=. destruct Hc as (_ & Ha & Hd). do 2 eexists. split_and!; [done|done| |done].
    left. split; [|done]. left. by eexists.
  - rewrite El in *. simplify_eq/=. destruct Hc as (Hd & [[_ Ha]|(a' & Hs & Ha)]); [congruence|].
    do 2 eexists. split_and!; [done| |done|done|done]. by simplify_eq.
  - rewrite El in *. destruct Hc as (Ha & _). do 2 eexists. split_and!; [done| |done].
    by apply (after_answer_idle (data, err)).
  - rewrite El. cbn. eauto.
  - by match goal with E : _ ∨ _ |- _ => destruct E as [E|[? E]]; rewrite E in Hw end.
  - do 2 eexists. split_and!; [done..|]. rewrite El. by constructor.
  - pose proof (worker_next_some o). by destruct (sys_stage s); cbn in *; intuition congruence.
  - pose proof (after_write_some a). by destruct (sys_stage s); cbn in *; intuition congruence.
  - by destruct (sys_stage s); cbn in *; intuition congruence.
Qed.

(** ** What becomes of the bytes *)

Definition got_data (l : list (consumer * string)) : string := concat_strings (snd <$> l).

(** What the pump holds *)
Definition held (p : pump) : string := match p with PumpSends r => in_data r | _ => "" end.
Definition buffered (r : option input_result) : string := match r with Some r => in_data r | None => "" end.

(** The bytes the channel gives *)
Definition source_data (l : list input_result) : string := concat_strings (in_data <$> l).

(** The bytes the session has taken from the pump and not returned *)
Definition waiting (x : interactiveSession) : string := is_pending x +:+ buffered (is_reads x).

Lemma got_data_snoc l c a : got_data (l ++ [(c, a)]) = got_data l +:+ a.
Proof. unfold got_data. rewrite fmap_app, concat_strings_app. cbn. by rewrite append_nil_r. Qed.

Lemma take_drop_str n s : take_str n s +:+ drop_str n s = s.
Proof. revert s. induction n as [|n IH]; intros [|c s]; cbn; [done..|]. by rewrite IH. Qed.

Lemma buffer_nonzero : (buffer_size =? 0)%nat = false.
Proof. reflexivity. Qed.
#[local] Opaque buffer_size.

(** The same of a session, with what it has returned so far *)
Definition kept (all got : string) (x : interactiveSession) : Prop :=
  ∃ rest, all = got +:+ waiting x +:+ rest ∧
    (rest = held (is_pump x) +:+ source_data (is_source x) ∨ is_pump x = PumpGone ∧ is_done x = true).

Lemma pump_kept all got f x x' : f ∈ [pump_read; pump_send; pump_quit] → f x = Some x' →
  kept all got x → kept all got x' ∧ is_pending x' = is_pending x.
Proof.
  intros Hf Hx (rest & -> & Hr). unfold kept, waiting in *.
  repeat apply elem_of_cons in Hf as [->|Hf]; [..|by apply not_elem_of_nil in Hf].
  - unfold pump_read in Hx. destruct (is_pump x) eqn:Ep; try discriminate.
    destruct (is_source x) as [|r src] eqn:Es; [discriminate|]. injection Hx as <-. cbn.
    split; [|done]. exists rest. split; [done|]. destruct Hr as [Hr|[? _]]; [left|discriminate]. done.
  - unfold pump_send in Hx. destruct (is_pump x) as [|r|] eqn:Ep; try discriminate.
    destruct (is_reads x) eqn:Er; [discriminate|]. injection Hx as <-. cbn in *.
    split; [|done]. destruct Hr as [Hr|[? _]]; [|discriminate]. rewrite append_nil_r.
    exists (source_data (is_source x)). rewrite Hr, !append_assoc. split; [done|]. left. by destruct (in_err r).
  - unfold pump_quit in Hx. destruct (is_pump x) as [|r|]; try discriminate.
    destruct (is_done x); [|discriminate]. injection Hx as <-. cbn in *. split; [|done]. exists rest. auto.
Qed.

Definition outcome_data (o : reading + answer) : string := match o with inl _ => "" | inr a => a.1 end.

(** A call of [ReadContext] returns the bytes that come next; at the [select]
    nothing is pending. *)
Lemma read_step_kept all got d at_ x o x' : (o, x') ∈ read_step d at_ x →
  (at_ = AtSelect → is_pending x = "") → kept all got x →
  kept all (got +:+ outcome_data o) x' ∧ (o = inl AtSelect → is_pending x' = "").
Proof.
  intros Hin Hsel Hk. destruct at_; cbn in Hin.
  - unfold attempt in Hin. rewrite buffer_nonzero in Hin. destruct d; cbn in Hin.
    + apply list_elem_of_singleton in Hin. simplify_eq. cbn. by rewrite append_nil_r.
    + destruct (is_pending x =s "") eqn:Ep; cbn [negb] in Hin.
      * destruct (is_err x); apply list_elem_of_singleton in Hin; simplify_eq; cbn; rewrite append_nil_r;
          (split; [done|]); intros; bool_simp; [discriminate|done].
      * apply list_elem_of_singleton in Hin. simplify_eq. cbn [outcome_data fst]. split; [|done].
        destruct Hk as (rest & -> & Hr). exists rest. unfold waiting. cbn. split; [|done].
        rewrite <- (take_drop_str buffer_size (is_pending x)) at 1. by rewrite !append_assoc.
  - apply elem_of_app in Hin as [Hin|Hin].
    + destruct d; [|by apply not_elem_of_nil in Hin]. apply list_elem_of_singleton in Hin. simplify_eq.
      cbn. by rewrite append_nil_r.
    + specialize (Hsel eq_refl). unfold receive in Hin. destruct (is_reads x) as [r|] eqn:Er.
      * apply list_elem_of_singleton in Hin. simplify_eq. cbn. rewrite append_nil_r. split; [|done].
        destruct Hk as (rest & -> & Hr). exists rest. unfold waiting. cbn. rewrite Hsel, Er. cbn.
        by rewrite append_nil_r.
      * destruct (is_pump x); try by apply not_elem_of_nil in Hin.
        apply list_elem_of_singleton in Hin. simplify_eq. cbn. by rewrite append_nil_r.
Qed.

(** Who is at the [select] *)
Definition select_ok (s : system) : Prop :=
  (∀ i r, sys_readers s !! i = Some r → mr_state r = MenuReads AtSelect → is_pending (sys_session s) = "") ∧
  (sys_worker s = WorkerReads AtSelect → is_pending (sys_session s) = "").

Lemma menu_reads_alone s i r at_ : roles_ok s → sys_readers s !! i = Some r → mr_state r = MenuReads at_ →
  i = 0%nat ∧ sys_worker s = NoWorker.
Proof.
  intros [(r0 & more & El & Hc & Hm) Hw] Hi Hr. rewrite El in Hi. destruct i as [|i]; cbn in Hi.
  - injection Hi as ->. split; [done|]. destruct (sys_stage s); cbn in *; try done;
      destruct Hc; congruence.
  - pose proof (Forall_lookup_1 _ _ _ _ Hm Hi) as [Hx|Hx]; congruence.
Qed.

Lemma worker_reads_alone s at_ i r : roles_ok s → sys_worker s = WorkerReads at_ →
  sys_readers s !! i = Some r → idle r.
Proof.
  intros [(r0 & more & El & Hc & Hm) Hw] Hwk Hi. rewrite El in Hi. destruct i as [|i]; cbn in Hi.
  - injection Hi as ->. destruct (sys_stage s); cbn in *; congruence || done.
  - by pose proof (Forall_lookup_1 _ _ _ _ Hm Hi).
Qed.

Record system_ok (all : string) (s : system) : Prop := {
  so_roles : roles_ok s;
  so_select : select_ok s;
  so_kept : kept all (got_data (sys_got s)) (sys_session s);
}.

Lemma log_outcome_got c o s :
  got_data (sys_got (log_outcome c o s)) = got_data (sys_got s) +:+ outcome_data o.
Proof. destruct o as [at_|a]; cbn; [by rewrite append_nil_r|]. apply got_data_snoc. Qed.

(** Steps that leave the session alone, and put nobody at the [select] *)
Lemma select_keeps s s' : sys_session s' = sys_session s →
  (∀ i r, sys_readers s' !! i = Some r → mr_state r = MenuReads AtSelect →
     ∃ j r0, sys_readers s !! j = Some r0 ∧ mr_state r0 = MenuReads AtSelect) →
  (sys_worker s' = WorkerReads AtSelect → sys_worker s = WorkerReads AtSelect) →
  select_ok s → select_ok s'.
Proof.
  intros Es Hr Hw [Hsr Hsw]. unfold select_ok. rewrite Es. split; [|auto].
  intros i r Hi Hst. destruct (Hr i r Hi Hst) as (j & r0 & Hj & Hst0). eauto.
Qed.

Lemma set_reader_select (l : list menu_reader) i r' j r : mr_state r' ≠ MenuReads AtSelect →
  <[i := r']> l !! j = Some r → mr_state r = MenuReads AtSelect →
  ∃ j r0, l !! j = Some r0 ∧ mr_state r0 = MenuReads AtSelect.
Proof.
  intros Hr' Hj Hr. apply list_lookup_insert_Some in Hj as [(<- & <- & _)|(_ & Hj)]; [done|eauto].
Qed.

Lemma after_answer_select a : after_answer a ≠ MenuReads AtSelect.
Proof. unfold after_answer. by destruct (a.2). Qed.

Lemma after_write_select a : after_write a ≠ WorkerReads AtSelect.
Proof. unfold after_write. by destruct (a.2). Qed.

Lemma close_done_select s i r : sys_readers (close_done s) !! i = Some r → mr_state r = MenuReads AtSelect →
  ∃ j r0, sys_readers s !! j = Some r0 ∧ mr_state r0 = MenuReads AtSelect.
Proof.
  cbn. intros Hi Hr. destruct (sys_readers s) as [|r0 l] eqn:El; [done|]. destruct i as [|i]; cbn in Hi.
  - injection Hi as <-. by exists 0%nat, r0.
  - by exists (S i), r.
Qed.

(** [by_step] goes through the steps. *)
Ltac by_step Hs := destruct Hs as
  [s x f Hf Hx|s x Ex|s i r at_ o x Hi Hr Hin|s i r a Hi Hr Ha|s i r Hi Hd Hr|s r Est Hi Hr|s r a Est Hi Ha
  |s data Est|s data err Est Hd|s Est|s Est|s Est|s Est|s at_ o x Hwk Hin|s a Hwk|s a Hwk|s Est|s Est Hwk].

Lemma step_menu_reads_select all s i r at_ o x : system_ok all s →
  sys_readers s !! i = Some r → mr_state r = MenuReads at_ →
  (o, x) ∈ read_step (is_done (sys_session s)) at_ (sys_session s) →
  kept all (got_data (sys_got s) +:+ outcome_data o) x ∧
  select_ok (set_reader i (MkReader (menu_next o) (mr_answer r) (mr_done r)) (with_session x s)).
Proof.
  intros [Hro Hsel Hk] Hi Hr Hin. destruct (menu_reads_alone _ _ _ _ Hro Hi Hr) as [-> Hw].
  assert (at_ = AtSelect → is_pending (sys_session s) = "") as Hp
    by (intros ->; by apply (proj1 Hsel 0%nat r)).
  destruct (read_step_kept all _ _ _ _ _ _ Hin Hp Hk) as [Hk' Hx]. split; [done|].
  split; cbn; [|by rewrite Hw]. intros j r' Hj Hst.
  apply list_lookup_insert_Some in Hj as [(<- & <- & _)|(Hne & Hj)].
  - cbn in Hst. destruct o as [at'|a]; [|discriminate]. cbn in Hst. injection Hst as ->. by apply Hx.
  - by destruct (menu_reads_alone _ _ _ _ Hro Hj Hst) as [-> _].
Qed.

Lemma step_worker_reads_select all s at_ o x : system_ok all s → sys_worker s = WorkerReads at_ →
  (o, x) ∈ read_step (sys_cancelled s || is_done (sys_session s)) at_ (sys_session s) →
  kept all (got_data (sys_got s) +:+ outcome_data o) x ∧
  select_ok (with_worker (worker_next o) (with_session x s)).
Proof.
  intros [Hro Hsel Hk] Hw Hin.
  assert (at_ = AtSelect → is_pending (sys_session s) = "") as Hp
    by (intros ->; by apply (proj2 Hsel)).
  destruct (read_step_kept all _ _ _ _ _ _ Hin Hp Hk) as [Hk' Hx]. split; [done|]. split; cbn.
  - intros j r' Hj Hst. destruct (worker_reads_alone _ _ _ _ Hro Hw Hj); congruence.
  - destruct o as [at'|a]; cbn; [intros [= ->]; by apply Hx|].
    destruct (a.1 =s ""); [|discriminate]. intros E. by apply after_write_select in E.
Qed.

Lemma log_outcome_select c o s : select_ok s → select_ok (log_outcome c o s).
Proof. by destruct o. Qed.

Lemma step_system_ok all s s' : step s s' → system_ok all s → system_ok all s'.
Proof.
  intros Hs Hok. pose proof (step_roles s s' Hs (so_roles _ _ Hok)) as Hro.
  cut (select_ok s' ∧ kept all (got_data (sys_got s')) (sys_session s')); [by intros [? ?]; split|].
  clear Hro. pose proof Hok as [Hro Hsel Hk]. by_step Hs.
  - destruct (pump_kept all _ _ _ _ Hf Hx Hk) as [Hk' Hp]. split; [|done].
    destruct Hsel. by split; cbn; rewrite Hp.
  - subst x. split; [by destruct Hsel|]. destruct Hk as (rest & -> & Hr). exists rest. split; [done|].
    destruct Hr as [Hr|[Hr _]]; [by left|by right].
  - destruct (step_menu_reads_select all s i r at_ o x Hok Hi Hr Hin) as [Hk' Hs'].
    split; [by apply log_outcome_select|]. rewrite log_outcome_got.
    by rewrite (proj2 (proj2 (proj2 (proj2 (log_outcome_fields _ _ _))))).
  - split; [|done]. apply (select_keeps s); [done| |done|done]. intros j r'. apply set_reader_select, after_answer_select.
  - split; [|done]. apply (select_keeps s); [done| |done|done]. intros j r'. by apply set_reader_select.
  - split; [|done]. apply (select_keeps s); [done| |done|done]. intros j r'. by apply set_reader_select.
  - split; [|done]. apply (select_keeps s); [done| |done|done]. intros j r' Hj Hst.
    apply list_lookup_insert_Some in Hj as [(<- & <- & _)|(_ & Hj)]; [|eauto]. exists 0%nat, r. auto.
  - done.
  - split; [|done]. apply (select_keeps s); [done|apply close_done_select|done|done].
  - split; [|done]. apply (select_keeps s); [done|apply close_done_select|done|done].
  - split; [|done]. apply (select_keeps s); [done| |done|done]. intros [|j] r'; cbn; [by intros [= <-]|eauto].
  - done.
  - split; [|done]. by apply (select_keeps s); cbn; eauto.
  - destruct (step_worker_reads_select all s at_ o x Hok Hwk Hin) as [Hk' Hs'].
    split; [by apply log_outcome_select|]. rewrite log_outcome_got.
    by rewrite (proj2 (proj2 (proj2 (proj2 (log_outcome_fields _ _ _))))).
  - split; [|done]. apply (select_keeps s); cbn; eauto. intros E. by apply after_write_select in E.
  - split; [|done]. by apply (select_keeps s); cbn; eauto.
  - done.
  - split; [|done]. by apply (select_keeps s); cbn; eauto.
Qed.

Lemma reachable_ok source s : reachable source s → system_ok (source_data source) s.
Proof.
  intros Hr. unfold reachable in Hr. remember (initial source) as s0 eqn:E.
  assert (system_ok (source_data source) s0) as H0.
  { subst s0. split.
    - split; [|done]. by do 2 eexists.
    - split; [|done]. intros [|i] r; cbn; [by intros [= <-]|done].
    - exists (source_data source). split; [done|by left]. }
  clear E. induction Hr as [s|s1 s2 s3 Hs _ IH]; [done|]. by apply IH, (step_system_ok _ s1).
Qed.

(** The channel has one reader at a time.  Whenever a goroutine of the menu
    is inside [ReadContext], it is the one of the current call of [RunRemote],
    which waits for it (or [handle] has returned meanwhile), and there is no
    worker of a shell; whenever the worker of a shell is, the shell runs or is
    being joined, and no goroutine of a menu reads or holds anything read. *)
Theorem one_reader_at_a_time source s : reachable source s →
  (∀ i r at_, sys_readers s !! i = Some r → mr_state r = MenuReads at_ →
     i = 0%nat ∧ (sys_stage s = Selecting ∨ sys_stage s = Finished) ∧ sys_worker s = NoWorker) ∧
  (∀ at_, sys_worker s = WorkerReads at_ →
     (sys_stage s = ShellRuns ∨ sys_stage s = ShellJoins) ∧ Forall idle (sys_readers s)).
Proof.
  intros Hr. pose proof (so_roles _ _ (reachable_ok source s Hr)) as Hro. split.
  - intros i r at_ Hi Hst. destruct (menu_reads_alone _ _ _ _ Hro Hi Hst) as [-> Hw]. split_and!; [done| |done].
    destruct Hro as [(r0 & more & El & Hc & _) _]. rewrite El in Hi. injection Hi as ->.
    destruct (sys_stage s); cbn in Hc; auto; exfalso.
    + destruct Hc; congruence.
    + destruct Hc as (Hx & _). rewrite Hst in Hx. by destruct (after_answer_idle a r ltac:(congruence)); congruence.
    + destruct Hc; congruence.
    + destruct Hc; congruence.
    + destruct Hc; congruence.
  - intros at_ Hw. split.
    + destruct Hro as [_ Hwk]. rewrite Hw in Hwk. destruct (sys_stage s); cbn in Hwk; auto; discriminate.
    + apply Forall_forall. intros r Hin. apply list_elem_of_lookup_1 in Hin as [i Hi].
      by eapply worker_reads_alone.
Qed.

(** C38: what the consumers got, in the order they got it, then what the session
    keeps for the next, is what the channel gave, from its first byte: nothing is
    lost, doubled or reordered by a change between menu and shell, however the
    goroutines interleave.  What follows is what the pump holds and has not read;
    only when the SSH session is over may it be dropped. *)
Theorem no_byte_lost source s : reachable source s →
  ∃ rest, source_data source = got_data (sys_got s) +:+ waiting (sys_session s) +:+ rest ∧
    (is_done (sys_session s) = false →
     rest = held (is_pump (sys_session s)) +:+ source_data (is_source (sys_session s))).
Proof.
  intros Hr. destruct (so_kept _ _ (reachable_ok source s Hr)) as (rest & Hall & Hrest).
  exists rest. split; [done|]. intros Hd. destruct Hrest as [|[_ Hd']]; [done|congruence].
Qed.

Lemma cancelled_takes_nothing at_ x o x' : (o, x') ∈ read_step true at_ x → outcome_data o = "".
Proof.
  destruct at_; cbn; unfold attempt; rewrite ?buffer_nonzero; cbn.
  - intros Hin. apply list_elem_of_singleton in Hin. by simplify_eq.
  - intros [Hin|Hin]%elem_of_cons; [by simplify_eq|]. unfold receive in Hin.
    destruct (is_reads x); [apply list_elem_of_singleton in Hin; by simplify_eq|].
    destruct (is_pump x); try by apply not_elem_of_nil in Hin.
    apply list_elem_of_singleton in Hin. by simplify_eq.
Qed.

(** The worker of a shell that has ended, by its own steps *)
Lemma worker_ends s : sys_cancelled s = true → sys_worker s ≠ NoWorker →
  ∃ s', rtc step s s' ∧ sys_worker s' = WorkerGone ∧ sys_stage s' = sys_stage s ∧
    sys_session s' = sys_session s ∧ got_data (sys_got s') = got_data (sys_got s).
Proof.
  intros Hc Hw. destruct (sys_worker s) as [|at_|a|] eqn:Ew; [done| | |by exists s].
  - eexists. split_and!; [apply rtc_once, (step_worker_reads s at_ (inr ("", Some Cancelled)) (sys_session s) Ew)|..].
    + rewrite Hc. destruct at_; cbn; [|left]. unfold attempt. rewrite buffer_nonzero. cbn. left.
    + done.
    + done.
    + done.
    + change (got_data (sys_got s ++ [(TheShell, "")]) = got_data (sys_got s)). by rewrite got_data_snoc, append_nil_r.
  - eexists. split_and!; [by eapply rtc_once, step_write_fails|done..].
Qed.

(** How many steps a worker whose context is done can still take *)
Definition steps_left (w : worker) : nat :=
  match w with
  | WorkerReads AtSelect | WorkerWrites _ => 2
  | WorkerReads AtLoop => 1
  | NoWorker | WorkerGone => 0
  end.

Lemma after_write_left a : (steps_left (after_write a) < 2)%nat.
Proof. unfold after_write. destruct (a.2); cbn; lia. Qed.

Lemma cancelled_steps_left at_ x o x' : (o, x') ∈ read_step true at_ x →
  (steps_left (worker_next o) < steps_left (WorkerReads at_))%nat.
Proof.
  destruct at_; cbn; unfold attempt; rewrite ?buffer_nonzero; cbn.
  - intros Hin. apply list_elem_of_singleton in Hin. simplify_eq. cbn. lia.
  - intros [Hin|Hin]%elem_of_cons; [simplify_eq; cbn; lia|]. unfold receive in Hin.
    destruct (is_reads x); [apply list_elem_of_singleton in Hin; simplify_eq; cbn; lia|].
    destruct (is_pump x); try by apply not_elem_of_nil in Hin.
    apply list_elem_of_singleton in Hin. simplify_eq. cbn. lia.
Qed.

(** Nobody waits for ever.  The menu's request for a read is taken at once.
    A shell that has ended - whatever its worker is doing, and with nothing typed
    - can be left by its own steps, which take no byte; meanwhile no step of
    anybody gives the worker a byte that the next menu should get, and the worker
    itself runs out of steps: each one it takes leaves it fewer than before, and
    at most two. *)
Theorem shell_lets_go source s : reachable source s →
  (sys_stage s = Requesting → ∃ s', step s s' ∧ sys_stage s' = Selecting) ∧
  (sys_stage s = ShellJoins →
    (steps_left (sys_worker s) ≤ 2)%nat ∧
    (∃ s', rtc step s s' ∧ sys_stage s' = Between ∧ sys_session s' = sys_session s) ∧
    ∀ s', step s s' → got_data (sys_got s') = got_data (sys_got s) ∧
      (sys_worker s' = sys_worker s ∨ (steps_left (sys_worker s') < steps_left (sys_worker s))%nat ∨
       sys_stage s' = Between)).
Proof.
  intros Hreach. pose proof (so_roles _ _ (reachable_ok source s Hreach)) as Hro.
  pose proof Hro as [(r0 & more & El & Hc & Hm) Hw]. split.
  - intros Est. rewrite Est in Hc. destruct Hc as (Hst & _).
    eexists. split; [eapply step_request; [done|by rewrite El|done]|done].
  - intros Hst. rewrite Hst in Hw. destruct Hw as [Hw Hcan]. split_and!.
    + destruct (sys_worker s) as [|[]| |]; cbn; lia.
    + destruct (worker_ends s Hcan Hw) as (s1 & Hs1 & Hw1 & Hst1 & Es1 & _).
      eexists. split_and!; [eapply rtc_r; [exact Hs1|apply step_joined; [by rewrite Hst1|done]]|done|done].
    + clear El Hc Hm r0 more. intros s' Hs.
      by_step Hs; rewrite ?log_outcome_got, ?(proj1 (proj2 (log_outcome_fields _ _ _))); cbn;
        try (by auto); try congruence.
      * destruct (menu_reads_alone _ _ _ _ Hro Hi Hr) as [_ Hnw]. congruence.
      * rewrite Hcan in Hin. rewrite Hwk. split; [|right; left; by eapply cancelled_steps_left].
        by rewrite (cancelled_takes_nothing _ _ _ _ Hin), append_nil_r.
      * rewrite Hwk. split; [done|]. right. left. apply after_write_left.
      * rewrite Hwk. split; [done|]. right. left. cbn. lia.
Qed.

(** ** A session: a key in the menu, a line in a shell, the next key *)

Definition typed : list input_result := [MkInput "m" None; MkInput "ls" None; MkInput "q" None].

(** The scheduler's choices, as functions on systems *)
Definition at_pump (f : interactiveSession → option interactiveSession) (s : system) : option system :=
  (λ x, with_session x s) <$> f (sys_session s).
Definition menu_choice (s : system) : option system :=
  match sys_readers s with
  | r :: _ =>
    match mr_state r with
    | MenuReads at_ =>
      match read_step (is_done (sys_session s)) at_ (sys_session s) with
      | (o, x) :: _ =>
        Some (log_outcome TheMenu o
                (set_reader 0 (MkReader (menu_next o) (mr_answer r) (mr_done r)) (with_session x s)))
      | [] => None
      end
    | MenuHolds a =>
      match mr_answer r with
      | None => Some (set_reader 0 (MkReader (after_answer a) (Some a) (mr_done r)) s)
      | Some _ => None
      end
    | _ => None
    end
  | [] => None
  end.
Definition worker_step (s : system) : option system :=
  match sys_worker s with
  | WorkerReads at_ =>
    match read_step (sys_cancelled s || is_done (sys_session s)) at_ (sys_session s) with
    | (o, x) :: _ => Some (log_outcome TheShell o (with_worker (worker_next o) (with_session x s)))
    | [] => None
    end
  | WorkerWrites a => Some (with_worker (after_write a) s)
  | _ => None
  end.
Definition main_step (choice : main_stage) (s : system) : option system :=
  match sys_stage s, sys_readers s, choice with
  | Requesting, r :: _, Selecting =>
    match mr_state r with
    | AwaitsRequest =>
      Some (with_stage Selecting (set_reader 0 (MkReader (MenuReads AtLoop) (mr_answer r) (mr_done r)) s))
    | _ => None
    end
  | Selecting, r :: _, Handling _ =>
    match mr_answer r with
    | Some a => Some (with_stage (Handling a) (set_reader 0 (MkReader (mr_state r) None (mr_done r)) s))
    | None => None
    end
  | Handling (data, _), _, Between => if data =s "" then None else Some (with_stage Between (close_done s))
  | Between, _, Requesting =>
    Some (with_stage Requesting (with_readers (MkReader AwaitsRequest None false :: sys_readers s) s))
  | Between, _, ShellRuns =>
    Some (with_stage ShellRuns (with_worker (WorkerReads AtLoop) (with_cancelled false s)))
  | ShellRuns, _, ShellJoins => Some (with_stage ShellJoins (with_cancelled true s))
  | ShellJoins, _, Between =>
    match sys_worker s with WorkerGone => Some (with_stage Between (with_worker NoWorker s)) | _ => None end
  | _, _, _ => None
  end.

Lemma sample_step s s' : at_pump pump_read s = Some s' ∨ at_pump pump_send s = Some s' ∨ menu_choice s = Some s' ∨
  worker_step s = Some s' ∨ (∃ c, main_step c s = Some s') → step s s'.
Proof.
  assert (∀ f, f ∈ [pump_read; pump_send; pump_quit] → at_pump f s = Some s' → step s s') as Hpump.
  { intros f Hf Hs. unfold at_pump in Hs. destruct (f (sys_session s)) as [x|] eqn:E; [|discriminate].
    injection Hs as <-. by eapply step_pump. }
  intros [Hs|[Hs|[Hs|[Hs|[c Hs]]]]]; [eapply Hpump; [|exact Hs]; set_solver..| | |].
  - unfold menu_choice in Hs. destruct (sys_readers s) as [|r l] eqn:El; [discriminate|].
    destruct (mr_state r) as [|at_|a|] eqn:Er; try discriminate.
    + destruct (read_step _ _ _) as [|[o x] more] eqn:E; [discriminate|]. injection Hs as <-.
      eapply step_menu_reads; [by rewrite El|done|rewrite E; left].
    + destruct (mr_answer r) eqn:Ea; [discriminate|]. injection Hs as <-.
      eapply step_menu_answers; [by rewrite El|done|done].
  - unfold worker_step in Hs. destruct (sys_worker s) as [|at_|a|] eqn:Ew; try discriminate.
    + destruct (read_step _ _ _) as [|[o x] more] eqn:E; [discriminate|]. injection Hs as <-.
      eapply step_worker_reads; [done|rewrite E; left].
    + injection Hs as <-. by apply step_worker_writes.
  - unfold main_step in Hs. destruct (sys_stage s) as [| |[data err]| | | |] eqn:Est; try discriminate.
    + destruct (sys_readers s) as [|r l] eqn:El; [discriminate|]. destruct c; try discriminate.
      destruct (mr_state r) eqn:Er; try discriminate. injection Hs as <-. by eapply step_request; rewrite ?El.
    + destruct (sys_readers s) as [|r l] eqn:El; [discriminate|]. destruct c; try discriminate.
      destruct (mr_answer r) eqn:Er; try discriminate. injection Hs as <-. by eapply step_select; rewrite ?El.
    + destruct c; try (destruct (sys_readers s); discriminate).
      assert (sys_readers s = sys_readers s) as _ by done.
      destruct (data =s "") eqn:E; [destruct (sys_readers s); discriminate|].
      assert (s' = with_stage Between (close_done s)) as -> by (by destruct (sys_readers s); injection Hs).
      eapply step_result; [done|by apply String.eqb_neq].
    + destruct c; try (destruct (sys_readers s); discriminate).
      * assert (s' = with_stage Requesting (with_readers (MkReader AwaitsRequest None false :: sys_readers s) s)) as ->
          by (by destruct (sys_readers s); injection Hs). by apply step_menu_again.
      * assert (s' = with_stage ShellRuns (with_worker (WorkerReads AtLoop) (with_cancelled false s))) as ->
          by (by destruct (sys_readers s); injection Hs). by apply step_shell.
    + destruct c; try (destruct (sys_readers s); discriminate).
      assert (s' = with_stage ShellJoins (with_cancelled true s)) as -> by (by destruct (sys_readers s); injection Hs).
      by apply step_shell_ends.
    + destruct c; try (destruct (sys_readers s); discriminate).
      destruct (sys_worker s) eqn:Ew; try (destruct (sys_readers s); discriminate).
      assert (s' = with_stage Between (with_worker NoWorker s)) as -> by (by destruct (sys_readers s); injection Hs).
      by apply step_joined.
Qed.

(** Runs the choices; [None] when one of them is not possible. *)
Inductive choice :=
  | Pump_read
  | Pump_send
  | Menu_step
  | Worker_step
  | Main_step (to : main_stage).
Definition choose (c : choice) : system → option system :=
  match c with
  | Pump_read => at_pump pump_read
  | Pump_send => at_pump pump_send
  | Menu_step => menu_choice
  | Worker_step => worker_step
  | Main_step to => main_step to
  end.
Fixpoint run_choices (l : list choice) (s : system) : option system :=
  match l with
  | [] => Some s
  | c :: l => choose c s ≫= run_choices l
  end.

Lemma run_choices_reach l s s' : run_choices l s = Some s' → rtc step s s'.
Proof.
  revert s. induction l as [|c l IH]; cbn; intros s Hs; [by injection Hs as <-|].
  destruct (choose c s) as [s1|] eqn:E; cbn in Hs; [|discriminate].
  apply rtc_l with s1; [|by apply IH]. apply sample_step.
  destruct c; cbn in E; eauto 6.
Qed.

(** The key "m" reaches the menu, which starts a shell; the worker waits. *)
Definition key_typed : list choice :=
  [Main_step Selecting; Menu_step; Pump_read; Pump_send; Menu_step; Menu_step; Menu_step;
   Main_step (Handling ("", None)); Main_step Between; Main_step ShellRuns; Worker_step].

(** The line reaches the worker; the shell ends while the worker writes it, and
    with the next key typed. *)
Definition a_line : list choice :=
  key_typed ++ [Pump_read; Pump_send; Worker_step; Worker_step; Pump_read; Pump_send; Main_step ShellJoins].

(** The next menu gets the next key. *)
Definition next_menu : list choice :=
  a_line ++ [Worker_step; Worker_step; Main_step Between; Main_step Requesting;
             Main_step Selecting; Menu_step; Menu_step; Menu_step].

Example keys_go_to_their_consumers :
  (λ s, filter (λ p, p.2 ≠ "") (sys_got s)) <$> run_choices next_menu (initial typed) =
  Some [(TheMenu, "m"); (TheShell, "ls"); (TheMenu, "q")].
Proof. reflexivity. Qed.

Definition after (l : list choice) : system := default (initial typed) (run_choices l (initial typed)).

Lemma after_reached l : is_Some (run_choices l (initial typed)) → reachable typed (after l).
Proof. intros [s Hs]. unfold after. rewrite Hs. by eapply run_choices_reach. Qed.

(** With the worker waiting at the [select] *)
Lemma one_reader_at_a_time_witness : reachable typed (after key_typed) ∧
  sys_worker (after key_typed) = WorkerReads AtSelect ∧ Forall idle (sys_readers (after key_typed)).
Proof.
  assert (reachable typed (after key_typed)) as Hr by (apply after_reached; vm_compute; by eexists).
  assert (sys_worker (after key_typed) = WorkerReads AtSelect) as Hw by (vm_compute; reflexivity).
  split_and!; [exact Hr|exact Hw|]. exact (proj2 (proj2 (one_reader_at_a_time typed _ Hr) AtSelect Hw)).
Defined.

(** With the line in the worker's hands and the next key in the channel *)
Lemma no_byte_lost_witness : reachable typed (after a_line) ∧ got_data (sys_got (after a_line)) = "mls" ∧
  ∃ rest, "mlsq" = got_data (sys_got (after a_line)) +:+ waiting (sys_session (after a_line)) +:+ rest.
Proof.
  assert (reachable typed (after a_line)) as Hr by (apply after_reached; vm_compute; by eexists).
  split_and!; [exact Hr|vm_compute; reflexivity|].
  destruct (no_byte_lost typed _ Hr) as (rest & Hall & _). exists rest. exact Hall.
Defined.

(** The shell of that session, at its end *)
Lemma shell_lets_go_witness : reachable typed (after a_line) ∧ sys_worker (after a_line) = WorkerWrites ("ls", None) ∧
  ∃ s', rtc step (after a_line) s' ∧ sys_stage s' = Between ∧ sys_session s' = sys_session (after a_line).
Proof.
  assert (reachable typed (after a_line)) as Hr by (apply after_reached; vm_compute; by eexists).
  assert (sys_stage (after a_line) = ShellJoins) as Hst by (vm_compute; reflexivity).
  split_and!; [exact Hr|vm_compute; reflexivity|].
  exact (proj1 (proj2 (proj2 (shell_lets_go typed _ Hr) Hst))).
Defined.
