(* ===== verification/Config.v ===== *)
(** * Configuration ([internal/config/config.go])

    [Load] reads the file over the defaults, applies the OIDC variables of the
    environment and validates the result.  The TOML decoder is a parameter; the
    durations are nanoseconds. *)

From S2P Require Import Prelude GoStrings Effects Paths Durations Net Sessions.

(** ** [Duration], an int64 of nanoseconds, as the text of a TOML string *)

Definition UnmarshalText (text : string) : result Z :=
  match ParseDuration text with
  | Err err => Err err
  | Ok v => Ok v
  end.

Definition MarshalText (d : Z) : string := Duration_String d.

Lemma UnmarshalText_MarshalText d : in_int64 d = true → UnmarshalText (MarshalText d) = Ok d.
Proof. intros Hd. unfold UnmarshalText, MarshalText. by rewrite ParseDuration_String. Qed.

Definition Second : Z := 10 ^ 9.
Definition Minute : Z := 60 * Second.

Record OIDCConfig := MkOIDC {
  Enabled : bool; IssuerURL : string; ClientID : string; ClientSecret : string;
  UsernameClaim : string; Scopes : list string; LoginTimeout : Z }.

Record Config := MkConfig {
  ListenAddress : string; DatabasePath : string; MasterKeyPath : string; HostKeyPath : string;
  IdleTimeout : Z; DownstreamTimeout : Z;
  Cfg_limits : limits;   (* MaxSessions and MaxSessionsPerUser *)
  LogLevel : string; LogFormat : string; OIDC : OIDCConfig }.

Definition with_oidc (c : Config) (o : OIDCConfig) : Config :=
  MkConfig (ListenAddress c) (DatabasePath c) (MasterKeyPath c) (HostKeyPath c) (IdleTimeout c)
    (DownstreamTimeout c) (Cfg_limits c) (LogLevel c) (LogFormat c) o.

Definition Default : Config :=
  MkConfig "0.0.0.0:2222" "/var/lib/sshgatew/sshgatew.db" "/var/lib/sshgatew/master.key"
    "/var/lib/sshgatew/ssh_host_ed25519_key" (30 * Minute) (10 * Second) (Limits 100 5)
    "info" "json"
    (MkOIDC false "" "" "" "preferred_username" ["openid"; "profile"; "email"] (5 * Minute)).

Definition ForDataDir (dir : string) : Config :=
  MkConfig (ListenAddress Default) (JoinPath dir "sshgatew.db") (JoinPath dir "master.key")
    (JoinPath dir "ssh_host_ed25519_key") (IdleTimeout Default) (DownstreamTimeout Default)
    (Cfg_limits Default) (LogLevel Default) (LogFormat Default) (OIDC Default).

(** [cfg.ListenAddress = listen] *)
Definition with_listen (c : Config) (listen : string) : Config :=
  MkConfig listen (DatabasePath c) (MasterKeyPath c) (HostKeyPath c) (IdleTimeout c) (DownstreamTimeout c)
    (Cfg_limits c) (LogLevel c) (LogFormat c) (OIDC c).

(** ** Validation *)

Section Validation.
Context `{NetText}.

(** The loop over the scopes: an error, or whether [openid] was seen *)
Fixpoint check_scopes (scopes : list string) (hasOpenID : bool) : result bool :=
  match scopes with
  | [] => Ok hasOpenID
  | scope :: more =>
    if (TrimSpace scope =s "") || negb (length (Fields scope) =? 1)%nat
    then Err (Msg "oidc.scopes must contain non-empty values without whitespace")
    else check_scopes more (if scope =s "openid" then true else hasOpenID)
  end.

Definition validate_oidc (c : OIDCConfig) : result unit :=
  if negb (Enabled c) then Ok tt
  else if (IssuerURL c =s "") || (ClientID c =s "")
  then Err (Msg "oidc.issuer_url and oidc.client_id are required when OIDC is enabled")
  else match url_Parse (IssuerURL c) with
  | None => Err (Msg "oidc.issuer_url must be an absolute issuer URL without a query or fragment")
  | Some issuer =>
    if (Url_Host issuer =s "") || negb (Url_RawQuery issuer =s "") || negb (Url_Fragment issuer =s "")
    then Err (Msg "oidc.issuer_url must be an absolute issuer URL without a query or fragment")
    else if negb (Url_Scheme issuer =s "https")
            && negb ((Url_Scheme issuer =s "http") && isLoopbackHost (Hostname issuer))
    then Err (Msg "oidc.issuer_url must use HTTPS")
    else if TrimSpace (UsernameClaim c) =s "" then Err (Msg "oidc.username_claim is required")
    else if (LoginTimeout c <? 30 * Second) || (15 * Minute <? LoginTimeout c)
    then Err (Msg "oidc.login_timeout must be between 30s and 15m")
    else match check_scopes (Scopes c) false with
    | Err e => Err e
    | Ok hasOpenID => if hasOpenID then Ok tt else Err (Msg "oidc.scopes must include openid")
    end
  end.

Definition Validate (c : Config) : result unit :=
  match SplitHostPort (ListenAddress c) with
  | Err e => Err (Wrap "invalid listen_address" e)
  | Ok _ =>
    if (DatabasePath c =s "") || (MasterKeyPath c =s "") || (HostKeyPath c =s "")
    then Err (Msg "database_path, master_key_path, and host_key_path are required")
    else if (IdleTimeout c <=? 0) || (DownstreamTimeout c <=? 0)
    then Err (Msg "timeouts must be positive")
    else if (MaxSessions (Cfg_limits c) <=? 0) || (MaxSessionsPerUser (Cfg_limits c) <=? 0)
            || (MaxSessions (Cfg_limits c) <? MaxSessionsPerUser (Cfg_limits c))
    then Err (Msg "invalid session limits")
    else if negb (LogLevel c =s "debug") && negb (LogLevel c =s "info")
            && negb (LogLevel c =s "warn") && negb (LogLevel c =s "error")
    then Err (Msg "log_level must be debug, info, warn, or error")
    else if negb (LogFormat c =s "json") && negb (LogFormat c =s "text")
    then Err (Msg "log_format must be json or text")
    else validate_oidc (OIDC c)
  end.

(** ** The environment *)

(** [strconv.ParseBool] *)
Definition ParseBool (s : string) : option bool :=
  if existsb (String.eqb s) ["1"; "t"; "T"; "true"; "TRUE"; "True"] then Some true
  else if existsb (String.eqb s) ["0"; "f"; "F"; "false"; "FALSE"; "False"] then Some false
  else None.

(** [os.LookupEnv] and the variables that are not blank *)
Definition environment := string → option string.

Definition nonEmptyEnvironment (env : environment) (name : string) : option string :=
  match env name with
  | Some value => if TrimSpace value =s "" then None else Some value
  | None => None
  end.

(** A variable that sets a field, when it is not empty *)
Definition override (env : environment) (name : string) (set : string → OIDCConfig → result OIDCConfig)
    (o : OIDCConfig) : result OIDCConfig :=
  match nonEmptyEnvironment env name with Some value => set value o | None => Ok o end.

Definition set_enabled (v : string) (o : OIDCConfig) : result OIDCConfig :=
  match ParseBool v with
  | None => Err (Wrap "SSHGATEW_OIDC_ENABLED must be true or false" (Ext "invalid syntax"))
  | Some b => Ok (MkOIDC b (IssuerURL o) (ClientID o) (ClientSecret o) (UsernameClaim o) (Scopes o)
                    (LoginTimeout o))
  end.

Definition set_issuer (v : string) (o : OIDCConfig) : result OIDCConfig :=
  Ok (MkOIDC (Enabled o) (TrimSpace v) (ClientID o) (ClientSecret o) (UsernameClaim o) (Scopes o)
        (LoginTimeout o)).

Definition set_client_id (v : string) (o : OIDCConfig) : result OIDCConfig :=
  Ok (MkOIDC (Enabled o) (IssuerURL o) v (ClientSecret o) (UsernameClaim o) (Scopes o) (LoginTimeout o)).

Definition set_client_secret (v : string) (o : OIDCConfig) : result OIDCConfig :=
  Ok (MkOIDC (Enabled o) (IssuerURL o) (ClientID o) v (UsernameClaim o) (Scopes o) (LoginTimeout o)).

Definition set_username_claim (v : string) (o : OIDCConfig) : result OIDCConfig :=
  Ok (MkOIDC (Enabled o) (IssuerURL o) (ClientID o) (ClientSecret o) (TrimSpace v) (Scopes o)
        (LoginTimeout o)).

Definition set_scopes (v : string) (o : OIDCConfig) : result OIDCConfig :=
  Ok (MkOIDC (Enabled o) (IssuerURL o) (ClientID o) (ClientSecret o) (UsernameClaim o)
        (Fields (replace_byte "," " " v)) (LoginTimeout o)).

Definition set_login_timeout (v : string) (o : OIDCConfig) : result OIDCConfig :=
  match ParseDuration v with
  | Err e => Err (Wrap "invalid SSHGATEW_OIDC_LOGIN_TIMEOUT" e)
  | Ok t => Ok (MkOIDC (Enabled o) (IssuerURL o) (ClientID o) (ClientSecret o) (UsernameClaim o)
                  (Scopes o) t)
  end.

Definition applyOIDCEnvironment (env : environment) (c : Config) : result Config :=
  let o := override env "SSHGATEW_OIDC_ENABLED" set_enabled (OIDC c) in
  let o := rbind o (override env "SSHGATEW_OIDC_ISSUER" set_issuer) in
  let o := rbind o (override env "SSHGATEW_OIDC_CLIENT_ID" set_client_id) in
  let o := rbind o (override env "SSHGATEW_OIDC_CLIENT_SECRET" set_client_secret) in
  let o := rbind o (override env "SSHGATEW_OIDC_USERNAME_CLAIM" set_username_claim) in
  let o := rbind o (override env "SSHGATEW_OIDC_SCOPES" set_scopes) in
  let o := rbind o (override env "SSHGATEW_OIDC_LOGIN_TIMEOUT" set_login_timeout) in
  rbind o (λ o, Ok (with_oidc c o)).

(** ** [Load]: the contents of the file, or why it could not be read; the
    decoder, strict about unknown fields, starts from the defaults. *)
Definition Load (Decode : string → Config → result Config) (env : environment) (file : result string)
    : result Config :=
  match file with
  | Err e => Err (Wrap "read config" e)
  | Ok b =>
    match Decode b Default with
    | Err e => Err (Wrap "decode config" e)
    | Ok c => rbind (applyOIDCEnvironment env c) (λ c, rbind (Validate c) (λ _, Ok c))
    end
  end.

End Validation.
