(* ===== verification/ConfigProps.v ===== *)
(** * Theorems about the configuration

    What [Load] accepts is what the documentation calls valid, but for blanks
    around a scope. *)

From S2P Require Import Prelude GoStrings Effects Net Sessions Config.

(** ** Words: what [strings.Fields] and [strings.TrimSpace] agree on *)

Lemma concat_nonempty rs : Forall rune_shape rs → concat_strings (snd <$> rs) = "" → rs = [].
Proof.
  intros [|[r raw] l Hs _]; [done|]. cbn.
  destruct Hs as [(c & [= _ ->] & _)|(_ & _ & Hne)]; [done|]. cbn in Hne.
  by destruct raw.
Qed.

Lemma drop_while_suffix {A} (p : A → bool) l : ∃ k, l = k ++ drop_while p l ∧ forallb p k = true.
Proof.
  induction l as [|x l (k & Hk & Hp)]; [by exists []|]. cbn. destruct (p x) eqn:E.
  - exists (x :: k). cbn. by rewrite <-Hk, E.
  - by exists [].
Qed.

Lemma trim_empty s : TrimSpace s = "" → forallb (λ x, IsSpace x.1) (runes s) = true.
Proof.
  unfold TrimSpace, trim_func. set (sp := λ x : Z * string, IsSpace x.1). intros Ht.
  pose proof (runes_shape s) as Hs.
  destruct (drop_while_suffix sp (runes s)) as (k & Hk & Hp).
  set (m := drop_while sp (runes s)) in *.
  destruct (drop_while_suffix sp (rev m)) as (k' & Hk' & Hp').
  rewrite Hk, Forall_app in Hs. destruct Hs as [_ Hm%Forall_rev].
  rewrite Hk', Forall_app in Hm. destruct Hm as [_ Hm%Forall_rev].
  apply concat_nonempty in Ht; [|done]. apply (f_equal (@rev _)) in Ht.
  rewrite rev_involutive in Ht. cbn in Ht. rewrite Ht, app_nil_r in Hk'.
  change (forallb sp (runes s) = true). rewrite Hk, forallb_app, Hp. cbn.
  apply forallb_forall. intros x Hx%in_rev. rewrite Hk' in Hx.
  by apply (proj1 (forallb_forall sp k')).
Qed.

Lemma fields_of_spaces rs : forallb (λ x, IsSpace x.1) rs = true → fields_go rs "" = [].
Proof.
  induction rs as [|[r raw] rs IH]; [done|]. cbn. intros Hs. bool_simp.
  rewrite H. by apply IH.
Qed.

Lemma one_field_not_blank s w : Fields s = [w] → TrimSpace s ≠ "".
Proof. unfold Fields. intros Hw Ht%trim_empty%fields_of_spaces. congruence. Qed.

(** ** A scope as the configuration's documentation has it *)

(** Not empty, and without whitespace *)
Definition unspaced (s : string) : Prop := s ≠ "" ∧ forallb (λ x, negb (IsSpace x.1)) (runes s) = true.

(** Without whitespace at its ends *)
Definition unpadded (s : string) : Prop :=
  ∀ x, head (runes s) = Some x ∨ last (runes s) = Some x → IsSpace x.1 = false.

Lemma shape_nonempty x : rune_shape x → x.2 ≠ "".
Proof. by intros [(c & -> & _)|(_ & _ & Hne)]. Qed.

Lemma fields_nonempty rs cur : cur ≠ "" → fields_go rs cur ≠ [].
Proof.
  revert cur. induction rs as [|[r raw] rs IH]; intros cur Hc; cbn; apply String.eqb_neq in Hc as E; rewrite E; [done|].
  destruct (IsSpace r); [done|]. apply IH. by destruct cur.
Qed.

Lemma no_fields rs : Forall rune_shape rs → fields_go rs "" = [] → forallb (λ x, IsSpace x.1) rs = true.
Proof.
  induction 1 as [|[r raw] rs Hx _ IH]; [done|]. cbn. destruct (IsSpace r) eqn:E; [done|].
  intros Hf. exfalso. revert Hf. apply fields_nonempty, (shape_nonempty _ Hx).
Qed.

Lemma fields_of_word rs cur : cur +:+ concat_strings (snd <$> rs) ≠ "" →
  forallb (λ x, negb (IsSpace x.1)) rs = true → fields_go rs cur = [cur +:+ concat_strings (snd <$> rs)].
Proof.
  revert cur. induction rs as [|[r raw] rs IH]; intros cur Hne Hs; cbn in *.
  - rewrite append_nil_r in *. apply String.eqb_neq in Hne as ->. done.
  - bool_simp. rewrite <-append_assoc in *. rewrite H. by apply IH.
Qed.

(** Once a field has begun, only blanks at the end can follow it. *)
Lemma one_field_to_end rs cur w : Forall rune_shape rs → cur ≠ "" → fields_go rs cur = [w] →
  (∀ x, last rs = Some x → IsSpace x.1 = false) → forallb (λ x, negb (IsSpace x.1)) rs = true.
Proof.
  intros Hs. revert cur. induction Hs as [|[r raw] rs Hx Hrs IH]; intros cur Hc Hf Hl; [done|].
  apply String.eqb_neq in Hc as E. cbn in Hf |- *. rewrite E in Hf. destruct (IsSpace r) eqn:Er.
  - injection Hf as _ Hf%no_fields; [|done]. exfalso.
    destruct (last ((r, raw) :: rs)) as [x|] eqn:El; [|by apply last_None in El].
    specialize (Hl x eq_refl). apply last_Some_elem_of in El. rewrite elem_of_cons in El.
    destruct El as [->|El]; [cbn in Hl; congruence|]. apply list_elem_of_In in El.
    apply (proj1 (forallb_forall _ _) Hf) in El. congruence.
  - apply (IH (cur +:+ raw)); [by destruct cur|done|]. intros x Hx'. apply Hl.
    destruct rs as [|y rs]; [done|]. by rewrite last_cons_cons.
Qed.

(** A documented scope is one field; one field is a documented scope unless it has
    blanks around it. *)
Lemma unspaced_fields s : unspaced s ↔ (∃ word, Fields s = [word]) ∧ unpadded s.
Proof.
  unfold Fields. pose proof (runes_shape s) as Hshape. split.
  - intros [Hne Hs]. split.
    + exists s. rewrite (fields_of_word (runes s) ""); change ("" +:+ ?t) with t in *; by rewrite ?runes_raw.
    + intros x Hx. assert (x ∈ runes s) as Hin by (destruct Hx; [by apply head_Some_elem_of|by apply last_Some_elem_of]).
      apply list_elem_of_In in Hin. apply (proj1 (forallb_forall _ _) Hs) in Hin. by apply negb_true_iff in Hin.
  - intros [[w Hw] Hu]. split; [by intros ->|]. unfold unpadded in Hu.
    destruct (runes s) as [|[r raw] rs]; [done|]. inversion_clear Hshape as [|? ? Hx Hrs].
    assert (IsSpace r = false) as Er by (apply (Hu (r, raw)); by left). cbn in Hw |- *. rewrite Er in Hw |- *.
    apply (one_field_to_end rs raw w); [done|by apply (shape_nonempty _ Hx)|done|].
    intros x Hl. apply Hu. right. destruct rs; [done|]. by rewrite last_cons_cons.
Qed.

(** ** The specification *)

Section Specification.
Context `{NetText}.

(** An OIDC provider the gateway may talk to: over TLS, or on this host *)
Definition secure_issuer (raw : string) : Prop := ∃ u, url_Parse raw = Some u ∧
  Url_Host u ≠ "" ∧ Url_RawQuery u = "" ∧ Url_Fragment u = "" ∧
  (Url_Scheme u = "https" ∨ (Url_Scheme u = "http" ∧ isLoopbackHost (Hostname u) = true)).

Record valid_oidc (o : OIDCConfig) : Prop := {
  vo_issuer : IssuerURL o ≠ "" ∧ secure_issuer (IssuerURL o);
  vo_client : ClientID o ≠ "";
  vo_claim : TrimSpace (UsernameClaim o) ≠ "";
  vo_timeout : 30 * Second <= LoginTimeout o <= 15 * Minute;
  vo_openid : "openid" ∈ Scopes o;
  vo_scopes : Forall unspaced (Scopes o) }.

(** The part of it that the code tests as documented *)
Record provider_ok (o : OIDCConfig) : Prop := {
  po_issuer : IssuerURL o ≠ "" ∧ secure_issuer (IssuerURL o);
  po_client : ClientID o ≠ "";
  po_claim : TrimSpace (UsernameClaim o) ≠ "";
  po_timeout : 30 * Second <= LoginTimeout o <= 15 * Minute;
  po_openid : "openid" ∈ Scopes o }.

Lemma valid_oidc_parts o : valid_oidc o ↔
  (provider_ok o ∧ Forall (λ scope, ∃ word, Fields scope = [word]) (Scopes o)) ∧ Forall unpadded (Scopes o).
Proof.
  split.
  - intros []. split; [split; [by split|]|]; eapply Forall_impl; try done; intros s; apply unspaced_fields.
  - intros [[[] Hf] Hu]. split; try done. apply Forall_forall. intros s Hin. rewrite Forall_forall in Hf, Hu.
    apply unspaced_fields. auto.
Qed.

Record valid_config (c : Config) : Prop := {
  vc_listen : ∃ host port, SplitHostPort (ListenAddress c) = Ok (host, port);
  vc_paths : DatabasePath c ≠ "" ∧ MasterKeyPath c ≠ "" ∧ HostKeyPath c ≠ "";
  vc_timeouts : 0 < IdleTimeout c ∧ 0 < DownstreamTimeout c;
  vc_limits : 0 < MaxSessionsPerUser (Cfg_limits c) <= MaxSessions (Cfg_limits c);
  vc_level : LogLevel c ∈ ["debug"; "info"; "warn"; "error"];
  vc_format : LogFormat c ∈ ["json"; "text"];
  vc_oidc : Enabled (OIDC c) = true → valid_oidc (OIDC c) }.

Lemma check_scopes_spec scopes seen b :
  check_scopes scopes seen = Ok b ↔
  Forall (λ scope, ∃ word, Fields scope = [word]) scopes ∧
  b = seen || bool_decide ("openid" ∈ scopes).
Proof.
  revert seen. induction scopes as [|scope more IH]; intros seen; cbn [check_scopes].
  - rewrite bool_decide_eq_false_2, orb_false_r by set_solver. split; [by intros [= ->]|by intros [_ ->]].
  - rewrite Forall_cons. destruct (Fields scope) as [|w [|w' ws]] eqn:Ef.
    1, 3: rewrite orb_true_r; split; [discriminate|by intros [[[? [=]] _] _]].
    pose proof (one_field_not_blank _ _ Ef) as Hb. apply String.eqb_neq in Hb as ->.
    cbn [orb negb length Nat.eqb]. rewrite IH.
    assert (bool_decide ("openid" ∈ scope :: more) =
            (scope =s "openid") || bool_decide ("openid" ∈ more)) as ->.
    { destruct (String.eqb_spec scope "openid") as [->|Hne].
      - by rewrite bool_decide_eq_true_2 by left.
      - apply bool_decide_ext. rewrite elem_of_cons. split; [by intros [<-|?]|by right]. }
    split.
    + intros [? ->]. split; [split; [by exists w|done]|]. by destruct (scope =s "openid"), seen.
    + intros [[_ ?] ->]. split; [done|]. by destruct (scope =s "openid"), seen.
Qed.

(** A guard of a validation passes when its condition is false. *)
Lemma guard_ok (b : bool) e (r : result unit) : (if b then Err e else r) = Ok tt ↔ b = false ∧ r = Ok tt.
Proof. destruct b; split; try done; by intros []. Qed.

Lemma eqb_false_ne s t : (s =s t) = false ↔ s ≠ t.
Proof. apply String.eqb_neq. Qed.

Lemma negb_eqb_false s t : negb (s =s t) = false ↔ s = t.
Proof. rewrite negb_false_iff. apply String.eqb_eq. Qed.

Lemma validate_oidc_spec o : Enabled o = true → validate_oidc o = Ok tt ↔
  provider_ok o ∧ Forall (λ scope, ∃ word, Fields scope = [word]) (Scopes o).
Proof.
  intros He. unfold validate_oidc. rewrite He. cbn [negb].
  rewrite guard_ok, orb_false_iff, !eqb_false_ne.
  destruct (url_Parse (IssuerURL o)) as [u|] eqn:Eu.
  2: { split; [by intros []|]. intros [[[_ (u & Hu & _)] _ _ _ _] _]. congruence. }
  rewrite !guard_ok, !orb_false_iff, !andb_false_iff, !negb_eqb_false, !eqb_false_ne,
    negb_false_iff, andb_true_iff, String.eqb_eq, !Z.ltb_ge.
  destruct (check_scopes (Scopes o) false) as [b|e] eqn:Es.
  - apply check_scopes_spec in Es as [Hs ->]. cbn [orb].
    split.
    + intros ((? & ?) & ((? & ?) & ?) & ? & ? & (? & ?) & Ho).
      destruct (bool_decide_reflect ("openid" ∈ Scopes o)); [|done].
      split; [|done]. constructor; try done. split; [done|]. by exists u.
    + intros [[[? (u' & Hu & ? & ? & ? & ?)] ? ? [? ?] ?] ?]. rewrite Eu in Hu. injection Hu as <-.
      rewrite bool_decide_eq_true_2 by done. naive_solver.
  - split; [by intros (_ & _ & _ & _ & _ & ?)|]. intros [[_ _ _ _ Ho] Hs].
    assert (check_scopes (Scopes o) false = Ok true); [|congruence].
    apply check_scopes_spec. by rewrite bool_decide_eq_true_2.
Qed.

Lemma one_of2 s a b : negb (s =s a) && negb (s =s b) = false ↔ s ∈ [a; b].
Proof. rewrite andb_false_iff, !negb_eqb_false, !elem_of_cons, elem_of_nil. tauto. Qed.

Lemma one_of4 s a b c d :
  negb (s =s a) && negb (s =s b) && negb (s =s c) && negb (s =s d) = false ↔ s ∈ [a; b; c; d].
Proof. rewrite !andb_false_iff, !negb_eqb_false, !elem_of_cons, elem_of_nil. tauto. Qed.

(** The scopes of an enabled provider have no blanks around them. *)
Definition unpadded_scopes (c : Config) : Prop := Enabled (OIDC c) = true → Forall unpadded (Scopes (OIDC c)).

Lemma Validate_spec c : Validate c = Ok tt ∧ unpadded_scopes c ↔ valid_config c.
Proof.
  unfold Validate, unpadded_scopes. destruct (SplitHostPort (ListenAddress c)) as [[host port]|e] eqn:El.
  2: { split; [by intros []|]. intros [(h & p & Hl) _ _ _ _ _ _]. congruence. }
  rewrite !guard_ok, one_of2, one_of4, !orb_false_iff, !eqb_false_ne, !Z.leb_gt, Z.ltb_ge.
  split.
  - intros [(((? & ?) & ?) & (? & ?) & ((? & ?) & ?) & ? & ? & Ho) Hs].
    constructor; try done; [by exists host, port|].
    intros He. apply valid_oidc_parts. split; [by apply validate_oidc_spec|by apply Hs].
  - intros [_ (? & ? & ?) (? & ?) ? ? ? Ho].
    split; [|intros He; by apply (valid_oidc_parts _), Ho]. split_and!; try done; try lia.
    destruct (Enabled (OIDC c)) eqn:E; [|by unfold validate_oidc; rewrite E].
    apply (validate_oidc_spec _ E). by apply (valid_oidc_parts _), Ho.
Qed.

(** C39: every configuration that is valid as documented starts the gateway: the
    file decodes, the OIDC variables of the environment apply, and the result has
    an address to listen on, non-empty paths, positive timeouts, per-user sessions
    between one and the total, known log settings and, with OIDC enabled, an issuer
    over HTTPS (or on this host), a client, a claim, a login timeout between thirty
    seconds and fifteen minutes, and scopes that are not empty and have no
    whitespace, with [openid] among them.  And the gateway starts from no other
    configuration whose scopes have no blanks around them, and runs with that one;
    blanks around a scope are the one thing it lets pass ([padded_scope_loads]). *)
Theorem load_accepts_valid_configurations Decode env file (c : Config) :
  Load Decode env file = Ok c ∧ unpadded_scopes c ↔
  ∃ b c0, file = Ok b ∧ Decode b Default = Ok c0 ∧ applyOIDCEnvironment env c0 = Ok c ∧
          valid_config c.
Proof.
  unfold Load. destruct file as [b|e]; [|split; [by intros []|by intros (? & ? & ? & _)]].
  destruct (Decode b Default) as [c0|e] eqn:Ed.
  2: { split; [by intros []|]. intros (? & ? & [= <-] & ? & _). congruence. }
  destruct (applyOIDCEnvironment env c0) as [c1|e] eqn:Ea; cbn [rbind].
  2: { split; [by intros []|]. intros (? & ? & [= <-] & ? & ? & _). congruence. }
  destruct (Validate c1) as [[]|e] eqn:Ev; cbn [rbind]; split.
  - intros [[= <-] Hs]. exists b, c0. split_and!; try done. by apply Validate_spec.
  - intros (? & ? & [= <-] & Hd & Ha & Hv%Validate_spec). split; [congruence|by apply Hv].
  - by intros [].
  - intros (? & ? & [= <-] & Hd & Ha & [Hv _]%Validate_spec). congruence.
Qed.
End Specification.

(** C26: every duration survives the configuration file.  What [MarshalText]
    writes for an int64 of nanoseconds - hours, minutes, seconds and a fraction,
    or the smaller units below a second, with a sign - [UnmarshalText] reads back
    as that number, the largest and the smallest included: no sum wraps around,
    and the fractions, computed in float64, are exact. *)
Theorem durations_round_trip d : in_int64 d = true → UnmarshalText (MarshalText d) = Ok d.
Proof. apply UnmarshalText_MarshalText. Qed.

Lemma durations_round_trip_witness :
  MarshalText (- 2 ^ 63) = "-2562047h47m16.854775808s" ∧ UnmarshalText (MarshalText (- 2 ^ 63)) = Ok (- 2 ^ 63).
Proof. split; [by vm_compute|]. by apply durations_round_trip. Defined.

Section Examples.
#[local] Existing Instance simple_net.

(** The variables of the repository's test of the environment *)
Definition sample_env : environment := λ name,
  if name =s "SSHGATEW_OIDC_ENABLED" then Some "true"
  else if name =s "SSHGATEW_OIDC_ISSUER" then Some "https://id.example.com/realms/team"
  else if name =s "SSHGATEW_OIDC_CLIENT_ID" then Some "sshgatew"
  else if name =s "SSHGATEW_OIDC_SCOPES" then Some "openid,profile groups"
  else if name =s "SSHGATEW_OIDC_LOGIN_TIMEOUT" then Some "3m"
  else None.

Example environment_applied :
  (λ c, (Enabled (OIDC c), ClientID (OIDC c), Scopes (OIDC c), LoginTimeout (OIDC c))) <$>
    match Load (λ _ c, Ok c) sample_env (Ok "") with Ok c => Some c | Err _ => None end =
  Some (true, "sshgatew", ["openid"; "profile"; "groups"], 3 * Minute).
Proof. vm_compute. reflexivity. Qed.

(** An issuer without TLS is refused; one on this host is not. *)
Example insecure_issuer :
  let with_issuer i := with_oidc Default
    (MkOIDC true i "sshgatew" "" "preferred_username" ["openid"] (5 * Minute)) in
  Validate (with_issuer "http://identity.example.com") = Err (Msg "oidc.issuer_url must use HTTPS") ∧
  Validate (with_issuer "http://localhost:8080") = Ok tt.
Proof. split; vm_compute; reflexivity. Qed.

(** A scope with blanks around it passes the test whose message names whitespace. *)
Example padded_scope_loads :
  let padded := with_oidc Default
    (MkOIDC true "https://id.example.com" "sshgatew" "" "preferred_username" ["openid"; " email "] (5 * Minute)) in
  Load (λ _ _, Ok padded) (λ _, None) (Ok "") = Ok padded ∧ ¬ valid_config padded.
Proof.
  split; [vm_compute; reflexivity|]. intros [_ _ _ _ _ _ Ho]. destruct (Ho eq_refl) as [_ _ _ _ _ Hs].
  inversion_clear Hs as [|? ? _ Hs']. inversion_clear Hs' as [|? ? [_ He] _]. vm_compute in He. discriminate.
Qed.
End Examples.
