(* ===== verification/OidcDevice.v ===== *)
(** * The OIDC device client ([internal/oidcdevice/oidcdevice.go])

    Device authorization against the configured provider: discovery with its
    cached provider, the device request, and the identity taken from the ID
    token.  The libraries (go-oidc, oauth2) and the network are the fields of
    [Services]; the HTTP request and its checks are the program's own. *)

From S2P Require Import Prelude GoStrings Effects Net Totp Auth.

Record Options := MkOptions {
  Opt_IssuerURL : string; Opt_ClientID : string; Opt_ClientSecret : string;
  Opt_UsernameClaim : string; Opt_Scopes : list string }.

(** [oidc.Provider]: what the program asks of it, [Claims(&metadata)] included *)
Record Provider := MkProvider {
  DeviceAuthURL : string; TokenURL : string; JWKSURL : result string }.

(** [oauth2.DeviceAuthResponse], the fields the program reads *)
Record DeviceAuthResponse := MkDevice {
  DeviceCode : string; Dev_UserCode : string;
  Dev_VerificationURI : string; Dev_VerificationURIComplete : string }.

(** The POST of [requestDeviceAuth] *)
Record HttpRequest := MkRequest {
  Req_URL : string; Req_Form : string; Req_BasicAuth : option (string * string) }.

(** [oauth2.Config] *)
Record OauthConfig := MkOauth {
  OA_ClientID : string; OA_ClientSecret : string; OA_Endpoint : Provider; OA_Scopes : list string }.

(** A token response's [id_token] when it is a string, and a verified ID token;
    a claim is [Some] text when it is a string. *)
Record IDToken := MkIDToken {
  Tok_Subject : string; Tok_Claims : result (string → option string) }.

Class Services := {
  NewProvider : string → result Provider;
  Do : HttpRequest → result (Z * string);              (* status and body *)
  DecodeDevice : string → result DeviceAuthResponse;   (* json.Decoder *)
  DeviceAccessToken : OauthConfig → DeviceAuthResponse → result (option string);
  VerifyIDToken : string → string → result IDToken }.  (* client ID, raw token *)

(** [Login]: what is shown to the user and the state behind it; the zero value
    has no state. *)
Record DeviceLogin := MkLogin {
  Shown : Login; state : option (DeviceAuthResponse * OauthConfig) }.

(** [url.Values.Encode] of [client_id] and [scope], in the order of the keys *)
Definition device_form (c : OauthConfig) : string :=
  "client_id=" +:+ QueryEscape (OA_ClientID c) +:+
  match OA_Scopes c with
  | [] => ""
  | scopes => "&scope=" +:+ QueryEscape (Join scopes " ")
  end.

(** [io.LimitReader(body, 1<<20)] *)
Definition body_limit : Z := 2 ^ 20.
Definition limited (body : string) : string :=
  if len body <=? body_limit then body else take_str (Z.to_nat body_limit) body.

(** [%q] of a printable name *)
Definition quoted (name : string) : string := str1 (chr 0x22) +:+ name +:+ str1 (chr 0x22).

Section Device.
Context `{NetText}.

Definition validateEndpoint (raw : string) : result unit :=
  match url_Parse raw with
  | None => Err (Msg "endpoint must be an absolute URL without user information or a fragment")
  | Some parsed =>
    if (Url_Host parsed =s "") || Url_User parsed || negb (Url_Fragment parsed =s "")
    then Err (Msg "endpoint must be an absolute URL without user information or a fragment")
    else if Url_Scheme parsed =s "https" then Ok tt
    else if (Url_Scheme parsed =s "http") && isLoopbackHost (Hostname parsed) then Ok tt
    else Err (Msg "endpoint must use HTTPS")
  end.

(** [strings.Map] that drops the control characters, cut at [limit] bytes *)
Definition displayText (value : string) (limit : Z) : string :=
  let value := Map (λ r, if IsControl r then -1 else r) value in
  if limit <? len value then take_str (Z.to_nat limit) value else value.

Context `{Services}.

Definition New (o : Options) : Options :=
  MkOptions (Opt_IssuerURL o) (Opt_ClientID o) (Opt_ClientSecret o)
    (TrimSpace (Opt_UsernameClaim o)) (Opt_Scopes o).

(** [discover], under the mutex: the cached provider, or a new one whose key
    endpoint is valid *)
Definition discover (o : Options) (cached : option Provider) : result Provider * option Provider :=
  match cached with
  | Some p => (Ok p, cached)
  | None =>
    match NewProvider (Opt_IssuerURL o) with
    | Err e => (Err (Wrap "discover OIDC provider" e), None)
    | Ok provider =>
      match JWKSURL provider with
      | Err e => (Err (Wrap "read OIDC provider metadata" e), None)
      | Ok jwks =>
        match validateEndpoint jwks with
        | Err e => (Err (Wrap "invalid OIDC JWKS endpoint" e), None)
        | Ok _ => (Ok provider, Some provider)
        end
      end
    end
  end.

Definition requestDeviceAuth (c : OauthConfig) : result DeviceAuthResponse :=
  match url_Parse (DeviceAuthURL (OA_Endpoint c)) with
  | None => Err (Ext "parse")   (* http.NewRequestWithContext *)
  | Some _ =>
    let basic := if OA_ClientSecret c =s "" then None else Some (OA_ClientID c, OA_ClientSecret c) in
    let! response := Do (MkRequest (DeviceAuthURL (OA_Endpoint c)) (device_form c) basic) in
    let '(status, body) := response in
    if (status <? 200) || (300 <=? status)
    then Err (Msg ("device authorization endpoint returned HTTP " +:+ Itoa status))
    else match DecodeDevice (limited body) with
         | Err e => Err (Wrap "decode device authorization response" e)
         | Ok device => Ok device
         end
  end.

(** [fmt.Errorf("prefix: %w", err)] around a check *)
Definition wrapped {A} (prefix : string) (r : result A) : result A :=
  match r with Ok a => Ok a | Err e => Err (Wrap prefix e) end.

Definition BeginLogin (o : Options) (provider : Provider) : result DeviceLogin :=
  if DeviceAuthURL provider =s ""
  then Err (Msg "OIDC provider does not advertise a device authorization endpoint")
  else
    let! _ := wrapped "invalid OIDC device authorization endpoint" (validateEndpoint (DeviceAuthURL provider)) in
    let! _ := wrapped "invalid OIDC token endpoint" (validateEndpoint (TokenURL provider)) in
    let oauthConfig := MkOauth (Opt_ClientID o) (Opt_ClientSecret o) provider (Opt_Scopes o) in
    let! response := wrapped "start OIDC device authorization" (requestDeviceAuth oauthConfig) in
    if (DeviceCode response =s "") || (Dev_UserCode response =s "") || (Dev_VerificationURI response =s "")
    then Err (Msg "OIDC provider returned an incomplete device authorization response")
    else
      let! _ := wrapped "invalid OIDC verification URI" (validateEndpoint (Dev_VerificationURI response)) in
      let! _ := if Dev_VerificationURIComplete response =s "" then Ok tt
                else wrapped "invalid complete OIDC verification URI"
                       (validateEndpoint (Dev_VerificationURIComplete response)) in
      Ok (MkLogin (mkLogin (displayText (Dev_UserCode response) 128)
                     (displayText (Dev_VerificationURI response) 2048)
                     (displayText (Dev_VerificationURIComplete response) 2048))
                  (Some (response, oauthConfig))).

Definition Begin (o : Options) (cached : option Provider) : result DeviceLogin * option Provider :=
  let '(found, cached') := discover o cached in
  (let! provider := found in BeginLogin o provider, cached').

Context `{UnicodeTables}.

Definition Complete (o : Options) (login : DeviceLogin) : result Identity :=
  match state login with
  | None => Err (Msg "invalid OIDC login state")
  | Some (response, oauth) =>
    let! extra := wrapped "complete OIDC device authorization" (DeviceAccessToken oauth response) in
    match extra with
    | None => Err (Msg "OIDC token response did not include an ID token")
    | Some rawIDToken =>
      if rawIDToken =s "" then Err (Msg "OIDC token response did not include an ID token")
      else
        let! idToken := wrapped "verify OIDC ID token" (VerifyIDToken (OA_ClientID oauth) rawIDToken) in
        let! claims := wrapped "read OIDC ID token claims" (Tok_Claims idToken) in
        let missing := Err (Msg ("OIDC ID token is missing string claim " +:+ quoted (Opt_UsernameClaim o))) in
        match claims (Opt_UsernameClaim o) with
        | None => missing
        | Some value =>
          if TrimSpace value =s "" then missing
          else Ok (mkIdentity (Tok_Subject idToken) (ToLower (TrimSpace value)))
        end
    end
  end.
End Device.
