(* ===== verification/OidcDeviceProps.v ===== *)
(** * Theorems about the OIDC device client

    What a login may use of the provider, what it may show on the terminal, and
    whose identity it ends with. *)

From S2P Require Import Prelude GoStrings Effects Net Totp Auth OidcDevice.

(** ** The bytes of the text shown *)

(** A byte that a terminal prints or that belongs to a multi-byte character *)
Definition harmless (c : ascii) : bool := (0x20 <=? byte c) && negb (byte c =? 0x7F).

Definition low_values (n : Z) : list Z := Z.of_nat <$> seq 0 (Z.to_nat n).

Lemma elem_of_low_values n z : 0 <= z < n → z ∈ low_values n.
Proof.
  intros Hz. apply list_elem_of_fmap. exists (Z.to_nat z). split; [lia|].
  apply elem_of_seq. lia.
Qed.

(** Every byte a rune from 0x80 up is encoded with has its top bit set. *)
Definition high (b : Z) : bool := (0x80 <=? b) && (b <? 0x100).

Lemma low_values_high k n z : forallb (λ x, high (Z.lor k x)) (low_values n) = true →
  0 <= z < n → high (Z.lor k z) = true.
Proof.
  rewrite forallb_true. intros Hk Hz. by apply (Hk z), elem_of_low_values.
Qed.

Lemma high_harmless b : high b = true → harmless (chr b) = true.
Proof.
  unfold high, harmless. intros Hb. bool_simp. rewrite byte_chr by lia.
  apply andb_true_iff. split; [apply Z.leb_le; lia|]. apply negb_true_iff, Z.eqb_neq. lia.
Qed.

Lemma of_bytes_harmless l : Forall (λ b, high b = true) l → sforall harmless (of_bytes l) = true.
Proof.
  induction 1 as [|b l Hb _ IH]; [done|]. cbn. rewrite high_harmless by done. exact IH.
Qed.

Lemma cont_high z : high (Z.lor 0x80 (Z.land z 0x3F)) = true.
Proof.
  apply (low_values_high 0x80 64); [vm_compute; reflexivity|].
  change 0x3F with (Z.ones 6). rewrite Z.land_ones by lia. apply Z.mod_pos_bound. lia.
Qed.

Lemma encode_rune_harmless r : 0x20 <= r → r ≠ 0x7F → sforall harmless (encode_rune r) = true.
Proof.
  intros Hr Hd. unfold encode_rune.
  set (q := if valid_rune r then r else RuneError).
  assert (0x20 <= q <= 0x10FFFF ∧ q ≠ 0x7F) as (Hq & Hqd).
  { unfold q, valid_rune, in_range. destruct (_ || _) eqn:E; [|by unfold RuneError; lia].
    apply orb_true_iff in E as [E|E]; bool_simp; lia. }
  clearbody q. destruct (q <? 0x80) eqn:E1.
  { bool_simp. cbn. unfold harmless. rewrite byte_chr by lia. rewrite andb_true_r.
    apply andb_true_iff. split; [apply Z.leb_le; lia|]. apply negb_true_iff, Z.eqb_neq. lia. }
  bool_simp. rewrite !Z.shiftr_div_pow2 by lia.
  destruct (q <? 0x800) eqn:E2; [|destruct (q <? 0x10000) eqn:E3]; bool_simp;
    apply of_bytes_harmless; repeat constructor; try apply cont_high.
  - apply (low_values_high 0xC0 32); [vm_compute; reflexivity|]. split; [apply Z.div_pos; lia|].
    apply Z.div_lt_upper_bound; lia.
  - apply (low_values_high 0xE0 16); [vm_compute; reflexivity|]. split; [apply Z.div_pos; lia|].
    apply Z.div_lt_upper_bound; lia.
  - apply (low_values_high 0xF0 8); [vm_compute; reflexivity|]. split; [apply Z.div_pos; lia|].
    apply Z.div_lt_upper_bound; lia.
Qed.

Lemma sforall_concat p l : Forall (λ s, sforall p s = true) l → sforall p (concat_strings l) = true.
Proof. induction 1 as [|s l Hs _ IH]; [done|]. cbn. by rewrite sforall_app, Hs, IH. Qed.

Lemma rune_nonneg x : rune_shape x → 0 <= x.1.
Proof.
  intros [(c & -> & _)|(? & _)]; [|lia]. cbn. pose proof (byte_range c). lia.
Qed.

Lemma sforall_take p n s : sforall p s = true → sforall p (take_str n s) = true.
Proof.
  revert s. induction n as [|n IH]; intros [|c s]; try done. cbn. intros Hs. bool_simp.
  rewrite H. by apply IH.
Qed.

Lemma length_take_str n s : (String.length (take_str n s) ≤ n)%nat.
Proof. revert s. induction n as [|n IH]; intros [|c s]; cbn; try lia. specialize (IH s). lia. Qed.

Section Text.
Context `{NetText}.

Lemma displayText_harmless v limit : 0 <= limit →
  sforall harmless (displayText v limit) = true ∧ len (displayText v limit) <= limit.
Proof.
  intros Hl. unfold displayText. set (m := Map _ v).
  assert (sforall harmless m = true) as Hm.
  { apply sforall_concat, Forall_fmap, (Forall_impl _ _ _ (runes_shape v)).
    intros [r raw] Hs%rune_nonneg. cbn in Hs |- *. destruct (IsControl r) eqn:Ec; [done|].
    destruct (r <? 0) eqn:E0; [done|]. unfold IsControl, in_range in Ec.
    apply orb_false_iff in Ec as [E1 E2]. apply andb_false_iff in E1. apply andb_false_iff in E2.
    apply encode_rune_harmless; rewrite ?Z.leb_gt in E1, E2; lia. }
  destruct (limit <? len m) eqn:E; bool_simp.
  - split; [by apply sforall_take|]. pose proof (length_take_str (Z.to_nat limit) m).
    unfold len. lia.
  - done.
Qed.
End Text.

(** ** The endpoints *)

Section Endpoints.
Context `{NetText}.

(** An endpoint the gateway talks to, or sends its users to *)
Definition trusted_endpoint (raw : string) : Prop := ∃ u, url_Parse raw = Some u ∧
  Url_Host u ≠ "" ∧ Url_User u = false ∧ Url_Fragment u = "" ∧
  (Url_Scheme u = "https" ∨ (Url_Scheme u = "http" ∧ isLoopbackHost (Hostname u) = true)).

Lemma validateEndpoint_spec raw : validateEndpoint raw = Ok tt ↔ trusted_endpoint raw.
Proof.
  unfold validateEndpoint, trusted_endpoint. destruct (url_Parse raw) as [u|].
  2: { split; [discriminate|by intros (? & ? & _)]. }
  destruct (_ || _) eqn:E1.
  - split; [discriminate|]. intros (? & [= <-] & Hh & Hu & Hf & _).
    rewrite Hu, Hf, orb_false_r in E1. cbn in E1. bool_simp.
    rewrite orb_false_r in E1. by apply String.eqb_eq in E1.
  - apply orb_false_iff in E1 as [[Eh Eu]%orb_false_iff Ef%negb_false_iff].
    apply String.eqb_neq in Eh. apply String.eqb_eq in Ef.
    destruct (Url_Scheme u =s "https") eqn:Es.
    + bool_simp. split; [|done]. intros _. exists u. by rewrite Ef; auto 10.
    + destruct ((Url_Scheme u =s "http") && _) eqn:Ep; bool_simp.
      * split; [|done]. intros _. exists u. by auto 10.
      * split; [discriminate|]. intros (? & [= <-] & _ & _ & _ & [?|[Hs Hl]]); [done|].
        by rewrite Hs, Hl in Ep.
Qed.

Context `{Services}.

Lemma wrapped_ok {A} p (r : result A) a : wrapped p r = Ok a → r = Ok a.
Proof. by destruct r. Qed.

(** The provider that [discover] keeps has passed the check of its keys. *)
Definition trusted_keys (p : Provider) : Prop :=
  ∃ jwks, JWKSURL p = Ok jwks ∧ trusted_endpoint jwks.

Lemma discover_trusted o cached r cached' :
  (∀ p, cached = Some p → trusted_keys p) → discover o cached = (r, cached') →
  (∀ p, cached' = Some p → trusted_keys p) ∧ (∀ p, r = Ok p → cached' = Some p).
Proof.
  unfold discover. destruct cached as [p|].
  { intros Hp [= <- <-]. split; [done|]. by intros ? [= <-]. }
  intros _. destruct (NewProvider _) as [p|e]; [|by intros [= <- <-]].
  destruct (JWKSURL p) as [jwks|e] eqn:Ej; [|by intros [= <- <-]].
  destruct (validateEndpoint jwks) as [[]|e] eqn:Ev; intros [= <- <-]; [|done].
  apply validateEndpoint_spec in Ev. split; [|by intros ? [= <-]].
  intros ? [= <-]. by exists jwks.
Qed.

(** What a started login relies on and shows *)
Record trusted_login (o : Options) (p : Provider) (login : DeviceLogin) (d : DeviceAuthResponse) : Prop := {
  tl_keys : trusted_keys p;
  tl_endpoints : trusted_endpoint (DeviceAuthURL p) ∧ trusted_endpoint (TokenURL p);
  tl_uri : trusted_endpoint (Dev_VerificationURI d);
  tl_complete : Dev_VerificationURIComplete d = "" ∨ trusted_endpoint (Dev_VerificationURIComplete d);
  tl_codes : DeviceCode d ≠ "" ∧ Dev_UserCode d ≠ "";
  tl_state : ∃ c, state login = Some (d, c) ∧ OA_ClientID c = Opt_ClientID o ∧ OA_Endpoint c = p ∧
             requestDeviceAuth c = Ok d }.

(** The texts a login shows: none can move the cursor, none is long. *)
Definition harmless_text (l : Login) : Prop :=
  sforall harmless (UserCode l) = true ∧ sforall harmless (VerificationURI l) = true ∧
  sforall harmless (VerificationURIComplete l) = true ∧
  len (UserCode l) <= 128 ∧ len (VerificationURI l) <= 2048 ∧ len (VerificationURIComplete l) <= 2048.

Lemma BeginLogin_trusted o p login : trusted_keys p → BeginLogin o p = Ok login →
  harmless_text (Shown login) ∧ ∃ d, trusted_login o p login d.
Proof.
  intros Hk. unfold BeginLogin. destruct (DeviceAuthURL p =s ""); [discriminate|].
  destruct (wrapped _ (validateEndpoint (DeviceAuthURL p))) as [[]|] eqn:E1; [|discriminate].
  cbn [rbind]. destruct (wrapped _ (validateEndpoint (TokenURL p))) as [[]|] eqn:E2; [|discriminate].
  cbn [rbind]. destruct (wrapped _ (requestDeviceAuth _)) as [d|] eqn:E3; [|discriminate].
  cbn [rbind]. destruct (_ || _) eqn:E4; [discriminate|].
  destruct (wrapped _ (validateEndpoint (Dev_VerificationURI d))) as [[]|] eqn:E5; [|discriminate].
  cbn [rbind]. destruct (if Dev_VerificationURIComplete d =s "" then _ else _) as [[]|] eqn:E6;
    [|discriminate].
  cbn [rbind]. intros [= <-].
  apply wrapped_ok in E1, E2, E3, E5. apply validateEndpoint_spec in E1, E2, E5.
  destruct (displayText_harmless (Dev_UserCode d) 128) as [? ?]; [done|].
  destruct (displayText_harmless (Dev_VerificationURI d) 2048) as [? ?]; [done|].
  destruct (displayText_harmless (Dev_VerificationURIComplete d) 2048) as [? ?]; [done|].
  split; [by split_and!|]. exists d. bool_simp. constructor; try done.
  - destruct (Dev_VerificationURIComplete d =s "") eqn:Ec; bool_simp; [by left|right].
    by apply wrapped_ok, validateEndpoint_spec in E6.
  - by eexists.
Qed.

(** C40: a device login is only ever started against endpoints that are trusted.
    Whatever the provider's metadata and answers say, when [Begin] succeeds the
    key, device, token and verification addresses are absolute, without user
    information or fragment, and over HTTPS (or plain HTTP to this host); the
    login stays bound to the response and client it was started with; and the
    code and addresses shown on the terminal hold no control byte and are cut to
    their limits.  The provider kept for later logins is trusted as well. *)
Theorem begun_login_is_trusted o cached login cached' :
  (∀ p, cached = Some p → trusted_keys p) → Begin o cached = (Ok login, cached') →
  ∃ p d, cached' = Some p ∧ trusted_login o p login d ∧ harmless_text (Shown login).
Proof.
  intros Hc. unfold Begin. destruct (discover o cached) as [r c] eqn:Ed.
  destruct (discover_trusted _ _ _ _ Hc Ed) as [Hk Hr].
  destruct r as [p|e]; [|discriminate]. cbn [rbind].
  destruct (BeginLogin o p) as [l|] eqn:Eb; intros [= -> ->].
  specialize (Hr p eq_refl). destruct (BeginLogin_trusted o p login (Hk p Hr) Eb) as [? [d ?]].
  by exists p, d.
Qed.

Context `{UnicodeTables}.

(** The identity of a device login is the one in the verified ID token.
    [Complete] succeeds exactly when the login was started, the token endpoint
    answers with a non-empty ID token, that token verifies for the client the
    login was started with, and its user name claim is a string that is not
    blank; then the subject is the token's and the name is the claim, trimmed
    and in lower case. *)
Theorem completed_login_identity o login i :
  Complete o login = Ok i ↔
  ∃ d c raw token claims name, state login = Some (d, c) ∧
    DeviceAccessToken c d = Ok (Some raw) ∧ raw ≠ "" ∧
    VerifyIDToken (OA_ClientID c) raw = Ok token ∧ Tok_Claims token = Ok claims ∧
    claims (Opt_UsernameClaim o) = Some name ∧ TrimSpace name ≠ "" ∧
    i = mkIdentity (Tok_Subject token) (ToLower (TrimSpace name)).
Proof.
  unfold Complete. split.
  - destruct (state login) as [[d c]|]; [|discriminate].
    destruct (DeviceAccessToken c d) as [[raw|]|] eqn:Ea; [|discriminate..]. cbn [wrapped rbind].
    destruct (raw =s "") eqn:Er; [discriminate|].
    destruct (VerifyIDToken _ raw) as [token|] eqn:Ev; [|discriminate]. cbn [wrapped rbind].
    destruct (Tok_Claims token) as [claims|] eqn:Et; [|discriminate]. cbn [wrapped rbind].
    destruct (claims _) as [name|] eqn:En; [|discriminate].
    destruct (TrimSpace name =s "") eqn:Eb; [discriminate|]. intros [= <-].
    bool_simp. exists d, c, raw, token, claims, name. by split_and!.
  - intros (d & c & raw & token & claims & name & -> & Hd & Hr & Hv & Ht & Hn & Hb & ->).
    rewrite Hd. cbn [wrapped rbind]. apply String.eqb_neq in Hr as ->.
    rewrite Hv. cbn [wrapped rbind]. rewrite Ht. cbn [wrapped rbind]. rewrite Hn.
    by apply String.eqb_neq in Hb as ->.
Qed.
End Endpoints.

Section Examples.
#[local] Existing Instances simple_net ascii_tables.

Definition sample_provider : Provider :=
  MkProvider "https://id.example.com/device" "https://id.example.com/token"
    (Ok "https://id.example.com/keys").

(** A provider that answers every request; its user code carries an escape
    sequence. *)
#[local] Instance sample_services : Services := {|
  NewProvider := λ _, Ok sample_provider;
  Do := λ _, Ok (200, "{}");
  DecodeDevice := λ _, Ok (MkDevice "secret" ("ABCD" +:+ str1 (chr 0x1b) +:+ "[2J")
                             "https://id.example.com/activate" "");
  DeviceAccessToken := λ _ _, Ok (Some "token");
  VerifyIDToken := λ _ _, Ok (MkIDToken "sub-1"
    (Ok (λ c, if c =s "preferred_username" then Some " Alice " else None))) |}.

Definition sample_options : Options :=
  New (MkOptions "https://id.example.com" "sshgatew" "" "preferred_username " ["openid"; "profile"]).

Definition sample_login : DeviceLogin :=
  MkLogin (mkLogin "ABCD[2J" "https://id.example.com/activate" "")
    (Some (MkDevice "secret" ("ABCD" +:+ str1 (chr 0x1b) +:+ "[2J") "https://id.example.com/activate" "",
           MkOauth "sshgatew" "" sample_provider ["openid"; "profile"])).

Example sample_begins : Begin sample_options None = (Ok sample_login, Some sample_provider).
Proof. vm_compute. reflexivity. Qed.

Example sample_completes : Complete sample_options sample_login = Ok (mkIdentity "sub-1" "alice").
Proof. vm_compute. reflexivity. Qed.

Lemma begun_login_is_trusted_witness :
  ∃ p d, Some sample_provider = Some p ∧ trusted_login sample_options p sample_login d ∧
         harmless_text (Shown sample_login).
Proof.
  apply (begun_login_is_trusted sample_options None); [discriminate|].
  vm_compute. reflexivity.
Defined.
End Examples.
