(* ===== verification/Downstream.v ===== *)
(** * The downstream connection ([internal/downstream/downstream.go], protocols.go)

    Parsing the pinned host key, choosing the authentication method from the
    stored credential, dialling with the pin, and the keep-alive loop.  The connection
    side of the SSH library is the class [Ssh]. *)

From S2P Require Import Prelude GoStrings Effects Net Schema StoreTargets Auth SshKeys.

(** [gossh.AuthMethod]: [gossh.Password] and [gossh.PublicKeys] of one signer *)
Inductive AuthMethod :=
  | PasswordAuth (password : string)
  | KeyAuth (signer : Signer).

(** What the handshake is given: [gossh.ClientConfig] *)
Record ClientConfig := MkClient {
  CC_User : string; CC_Auth : AuthMethod; CC_HostKeyCallback : SshKey → result unit }.

Class Ssh := {
  net_conn : Type;
  DialContext : string → result net_conn;
  ssh_client : Type;
  NewClientConn : net_conn → string → ClientConfig → result ssh_client;
  presented : ssh_client → SshKey;
  used_auth : ssh_client → string * option AuthMethod }.

(** What the library documents of a handshake: a client exists only when the
    callback accepted the host key the server proved it holds; the login was for
    the user it was given; and the server let the client in with the method it was
    given, or ([None]) upon the request without a method that comes first. *)
Class SshLaws `{Ssh} := {
  handshake_checked : ∀ conn addr cfg client, NewClientConn conn addr cfg = Ok client →
    CC_HostKeyCallback cfg (presented client) = Ok tt;
  handshake_auth : ∀ conn addr cfg client, NewClientConn conn addr cfg = Ok client →
    used_auth client = (CC_User cfg, None) ∨ used_auth client = (CC_User cfg, Some (CC_Auth cfg)) }.

Section Downstream.
Context `{KeyFormats, Ssh}.

Definition ParseHostKey (line : string) : result SshKey :=
  match ParseAuthorizedKey line with
  | Err e => Err (Wrap "parse host key" e)
  | Ok (k, _, _) => Ok k
  end.

(** [HostKeyCallback] of [Dial] *)
Definition pin_callback (pinned key : SshKey) : result unit :=
  if negb (same_key key pinned)
  then Err (Msg ("host key mismatch: expected " +:+ FingerprintSHA256 pinned +:+
                 ", received " +:+ FingerprintSHA256 key))
  else Ok tt.

(** ** The authentication method.  A forwarded agent is the answer to
    [Agent.Signers()]: [OpenForwardedAgent] never leaves its [Agent] nil. *)

Definition agent_signers := result (list Signer).

Definition authMethod (kind : string) (p : Payload) (forwarded : option agent_signers) : result AuthMethod :=
  if kind =s CredentialPassword then
    if Password p =s "" then Err (Msg "stored password is empty") else Ok (PasswordAuth (Password p))
  else if (kind =s CredentialPrivateKey) || (kind =s CredentialStoredKey) then
    let signer := if negb (Passphrase p =s "")
                  then ParsePrivateKeyWithPassphrase (PrivateKey p) (Passphrase p)
                  else ParsePrivateKey (PrivateKey p) in
    match signer with
    | Err e => Err (Wrap "parse stored private key" e)
    | Ok s => Ok (KeyAuth s)
    end
  else if kind =s CredentialAgent then
    match forwarded with
    | None => Err (Msg "this target requires a forwarded SSH agent; reconnect with ssh -A")
    | Some signers =>
      match ParseAuthorizedKey (PublicKey p) with
      | Err _ => Err (Msg "stored forwarded-agent public key is invalid")
      | Ok (expected, _, rest) =>
        if negb (len (TrimSpace rest) =? 0)
        then Err (Msg "stored forwarded-agent public key is invalid")
        else match signers with
             | Err e => Err (Wrap "list forwarded-agent identities" e)
             | Ok l =>
               match List.find (λ s, same_key (Signer_PublicKey s) expected) l with
               | Some s => Ok (KeyAuth s)
               | None => Err (Msg ("forwarded agent does not contain required key " +:+
                                   FingerprintSHA256 expected))
               end
             end
      end
    end
  else Err (Msg "unsupported credential kind").

(** [OpenForwardedAgent]: whether the client asked for forwarding; the context of
    the session, if it has one, with its connection to the client and what the
    agent behind a channel of it answers *)
Definition OpenForwardedAgent (requested : bool) (context : option (option (result agent_signers))) :
    result agent_signers :=
  if negb requested
  then Err (Msg "this target requires agent forwarding; reconnect to SSHGateW with ssh -A")
  else match context with
       | None => Err (Msg "forwarded agent connection is unavailable")
       | Some None => Err (Msg "forwarded agent transport is unavailable")
       | Some (Some (Err e)) => Err (Wrap "open forwarded agent" e)
       | Some (Some (Ok signers)) => Ok signers
       end.

(** ** [Dial]: the client, and what is closed or started on the way *)

Inductive dial_effect :=
  | Dialled (address : string)
  | RawClosed
  | KeepAliveStarted
  | AgentClosed.

(** [AgentConnection.Close] under its [sync.Once]: the first call closes *)
Definition close_agent (tr : list dial_effect) : list dial_effect :=
  if existsb (λ e, match e with AgentClosed => true | _ => false end) tr then tr else tr ++ [AgentClosed].

Definition dial_address (t : Target) : string := JoinHostPort (Target_Host t) (Itoa (Target_Port t)).

(** The body, before the deferred [forwarded.Close()] *)
Definition dial_body (t : Target) (credential : Payload) (forwarded : option agent_signers)
    : result ssh_client * list dial_effect :=
  match ParseHostKey (Target_HostPublicKey t) with
  | Err e => (Err e, [])
  | Ok pinned =>
    match authMethod (Target_CredentialKind t) credential forwarded with
    | Err e => (Err e, [])
    | Ok auth =>
      let addr := dial_address t in
      let cfg := MkClient (Target_RemoteUsername t) auth (pin_callback pinned) in
      match DialContext addr with
      | Err e => (Err (Wrap "dial downstream" e), [Dialled addr])
      | Ok raw =>
        match NewClientConn raw addr cfg with
        | Err e => (Err (Wrap "downstream handshake" e), [Dialled addr; RawClosed])
        | Ok client =>
          let tr := [Dialled addr] in
          let tr := match forwarded with Some _ => close_agent tr | None => tr end in
          (Ok client, tr ++ [KeepAliveStarted])
        end
      end
    end
  end.

Definition Dial (t : Target) (credential : Payload) (forwarded : option agent_signers)
    : result ssh_client * list dial_effect :=
  let '(r, tr) := dial_body t credential forwarded in
  (r, match forwarded with Some _ => close_agent tr | None => tr end).

(** [ScanHostKey]: the key the probe's callback saw, or the handshake's error.
    The callback refuses every key, so the handshake never completes past it. *)
Definition ScanHostKey (dialled : result unit) (observed : option SshKey) (handshake : result unit)
    : result SshKey :=
  match dialled with
  | Err e => Err e
  | Ok _ =>
    match observed with
    | Some k => Ok k
    | None => match handshake with
              | Ok _ => Err (Msg "server did not present a host key")
              | Err e => Err e
              end
    end
  end.

End Downstream.

(** ** [keepAlive]: a probe on every tick, closing the client when it fails *)

Inductive alive_state :=
  | Waiting     (* for the next tick *)
  | Probing (tick : bool)   (* for the reply, the timer running; a tick in the channel *)
  | Finished (closed : bool).

(** What the loop's selects may receive *)
Inductive alive_event :=
  | ClientDone
  | Tick
  | Reply (r : result unit)
  | ProbeTimeout.

(** A tick that comes while a probe runs stays in the ticker's channel, of
    capacity one, and is taken when the loop is back at its select. *)
Definition alive_step (s : alive_state) (e : alive_event) : alive_state :=
  match s, e with
  | Finished closed, _ => Finished closed
  | _, ClientDone => Finished false
  | Waiting, Tick => Probing false
  | Waiting, _ => Waiting
  | Probing tick, Reply (Ok _) => if tick then Probing false else Waiting
  | Probing _, Reply (Err _) => Finished true
  | Probing _, ProbeTimeout => Finished true
  | Probing _, Tick => Probing true
  end.

Definition keepAlive (events : list alive_event) : alive_state :=
  fold_left alive_step events Waiting.
