(* ===== verification/DownstreamProps.v ===== *)
(** * Theorems about the downstream connection *)

From S2P Require Import Prelude GoStrings Effects Net Schema StoreTargets Auth SshKeys Downstream.

Lemma same_key_eq a b : same_key a b = true ↔ a = b.
Proof.
  unfold same_key. destruct a as [ta ma], b as [tb mb]. cbn.
  rewrite andb_true_iff, !String.eqb_eq. split; [by intros [-> ->]|by intros [= -> ->]].
Qed.

Lemma find_some {A} (p : A → bool) l x : List.find p l = Some x → x ∈ l ∧ p x = true.
Proof. intros Hf%List.find_some. by rewrite list_elem_of_In. Qed.

Section Connection.
Context `{KeyFormats, Ssh}.

(** The credential a method authenticates with, by the kind the target has *)
Definition method_for (kind : string) (p : Payload) (forwarded : option agent_signers) (m : AuthMethod) : Prop :=
  (kind = CredentialPassword ∧ Password p ≠ "" ∧ m = PasswordAuth (Password p)) ∨
  ((kind = CredentialPrivateKey ∨ kind = CredentialStoredKey) ∧
   ∃ s, m = KeyAuth s ∧
     (if Passphrase p =s "" then ParsePrivateKey (PrivateKey p)
      else ParsePrivateKeyWithPassphrase (PrivateKey p) (Passphrase p)) = Ok s) ∨
  (kind = CredentialAgent ∧ ∃ l s comment rest, forwarded = Some (Ok l) ∧ m = KeyAuth s ∧ s ∈ l ∧
     ParseAuthorizedKey (PublicKey p) = Ok (Signer_PublicKey s, comment, rest) ∧ TrimSpace rest = "").

Lemma len_zero s : len s = 0 → s = "".
Proof. intros Hl. destruct s; [done|]. unfold len in Hl. cbn in Hl. lia. Qed.

Lemma authMethod_sound kind p forwarded m :
  authMethod kind p forwarded = Ok m → method_for kind p forwarded m.
Proof.
  unfold authMethod, method_for. destruct (kind =s CredentialPassword) eqn:E1.
  { destruct (Password p =s "") eqn:Ep; [discriminate|]. intros [= <-]. bool_simp. by left. }
  destruct ((kind =s CredentialPrivateKey) || _) eqn:E2.
  { rewrite orb_true_iff, !String.eqb_eq in E2. intros Hs. right. left. split; [done|].
    destruct (Passphrase p =s ""); cbn [negb] in Hs.
    - destruct (ParsePrivateKey (PrivateKey p)) as [s|]; [|discriminate].
      injection Hs as <-. by exists s.
    - destruct (ParsePrivateKeyWithPassphrase _ _) as [s|]; [|discriminate].
      injection Hs as <-. by exists s. }
  destruct (kind =s CredentialAgent) eqn:E3; [|discriminate].
  destruct forwarded as [signers|]; [|discriminate].
  destruct (ParseAuthorizedKey (PublicKey p)) as [[[expected comment] rest]|] eqn:Ek; [|discriminate].
  destruct (len (TrimSpace rest) =? 0) eqn:Er; [|discriminate]. cbn [negb].
  destruct signers as [l|]; [|discriminate].
  destruct (List.find _ l) as [s|] eqn:Ef; [|discriminate]. intros [= <-].
  apply find_some in Ef as [Hin <-%same_key_eq]. bool_simp. right. right. split; [done|].
  exists l, s, comment, rest. split_and!; try done. by apply len_zero.
Qed.

Context `{!SshLaws}.

Lemma dial_body_pinned t p forwarded client tr : dial_body t p forwarded = (Ok client, tr) →
  ParseHostKey (Target_HostPublicKey t) = Ok (presented client) ∧
  (used_auth client).1 = Target_RemoteUsername t ∧
  ∃ m, method_for (Target_CredentialKind t) p forwarded m ∧
    ((used_auth client).2 = None ∨ (used_auth client).2 = Some m).
Proof.
  unfold dial_body. destruct (ParseHostKey _) as [pinned|]; [|discriminate].
  destruct (authMethod _ p forwarded) as [m|] eqn:Em; [|discriminate].
  destruct (DialContext _) as [raw|]; [|discriminate].
  destruct (NewClientConn raw _ _) as [c|] eqn:Ec; [|discriminate]. intros [= <- _].
  pose proof (handshake_auth _ _ _ _ Ec) as Ha. apply handshake_checked in Ec. cbn in Ec, Ha.
  unfold pin_callback in Ec. destruct (same_key _ _) eqn:Es; [|discriminate].
  apply same_key_eq in Es as ->. split_and!; [done|by destruct Ha as [-> | ->]|].
  exists m. split; [by apply authMethod_sound|]. destruct Ha as [-> | ->]; [by left|by right].
Qed.

(** How often an effect happened *)
Definition closings (tr : list dial_effect) : nat :=
  length (List.filter (λ e, match e with AgentClosed => true | _ => false end) tr).

Lemma close_agent_once tr : (closings tr ≤ 1)%nat → closings (close_agent tr) = 1%nat.
Proof.
  intros Hc. unfold close_agent. destruct (existsb _ tr) eqn:E.
  - apply existsb_true in E as (e & Hin & He). unfold closings in *.
    destruct (List.filter _ tr) eqn:Ef; [|cbn in *; lia].
    assert (In e []) as []. rewrite <-Ef. apply filter_In. by rewrite <-list_elem_of_In.
  - unfold closings. rewrite List.filter_app, length_app. cbn.
    replace (List.filter _ tr) with (@nil dial_effect); [done|]. symmetry.
    clear Hc. induction tr as [|e tr IH]; [done|]. cbn in *. by destruct e; [..|discriminate]; apply IH.
Qed.

Lemma dial_body_closings t p forwarded :
  (closings (dial_body t p forwarded).2 ≤ 1)%nat.
Proof.
  unfold dial_body. destruct (ParseHostKey _); [|cbn; lia].
  destruct (authMethod _ p forwarded); [|cbn; lia]. destruct (DialContext _) as [raw|]; [|cbn; lia].
  destruct (NewClientConn raw _ _); [|cbn; lia]. by destruct forwarded; cbn; lia.
Qed.

(** C8: a downstream client exists only behind the pinned host key.  When [Dial]
    succeeds the server has presented exactly the key stored with the target, of
    the same type and bytes; the login was made for the target's remote user with
    the credential of its kind (the stored password, the stored private key, or
    the one identity of the forwarded agent that has the stored public key), unless
    the server asked for none and let the first, empty request in; and
    whatever the outcome, a forwarded agent has been closed exactly once by the
    time [Dial] returns, so no session on the target can reach it. *)
Theorem dial_is_pinned t credential forwarded :
  (∀ client tr, Dial t credential forwarded = (Ok client, tr) →
     ParseHostKey (Target_HostPublicKey t) = Ok (presented client) ∧
     (used_auth client).1 = Target_RemoteUsername t ∧
     ∃ m, method_for (Target_CredentialKind t) credential forwarded m ∧
       ((used_auth client).2 = None ∨ (used_auth client).2 = Some m)) ∧
  (forwarded ≠ None → closings (Dial t credential forwarded).2 = 1%nat).
Proof.
  unfold Dial. pose proof (dial_body_closings t credential forwarded) as Hc.
  destruct (dial_body t credential forwarded) as [r tr'] eqn:Ed. split.
  - intros client tr [= -> _]. by apply (dial_body_pinned t credential forwarded client tr').
  - intros Hf. destruct forwarded as [s|]; [|done]. cbn. by apply close_agent_once.
Qed.

End Connection.

(** ** The keep-alive loop *)

Lemma alive_finished evs b : fold_left alive_step evs (Finished b) = Finished b.
Proof. by induction evs. Qed.

Lemma keepAlive_snoc evs e : keepAlive (evs ++ [e]) = alive_step (keepAlive evs) e.
Proof. unfold keepAlive. by rewrite fold_left_app. Qed.

(** The loop closes the client only for a probe that failed or was not answered
    in time: never while replies come back, and never before a tick. *)
Lemma keepAlive_closes evs : keepAlive evs = Finished true →
  ∃ before tick e after, evs = before ++ e :: after ∧ keepAlive before = Probing tick ∧
    (e = ProbeTimeout ∨ ∃ err, e = Reply (Err err)).
Proof.
  induction evs as [|e evs IH] using rev_ind; [discriminate|]. rewrite keepAlive_snoc.
  destruct (keepAlive evs) as [|tick|b] eqn:E.
  - by destruct e.
  - destruct e as [| |[]|]; try done; [by destruct tick| |].
    all: intros _; exists evs, tick; eexists; exists []; split_and!; eauto.
  - intros [= ->]. destruct (IH eq_refl) as (before & tick & e' & after & -> & ? & ?).
    exists before, tick, e', (after ++ [e]). by rewrite <-app_assoc.
Qed.

(** ** A server and an agent, for the examples *)

Definition two_words (line : string) : result (SshKey * string * string) :=
  match split_byte " " line with
  | [t; m] => Ok (MkKey t m, "", "")
  | _ => Err (Ext "ssh: no key found")
  end.

(** The text of a key is its type and its wire form. *)
Definition sample_formats : KeyFormats := {|
  ParseAuthorizedKey := two_words;
  MarshalAuthorizedKey := λ k, Key_Type k +:+ " " +:+ Key_Marshal k;
  FingerprintSHA256 := λ k, "SHA256:" +:+ Key_Marshal k;
  ParsePrivateKey := λ s, Ok (MkSigner (MkKey "ssh-ed25519" s));
  ParsePrivateKeyWithPassphrase := λ s _, Ok (MkSigner (MkKey "ssh-ed25519" s));
  PassphraseMissing := λ _, false |}.

#[local] Existing Instance sample_formats.

(** A server that holds one key and lets every login in *)
Definition sample_server (key : SshKey) : Ssh := {|
  net_conn := unit;
  DialContext := λ _, Ok tt;
  ssh_client := SshKey * (string * option AuthMethod);
  NewClientConn := λ _ _ cfg,
    match CC_HostKeyCallback cfg key with
    | Ok _ => Ok (key, (CC_User cfg, Some (CC_Auth cfg)))
    | Err e => Err (Wrap "ssh: handshake failed" e)
    end;
  presented := fst;
  used_auth := snd |}.

Lemma sample_server_laws key : @SshLaws (sample_server key).
Proof.
  split; cbn; intros _ addr cfg client; destruct (CC_HostKeyCallback cfg key) as [[]|] eqn:E;
    try discriminate; intros [= <-]; first [done|by right].
Qed.

Definition host_key : SshKey := MkKey "ssh-ed25519" "AAAAhost".
Definition agent_key : SshKey := MkKey "ssh-ed25519" "AAAAagent".

Definition sample_target : Target :=
  mkTarget 1 "web" "10.0.0.5" "deploy" CredentialAgent 22 true "ssh-ed25519" "ssh-ed25519 AAAAhost"
    "" "" None GoTime.noon GoTime.noon.

Definition sample_credential : Payload := mkPayload 1 "" "" "ssh-ed25519 AAAAagent" "" "".

Definition sample_agent : option agent_signers :=
  Some (Ok [MkSigner (MkKey "ssh-rsa" "AAAAother"); MkSigner agent_key]).

Example other_host_refused :
  @Dial _ (sample_server (MkKey "ssh-ed25519" "AAAAmitm")) sample_target sample_credential sample_agent =
  (Err (Wrap "downstream handshake" (Wrap "ssh: handshake failed"
     (Msg "host key mismatch: expected SHA256:AAAAhost, received SHA256:AAAAmitm"))),
   [Dialled "10.0.0.5:22"; RawClosed; AgentClosed]).
Proof. vm_compute. reflexivity. Qed.

Lemma dial_is_pinned_witness :
  let S := sample_server host_key in
  @Dial _ S sample_target sample_credential sample_agent =
    (Ok (host_key, ("deploy", Some (KeyAuth (MkSigner agent_key)))),
     [Dialled "10.0.0.5:22"; AgentClosed; KeepAliveStarted]) ∧
  closings (@Dial _ S sample_target sample_credential sample_agent).2 = 1%nat.
Proof.
  split; [vm_compute; reflexivity|].
  apply (@dial_is_pinned _ (sample_server host_key) (sample_server_laws host_key)). discriminate.
Defined.
