(* ===== verification/ProxyShell.v ===== *)
(** * The interactive shell on a target ([ProxyShell], downstream.go)

    [ProxyShell] runs five goroutines: its own, with its stack of deferred calls;
    the worker that feeds the target from a reader that can be cancelled; the one
    that closes the session when the context ends; and the two that pass signals
    and window changes on.  [own_moves] are their steps and the end of the
    library's copying; [world] those of the target, the client and the context, on
    which they wait.  The
    calls of the SSH library before the shell runs answer as [shell_calls] says. *)

From S2P Require Import Prelude GoStrings Effects.

(** [charmssh.Pty] and [charmssh.Window] *)
Record Window := MkWindow { Width : Z; Height : Z }.
Record Pty := MkPty { Term : string; Pty_Window : Window }.

(** What [sess.Wait] fails with: a [*gossh.ExitError], or another error *)
Inductive wait_error :=
  | ExitError (status : Z)
  | OtherError (e : error).

(** The answers of the library; [sc_ReadContext]: the inbound session has a
    reader that can be cancelled; [sc_missing]: the error of [Wait] when the
    channel is closed and no exit status came. *)
Record shell_calls := MkShellCalls {
  sc_NewSession : result unit;
  sc_Pty : option Pty;
  sc_RequestPty : string → Z → Z → list (Z * Z) → result unit;
  sc_ReadContext : bool;
  sc_StdinPipe : result unit;
  sc_Shell : result unit;
  sc_missing : error;
}.

(** The terminal modes ECHO, TTY_OP_ISPEED and TTY_OP_OSPEED *)
Definition modes : list (Z * Z) := [(53, 1); (128, 14400); (129, 14400)].

(** ** The state *)

Inductive deferred := CloseSession | CancelInput | AwaitInput | ResetSignals.

#[export] Instance deferred_eq_dec : EqDecision deferred.
Proof. solve_decision. Defined.

(** [Leaving r]: [return r] was reached, and the deferred calls run. *)
Inductive main_point :=
  | AtNewSession
  | AtPty
  | AtRequestPty (p : Pty)
  | AtStdin
  | AtShell
  | AtSignals
  | AtWait
  | AtCloseDone (w : option wait_error)
  | AtOutcome (w : option wait_error)
  | Leaving (r : result unit)
  | Returned (r : result unit).

(** The worker: in [ReadContext], or in [stdin.Write] with what it returned.
    [Copying] is the library's goroutine of [sess.Stdin], without a worker. *)
Inductive input_worker :=
  | NotStarted
  | Reading
  | Writing (data : string) (err : option error)
  | InputDone
  | Copying.

Inductive watcher := NoWatcher | Watching | Closing | WatcherDone.

(** The goroutine that passes on what comes through a channel *)
Inductive relay_state (A : Type) := NoRelay | Selects | Sends (a : A) | RelayDone.
Arguments NoRelay {A}.
Arguments Selects {A}.
Arguments Sends {A} a.
Arguments RelayDone {A}.

(** The copying of the target's output by the library: in a read of the channel or
    in [inbound.Write], at an end or with an error *)
Inductive output_copy :=
  | CopyReads
  | CopyWrites (text : string)
  | CopyEnded
  | CopyFailed (e : error).

(** With what is in the channel, whether it is open, and what was passed on *)
Record relay (A : Type) := MkRelay {
  rl_state : relay_state A;
  rl_queue : list A;
  rl_open : bool;
  rl_passed : list A;
}.
Arguments MkRelay {A}.
Arguments rl_state {A}.
Arguments rl_queue {A}.
Arguments rl_open {A}.
Arguments rl_passed {A}.

(** [sh_source]: what the calls of [inbound.Read] or [ReadContext] will return;
    [sh_sent]: the bytes the target took; [sh_printed], [sh_shown]: the bytes the
    target printed, and those of them the client has; [sh_exit]: how the target's
    program ended; [sh_closed]: the channel is closed, and [sh_lost]: not by
    [ProxyShell]. *)
Record shell := MkShell {
  sh_point : main_point;
  sh_defers : list deferred;
  sh_worker : input_worker;
  sh_watcher : watcher;
  sh_signals : relay string;
  sh_windows : relay Window;
  sh_source : list (string * option error);
  sh_sent : string;
  sh_printed : string;
  sh_shown : string;
  sh_exit : option (option wait_error);
  sh_copy : output_copy;
  sh_ctx : option error;
  sh_cancelled : bool;
  sh_closed : bool;
  sh_lost : bool;
  sh_done : bool;
  sh_registered : bool;
}.

Definition idle_relay {A} (queue : list A) : relay A := MkRelay NoRelay queue true [].

Definition shell_start (source : list (string * option error)) (windows : list Window) : shell :=
  MkShell AtNewSession [] NotStarted NoWatcher (idle_relay []) (idle_relay windows) source "" "" ""
    None CopyReads None false false false false false.

Definition at_point (p : main_point) (s : shell) : shell :=
  MkShell p (sh_defers s) (sh_worker s) (sh_watcher s) (sh_signals s) (sh_windows s) (sh_source s) (sh_sent s)
    (sh_printed s) (sh_shown s) (sh_exit s) (sh_copy s) (sh_ctx s) (sh_cancelled s) (sh_closed s)
    (sh_lost s) (sh_done s) (sh_registered s).
Definition with_defers (l : list deferred) (s : shell) : shell :=
  MkShell (sh_point s) l (sh_worker s) (sh_watcher s) (sh_signals s) (sh_windows s) (sh_source s) (sh_sent s)
    (sh_printed s) (sh_shown s) (sh_exit s) (sh_copy s) (sh_ctx s) (sh_cancelled s) (sh_closed s)
    (sh_lost s) (sh_done s) (sh_registered s).
Definition with_worker (w : input_worker) (s : shell) : shell :=
  MkShell (sh_point s) (sh_defers s) w (sh_watcher s) (sh_signals s) (sh_windows s) (sh_source s) (sh_sent s)
    (sh_printed s) (sh_shown s) (sh_exit s) (sh_copy s) (sh_ctx s) (sh_cancelled s) (sh_closed s)
    (sh_lost s) (sh_done s) (sh_registered s).
Definition with_input (source : list (string * option error)) (sent : string) (s : shell) : shell :=
  MkShell (sh_point s) (sh_defers s) (sh_worker s) (sh_watcher s) (sh_signals s) (sh_windows s) source sent
    (sh_printed s) (sh_shown s) (sh_exit s) (sh_copy s) (sh_ctx s) (sh_cancelled s) (sh_closed s)
    (sh_lost s) (sh_done s) (sh_registered s).
Definition with_watcher (w : watcher) (s : shell) : shell :=
  MkShell (sh_point s) (sh_defers s) (sh_worker s) w (sh_signals s) (sh_windows s) (sh_source s) (sh_sent s)
    (sh_printed s) (sh_shown s) (sh_exit s) (sh_copy s) (sh_ctx s) (sh_cancelled s) (sh_closed s)
    (sh_lost s) (sh_done s) (sh_registered s).
Definition with_signals (r : relay string) (s : shell) : shell :=
  MkShell (sh_point s) (sh_defers s) (sh_worker s) (sh_watcher s) r (sh_windows s) (sh_source s) (sh_sent s)
    (sh_printed s) (sh_shown s) (sh_exit s) (sh_copy s) (sh_ctx s) (sh_cancelled s) (sh_closed s)
    (sh_lost s) (sh_done s) (sh_registered s).
Definition with_windows (r : relay Window) (s : shell) : shell :=
  MkShell (sh_point s) (sh_defers s) (sh_worker s) (sh_watcher s) (sh_signals s) r (sh_source s) (sh_sent s)
    (sh_printed s) (sh_shown s) (sh_exit s) (sh_copy s) (sh_ctx s) (sh_cancelled s) (sh_closed s)
    (sh_lost s) (sh_done s) (sh_registered s).
(** The program on the target: what it printed, what of it the client has, how it
    ended, and the copying *)
Definition with_remote (printed shown : string) (exit : option (option wait_error)) (copy : output_copy)
    (s : shell) : shell :=
  MkShell (sh_point s) (sh_defers s) (sh_worker s) (sh_watcher s) (sh_signals s) (sh_windows s) (sh_source s)
    (sh_sent s) printed shown exit copy (sh_ctx s) (sh_cancelled s) (sh_closed s) (sh_lost s) (sh_done s) (sh_registered s).
Definition with_ctx (e : error) (s : shell) : shell :=
  MkShell (sh_point s) (sh_defers s) (sh_worker s) (sh_watcher s) (sh_signals s) (sh_windows s) (sh_source s)
    (sh_sent s) (sh_printed s) (sh_shown s) (sh_exit s) (sh_copy s) (Some e) (sh_cancelled s) (sh_closed s)
    (sh_lost s) (sh_done s) (sh_registered s).
Definition with_flags (cancelled closed lost done registered : bool) (s : shell) : shell :=
  MkShell (sh_point s) (sh_defers s) (sh_worker s) (sh_watcher s) (sh_signals s) (sh_windows s) (sh_source s)
    (sh_sent s) (sh_printed s) (sh_shown s) (sh_exit s) (sh_copy s) (sh_ctx s) cancelled closed lost done
    registered.

Definition ctx_done (s : shell) : bool := match sh_ctx s with Some _ => true | None => false end.

(** [cancelInput()], [sess.Close()], [closeDone()], [inbound.Signals(...)] *)
Definition cancel_input (s : shell) : shell :=
  with_flags true (sh_closed s) (sh_lost s) (sh_done s) (sh_registered s) s.
Definition close_session (s : shell) : shell :=
  with_flags (sh_cancelled s) true (sh_lost s) (sh_done s) (sh_registered s) s.
Definition close_done_channel (s : shell) : shell :=
  with_flags (sh_cancelled s) (sh_closed s) (sh_lost s) true (sh_registered s) s.
Definition register_signals (b : bool) (s : shell) : shell :=
  with_flags (sh_cancelled s) (sh_closed s) (sh_lost s) (sh_done s) b s.
Definition lose_session (s : shell) : shell :=
  with_flags (sh_cancelled s) true true (sh_done s) (sh_registered s) s.

Definition defer (calls : list deferred) (s : shell) : shell := with_defers (calls ++ sh_defers s) s.

(** ** The goroutine of [ProxyShell] *)

(** What [Wait] may return: it returns once the copying is over and the program
    has ended or the channel is closed. *)
Definition wait_results (calls : shell_calls) (s : shell) : list (option wait_error) :=
  match sh_copy s with
  | CopyReads | CopyWrites _ => []
  | _ =>
    match sh_exit s with
    | Some (Some w) => [Some w]
    | Some None => [match sh_copy s with CopyFailed e => Some (OtherError e) | _ => None end]
    | None => if sh_closed s then [Some (OtherError (sc_missing calls))] else []
    end
  end.

(** What [ProxyShell] makes of it *)
Definition shell_outcome (w : option wait_error) (ctx : option error) : result unit :=
  match w with
  | None => Ok tt
  | Some (ExitError status) => Err (Msg ("downstream exited with status " +:+ Itoa status))
  | Some (OtherError e) => Err (match ctx with Some c => c | None => e end)
  end.

Definition start_relay {A} (r : relay A) : relay A := MkRelay Selects (rl_queue r) (rl_open r) (rl_passed r).

(** [defer func() { cancelInput(); _ = sess.Close(); <-inputDone }()] *)
Definition join_input : list deferred := [CancelInput; CloseSession; AwaitInput].

Definition perform_deferred (d : deferred) (s : shell) : list shell :=
  match d with
  | CloseSession => [close_session s]
  | CancelInput => [cancel_input s]
  | ResetSignals => [register_signals false s]
  | AwaitInput => match sh_worker s with InputDone => [s] | _ => [] end
  end.

Definition main_moves (calls : shell_calls) (s : shell) : list shell :=
  match sh_point s with
  | AtNewSession =>
    match sc_NewSession calls with
    | Err e => [at_point (Leaving (Err (Wrap "create downstream session" e))) s]
    | Ok _ => [at_point AtPty (defer [CloseSession] s)]
    end
  | AtPty =>
    match sc_Pty calls with
    | None => [at_point (Leaving (Err (Msg "inbound PTY is required"))) s]
    | Some p => [at_point (AtRequestPty p) s]
    end
  | AtRequestPty p =>
    match sc_RequestPty calls (Term p) (Height (Pty_Window p)) (Width (Pty_Window p)) modes with
    | Err e => [at_point (Leaving (Err (Wrap "request downstream PTY" e))) s]
    | Ok _ => [at_point AtStdin (defer [CancelInput] s)]
    end
  | AtStdin =>
    if sc_ReadContext calls then
      match sc_StdinPipe calls with
      | Err e => [at_point (Leaving (Err e)) s]
      | Ok _ => [at_point AtShell (with_worker Reading (defer join_input s))]
      end
    else [at_point AtShell s]
  | AtShell =>
    match sc_Shell calls with
    | Err e => [at_point (Leaving (Err (Wrap "start downstream shell" e))) s]
    | Ok _ => [at_point AtSignals (if sc_ReadContext calls then s else with_worker Copying s)]
    end
  | AtSignals =>
    [at_point AtWait (with_watcher Watching (with_signals (start_relay (sh_signals s))
       (with_windows (start_relay (sh_windows s)) (defer [ResetSignals] (register_signals true s)))))]
  | AtWait => (λ w, at_point (AtCloseDone w) s) <$> wait_results calls s
  | AtCloseDone w => [at_point (AtOutcome w) (close_done_channel s)]
  | AtOutcome w => [at_point (Leaving (shell_outcome w (sh_ctx s))) s]
  | Leaving r =>
    match sh_defers s with
    | [] => [at_point (Returned r) s]
    | d :: more => with_defers more <$> perform_deferred d s
    end
  | Returned _ => []
  end.

(** ** The goroutines it starts *)

(** [ReadContext] returns what was typed, or that the context is done; a write on
    a closed session fails. *)
Definition worker_moves (s : shell) : list shell :=
  match sh_worker s with
  | Reading =>
    (if sh_cancelled s || ctx_done s then [with_worker InputDone s] else [])
    ++ match sh_source s with
       | (data, err) :: more =>
         let s := with_input more (sh_sent s) s in
         [if negb (data =s "") then with_worker (Writing data err) s
          else match err with Some _ => with_worker InputDone s | None => s end]
       | [] => []
       end
  | Writing _ _ => if sh_closed s then [with_worker InputDone s] else []
  | _ => []
  end.

(** [stdin.Write] has written it all. *)
Definition input_written (data : string) (err : option error) (s : shell) : shell :=
  with_worker (match err with Some _ => InputDone | None => Reading end)
    (with_input (sh_source s) (sh_sent s +:+ data) s).

Definition watcher_moves (s : shell) : list shell :=
  match sh_watcher s with
  | Watching =>
    (if ctx_done s then [with_watcher Closing s] else [])
    ++ (if sh_done s then [with_watcher WatcherDone s] else [])
  | Closing => [with_watcher WatcherDone (close_session s)]
  | _ => []
  end.

(** The [select] over the channel, [done] and the context *)
Definition relay_moves {A} (stop : bool) (r : relay A) : list (relay A) :=
  match rl_state r with
  | Selects =>
    match rl_queue r with
    | a :: more => [MkRelay (Sends a) more (rl_open r) (rl_passed r)]
    | [] => if rl_open r then [] else [MkRelay RelayDone [] false (rl_passed r)]
    end
    ++ (if stop then [MkRelay RelayDone (rl_queue r) (rl_open r) (rl_passed r)] else [])
  | Sends a => [MkRelay Selects (rl_queue r) (rl_open r) (rl_passed r ++ [a])]
  | _ => []
  end.

(** The copying ends with the output of a program that has ended, or with the
    channel. *)
Definition copy_moves (s : shell) : list shell :=
  match sh_copy s with
  | CopyReads =>
    if sh_closed s || match sh_exit s with Some _ => sh_shown s =s sh_printed s | None => false end
    then [with_remote (sh_printed s) (sh_shown s) (sh_exit s) CopyEnded s]
    else []
  | _ => []
  end.

Definition stops (s : shell) : bool := sh_done s || ctx_done s.

Definition own_moves (calls : shell_calls) (s : shell) : list shell :=
  main_moves calls s ++ worker_moves s ++ watcher_moves s ++ copy_moves s
  ++ ((λ r, with_signals r s) <$> relay_moves (stops s) (sh_signals s))
  ++ ((λ r, with_windows r s) <$> relay_moves (stops s) (sh_windows s)).

Definition own (calls : shell_calls) (s s' : shell) : Prop := s' ∈ own_moves calls s.

(** ** The rest of the world *)

Definition arrived {A} (a : A) (r : relay A) : relay A :=
  MkRelay (rl_state r) (rl_queue r ++ [a]) (rl_open r) (rl_passed r).
Definition no_more {A} (r : relay A) : relay A := MkRelay (rl_state r) (rl_queue r) false (rl_passed r).

(** The shell runs on the target. *)
Definition shell_runs (s : shell) : bool :=
  match sh_point s with
  | AtNewSession | AtPty | AtRequestPty _ | AtStdin | AtShell => false
  | Leaving _ | Returned _ => match sh_watcher s with NoWatcher => false | _ => true end
  | _ => true
  end.

Inductive world : shell → shell → Prop :=
  | world_ctx s e : sh_ctx s = None → world s (with_ctx e s)
  (* the connection is lost, or closed by the keep-alive loop *)
  | world_lost s : world s (lose_session s)
  | world_prints s text :
      shell_runs s = true → sh_exit s = None →
      world s (with_remote (sh_printed s +:+ text) (sh_shown s) None (sh_copy s) s)
  | world_exits s w :
      shell_runs s = true → sh_exit s = None →
      world s (with_remote (sh_printed s) (sh_shown s) (Some w) (sh_copy s) s)
  | world_reads s text rest :
      sh_printed s = sh_shown s +:+ text +:+ rest → sh_copy s = CopyReads →
      world s (with_remote (sh_printed s) (sh_shown s) (sh_exit s) (CopyWrites text) s)
  | world_shows s text :
      sh_copy s = CopyWrites text →
      world s (with_remote (sh_printed s) (sh_shown s +:+ text) (sh_exit s) CopyReads s)
  | world_copy_fails s e :
      ((∃ text, sh_copy s = CopyWrites text) ∨ sh_worker s = Copying ∧ sh_copy s = CopyReads) →
      world s (with_remote (sh_printed s) (sh_shown s) (sh_exit s) (CopyFailed e) s)
  | world_takes s data err : sh_worker s = Writing data err → world s (input_written data err s)
  | world_refuses s data err : sh_worker s = Writing data err → world s (with_worker InputDone s)
  | world_copies s data err more :
      sh_worker s = Copying → sh_source s = (data, err) :: more →
      world s (with_input more (sh_sent s +:+ data) s)
  | world_signal s sig :
      sh_registered s = true → world s (with_signals (arrived sig (sh_signals s)) s)
  | world_window s w : rl_open (sh_windows s) = true → world s (with_windows (arrived w (sh_windows s)) s)
  | world_no_windows s : world s (with_windows (no_more (sh_windows s)) s).

Definition shell_step (calls : shell_calls) (s s' : shell) : Prop := own calls s s' ∨ world s s'.

Definition shell_reachable (calls : shell_calls) (source : list (string * option error)) (windows : list Window) :
    shell → Prop := rtc (shell_step calls) (shell_start source windows).
