(* ===== verification/ProxyShellProps.v ===== *)
(** * What a shell on a target does with the session it is given

    The invariant of [ProxyShell]'s goroutines, and its consequences: what the
    result says of the program on the target, what becomes of the input, and that
    the proxy and its goroutines come to an end. *)

From S2P Require Import Prelude GoStrings StringFacts Effects ProxyShell.

(** ** What should hold *)

(** The first call before the shell that fails *)
Definition setup_error (calls : shell_calls) : option error :=
  match sc_NewSession calls with
  | Err e => Some (Wrap "create downstream session" e)
  | Ok _ =>
    match sc_Pty calls with
    | None => Some (Msg "inbound PTY is required")
    | Some p =>
      match sc_RequestPty calls (Term p) (Height (Pty_Window p)) (Width (Pty_Window p)) modes with
      | Err e => Some (Wrap "request downstream PTY" e)
      | Ok _ =>
        match (if sc_ReadContext calls then sc_StdinPipe calls else Ok tt), sc_Shell calls with
        | Err e, _ => Some e
        | Ok _, Err e => Some (Wrap "start downstream shell" e)
        | Ok _, Ok _ => None
        end
      end
    end
  end.

(** The calls deferred when the shell runs *)
Definition full_stack (calls : shell_calls) : list deferred :=
  [ResetSignals] ++ (if sc_ReadContext calls then join_input else []) ++ [CancelInput; CloseSession].

Definition unstarted (s : shell) : Prop :=
  sh_watcher s = NoWatcher ∧ rl_state (sh_signals s) = NoRelay ∧ rl_state (sh_windows s) = NoRelay ∧
  sh_done s = false.
Definition started (s : shell) : Prop :=
  sh_watcher s ≠ NoWatcher ∧ rl_state (sh_signals s) ≠ NoRelay ∧ rl_state (sh_windows s) ≠ NoRelay.

(** The output reached the client, or could not because the session was over. *)
Definition delivered (s : shell) : Prop :=
  sh_shown s = sh_printed s ∧ sh_exit s ≠ None ∨ sh_ctx s ≠ None ∨ sh_lost s = true.

(** What [Wait] returned *)
Definition waited (calls : shell_calls) (s : shell) (w : option wait_error) : Prop :=
  match w with
  | None => sh_exit s = Some None ∧ sh_copy s = CopyEnded ∧ delivered s
  | Some (ExitError n) => sh_exit s = Some (Some (ExitError n))
  | Some (OtherError e) =>
    sh_exit s = Some (Some (OtherError e)) ∨ sh_copy s = CopyFailed e ∨
    e = sc_missing calls ∧ (sh_ctx s ≠ None ∨ sh_lost s = true)
  end.

(** What [ProxyShell] returned once the shell ran *)
Definition explained (calls : shell_calls) (s : shell) (r : result unit) : Prop :=
  ∃ w, waited calls s w ∧
    (r = shell_outcome w None ∧
       (∀ e, w = Some (OtherError e) →
          sh_exit s = Some (Some (OtherError e)) ∨ sh_copy s = CopyFailed e ∨ e = sc_missing calls ∧ sh_lost s = true) ∨
     ∃ c, sh_ctx s = Some c ∧ r = shell_outcome w (Some c)).

Definition worker_runs (w : input_worker) : Prop := w ≠ NotStarted ∧ w ≠ Copying.
Definition worker_busy (w : input_worker) : Prop := w = Reading ∨ ∃ data err, w = Writing data err.

Definition input_ok (calls : shell_calls) (w : input_worker) : Prop :=
  if sc_ReadContext calls then worker_runs w else w = Copying.

(** The deferred calls that are left *)
Record leaving_ok (calls : shell_calls) (s : shell) : Prop := {
  lo_stack : ∃ run, full_stack calls = run ++ sh_defers s;
  lo_awaited : AwaitInput ∈ sh_defers s → worker_runs (sh_worker s);
  lo_busy : worker_busy (sh_worker s) → AwaitInput ∈ sh_defers s;
  lo_cancelled : ∀ more, sh_defers s = AwaitInput :: more ∨ sh_defers s = CloseSession :: AwaitInput :: more →
    sh_cancelled s = true;
  lo_closing : ∀ more, sh_defers s = AwaitInput :: more → sh_closed s = true;
  lo_closed : CloseSession ∉ sh_defers s → sh_closed s = true ∨ is_ok (sc_NewSession calls) = false;
}.

Definition result_ok (calls : shell_calls) (s : shell) (r : result unit) : Prop :=
  unstarted s ∧ (∃ e, setup_error calls = Some e ∧ r = Err e) ∨
  started s ∧ sh_done s = true ∧ setup_error calls = None ∧ explained calls s r.

(** The setup calls that have been passed *)
Definition passed (calls : shell_calls) (p : main_point) : Prop :=
  match p with
  | AtNewSession | Leaving _ | Returned _ => True
  | AtPty => is_ok (sc_NewSession calls) = true
  | AtRequestPty p => is_ok (sc_NewSession calls) = true ∧ sc_Pty calls = Some p
  | AtStdin => is_ok (sc_NewSession calls) = true ∧
    ∃ p, sc_Pty calls = Some p ∧
      is_ok (sc_RequestPty calls (Term p) (Height (Pty_Window p)) (Width (Pty_Window p)) modes) = true
  | AtShell => is_ok (sc_NewSession calls) = true ∧
    (∃ p, sc_Pty calls = Some p ∧
      is_ok (sc_RequestPty calls (Term p) (Height (Pty_Window p)) (Width (Pty_Window p)) modes) = true) ∧
    (sc_ReadContext calls = true → is_ok (sc_StdinPipe calls) = true)
  | _ => setup_error calls = None
  end.

(** Where [ProxyShell] is *)
Definition point_ok (calls : shell_calls) (s : shell) : Prop :=
  match sh_point s with
  | AtNewSession => sh_defers s = [] ∧ sh_worker s = NotStarted ∧ unstarted s
  | AtPty | AtRequestPty _ => sh_defers s = [CloseSession] ∧ sh_worker s = NotStarted ∧ unstarted s
  | AtStdin => sh_defers s = [CancelInput; CloseSession] ∧ sh_worker s = NotStarted ∧ unstarted s
  | AtShell => sh_defers s = drop 1 (full_stack calls) ∧
    (if sc_ReadContext calls then worker_runs (sh_worker s) else sh_worker s = NotStarted) ∧ unstarted s
  | AtSignals => sh_defers s = drop 1 (full_stack calls) ∧ input_ok calls (sh_worker s) ∧ unstarted s
  | AtWait => sh_defers s = full_stack calls ∧ input_ok calls (sh_worker s) ∧ started s ∧ sh_done s = false
  | AtCloseDone w =>
    sh_defers s = full_stack calls ∧ input_ok calls (sh_worker s) ∧ started s ∧ sh_done s = false ∧ waited calls s w
  | AtOutcome w =>
    sh_defers s = full_stack calls ∧ input_ok calls (sh_worker s) ∧ started s ∧ sh_done s = true ∧ waited calls s w
  | Leaving r => leaving_ok calls s ∧ result_ok calls s r
  | Returned r => leaving_ok calls s ∧ sh_defers s = [] ∧ result_ok calls s r
  end.

Definition leaving (p : main_point) : Prop := match p with Leaving _ | Returned _ => True | _ => False end.

(** Who closes the channel, and the copying of the output *)
Record channel_ok (s : shell) : Prop := {
  co_watcher : sh_watcher s = Closing → sh_ctx s ≠ None;
  co_watched : sh_watcher s = WatcherDone → sh_closed s = true ∨ sh_done s = true;
  co_closed : sh_closed s = true → sh_ctx s ≠ None ∨ sh_lost s = true ∨ leaving (sh_point s);
  co_ended : sh_copy s = CopyEnded → delivered s ∨ leaving (sh_point s);
  co_writes : ∀ text, sh_copy s = CopyWrites text → ∃ rest, sh_printed s = sh_shown s +:+ text +:+ rest;
  co_shown : ∃ rest, sh_printed s = sh_shown s +:+ rest;
}.

(** ** What only grows *)

Record later (s s' : shell) : Prop := {
  lt_ctx : ∀ c, sh_ctx s = Some c → sh_ctx s' = Some c;
  lt_lost : sh_lost s = true → sh_lost s' = true;
  lt_closed : sh_closed s = true → sh_closed s' = true;
  lt_cancelled : sh_cancelled s = true → sh_cancelled s' = true;
  lt_exit : ∀ w, sh_exit s = Some w → sh_exit s' = Some w;
  lt_ended : sh_copy s = CopyEnded → sh_copy s' = CopyEnded;
  lt_failed : ∀ e, sh_copy s = CopyFailed e → sh_copy s' = CopyFailed e;
  lt_delivered : delivered s → delivered s';
}.

Lemma later_ctx s s' : later s s' → sh_ctx s ≠ None → sh_ctx s' ≠ None.
Proof. intros Hl Hc. destruct (sh_ctx s) as [c|] eqn:E; [|done]. by rewrite (lt_ctx _ _ Hl c E). Qed.

Lemma waited_later calls s s' w : later s s' → waited calls s w → waited calls s' w.
Proof.
  intros Hl. pose proof (later_ctx _ _ Hl). destruct Hl. destruct w as [[n|e]|]; cbn; [by auto| |by intuition auto].
  intros [Hw|[Hw|[-> [Hw|Hw]]]]; auto 10.
Qed.

Lemma explained_later calls s s' r : later s s' → explained calls s r → explained calls s' r.
Proof.
  intros Hl (w & Hw & Hr). exists w. split; [by apply waited_later with s|].
  destruct Hr as [[Hr Ha]|(c & Hc & Hr)].
  { left. split; [done|]. intros e E. destruct Hl. destruct (Ha e E) as [?|[?|[? ?]]]; auto. }
  right. exists c. split; [by apply lt_ctx with s|done].
Qed.

(** A step of a goroutine other than [ProxyShell]'s own *)
Record frame (s s' : shell) : Prop := {
  fr_point : sh_point s' = sh_point s;
  fr_defers : sh_defers s' = sh_defers s;
  fr_worker : sh_worker s' = sh_worker s ∨ worker_busy (sh_worker s) ∧ worker_runs (sh_worker s');
  fr_watcher : sh_watcher s' = NoWatcher ↔ sh_watcher s = NoWatcher;
  fr_signals : rl_state (sh_signals s') = NoRelay ↔ rl_state (sh_signals s) = NoRelay;
  fr_windows : rl_state (sh_windows s') = NoRelay ↔ rl_state (sh_windows s) = NoRelay;
  fr_done : sh_done s' = sh_done s;
  fr_later : later s s';
}.

Lemma busy_runs w : worker_busy w → worker_runs w.
Proof. intros [->|(data & err & ->)]; done. Qed.

Lemma frame_worker s s' : frame s s' → worker_runs (sh_worker s) → worker_runs (sh_worker s').
Proof. intros Hf. by destruct (fr_worker _ _ Hf) as [->|[_ Hr]]. Qed.

Lemma frame_not_runs s s' : frame s s' → ¬ worker_busy (sh_worker s) → sh_worker s' = sh_worker s.
Proof. intros Hf Hn. by destruct (fr_worker _ _ Hf) as [|[Hb _]]. Qed.

Lemma frame_input calls s s' : frame s s' → input_ok calls (sh_worker s) → input_ok calls (sh_worker s').
Proof.
  unfold input_ok. intros Hf. destruct (sc_ReadContext calls); [by apply frame_worker|].
  intros E. rewrite (frame_not_runs _ _ Hf); [done|]. rewrite E. by intros [|(? & ? & ?)].
Qed.

Lemma frame_unstarted s s' : frame s s' → unstarted s → unstarted s'.
Proof. intros Hf (H1 & H2 & H3 & H4). destruct Hf. split_and!; [tauto..|congruence]. Qed.

Lemma frame_started s s' : frame s s' → started s → started s'.
Proof. intros Hf (H1 & H2 & H3). destruct Hf. split_and!; tauto. Qed.

Lemma frame_idle s s' : frame s s' → sh_worker s = NotStarted → sh_worker s' = NotStarted.
Proof. intros Hf E. rewrite (frame_not_runs _ _ Hf); [done|]. rewrite E. by intros [|(? & ? & ?)]. Qed.

Lemma frame_leaving calls s s' : frame s s' → leaving_ok calls s → leaving_ok calls s'.
Proof.
  intros Hf []. pose proof (frame_worker _ _ Hf). destruct Hf as [_ Hd Hw _ _ _ _ []].
  split; rewrite ?Hd; auto.
  - intros Hb. apply lo_busy0. destruct Hw as [E|[Hb' _]]; [by rewrite <- E|done].
  - intros more Hm. apply lt_cancelled0. by apply lo_cancelled0 with more.
  - intros more Hm. apply lt_closed0. by apply lo_closing0 with more.
  - intros Hm. destruct (lo_closed0 Hm); auto.
Qed.

Lemma frame_result calls s s' r : frame s s' → result_ok calls s r → result_ok calls s' r.
Proof.
  intros Hf [[Hu He]|(Hs & Hd & He & Hx)]; [left|right].
  - split; [by apply frame_unstarted with s|done].
  - split_and!; [by apply frame_started with s|by rewrite (fr_done _ _ Hf)|done|].
    apply explained_later with s; [apply (fr_later _ _ Hf)|done].
Qed.

Create HintDb frames.
#[local] Hint Resolve frame_worker frame_input frame_unstarted frame_started frame_idle frame_leaving frame_result
  fr_later waited_later : frames.

Lemma frame_point calls s s' : frame s s' → point_ok calls s → point_ok calls s'.
Proof.
  intros Hf. unfold point_ok. rewrite (fr_point _ _ Hf), (fr_defers _ _ Hf), (fr_done _ _ Hf).
  destruct (sh_point s); try destruct (sc_ReadContext calls); intuition eauto with frames.
Qed.

(** ** The steps *)

(** The steps of the other goroutines *)
Definition other_moves (s : shell) : list shell :=
  worker_moves s ++ watcher_moves s ++ copy_moves s
  ++ ((λ r, with_signals r s) <$> relay_moves (stops s) (sh_signals s))
  ++ ((λ r, with_windows r s) <$> relay_moves (stops s) (sh_windows s)).

Lemma own_cases calls s s' : own calls s s' ↔ s' ∈ main_moves calls s ∨ s' ∈ other_moves s.
Proof. unfold own, own_moves, other_moves. by rewrite elem_of_app. Qed.

Lemma shell_ind calls (P : shell → shell → Prop) s s' : shell_step calls s s' →
  (s' ∈ main_moves calls s → P s s') → (s' ∈ other_moves s ∨ world s s' → P s s') → P s s'.
Proof. intros [Ho|Hw] Hm Hf; [apply own_cases in Ho as [Ho|Ho]|]; auto. Qed.

(** A step of another goroutine, by its case *)
Ltac move_cases H :=
  repeat match type of H with
  | _ ∈ _ ++ _ => apply elem_of_app in H as [H|H]
  | _ ∈ _ <$> _ => apply list_elem_of_fmap in H as (? & -> & H)
  | _ ∈ (if ?b then _ else _) => destruct b eqn:?
  | _ ∈ (match ?x with _ => _ end) => destruct x eqn:?
  | _ = (if ?b then _ else _) => destruct b eqn:?
  | _ = (match ?x with _ => _ end) => destruct x eqn:?
  | _ ∈ [_] => apply list_elem_of_singleton in H
  | _ ∈ [] => by apply not_elem_of_nil in H
  | _ = _ => subst
  end.

Lemma relay_state_moves {A} stop (r r' : relay A) : r' ∈ relay_moves stop r →
  (rl_state r' = NoRelay ↔ rl_state r = NoRelay).
Proof. unfold relay_moves. intros H. move_cases H; cbn; naive_solver. Qed.

Lemma shown_all s : channel_ok s → sh_shown s = sh_printed s → sh_copy s = CopyWrites "" ∨ ∀ t, sh_copy s ≠ CopyWrites t.
Proof.
  intros Hc E. destruct (sh_copy s) as [|t| |] eqn:Et; try (by right). left.
  destruct (co_writes _ Hc t Et) as [rest Hr]. rewrite <- E in Hr. f_equal. rewrite <- (append_nil_r (sh_shown s)) in Hr at 1.
  apply append_inv_head in Hr. by destruct t.
Qed.

Lemma delivered_same s s' : sh_shown s' = sh_shown s → sh_printed s' = sh_printed s → sh_exit s' = sh_exit s →
  sh_ctx s' = sh_ctx s → sh_lost s' = sh_lost s → delivered s → delivered s'.
Proof. unfold delivered. by intros -> -> -> -> ->. Qed.

Lemma later_same s s' : sh_shown s' = sh_shown s → sh_printed s' = sh_printed s → sh_exit s' = sh_exit s →
  sh_ctx s' = sh_ctx s → sh_lost s' = sh_lost s → sh_copy s' = sh_copy s →
  (sh_closed s = true → sh_closed s' = true) → (sh_cancelled s = true → sh_cancelled s' = true) → later s s'.
Proof. intros. split; try congruence; [by auto..|]. by apply delivered_same. Qed.

Lemma main_later calls s s' : s' ∈ main_moves calls s → later s s'.
Proof.
  unfold main_moves, perform_deferred. intros H.
  move_cases H; try (by apply later_same); (destruct (sc_ReadContext calls); by apply later_same).
Qed.

Lemma frame_same s s' : sh_point s' = sh_point s → sh_defers s' = sh_defers s → sh_worker s' = sh_worker s →
  sh_watcher s' = sh_watcher s → sh_signals s' = sh_signals s → sh_windows s' = sh_windows s →
  sh_done s' = sh_done s → later s s' → frame s s'.
Proof. intros ??? E0 E1 E2 E3 ?. split; rewrite ?E0, ?E1, ?E2, ?E3; first [done|by left]. Qed.

Lemma frame_worker_move s s' : sh_point s' = sh_point s → sh_defers s' = sh_defers s →
  worker_busy (sh_worker s) → worker_runs (sh_worker s') → sh_watcher s' = sh_watcher s →
  sh_signals s' = sh_signals s → sh_windows s' = sh_windows s → sh_done s' = sh_done s → later s s' → frame s s'.
Proof. intros ????. intros E1 E2 E3 E4 ?. split; rewrite ?E1, ?E2, ?E3, ?E4; auto. Qed.

Lemma other_frame s s' : s' ∈ other_moves s → frame s s'.
Proof.
  unfold other_moves. rewrite !elem_of_app. intros [H|[H|[H|[H|H]]]].
  - unfold worker_moves in H. move_cases H;
      first [apply frame_same; first [done|by apply later_same]
            |apply frame_worker_move; unfold worker_busy, worker_runs; first [done|by apply later_same|cbn; naive_solver]].
  - unfold watcher_moves in H. move_cases H; (split; try done; [by left|split; cbn; congruence]).
  - unfold copy_moves in H. move_cases H. apply frame_same; try done. split; cbn; try done; congruence.
  - move_cases H. pose proof (relay_state_moves _ _ _ H). split; try done; by left.
  - move_cases H. pose proof (relay_state_moves _ _ _ H). split; try done; by left.
Qed.

Lemma world_frame s s' : channel_ok s → world s s' → frame s s'.
Proof.
  intros Hc Hw. destruct Hw.
  - apply frame_same; try done. split; cbn; try done; [congruence|]. intros [?|[?|?]]; [by left|by right; left|by right; right].
  - apply frame_same; try done. split; cbn; try done. intros [?|[?|?]]; [by left|by right; left|by right; right].
  - apply frame_same; try done. split; cbn; try done; [congruence|]. intros [[? ?]|[?|?]]; [done|by right; left|by right; right].
  - apply frame_same; try done. split; cbn; try done; [congruence|]. intros [[? ?]|[?|?]]; [done|by right; left|by right; right].
  - apply frame_same; try done. split; cbn; try done; congruence.
  - apply frame_same; try done. split; cbn; try congruence; try done.
    intros [[Hs He]|[?|?]]; [left|by right; left|by right; right]. split; [|done]. cbn.
    destruct (shown_all _ Hc Hs) as [E|E]; [|by destruct (E text)]. rewrite E in H. injection H as <-. by rewrite append_nil_r.
  - apply frame_same; try done. split; cbn; try done; destruct H as [[? ?]|[? ?]]; congruence.
  - apply frame_worker_move; try done; [by right; eauto|by destruct err].
  - apply frame_worker_move; try done; [by right; eauto].
  - apply frame_same; try done.
  - split; try done; by left.
  - split; try done; by left.
  - split; try done; by left.
Qed.

(** ** [ProxyShell]'s own steps *)

Definition next_ok (d : deferred) (more : list deferred) : Prop :=
  match more with
  | AwaitInput :: _ => d = CloseSession
  | CloseSession :: AwaitInput :: _ => d = CancelInput
  | _ => True
  end.

Lemma full_stack_next calls run d more : full_stack calls = run ++ d :: more → next_ok d more.
Proof.
  unfold full_stack. destruct (sc_ReadContext calls); cbn; intros Hrun;
    repeat match goal with
    | E : _ = ?r ++ _ :: _ |- _ => destruct r; cbn in E; simplify_eq; cbn; try done
    end.
Qed.

(** The stack before the return: no call of it has run. *)
Lemma leaving_from calls s run : full_stack calls = run ++ sh_defers s →
  (AwaitInput ∈ sh_defers s → worker_runs (sh_worker s)) → (worker_busy (sh_worker s) → AwaitInput ∈ sh_defers s) →
  (∀ more, sh_defers s ≠ AwaitInput :: more ∧ sh_defers s ≠ CloseSession :: AwaitInput :: more) →
  (CloseSession ∈ sh_defers s ∨ is_ok (sc_NewSession calls) = false) → leaving_ok calls s.
Proof.
  intros Hrun Ha Hb Hhead Hc. split; [by exists run|done|done| | |].
  - intros more [E|E]; by destruct (Hhead more).
  - intros more E. by destruct (Hhead more).
  - intros Hn. right. by destruct Hc.
Qed.

Lemma leaving_step calls s d more s1 : leaving_ok calls s → sh_defers s = d :: more → s1 ∈ perform_deferred d s →
  leaving_ok calls (with_defers more s1).
Proof.
  intros [[run Hrun] Ha Hb Hc Hl Hx] Hd H1. rewrite Hd in *. pose proof (full_stack_next _ _ _ _ Hrun) as Hnext.
  assert (sh_worker s1 = sh_worker s ∧ (d = AwaitInput → sh_worker s = InputDone)) as [Hw Hdone].
  { unfold perform_deferred in H1. destruct d; move_cases H1; done. }
  assert ((sh_closed s = true ∨ d = CloseSession → sh_closed s1 = true) ∧
          (sh_cancelled s = true ∨ d = CancelInput → sh_cancelled s1 = true)) as [Hclosed Hcancelled].
  { unfold perform_deferred in H1. destruct d; move_cases H1; cbn; split; intros [?|?]; done. }
  split; cbn; rewrite ?Hw.
  - exists (run ++ [d]). by rewrite <- app_assoc.
  - intros Hin. apply Ha. by right.
  - intros Hbusy. specialize (Hb Hbusy). apply elem_of_cons in Hb as [<-|Hb]; [|done].
    destruct Hbusy as [E|(? & ? & E)]; rewrite Hdone in E by done; discriminate.
  - intros more' [-> | ->]; cbn in Hnext; subst d; apply Hcancelled; [left|by right]. apply (Hc more'). by right.
  - intros more' ->. cbn in Hnext. subst d. apply Hclosed. by right.
  - intros Hn. destruct (decide (d = CloseSession)) as [Ed|Ed]; [left; auto|].
    destruct Hx as [Hx|Hx]; [|by auto|by right]. rewrite not_elem_of_cons. split; congruence.
Qed.

Lemma waits_nothing w : worker_busy w → w ≠ NotStarted ∧ w ≠ Copying.
Proof. by intros [->|(? & ? & ->)]. Qed.

(** A call before the shell has failed. *)
Lemma leave_setup calls s run e : full_stack calls = run ++ sh_defers s →
  sh_defers s ∈ [[]; [CloseSession]; [CancelInput; CloseSession]] → sh_worker s = NotStarted → unstarted s →
  (sh_defers s = [] → is_ok (sc_NewSession calls) = false) → setup_error calls = Some e →
  point_ok calls (at_point (Leaving (Err e)) s).
Proof.
  intros Hrun Hd Hw Hu Hn He. split; [|left; split; [done|by exists e]].
  rewrite !elem_of_cons, elem_of_nil in Hd.
  apply (leaving_from _ (at_point (Leaving (Err e)) s) run); cbn; [done|..]; rewrite ?Hw.
  - intros Hin. exfalso. destruct Hd as [E|[E|[E|[]]]]; rewrite E in Hin;
      rewrite ?elem_of_cons, elem_of_nil in Hin; intuition discriminate.
  - by intros [?|(? & ? & ?)].
  - intros more. destruct Hd as [E|[E|[E|[]]]]; rewrite E; done.
  - destruct Hd as [E|[E|[E|[]]]]; rewrite E; [right; auto|left; by repeat constructor..].
Qed.

(** The shell could not be started, or has ended: the worker may be at work. *)
Lemma leave_shell calls s r run : full_stack calls = run ++ sh_defers s → sh_defers s ∈ [drop 1 (full_stack calls); full_stack calls] →
  (if sc_ReadContext calls then worker_runs (sh_worker s) else sh_worker s = NotStarted ∨ sh_worker s = Copying) →
  result_ok calls (at_point (Leaving r) s) r → point_ok calls (at_point (Leaving r) s).
Proof.
  intros Hrun Hd Hw Hr. split; [|done]. rewrite !elem_of_cons, elem_of_nil in Hd.
  apply (leaving_from _ (at_point (Leaving r) s) run); cbn; [done|..]; unfold full_stack in Hd;
    destruct (sc_ReadContext calls); cbn in Hd; destruct Hd as [E|[E|[]]]; rewrite E.
  all: try done.
  all: try (intros Hin; rewrite ?elem_of_cons, elem_of_nil in Hin; intuition discriminate).
  all: try (intros Hb; apply waits_nothing in Hb; tauto).
  all: try intros _; try left; apply (bool_decide_unpack _); vm_compute; exact I.
Qed.

Lemma full_stack_end calls : ∃ run, full_stack calls = run ++ [CancelInput; CloseSession].
Proof. unfold full_stack. exists ([ResetSignals] ++ if sc_ReadContext calls then join_input else []). by rewrite <- app_assoc. Qed.

Lemma full_stack_tail calls l : l ∈ [[]; [CloseSession]; [CancelInput; CloseSession]] → ∃ run, full_stack calls = run ++ l.
Proof.
  destruct (full_stack_end calls) as [run ->]. rewrite !elem_of_cons, elem_of_nil. intros [->|[->|[->|[]]]].
  - eexists. by rewrite app_nil_r.
  - exists (run ++ [CancelInput]). by rewrite <- app_assoc.
  - by exists run.
Qed.

Lemma is_ok_err {A} (r : result A) e : is_ok r = true → r = Err e → False.
Proof. by intros ? ->. Qed.

(** The steps before the shell is asked for *)
Lemma setup_point_ok calls s s' : s' ∈ main_moves calls s → point_ok calls s → passed calls (sh_point s) →
  match sh_point s with AtNewSession | AtPty | AtRequestPty _ | AtStdin => True | _ => False end →
  point_ok calls s' ∧ passed calls (sh_point s').
Proof.
  intros H Hp Hx Hin. unfold point_ok in Hp. unfold main_moves in H.
  assert (∀ e, sh_defers s ∈ [[]; [CloseSession]; [CancelInput; CloseSession]] → sh_worker s = NotStarted → unstarted s →
    (sh_defers s = [] → is_ok (sc_NewSession calls) = false) → setup_error calls = Some e →
    point_ok calls (at_point (Leaving (Err e)) s) ∧ True) as Hleave.
  { intros e Hd ????. split; [|done]. destruct (full_stack_tail calls _ Hd) as [run Hrun]. by apply leave_setup with run. }
  destruct (sh_point s) eqn:Epoint; try done; cbn in Hx; move_cases H; cbn; unfold setup_error in Hleave.
  - destruct Hp as (Hd & Hw & Hu). split_and!; [by rewrite Hd|done..|by rewrite Heqr].
  - destruct Hp as (Hd & Hw & Hu). rewrite Heqr in Hleave. apply Hleave; [rewrite Hd; by left|done..].
  - split; [done|]. by split.
  - destruct Hp as (Hd & Hw & Hu). destruct (sc_NewSession calls) eqn:E0; [|done]. rewrite Heqo in Hleave.
    apply Hleave; [rewrite Hd; by right; left|done| |by rewrite Hd|done]. done.
  - destruct Hp as (Hd & Hw & Hu). destruct Hx as [Hn Hpty]. cbn in *. split.
    + split_and!; [by rewrite Hd|done..].
    + split; [done|]. exists p. by rewrite Heqr.
  - destruct Hp as (Hd & Hw & Hu). destruct Hx as [Hn Hpty]. destruct (sc_NewSession calls) eqn:E0; [|done].
    rewrite Hpty, Heqr in Hleave. apply Hleave; [rewrite Hd; by right; left|done|done|by rewrite Hd|done].
  - destruct Hp as (Hd & Hw & Hu). destruct Hx as (Hn & p & Hpty & Hreq). cbn in *. split.
    + rewrite Heqb. by split_and!; [rewrite Hd|..].
    + split_and!; [done|by exists p|by rewrite Heqr].
  - destruct Hp as (Hd & Hw & Hu). destruct Hx as (Hn & p & Hpty & Hreq). destruct (sc_NewSession calls) eqn:E0; [|done].
    rewrite Hpty, Heqb in Hleave. destruct (sc_RequestPty calls _ _ _ _); [|done]. rewrite Heqr in Hleave.
    apply Hleave; [rewrite Hd; by right; right; left|done|done|by rewrite Hd|done].
  - destruct Hp as (Hd & Hw & Hu). destruct Hx as (Hn & p & Hpty & Hreq). cbn in *. split.
    + rewrite Heqb. by split_and!; [rewrite Hd|..].
    + split_and!; [done|by exists p|by rewrite Heqb].
Qed.

Lemma full_stack_run calls : full_stack calls = [ResetSignals] ++ drop 1 (full_stack calls).
Proof. reflexivity. Qed.

(** The shell is started. *)
Lemma start_point_ok calls s s' : s' ∈ main_moves calls s → point_ok calls s → passed calls (sh_point s) →
  sh_point s = AtShell ∨ sh_point s = AtSignals → point_ok calls s' ∧ passed calls (sh_point s').
Proof.
  intros H Hp Hx [E|E]; unfold point_ok in Hp; unfold main_moves in H; rewrite E in *; move_cases H.
  - destruct Hp as (Hd & Hw & Hu). destruct Hx as (Hn & (p & Hpty & Hreq) & Hpipe). split.
    + cbn in *. unfold input_ok. destruct (sc_ReadContext calls); by split_and!.
    + cbn in *. unfold setup_error. destruct (sc_NewSession calls); [|done]. rewrite Hpty.
      destruct (sc_RequestPty calls _ _ _ _); [|done]. rewrite Heqr.
      destruct (sc_ReadContext calls); [|done]. specialize (Hpipe eq_refl). by destruct (sc_StdinPipe calls).
  - destruct Hp as (Hd & Hw & Hu). destruct Hx as (Hn & (p & Hpty & Hreq) & Hpipe). split; [|done].
    apply leave_shell with [ResetSignals]; [by rewrite full_stack_run, Hd|rewrite Hd; by left| |].
    + destruct (sc_ReadContext calls); [done|by left].
    + left. split; [done|]. eexists. split; [|done]. unfold setup_error.
      destruct (sc_NewSession calls); [|done]. rewrite Hpty. destruct (sc_RequestPty calls _ _ _ _); [|done]. rewrite Heqr.
      destruct (sc_ReadContext calls); [|done]. specialize (Hpipe eq_refl). by destruct (sc_StdinPipe calls).
  - destruct Hp as (Hd & Hw & _ & _ & _ & Hdone). split; [|done]. cbn. by split_and!; [rewrite Hd|..].
Qed.

Lemma wait_results_ok calls s w : w ∈ wait_results calls s → channel_ok s → ¬ leaving (sh_point s) → waited calls s w.
Proof.
  unfold wait_results. intros H Hc Hn. pose proof (co_ended _ Hc) as He. pose proof (co_closed _ Hc) as Hcl.
  move_cases H; cbn in *; try done.
  - destruct w0; cbn; [done|by left].
  - split_and!; [done..|]. by destruct (He eq_refl).
  - right; right. split; [done|]. destruct (Hcl eq_refl) as [?|[?|?]]; auto; done.
  - destruct w0; cbn; [done|by left].
  - by right; left.
  - right; right. split; [done|]. destruct (Hcl eq_refl) as [?|[?|?]]; auto; done.
Qed.

(** From [Wait] to the return *)
Lemma wait_point_ok calls s s' : s' ∈ main_moves calls s → point_ok calls s → passed calls (sh_point s) → channel_ok s →
  (sh_point s = AtWait ∨ ∃ w, sh_point s = AtCloseDone w ∨ sh_point s = AtOutcome w) →
  point_ok calls s' ∧ passed calls (sh_point s').
Proof.
  intros H Hp Hx Hc [E|(w & [E|E])]; unfold point_ok in Hp; unfold main_moves in H; rewrite E in *; move_cases H.
  - destruct Hp as (Hd & Hw & Hs & Hn). split; [|done]. cbn. split_and!; try done.
    apply waited_later with s; [by apply later_same|]. apply wait_results_ok; [done..|rewrite E; by intros []].
  - destruct Hp as (Hd & Hw & Hs & Hn & Hwait). split; [|done]. cbn. split_and!; try done.
  - destruct Hp as (Hd & Hw & Hs & Hn & Hwait). split; [|done].
    apply leave_shell with []; [by rewrite Hd|rewrite Hd; by right; left| |].
    + unfold input_ok in Hw. destruct (sc_ReadContext calls); [done|by right].
    + right. split_and!; [done..|]. exists w.
      split; [by apply waited_later with s; [apply later_same|]|].
      destruct (sh_ctx s) as [c|] eqn:Ec; [right; by exists c|left]. split; [done|]. intros e ->. cbn in *.
      rewrite Ec in Hwait. destruct Hwait as [?|[?|[? [Hne|?]]]]; [by left|by right; left|by destruct Hne|by right; right].
Qed.

(** What a deferred call leaves as it is *)
Lemma deferred_same d s s1 : s1 ∈ perform_deferred d s → later s s1 ∧ sh_point s1 = sh_point s ∧
  sh_watcher s1 = sh_watcher s ∧ sh_signals s1 = sh_signals s ∧ sh_windows s1 = sh_windows s ∧ sh_done s1 = sh_done s.
Proof. unfold perform_deferred. intros H. destruct d; move_cases H; split_and!; done || by apply later_same. Qed.

Lemma leaving_point_ok calls s s' : s' ∈ main_moves calls s → point_ok calls s → leaving (sh_point s) →
  point_ok calls s' ∧ passed calls (sh_point s').
Proof.
  intros H Hp Hl. unfold point_ok in Hp. unfold main_moves in H. destruct (sh_point s) eqn:E; try done.
  - destruct Hp as [Hlo Hr]. destruct (sh_defers s) as [|d more] eqn:Ed.
    + move_cases H. split; [|done]. split_and!; [|done|done]. destruct Hlo. by split.
    + apply list_elem_of_fmap in H as (s1 & -> & H). pose proof (leaving_step _ _ _ _ _ Hlo Ed H) as Hlo'.
      destruct (deferred_same _ _ _ H) as (Hlater & Epoint & Ew & Es & Ewin & Edone).
      unfold point_ok. assert (sh_point (with_defers more s1) = Leaving r) as -> by (by rewrite <- E).
      split; [split; [done|]|done].
      destruct Hr as [[Hu He]|(Hs & Hd & He & Hx)]; [left|right]; unfold unstarted, started in *; cbn; rewrite ?Ew, ?Es, ?Ewin, ?Edone.
      * done.
      * split_and!; [by destruct Hs as (?&?&?)..|done|done|]. apply explained_later with s; [|done]. destruct Hlater; by split.
  - by apply not_elem_of_nil in H.
Qed.

Lemma main_point_ok calls s s' : s' ∈ main_moves calls s → point_ok calls s → passed calls (sh_point s) → channel_ok s →
  point_ok calls s' ∧ passed calls (sh_point s').
Proof.
  intros H Hp Hx Hc.
  assert (match sh_point s with AtNewSession | AtPty | AtRequestPty _ | AtStdin => True | _ => False end ∨
          (sh_point s = AtShell ∨ sh_point s = AtSignals) ∨
          (sh_point s = AtWait ∨ ∃ w, sh_point s = AtCloseDone w ∨ sh_point s = AtOutcome w) ∨ leaving (sh_point s))
    as [E|[E|[E|E]]] by (destruct (sh_point s); eauto 10; by (right; right; right)).
  - by apply setup_point_ok with s.
  - by apply start_point_ok with s.
  - by apply wait_point_ok with s.
  - by apply leaving_point_ok with s.
Qed.

(** ** Who closes the channel *)

Lemma channel_frame s s' : channel_ok s → (sh_watcher s' = sh_watcher s ∨ sh_watcher s' = Watching) →
  (leaving (sh_point s) → leaving (sh_point s')) → sh_copy s' = sh_copy s → sh_printed s' = sh_printed s →
  sh_shown s' = sh_shown s → (sh_done s = true → sh_done s' = true) → later s s' →
  (sh_closed s' = true → sh_closed s = true ∨ sh_lost s' = true ∨ leaving (sh_point s')) → channel_ok s'.
Proof.
  intros [] Ew Ep Ec E1 E2 Ed Hl Hcl. pose proof (later_ctx _ _ Hl). destruct Hl.
  split; rewrite ?Ec, ?E1, ?E2; auto.
  - intros E. destruct Ew as [Ew|Ew]; rewrite Ew in E; [auto|done].
  - intros E. destruct Ew as [Ew|Ew]; rewrite Ew in E; [|done]. destruct (co_watched0 E); auto.
  - intros E. destruct (Hcl E) as [E'|[E'|E']]; auto. destruct (co_closed0 E') as [?|[?|?]]; auto.
  - intros E. destruct (co_ended0 E); auto.
Qed.

Lemma main_channel calls s s' : s' ∈ main_moves calls s → channel_ok s → channel_ok s'.
Proof.
  intros H Hc. pose proof (main_later _ _ _ H) as Hl. unfold main_moves in H.
  destruct (sh_point s) eqn:E; move_cases H;
    try (apply channel_frame with s; rewrite ?E; cbn; first [done|by left|by right|by auto]).
  - destruct (sc_ReadContext calls); apply channel_frame with s; rewrite ?E; cbn; first [done|by left|by auto].
  - destruct (deferred_same _ _ _ H) as (_ & Ep & Ew & _ & _ & Ed).
    assert (sh_copy x = sh_copy s ∧ sh_printed x = sh_printed s ∧ sh_shown x = sh_shown s) as (E1 & E2 & E3)
      by (unfold perform_deferred in H; destruct d; move_cases H; done).
    apply channel_frame with s; try done; cbn; rewrite ?Ep, ?Ew, ?Ed, ?E; cbn; auto.
Qed.

Lemma worker_channel s s' : s' ∈ worker_moves s → channel_ok s → channel_ok s'.
Proof.
  intros H Hc. assert (frame s s') as Hf by (apply other_frame; unfold other_moves; rewrite !elem_of_app; by left).
  pose proof (fr_later _ _ Hf) as Hl. unfold worker_moves in H.
  move_cases H; apply channel_frame with s; cbn; first [done|by left|by auto].
Qed.

Lemma watcher_channel s s' : s' ∈ watcher_moves s → channel_ok s → channel_ok s'.
Proof.
  intros H []. unfold watcher_moves in H. move_cases H; split; cbn; auto; try done.
  - intros _. unfold ctx_done in *. by destruct (sh_ctx s).
Qed.

Lemma copy_channel s s' : s' ∈ copy_moves s → channel_ok s → channel_ok s'.
Proof.
  intros H []. unfold copy_moves in H. move_cases H. split; cbn; auto; try done. intros _. unfold delivered. cbn.
  apply orb_true_iff in Heqb as [Hcl|Hex].
  - destruct (co_closed0 Hcl) as [?|[?|?]]; auto.
  - destruct (sh_exit s) as [w|] eqn:Ee; [|done]. left. left. by apply String.eqb_eq in Hex.
Qed.

Lemma other_channel s s' : s' ∈ other_moves s → channel_ok s → channel_ok s'.
Proof.
  intros H Hc. pose proof (fr_later _ _ (other_frame _ _ H)) as Hl. unfold other_moves in H. rewrite !elem_of_app in H.
  destruct H as [H|[H|[H|[H|H]]]];
    [by apply worker_channel with s|by apply watcher_channel with s|by apply copy_channel with s|..];
    move_cases H; apply channel_frame with s; cbn; first [done|by left|by auto].
Qed.

Lemma world_channel s s' : world s s' → channel_ok s → channel_ok s'.
Proof.
  intros Hw Hc. pose proof (fr_later _ _ (world_frame _ _ Hc Hw)) as Hl. destruct Hw;
    try (apply channel_frame with s; cbn; first [done|by left|by auto]).
  - split; try apply Hc; cbn.
    + intros E. destruct (co_ended _ Hc E) as [Hd|Hd]; [left; by apply (lt_delivered _ _ Hl)|by right].
    + intros t E. destruct (co_writes _ Hc t E) as [rest ->]. exists (rest +:+ text). by rewrite !append_assoc.
    + destruct (co_shown _ Hc) as [rest ->]. exists (rest +:+ text). by rewrite !append_assoc.
  - split; try apply Hc; cbn; [done|]. intros t [= <-]. by exists rest.
  - split; try apply Hc; cbn; [done|done|]. destruct (co_writes _ Hc _ H) as [rest ->]. exists rest. by rewrite append_assoc.
  - by split; try apply Hc.
Qed.

(** ** What holds throughout *)

Record shell_ok (calls : shell_calls) (s : shell) : Prop := {
  so_point : point_ok calls s;
  so_passed : passed calls (sh_point s);
  so_channel : channel_ok s;
}.

Lemma start_ok calls source windows : shell_ok calls (shell_start source windows).
Proof. split; [by split_and!|done|]. split; try done; cbn. by exists "". Qed.

Lemma frame_passed calls s s' : frame s s' → passed calls (sh_point s) → passed calls (sh_point s').
Proof. intros Hf. by rewrite (fr_point _ _ Hf). Qed.

Lemma step_ok calls s s' : shell_step calls s s' → shell_ok calls s → shell_ok calls s' ∧ later s s'.
Proof.
  intros Hs [Hp Hx Hc]. revert Hs. intros [Ho|Hw]; [apply own_cases in Ho as [Ho|Ho]|].
  - destruct (main_point_ok _ _ _ Ho Hp Hx Hc) as [Hp' Hx'].
    split; [split; [done|done|by eapply main_channel]|by eapply main_later].
  - pose proof (other_frame _ _ Ho) as Hf.
    split; [split; [by eapply frame_point|by eapply frame_passed|by eapply other_channel]|by apply fr_later].
  - pose proof (world_frame _ _ Hc Hw) as Hf.
    split; [split; [by eapply frame_point|by eapply frame_passed|by eapply world_channel]|by apply fr_later].
Qed.

Lemma steps_ok calls s s' : rtc (shell_step calls) s s' → shell_ok calls s → shell_ok calls s'.
Proof. induction 1; [done|]. intros Hok. apply IHrtc. by destruct (step_ok _ _ _ H Hok). Qed.

Lemma shell_reachable_ok calls source windows s : shell_reachable calls source windows s → shell_ok calls s.
Proof. intros Hr. eapply steps_ok; [exact Hr|apply start_ok]. Qed.

(** ** The result *)

(** [Wait] returned in [s0], and what came of it is [s]. *)
Definition waited_in (calls : shell_calls) (s0 s : shell) : Prop :=
  sh_point s0 = AtWait ∧ ∃ s1, s1 ∈ main_moves calls s0 ∧ rtc (shell_step calls) s1 s.

(** The error [e], unless the context is over: then its error.  It may end
    between the return of [Wait], in [s0], and that of [ProxyShell]. *)
Definition context_or (s0 s : shell) (e : error) (r : result unit) : Prop :=
  sh_ctx s0 = None ∧ r = Err e ∨ ∃ c, sh_ctx s = Some c ∧ r = Err c.

(** What the result says of the program: its status, if it ended with one, before
    everything else; an end with status zero only if the output was copied. *)
Definition truthful (calls : shell_calls) (s0 s : shell) (r : result unit) : Prop :=
  match sh_exit s0 with
  | Some (Some (ExitError status)) => r = Err (Msg ("downstream exited with status " +:+ Itoa status))
  | Some (Some (OtherError e)) => context_or s0 s e r
  | Some None =>
    match sh_copy s0 with
    | CopyFailed e => context_or s0 s e r
    | _ => r = Ok tt ∧ delivered s0
    end
  | None => context_or s0 s (sc_missing calls) r ∧ (sh_ctx s0 ≠ None ∨ sh_lost s0 = true)
  end.

(** From what [Wait] returned to the result *)
Definition settled (s0 : shell) (w : option wait_error) (s : shell) : Prop :=
  (∀ c, sh_ctx s0 = Some c → sh_ctx s = Some c) ∧
  match sh_point s with
  | AtCloseDone w' | AtOutcome w' => w' = w
  | Leaving r | Returned r =>
    ∃ ctx, (∀ c, sh_ctx s0 = Some c → ctx = Some c) ∧ (∀ c, ctx = Some c → sh_ctx s = Some c) ∧ r = shell_outcome w ctx
  | _ => False
  end.

Lemma settled_frame s0 w s s' : sh_point s' = sh_point s → later s s' → settled s0 w s → settled s0 w s'.
Proof.
  unfold settled. intros -> Hl [Hc Hs]. split; [intros c E; by apply (lt_ctx _ _ Hl), Hc|].
  destruct (sh_point s); try done; destruct Hs as (ctx & H1 & H2 & H3);
    (exists ctx; split_and!; [done| |done]; intros c E; by apply (lt_ctx _ _ Hl), H2).
Qed.

Lemma settled_main calls s0 w s s' : s' ∈ main_moves calls s → settled s0 w s → settled s0 w s'.
Proof.
  intros H [Hc Hs]. pose proof (main_later _ _ _ H) as Hl.
  split; [intros c E; by apply (lt_ctx _ _ Hl), Hc|]. unfold main_moves in H. destruct (sh_point s) eqn:E; try done.
  - by move_cases H.
  - subst w0. move_cases H. exists (sh_ctx s). by split_and!.
  - destruct Hs as (ctx & H1 & H2 & H3). destruct (sh_defers s) as [|d more].
    + move_cases H. by exists ctx.
    + apply list_elem_of_fmap in H as (s2 & -> & H). destruct (deferred_same _ _ _ H) as (Hl' & Ep & _).
      cbn [with_defers sh_point]. rewrite Ep, E. exists ctx. split_and!; [done| |done].
      intros c Ec. cbn. by apply (lt_ctx _ _ Hl'), H2.
  - by apply not_elem_of_nil in H.
Qed.

Lemma settled_steps calls s0 w s s' : rtc (shell_step calls) s s' → shell_ok calls s → settled s0 w s → settled s0 w s'.
Proof.
  induction 1 as [|s s1 s2 Hs _ IH]; [done|]. intros Hok Hse. destruct (step_ok _ _ _ Hs Hok) as [Hok' Hl].
  apply IH; [done|]. destruct Hs as [Ho|Hw]; [apply own_cases in Ho as [Ho|Ho]|].
  - by apply settled_main with calls s.
  - apply settled_frame with s; [apply (fr_point _ _ (other_frame _ _ Ho))|done|done].
  - apply settled_frame with s; [apply (fr_point _ _ (world_frame _ _ (so_channel _ _ Hok) Hw))|done|done].
Qed.

Lemma context_or_outcome s0 s ctx e : (∀ c, sh_ctx s0 = Some c → ctx = Some c) → (∀ c, ctx = Some c → sh_ctx s = Some c) →
  context_or s0 s e (shell_outcome (Some (OtherError e)) ctx).
Proof.
  intros H1 H2. destruct ctx as [c|]; [right; exists c; auto|]. left.
  destruct (sh_ctx s0) as [c|] eqn:E; [by specialize (H1 c eq_refl)|done].
Qed.

(** What the code makes of what [Wait] returned is the truth. *)
Lemma waited_in_truthful calls s0 s r : shell_ok calls s0 → waited_in calls s0 s → sh_point s = Returned r →
  truthful calls s0 s r ∧ (sh_copy s0 = CopyEnded → delivered s0).
Proof.
  intros Hok (E0 & s1 & H1 & Hrtc) E. pose proof (so_channel _ _ Hok) as Hc.
  assert (∃ w, w ∈ wait_results calls s0 ∧ s1 = at_point (AtCloseDone w) s0) as (w & Hw & ->).
  { unfold main_moves in H1. rewrite E0 in H1. apply list_elem_of_fmap in H1 as (w & -> & Hw). by exists w. }
  assert (settled s0 w s) as [_ Hse].
  { apply settled_steps with calls (at_point (AtCloseDone w) s0); [done| |by split].
    refine (proj1 (step_ok calls s0 _ _ Hok)). left. apply own_cases. by left. }
  rewrite E in Hse. destruct Hse as (ctx & C1 & C2 & ->).
  assert (sh_copy s0 = CopyEnded → delivered s0) as Hdel.
  { intros Ecopy. destruct (co_ended _ Hc Ecopy) as [?|Hl]; [done|]. by rewrite E0 in Hl. }
  split; [|done]. pose proof (co_closed _ Hc) as Hcl. rewrite E0 in Hcl. unfold wait_results in Hw. unfold truthful.
  destruct (sh_copy s0) eqn:Ecopy; try (by apply not_elem_of_nil in Hw);
    (destruct (sh_exit s0) as [[[n|e']|]|];
     [apply list_elem_of_singleton in Hw as ->..|destruct (sh_closed s0); [apply list_elem_of_singleton in Hw as ->|by apply not_elem_of_nil in Hw]]);
    try done; try (by apply context_or_outcome); try (split; [done|by apply Hdel]);
    (split; [by apply context_or_outcome|]; destruct (Hcl eq_refl) as [?|[?|[]]]; by auto).
Qed.

(** A shell that ran has been waited for. *)
Definition was_waited (calls : shell_calls) (source : list (string * option error)) (windows : list Window) (s : shell) : Prop :=
  match sh_point s with
  | AtCloseDone _ | AtOutcome _ => True
  | Leaving _ | Returned _ => setup_error calls = None
  | _ => False
  end → ∃ s0, shell_reachable calls source windows s0 ∧ waited_in calls s0 s.

Lemma waited_in_step calls s0 s s' : shell_step calls s s' → waited_in calls s0 s → waited_in calls s0 s'.
Proof. intros Hs (E & s1 & H1 & Hr). split; [done|]. exists s1. split; [done|]. etrans; [exact Hr|by apply rtc_once]. Qed.

(** Only a call that failed leaves the set-up. *)
Lemma setup_never_waits calls s s' : s' ∈ main_moves calls s → shell_ok calls s → shell_ok calls s' →
  match sh_point s with AtNewSession | AtPty | AtRequestPty _ | AtStdin | AtShell | AtSignals => True | _ => False end →
  match sh_point s' with
  | AtCloseDone _ | AtOutcome _ => False
  | Leaving _ | Returned _ => setup_error calls ≠ None
  | _ => True
  end.
Proof.
  intros H [Hq _ _] [Hp _ _] Hs. unfold point_ok in *. unfold main_moves in H.
  destruct (sh_point s) eqn:E; try done; move_cases H; cbn in *; try done;
    destruct Hp as [_ [[_ (e' & -> & _)]|([Hw _] & _)]]; try done; by destruct Hq as (_ & _ & [Hn _]).
Qed.

Lemma was_waited_main calls source windows s s' : shell_reachable calls source windows s → shell_ok calls s →
  s' ∈ main_moves calls s → was_waited calls source windows s → was_waited calls source windows s'.
Proof.
  intros Hr Hok H Hw Hp. assert (shell_step calls s s') as Hs by (left; apply own_cases; by left).
  pose proof (setup_never_waits _ _ _ H Hok (proj1 (step_ok _ _ _ Hs Hok))) as Hset.
  assert (match sh_point s with
          | AtWait | AtCloseDone _ | AtOutcome _ => True
          | Leaving _ | Returned _ => setup_error calls = None
          | _ => False
          end) as Hq.
  { destruct (sh_point s) eqn:E; try done; try (specialize (Hset I); by destruct (sh_point s')).
    - unfold main_moves in H. rewrite E in H. destruct (sh_defers s) as [|d more]; [by move_cases H|].
      apply list_elem_of_fmap in H as (s2 & -> & H). destruct (deferred_same _ _ _ H) as (_ & Ep & _).
      cbn in Hp. by rewrite Ep, E in Hp.
    - unfold main_moves in H. rewrite E in H. by apply not_elem_of_nil in H. }
  destruct (sh_point s) eqn:E; try done.
  2-5: destruct Hw as (s0 & Hr0 & Hw); [by rewrite E|]; exists s0; (split; [done|]); by apply waited_in_step with s.
  exists s. split; [done|]. split; [done|]. by exists s'.
Qed.

Lemma was_waited_steps calls source windows s : shell_reachable calls source windows s → was_waited calls source windows s.
Proof.
  intros Hr. unfold shell_reachable in Hr. revert s Hr. apply (rtc_ind_r (λ s, was_waited calls source windows s)); [by intros []|].
  intros s s' Hr Hs Hw. pose proof (shell_reachable_ok _ _ _ _ Hr) as Hok. pose proof Hs as [Ho|Hwo]; [apply own_cases in Ho as [Ho|Ho]|].
  - by apply was_waited_main with s.
  - intros Hp. rewrite (fr_point _ _ (other_frame _ _ Ho)) in Hp. destruct (Hw Hp) as (s0 & Hr0 & Hw0).
    exists s0. split; [done|]. by apply waited_in_step with s.
  - intros Hp. rewrite (fr_point _ _ (world_frame _ _ (so_channel _ _ Hok) Hwo)) in Hp. destruct (Hw Hp) as (s0 & Hr0 & Hw0).
    exists s0. split; [done|]. by apply waited_in_step with s.
Qed.

(** C34: When [ProxyShell] has returned, the channel to the target is closed, if it
    was opened, and the goroutine that reads the terminal has ended.  A call before
    the shell that failed is what it returns.  Once the shell ran, [Wait] has
    returned, in some state [s0], and whatever state that was decides the result: a
    program that ended with a status other than zero has it named in the error,
    whatever became of the copying and of the context; the error of a copy that
    failed, and that the connection told no status, give way to the context's
    error; and no error says that the program ended with status zero and the copy
    did not fail.  A copy that ended had given the client all that was printed,
    unless the client's session or the connection to the target was over. *)
Theorem shell_result_is_true calls source windows s r :
  shell_reachable calls source windows s → sh_point s = Returned r →
  (is_ok (sc_NewSession calls) = true → sh_closed s = true) ∧ ¬ worker_busy (sh_worker s) ∧
  match setup_error calls with
  | Some e => r = Err e ∧ unstarted s
  | None =>
    (∃ s0, shell_reachable calls source windows s0 ∧ waited_in calls s0 s) ∧
    ∀ s0, shell_reachable calls source windows s0 → waited_in calls s0 s →
      truthful calls s0 s r ∧ (sh_copy s0 = CopyEnded → delivered s0)
  end.
Proof.
  intros Hr E. pose proof (was_waited_steps _ _ _ _ Hr) as Hwaited. destruct (shell_reachable_ok _ _ _ _ Hr) as [Hp _ _].
  unfold point_ok in Hp. rewrite E in Hp. destruct Hp as ([_ _ Hb _ _ Hx] & Hd & Hres). rewrite Hd in *.
  split_and!.
  - intros Ho. destruct Hx as [Hx|Hx]; [apply not_elem_of_nil|done|congruence].
  - intros Hbusy. by apply Hb, not_elem_of_nil in Hbusy.
  - destruct Hres as [[Hu (e & -> & ->)]|(Hs & Hdone & He & _)]; [done|]. rewrite He. split.
    + apply Hwaited. by rewrite E.
    + intros s0 Hr0 Hw. apply waited_in_truthful; [by eapply shell_reachable_ok|done|done].
Qed.
