(* ===== verification/ProxyShellEnds.v ===== *)
(** * The shell lets go of the terminal, and comes to an end

    What becomes of the input, that the goroutines end, and runs of [ProxyShell]
    by explicit choices. *)

From S2P Require Import Prelude GoStrings StringFacts Effects ProxyShell ProxyShellProps.

(** ** The input *)

(** What the worker has in its hands *)
Definition in_hand (w : input_worker) : string := match w with Writing data _ => data | _ => "" end.

Definition input_data (l : list (string * option error)) : string := concat_strings (l.*1).

(** What was read from the session was written to the target, in order, is in the
    worker's hands, or was lost with a write that failed. *)
Record input_kept (source : list (string * option error)) (s : shell) : Prop := {
  ik_kept : ∃ taken lost, source = taken ++ sh_source s ∧
    input_data taken = sh_sent s +:+ in_hand (sh_worker s) +:+ lost ∧ (lost = "" ∨ sh_worker s = InputDone);
}.

Lemma input_data_snoc l data err : input_data (l ++ [(data, err)]) = input_data l +:+ data.
Proof. unfold input_data. rewrite fmap_app, concat_strings_app. cbn. by rewrite append_nil_r. Qed.

Lemma input_kept_same source s s' : sh_source s' = sh_source s → sh_sent s' = sh_sent s →
  (sh_worker s' = sh_worker s ∨ in_hand (sh_worker s) = "" ∧ in_hand (sh_worker s') = "" ∧ sh_worker s ≠ InputDone ∨
   sh_worker s' = InputDone) → input_kept source s → input_kept source s'.
Proof.
  intros E1 E2 Hw [(taken & lost & Hs & Hd & Hl)]. split. rewrite E1, E2. exists taken.
  destruct Hw as [->|[(H1 & H2 & H3)| ->]].
  - by exists lost.
  - exists "". rewrite H2, Hd, H1. destruct Hl as [->|]; [|done]. split_and!; [done|done|by left].
  - exists (in_hand (sh_worker s) +:+ lost). split_and!; [done| |by right]. by rewrite Hd.
Qed.

Lemma input_kept_taken source s data err more s' : sh_source s = (data, err) :: more → sh_worker s ≠ InputDone →
  in_hand (sh_worker s) = "" → sh_source s' = more → sh_sent s' +:+ in_hand (sh_worker s') = sh_sent s +:+ data →
  input_kept source s → input_kept source s'.
Proof.
  intros Es Hn Hh Es' Hd' [(taken & lost & -> & Hd & Hl)]. split. exists (taken ++ [(data, err)]), "".
  rewrite Hh in Hd. destruct Hl as [->|]; [|done].
  split_and!; [by rewrite <- app_assoc, Es, Es'| |by left].
  rewrite input_data_snoc, Hd, append_nil_r. cbn. rewrite append_nil_r. by rewrite Hd'.
Qed.

Lemma main_kept calls source s s' : s' ∈ main_moves calls s → point_ok calls s → input_kept source s → input_kept source s'.
Proof.
  intros H Hp Hk. apply input_kept_same with s; [| | |done].
  1-2: unfold main_moves, perform_deferred in H; move_cases H; try done; by destruct (sc_ReadContext calls).
  unfold point_ok in Hp. unfold main_moves, perform_deferred in H. destruct (sh_point s); move_cases H; try (by left).
  - destruct Hp as (_ & Hw & _). right; left. by rewrite Hw.
  - destruct Hp as (_ & Hw & _). cbn. destruct (sc_ReadContext calls); [by left|]. right; left. by rewrite Hw.
Qed.

Lemma other_kept source s s' : s' ∈ other_moves s → input_kept source s → input_kept source s'.
Proof.
  unfold other_moves. rewrite !elem_of_app. intros [H|[H|[H|[H|H]]]] Hk.
  - unfold worker_moves in H. move_cases H; try (apply input_kept_same with s; [done|done|by right; right|done]);
      (eapply input_kept_taken; [done|by rewrite Heqi|by rewrite Heqi|done| |done]); cbn; try done.
    1-2: apply negb_false_iff, String.eqb_eq in Heqb as ->; cbn; try done. by rewrite Heqi.
  - unfold watcher_moves in H. move_cases H; (apply input_kept_same with s; [done|done|by left|done]).
  - unfold copy_moves in H. move_cases H. apply input_kept_same with s; [done|done|by left|done].
  - move_cases H. apply input_kept_same with s; [done|done|by left|done].
  - move_cases H. apply input_kept_same with s; [done|done|by left|done].
Qed.

Lemma world_kept source s s' : world s s' → input_kept source s → input_kept source s'.
Proof.
  intros Hw Hk. destruct Hw; try (apply input_kept_same with s; [done|done|by auto|done]).
  - destruct Hk as [(taken & lost & Hs & Hd & Hl)]. split. exists taken, "". rewrite H in *. cbn in *.
    destruct Hl as [->|]; [|done]. rewrite append_nil_r in Hd.
    split_and!; [done| |by left]. rewrite Hd. destruct err; cbn; by rewrite append_nil_r.
  - eapply input_kept_taken; [done|by rewrite H|by rewrite H|done| |done]. cbn. rewrite H. cbn. by rewrite append_nil_r.
Qed.

Lemma steps_kept calls source s s' : rtc (shell_step calls) s s' → shell_ok calls s → input_kept source s → input_kept source s'.
Proof.
  induction 1 as [|s s1 s' Hs _ IH]; [done|]. intros Hok Hk. destruct (step_ok _ _ _ Hs Hok) as [Hok' _].
  apply IH; [done|]. destruct Hs as [Ho|Hw]; [apply own_cases in Ho as [Ho|Ho]|].
  - eapply main_kept; [done|apply Hok|done].
  - by apply other_kept with s.
  - by apply world_kept with s.
Qed.

(** Nothing reads the terminal. *)
Definition let_go (s : shell) : Prop :=
  (∃ r, sh_point s = Returned r) ∧ (sh_worker s = NotStarted ∨ sh_worker s = InputDone).

Lemma let_go_step calls s s' : shell_step calls s s' → shell_ok calls s → let_go s →
  let_go s' ∧ sh_source s' = sh_source s ∧ sh_sent s' = sh_sent s.
Proof.
  intros Hs Hok [[r Er] Hw]. destruct Hs as [Ho|Hs].
  - apply own_cases in Ho as [H|H].
    + unfold main_moves in H. rewrite Er in H. by apply not_elem_of_nil in H.
    + assert (frame s s') as Hf by (by apply other_frame).
      assert (let_go s') as Hg.
      { split; [exists r; by rewrite (fr_point _ _ Hf)|]. rewrite (frame_not_runs _ _ Hf); [done|].
        destruct Hw as [-> | ->]; by intros [|(? & ? & ?)]. }
      split; [done|]. unfold other_moves in H. rewrite !elem_of_app in H. destruct H as [H|[H|[H|[H|H]]]].
      * unfold worker_moves in H. destruct Hw as [E|E]; rewrite E in H; by apply not_elem_of_nil in H.
      * unfold watcher_moves in H. by move_cases H.
      * unfold copy_moves in H. by move_cases H.
      * by move_cases H.
      * by move_cases H.
  - pose proof (world_frame _ _ (so_channel _ _ Hok) Hs) as Hf.
    assert (let_go s') as Hg.
    { split; [exists r; by rewrite (fr_point _ _ Hf)|]. rewrite (frame_not_runs _ _ Hf); [done|].
      destruct Hw as [-> | ->]; by intros [|(? & ? & ?)]. }
    split; [done|]. destruct Hs; try done; destruct Hw; congruence.
Qed.

Lemma let_go_steps calls s s' : rtc (shell_step calls) s s' → shell_ok calls s → let_go s →
  sh_source s' = sh_source s ∧ sh_sent s' = sh_sent s.
Proof.
  induction 1 as [|s s1 s' Hs _ IH]; [done|]. intros Hok Hg.
  destruct (let_go_step _ _ _ Hs Hok Hg) as (Hg' & <- & <-). apply IH; [|done]. by destruct (step_ok _ _ _ Hs Hok).
Qed.

(** The library copies the input only when it is given the session. *)
Lemma never_copies calls source windows s : shell_reachable calls source windows s → sc_ReadContext calls = true →
  sh_worker s ≠ Copying.
Proof.
  intros Hr Hrc. assert (shell_ok calls (shell_start source windows)) as Hok by apply start_ok.
  assert (sh_worker (shell_start source windows) ≠ Copying) as Hn by done. revert Hok Hn.
  induction Hr as [|s s1 s' Hs _ IH]; [done|]. intros Hok Hn. destruct (step_ok _ _ _ Hs Hok) as [Hok' _].
  apply IH; [done|]. assert (frame s s1 → sh_worker s1 ≠ Copying) as Hframe.
  { intros Hf. destruct (fr_worker _ _ Hf) as [->|[_ [_ ?]]]; done. }
  destruct Hs as [Ho|Hw]; [apply own_cases in Ho as [H|H]|].
  - unfold main_moves, perform_deferred in H. move_cases H; try done; cbn; [by rewrite Hrc|congruence].
  - by apply Hframe, other_frame.
  - apply Hframe. apply world_frame; [apply Hok|done].
Qed.

(** C35: What is typed reaches the target in order: the answers of the session's
    reader that were taken are the bytes the target took, those in the worker's
    hands, and those of a write that failed.  Once [ProxyShell] has returned to a
    session whose reader can be cancelled, nothing of it reads the session any
    more, whatever happens: the rest of the input is the menu's. *)
Theorem shell_input_in_order calls source windows s : shell_reachable calls source windows s →
  (∃ taken lost, source = taken ++ sh_source s ∧
     input_data taken = sh_sent s +:+ in_hand (sh_worker s) +:+ lost ∧ (lost = "" ∨ sh_worker s = InputDone)) ∧
  (sc_ReadContext calls = true → ∀ r, sh_point s = Returned r →
     ∀ s', rtc (shell_step calls) s s' → sh_source s' = sh_source s ∧ sh_sent s' = sh_sent s).
Proof.
  intros Hr. split.
  - eapply steps_kept; [exact Hr|apply start_ok|]. split. exists [], "". split_and!; [done|done|by left].
  - intros Hrc r E s' Hs. pose proof (shell_reachable_ok _ _ _ _ Hr) as Hok. apply let_go_steps with calls; [done..|].
    split; [by exists r|]. pose proof (never_copies _ _ _ _ Hr Hrc) as Hnc.
    pose proof (so_point _ _ Hok) as Hp. unfold point_ok in Hp. rewrite E in Hp. destruct Hp as ([_ _ Hb _ _ _] & Hd & _).
    rewrite Hd in Hb. assert (¬ worker_busy (sh_worker s)) as Hnb by (intros Hbusy; by apply Hb, not_elem_of_nil in Hbusy).
    destruct (sh_worker s) as [| |data err| |] eqn:Ew; auto; try done; [destruct Hnb; by left|destruct Hnb; right; by eauto].
Qed.

(** ** The end *)

(** A measure that the steps of a relation decrease, where [P] holds *)
Lemma measure_sn {A} (R : relation A) (P : A → Prop) (f : A → nat) x :
  (∀ x y, P x → R x y → P y ∧ (f y < f x)%nat) → P x → sn R x.
Proof.
  intros Hdec. remember (f x) as n eqn:E. revert x E. induction (lt_wf n) as [n _ IH]. intros x -> Hx.
  constructor. intros y Hxy. destruct (Hdec x y Hx Hxy) as [Hy Hlt]. by apply (IH (f y)).
Qed.

Definition point_weight (s : shell) : nat :=
  match sh_point s with
  | AtNewSession => 20 | AtPty => 19 | AtRequestPty _ => 18 | AtStdin => 17 | AtShell => 16 | AtSignals => 15
  | AtWait => 14 | AtCloseDone _ => 13 | AtOutcome _ => 12
  | Leaving _ => 1 + length (sh_defers s)
  | Returned _ => 0
  end.
Definition worker_weight (w : input_worker) (left : nat) : nat :=
  match w with
  | NotStarted | Writing _ _ => 2 * left + 2
  | Reading => 2 * left + 1
  | InputDone | Copying => 0
  end.
Definition watcher_weight (w : watcher) : nat :=
  match w with NoWatcher => 3 | Watching => 2 | Closing => 1 | WatcherDone => 0 end.
Definition relay_weight {A} (r : relay A) : nat :=
  match rl_state r with
  | NoRelay | Sends _ => 2 * length (rl_queue r) + 2
  | Selects => 2 * length (rl_queue r) + 1
  | RelayDone => 0
  end.
Definition copy_weight (c : output_copy) : nat := match c with CopyReads => 1 | _ => 0 end.

Definition shell_weight (s : shell) : nat :=
  (point_weight s + worker_weight (sh_worker s) (length (sh_source s)) + watcher_weight (sh_watcher s)
   + relay_weight (sh_signals s) + relay_weight (sh_windows s) + copy_weight (sh_copy s))%nat.

Lemma relay_decreases {A} stop (r r' : relay A) : r' ∈ relay_moves stop r → (relay_weight r' < relay_weight r)%nat.
Proof.
  unfold relay_moves, relay_weight. intros H. move_cases H; cbn; rewrite ?Heqr0, ?Heql; cbn; lia.
Qed.

Lemma full_stack_length calls : (length (full_stack calls) ≤ 6)%nat.
Proof. unfold full_stack. destruct (sc_ReadContext calls); cbn; lia. Qed.

Lemma defers_length calls s : point_ok calls s → (length (sh_defers s) ≤ 6)%nat.
Proof.
  pose proof (full_stack_length calls) as Hl. unfold point_ok. unfold full_stack in *.
  destruct (sh_point s) as [| | | | | | | | |r|r]; intros Hp.
  1-9: destruct Hp as (-> & _); destruct (sc_ReadContext calls); cbn; lia.
  all: destruct Hp as [[[run Hrun] _ _ _ _ _] _]; unfold full_stack in Hrun; rewrite Hrun, length_app in Hl; lia.
Qed.

Lemma main_decreases calls s s' : s' ∈ main_moves calls s → point_ok calls s → (shell_weight s' < shell_weight s)%nat.
Proof.
  intros H Hp. pose proof (defers_length _ _ Hp) as Hl. unfold point_ok in Hp. unfold main_moves in H.
  unfold shell_weight, point_weight. destruct (sh_point s) eqn:E; move_cases H; cbn; try lia.
  - destruct Hp as (_ & -> & _). cbn. lia.
  - destruct (sc_ReadContext calls); cbn; [lia|]. destruct Hp as (_ & -> & _). cbn. lia.
  - destruct Hp as (_ & _ & Hw & Hs & Hwin & _). unfold relay_weight. rewrite Hw, Hs, Hwin. cbn. lia.
  - destruct (deferred_same _ _ _ H) as (_ & -> & -> & -> & -> & _). rewrite E. cbn.
    assert (sh_worker x = sh_worker s ∧ sh_source x = sh_source s ∧ sh_copy x = sh_copy s) as (-> & -> & ->)
      by (unfold perform_deferred in H; destruct d; move_cases H; done). lia.
Qed.

Lemma other_decreases s s' : s' ∈ other_moves s → (shell_weight s' < shell_weight s)%nat.
Proof.
  unfold other_moves. rewrite !elem_of_app. unfold shell_weight, point_weight. intros [H|[H|[H|[H|H]]]].
  - unfold worker_moves in H. move_cases H; cbn; rewrite ?Heqi, ?Heql; cbn; lia.
  - unfold watcher_moves in H. move_cases H; cbn; rewrite ?Heqw; cbn; lia.
  - unfold copy_moves in H. move_cases H. cbn. lia.
  - move_cases H. apply relay_decreases in H. cbn. lia.
  - move_cases H. apply relay_decreases in H. cbn. lia.
Qed.

Lemma own_sn calls s : shell_ok calls s → sn (own calls) s.
Proof.
  apply measure_sn with shell_weight. intros x y Hx Hxy. split; [eapply step_ok; [by left|done]|].
  apply own_cases in Hxy as [H|H]; [eapply main_decreases; [done|apply Hx]|by apply other_decreases].
Qed.

(** The context is done, the channel is closed, or the program has ended and its
    output is copied or not to be; and the client has taken what was written to it. *)
Definition session_over (s : shell) : Prop :=
  (sh_ctx s ≠ None ∨ sh_closed s = true ∨
   sh_exit s ≠ None ∧ (sh_shown s = sh_printed s ∨ sh_copy s ≠ CopyReads)) ∧
  ∀ text, sh_copy s ≠ CopyWrites text.

Definition all_ended (s : shell) : Prop :=
  (∃ r, sh_point s = Returned r) ∧ ¬ worker_busy (sh_worker s) ∧
  (sh_watcher s = NoWatcher ∨ sh_watcher s = WatcherDone) ∧
  (rl_state (sh_signals s) = NoRelay ∨ rl_state (sh_signals s) = RelayDone) ∧
  (rl_state (sh_windows s) = NoRelay ∨ rl_state (sh_windows s) = RelayDone).

Lemma main_over calls s s' : s' ∈ main_moves calls s → sh_ctx s' = sh_ctx s ∧ sh_exit s' = sh_exit s ∧
  sh_shown s' = sh_shown s ∧ sh_printed s' = sh_printed s ∧ sh_copy s' = sh_copy s ∧
  (sh_closed s = true → sh_closed s' = true).
Proof.
  unfold main_moves, perform_deferred. intros H. move_cases H; try done. by destruct (sc_ReadContext calls).
Qed.

Lemma over_same s s' : sh_ctx s' = sh_ctx s → sh_exit s' = sh_exit s → sh_shown s' = sh_shown s →
  sh_printed s' = sh_printed s → sh_copy s' = sh_copy s → (sh_closed s = true → sh_closed s' = true) →
  session_over s → session_over s'.
Proof. unfold session_over. intros -> -> -> -> -> Hc [[?|[?|?]] Hw]; auto. Qed.

Lemma own_over calls s s' : own calls s s' → session_over s → session_over s'.
Proof.
  intros Ho Hover. apply own_cases in Ho as [H|H].
  - destruct (main_over _ _ _ H) as (? & ? & ? & ? & ? & ?). by apply over_same with s.
  - unfold other_moves in H. rewrite !elem_of_app in H. destruct H as [H|[H|[H|[H|H]]]].
    + apply over_same with s; try done; unfold worker_moves in H; by move_cases H.
    + apply over_same with s; try done; unfold watcher_moves in H; by move_cases H.
    + destruct Hover as [Hend Hw]. unfold copy_moves in H. move_cases H. split; [|done].
      destruct Hend as [?|[?|[? _]]]; [by left|by right; left|right; right]. by split; [|right].
    + apply over_same with s; try done; by move_cases H.
    + apply over_same with s; try done; by move_cases H.
Qed.

(** No step is left. *)
Lemma stuck_main calls s : nf (own calls) s → main_moves calls s = [] ∧ other_moves s = [].
Proof.
  intros Hnf. split; apply elem_of_nil_inv; intros s' H; apply Hnf; exists s'; apply own_cases; auto.
Qed.

Lemma stuck_relay {A} (r : relay A) : relay_moves true r = [] → rl_state r = NoRelay ∨ rl_state r = RelayDone.
Proof. unfold relay_moves. destruct (rl_state r); [auto| |done|auto]. intros H. by apply app_eq_nil in H as [_ ?]. Qed.

(** With no step left, [ProxyShell] has returned. *)
Lemma stuck_returned calls s : shell_ok calls s → session_over s → main_moves calls s = [] → other_moves s = [] →
  ∃ r, sh_point s = Returned r.
Proof.
  intros [Hp _ Hc] [Hend Hw] Hm Ho. unfold other_moves in Ho.
  apply app_eq_nil in Ho as [Hworker Ho]. apply app_eq_nil in Ho as [Hwatch Ho]. apply app_eq_nil in Ho as [Hcopy _].
  unfold point_ok in Hp. unfold main_moves in Hm. destruct (sh_point s) as [| |p| | | | |w|w|r|r] eqn:E; try discriminate.
  - by destruct (sc_NewSession calls).
  - by destruct (sc_Pty calls).
  - by destruct (sc_RequestPty calls _ _ _ _).
  - destruct (sc_ReadContext calls); [by destruct (sc_StdinPipe calls)|done].
  - by destruct (sc_Shell calls).
  - exfalso. apply fmap_nil_inv in Hm. destruct Hp as (_ & _ & (Hnw & _) & Hnd).
    assert (sh_closed s = true ∨ sh_exit s ≠ None ∧ (sh_shown s = sh_printed s ∨ sh_copy s ≠ CopyReads)) as Hend'.
    { destruct Hend as [Hctx|?]; [|done]. left. unfold watcher_moves, ctx_done in Hwatch.
      destruct (sh_watcher s) eqn:Ew; try done; [by destruct (sh_ctx s)|].
      destruct (co_watched _ Hc Ew); [done|congruence]. }
    unfold copy_moves in Hcopy. unfold wait_results in Hm. destruct (sh_copy s) eqn:Ecopy.
    + destruct Hend' as [Hcl|[Hex [Hs|Hs]]]; [by rewrite Hcl in Hcopy| |done].
      destruct (sh_exit s); [|done]. rewrite Hs, String.eqb_refl, orb_true_r in Hcopy. discriminate.
    + by destruct (Hw text).
    + destruct (sh_exit s) as [[]|]; [done..|]. destruct Hend' as [Hcl|[? _]]; [by rewrite Hcl in Hm|done].
    + destruct (sh_exit s) as [[]|]; [done..|]. destruct Hend' as [Hcl|[? _]]; [by rewrite Hcl in Hm|done].
  - exfalso. destruct Hp as [[_ Ha Hb Hcan Hcl _] _]. destruct (sh_defers s) as [|d more] eqn:Ed; [discriminate|].
    apply fmap_nil_inv in Hm. destruct d; try discriminate. unfold perform_deferred in Hm.
    pose proof (Ha ltac:(by left)) as [H1 H2]. pose proof (Hcan more (or_introl eq_refl)) as Ecan.
    pose proof (Hcl more eq_refl) as Ecl. unfold worker_moves in Hworker.
    destruct (sh_worker s); try done; [by rewrite Ecan in Hworker|by rewrite Ecl in Hworker].
  - by exists r.
Qed.

Lemma stuck_ended calls s : shell_ok calls s → session_over s → nf (own calls) s → all_ended s.
Proof.
  intros Hok Hover Hnf. destruct (stuck_main _ _ Hnf) as [Hm Ho].
  destruct (stuck_returned _ _ Hok Hover Hm Ho) as [r E]. unfold other_moves in Ho.
  apply app_eq_nil in Ho as [Hworker Ho]. apply app_eq_nil in Ho as [Hwatch Ho]. apply app_eq_nil in Ho as [_ Ho].
  apply app_eq_nil in Ho as [Hs Hwin]. apply fmap_nil_inv in Hs. apply fmap_nil_inv in Hwin.
  destruct Hok as [Hp _ _]. unfold point_ok in Hp. rewrite E in Hp. destruct Hp as ([_ _ Hb _ _ _] & Hd & Hres).
  split; [by exists r|]. split.
  { rewrite Hd in Hb. intros Hbusy. by apply Hb, not_elem_of_nil in Hbusy. }
  destruct Hres as [[(H1 & H2 & H3 & _) _]|(_ & Hdone & _)]; [by auto|].
  unfold stops in Hs, Hwin. rewrite Hdone in Hs, Hwin. split_and!; [|by apply stuck_relay..].
  unfold watcher_moves in Hwatch. rewrite Hdone in Hwatch. destruct (sh_watcher s); auto; [|done].
  by apply app_eq_nil in Hwatch as [_ ?].
Qed.

(** C36: The shell comes to an end.  Once the client's session is over, or the
    channel to the target is closed, or the program has ended and its output is
    copied - and the client has taken what was written to it - the steps of the
    proxy's own goroutines cannot go on for ever, whatever the terminal still
    sends; and where they stop, [ProxyShell] has returned and each goroutine it
    started has ended. *)
Theorem shell_comes_to_an_end calls source windows s :
  shell_reachable calls source windows s → session_over s →
  sn (own calls) s ∧ ∀ s', rtc (own calls) s s' → nf (own calls) s' → all_ended s'.
Proof.
  intros Hr Hover. pose proof (shell_reachable_ok _ _ _ _ Hr) as Hok. split; [by apply own_sn|].
  intros s' Hs. revert Hok Hover. clear Hr. induction Hs as [s|s s1 s' Hs _ IH]; intros Hok Hover Hnf; [by eapply stuck_ended|].
  apply IH; [eapply step_ok; [by left|done]|by eapply own_over|done].
Qed.

(** ** A shell on a target, step by step

    Runs of [ProxyShell] by explicit choices, for the theorems on what is
    reachable. *)

(** A choice: the [n]th of the proxy's own steps that are possible, or a step of
    the world *)
Inductive pick :=
  | Own (n : nat)
  | ContextEnds (e : error)
  | Prints (text : string)
  | Exits (w : option wait_error)
  | OutputRead
  | OutputShown
  | InputTaken
  | WindowChanges (w : Window).

Definition pick_step (calls : shell_calls) (p : pick) (s : shell) : option shell :=
  match p with
  | Own n => own_moves calls s !! n
  | ContextEnds e => match sh_ctx s with None => Some (with_ctx e s) | Some _ => None end
  | Prints text =>
    if shell_runs s && match sh_exit s with None => true | Some _ => false end
    then Some (with_remote (sh_printed s +:+ text) (sh_shown s) None (sh_copy s) s) else None
  | Exits w =>
    if shell_runs s && match sh_exit s with None => true | Some _ => false end
    then Some (with_remote (sh_printed s) (sh_shown s) (Some w) (sh_copy s) s) else None
  | OutputRead =>
    let text := drop_str (String.length (sh_shown s)) (sh_printed s) in
    if sh_printed s =s sh_shown s +:+ text then
      match sh_copy s with
      | CopyReads => Some (with_remote (sh_printed s) (sh_shown s) (sh_exit s) (CopyWrites text) s)
      | _ => None
      end
    else None
  | OutputShown =>
    match sh_copy s with
    | CopyWrites text => Some (with_remote (sh_printed s) (sh_shown s +:+ text) (sh_exit s) CopyReads s)
    | _ => None
    end
  | InputTaken => match sh_worker s with Writing data err => Some (input_written data err s) | _ => None end
  | WindowChanges w =>
    if rl_open (sh_windows s) then Some (with_windows (arrived w (sh_windows s)) s) else None
  end.

Lemma pick_step_sound calls p s s' : pick_step calls p s = Some s' → shell_step calls s s'.
Proof.
  destruct p; cbn; intros H.
  - left. by eapply list_elem_of_lookup_2.
  - right. destruct (sh_ctx s) eqn:E; [discriminate|]. injection H as <-. by apply world_ctx.
  - right. destruct (shell_runs s) eqn:E1, (sh_exit s) eqn:E2; try discriminate. injection H as <-. by apply world_prints.
  - right. destruct (shell_runs s) eqn:E1, (sh_exit s) eqn:E2; try discriminate. injection H as <-. by apply world_exits.
  - right. destruct (_ =s _) eqn:E1; [|discriminate]. destruct (sh_copy s) eqn:E2; try discriminate. injection H as <-.
    apply String.eqb_eq in E1. eapply world_reads with ""; [by rewrite append_nil_r|done].
  - right. destruct (sh_copy s) eqn:E2; try discriminate. injection H as <-. by apply world_shows.
  - right. destruct (sh_worker s) eqn:E2; try discriminate. injection H as <-. by apply world_takes.
  - right. destruct (rl_open _) eqn:E2; try discriminate. injection H as <-. by apply world_window.
Qed.

Fixpoint picks (calls : shell_calls) (l : list pick) (s : shell) : option shell :=
  match l with
  | [] => Some s
  | p :: l => match pick_step calls p s with Some s' => picks calls l s' | None => None end
  end.

Lemma picks_sound calls l s s' : picks calls l s = Some s' → rtc (shell_step calls) s s'.
Proof.
  revert s. induction l as [|p l IH]; cbn; intros s; [by intros [= <-]|].
  destruct (pick_step calls p s) as [s1|] eqn:E; [|discriminate]. intros Hl.
  apply rtc_l with s1; [by eapply pick_step_sound|by apply IH].
Qed.

(** A session of the menu, on a target that answers *)
Definition willing : shell_calls :=
  MkShellCalls (Ok tt) (Some (MkPty "xterm" (MkWindow 80 24))) (λ _ _ _ _, Ok tt) true (Ok tt) (Ok tt)
    (Ext "wait: remote command exited without exit status or exit signal").

Definition typed : list (string * option error) := [("ls", None); ("exit", None); ("q", None)].

Definition shell_at (l : list pick) : shell :=
  default (shell_start [] []) (picks willing l (shell_start typed [])).

Lemma shell_at_reached l : is_Some (picks willing l (shell_start typed [])) →
  shell_reachable willing typed [] (shell_at l).
Proof. intros [s Hs]. unfold shell_at. rewrite Hs. by eapply picks_sound. Qed.

(** The shell runs; the target prints a line and exits with the status given. *)
Definition commands (w : option wait_error) : list pick :=
  replicate 6 (Own 0) ++
  [Own 0; InputTaken; Own 0; InputTaken; Prints "file"; OutputRead; Exits w; OutputShown; Own 1].

(** [Wait] returns, and the deferred calls run; the worker ends when it is joined. *)
Definition returned (w : option wait_error) : list pick := commands w ++ replicate 12 (Own 0).

Example returned_with_success :
  let s := shell_at (returned None) in
  sh_point s = Returned (Ok tt) ∧ sh_sent s = "lsexit" ∧ sh_shown s = "file" ∧ sh_source s = [("q", None)].
Proof. vm_compute. by split_and!. Qed.

Example returned_with_status :
  sh_point (shell_at (returned (Some (ExitError 3)))) = Returned (Err (Msg "downstream exited with status 3")).
Proof. vm_compute. reflexivity. Qed.

Lemma returned_reached w : w = None ∨ w = Some (ExitError 3) →
  shell_reachable willing typed [] (shell_at (returned w)).
Proof. intros [-> | ->]; apply shell_at_reached; vm_compute; by eexists. Qed.

(** [Wait] returns with the status. *)
Lemma waited_in_status : waited_in willing (shell_at (commands (Some (ExitError 3)))) (shell_at (returned (Some (ExitError 3)))).
Proof.
  split; [vm_compute; reflexivity|]. exists (shell_at (commands (Some (ExitError 3)) ++ [Own 0])). split.
  - vm_compute. left.
  - apply picks_sound with (replicate 11 (Own 0)). vm_compute. reflexivity.
Qed.

Lemma shell_result_is_true_witness :
  let s0 := shell_at (commands (Some (ExitError 3))) in
  let s := shell_at (returned (Some (ExitError 3))) in
  let r := Err (Msg "downstream exited with status 3") in
  sh_point s = Returned r ∧ sh_closed s = true ∧ truthful willing s0 s r ∧ delivered s0.
Proof.
  intros s0 s r. assert (sh_point s = Returned r) as Hp by (vm_compute; reflexivity). split; [exact Hp|].
  destruct (shell_result_is_true willing typed [] s r (returned_reached _ (or_intror eq_refl)) Hp) as (Hc & _ & _ & He).
  split; [apply Hc; reflexivity|]. destruct (He s0) as [Ht Hd].
  - apply shell_at_reached. vm_compute. eexists. reflexivity.
  - exact waited_in_status.
  - split; [exact Ht|]. apply Hd. vm_compute. reflexivity.
Defined.

(** The key after the shell is left for the menu, whatever comes. *)
Lemma shell_input_in_order_witness :
  sh_point (shell_at (returned None)) = Returned (Ok tt) ∧
  ∀ s', rtc (shell_step willing) (shell_at (returned None)) s' → sh_source s' = [("q", None)].
Proof.
  destruct (shell_input_in_order willing typed [] _ (returned_reached None (or_introl eq_refl))) as [_ Hgone].
  assert (sh_point (shell_at (returned None)) = Returned (Ok tt)) as Hp by (vm_compute; reflexivity).
  split; [exact Hp|]. intros s' Hs.
  assert (sh_source (shell_at (returned None)) = [("q", None)]) as Hq by (vm_compute; reflexivity).
  rewrite <- Hq. apply (Hgone eq_refl (Ok tt) Hp s' Hs).
Defined.

(** The context ends while the worker writes and the target does not read. *)
Definition stalled : list pick := replicate 6 (Own 0) ++ [Own 0; ContextEnds (Ext "context canceled")].

Lemma shell_comes_to_an_end_witness :
  sh_worker (shell_at stalled) = Writing "ls" None ∧ sn (own willing) (shell_at stalled) ∧
  ∀ s', rtc (own willing) (shell_at stalled) s' → nf (own willing) s' → all_ended s'.
Proof.
  split; [vm_compute; reflexivity|].
  apply (shell_comes_to_an_end willing typed [] (shell_at stalled)).
  - apply shell_at_reached. vm_compute. by eexists.
  - split; [left; vm_compute; discriminate|]. intros text. vm_compute. discriminate.
Defined.

(** The goroutine of the window changes is not waited for: after the return it can
    still take a change, which the menu then does not see. *)
Example late_window_is_taken :
  let s := shell_at (returned None ++ [WindowChanges (MkWindow 132 50); Own 1; Own 1]) in
  sh_point s = Returned (Ok tt) ∧ rl_passed (sh_windows s) = [MkWindow 132 50].
Proof. vm_compute. by split. Qed.
