(* ===== verification/MenuState.v ===== *)
(** * The state of the interactive menu ([internal/tui/menu.go])

    [Model] is the Go struct: what never changes while the menu runs is in
    [menu_config], the rows read from the database in [dataLists].  A Go [int]
    is a [Z]; an index out of range, and a nil pointer that is used, are a panic
    ([None]) of the operations that can have one. *)

From S2P Require Import Prelude GoStrings Json GoTime Effects SshKeys Schema.
From S2P Require Import StoreUsers StoreOIDC StoreTargets StoreAccess StoreAudit Auth.

(** [m |> f]: the statements of a handler, in the order of the code *)
Notation "m |> f" := (f m) (at level 61, left associativity, only parsing) : go_scope.

(** A slice index *)
Definition at_index {A} (l : list A) (i : Z) : option A :=
  if i <? 0 then None else l !! Z.to_nat i.

Definition lenZ {A} (l : list A) : Z := Z.of_nat (length l).

(** [l[:n]] and [l[n:]] *)
Definition upto {A} (n : Z) (l : list A) : option (list A) :=
  if (n <? 0) || (lenZ l <? n) then None else Some (take (Z.to_nat n) l).
Definition from {A} (n : Z) (l : list A) : option (list A) :=
  if (n <? 0) || (lenZ l <? n) then None else Some (drop (Z.to_nat n) l).

(** ** Data *)

Record Result := mkResult { R_TargetID : Z; R_Quit : bool; R_Verified : bool }.

Definition quit_result : Result := mkResult 0 true false.

Record formField := mkField { ff_label : string; ff_value : string; ff_options : list string }.

Definition set_value (v : string) (f : formField) : formField := mkField (ff_label f) v (ff_options f).
Definition set_options (o : list string) (f : formField) : formField := mkField (ff_label f) (ff_value f) o.

Definition text_field (label : string) : formField := mkField label "" [].
Definition value_field (label value : string) : formField := mkField label value [].

Record adminForm := mkForm {
  f_kind : string;
  f_title : string;
  f_fields : list formField;
  f_index : Z;
}.

Definition set_index (i : Z) (f : adminForm) : adminForm := mkForm (f_kind f) (f_title f) (f_fields f) i.
Definition set_fields (l : list formField) (f : adminForm) : adminForm :=
  mkForm (f_kind f) (f_title f) l (f_index f).

Record actionItem := mkItem { ai_label : string; ai_code : string }.

(** The zero values of the store's records *)
Definition no_target : Target :=
  mkTarget 0 "" "" "" "" 0 false "" "" "" "" None zero_time zero_time.
Definition no_user : User := mkUser 0 "" "" false false zero_time.
Definition no_grant : Grant := mkGrant "" "" "" false false false false.
Definition no_rule : ForwardRule := mkForwardRule 0 0 "" "" 0.
Definition no_identity : SSHIdentity := mkSSHIdentity 0 "" "" "" "" "" zero_time.

(** What an operation that takes several steps has collected so far; a field
    it does not use has Go's zero value. *)
Record pendingOperation := MkPending {
  p_kind : string;
  p_name : string;
  p_host : string;
  p_remote : string;
  p_credentialKind : string;
  p_username : string;
  p_group : string;
  p_port : Z;
  p_target : Target;
  p_user : User;
  p_grant : Grant;
  p_forwardRule : ForwardRule;
  p_identity : SSHIdentity;
  p_identityID : Z;
  p_keyFingerprint : string;
  p_privateKey : string;
  p_hostKey : option SshKey;
  p_totpSecret : string;
  p_totpURI : string;
  p_totpQR : list string;
}.

Definition empty_pending : pendingOperation :=
  MkPending "" "" "" "" "" "" "" 0 no_target no_user no_grant no_rule no_identity 0 "" "" None "" "" [].

Definition pwith_kind (x : string) (p : pendingOperation) : pendingOperation :=
  MkPending x (p_name p) (p_host p) (p_remote p) (p_credentialKind p) (p_username p) (p_group p)
    (p_port p) (p_target p) (p_user p) (p_grant p) (p_forwardRule p) (p_identity p)
    (p_identityID p) (p_keyFingerprint p) (p_privateKey p) (p_hostKey p) (p_totpSecret p)
    (p_totpURI p) (p_totpQR p).
Definition pwith_name (x : string) (p : pendingOperation) : pendingOperation :=
  MkPending (p_kind p) x (p_host p) (p_remote p) (p_credentialKind p) (p_username p) (p_group p)
    (p_port p) (p_target p) (p_user p) (p_grant p) (p_forwardRule p) (p_identity p)
    (p_identityID p) (p_keyFingerprint p) (p_privateKey p) (p_hostKey p) (p_totpSecret p)
    (p_totpURI p) (p_totpQR p).
Definition pwith_host (x : string) (p : pendingOperation) : pendingOperation :=
  MkPending (p_kind p) (p_name p) x (p_remote p) (p_credentialKind p) (p_username p) (p_group p)
    (p_port p) (p_target p) (p_user p) (p_grant p) (p_forwardRule p) (p_identity p)
    (p_identityID p) (p_keyFingerprint p) (p_privateKey p) (p_hostKey p) (p_totpSecret p)
    (p_totpURI p) (p_totpQR p).
Definition pwith_remote (x : string) (p : pendingOperation) : pendingOperation :=
  MkPending (p_kind p) (p_name p) (p_host p) x (p_credentialKind p) (p_username p) (p_group p)
    (p_port p) (p_target p) (p_user p) (p_grant p) (p_forwardRule p) (p_identity p)
    (p_identityID p) (p_keyFingerprint p) (p_privateKey p) (p_hostKey p) (p_totpSecret p)
    (p_totpURI p) (p_totpQR p).
Definition pwith_credentialKind (x : string) (p : pendingOperation) : pendingOperation :=
  MkPending (p_kind p) (p_name p) (p_host p) (p_remote p) x (p_username p) (p_group p)
    (p_port p) (p_target p) (p_user p) (p_grant p) (p_forwardRule p) (p_identity p)
    (p_identityID p) (p_keyFingerprint p) (p_privateKey p) (p_hostKey p) (p_totpSecret p)
    (p_totpURI p) (p_totpQR p).
Definition pwith_username (x : string) (p : pendingOperation) : pendingOperation :=
  MkPending (p_kind p) (p_name p) (p_host p) (p_remote p) (p_credentialKind p) x (p_group p)
    (p_port p) (p_target p) (p_user p) (p_grant p) (p_forwardRule p) (p_identity p)
    (p_identityID p) (p_keyFingerprint p) (p_privateKey p) (p_hostKey p) (p_totpSecret p)
    (p_totpURI p) (p_totpQR p).
Definition pwith_group (x : string) (p : pendingOperation) : pendingOperation :=
  MkPending (p_kind p) (p_name p) (p_host p) (p_remote p) (p_credentialKind p) (p_username p) x
    (p_port p) (p_target p) (p_user p) (p_grant p) (p_forwardRule p) (p_identity p)
    (p_identityID p) (p_keyFingerprint p) (p_privateKey p) (p_hostKey p) (p_totpSecret p)
    (p_totpURI p) (p_totpQR p).
Definition pwith_port (x : Z) (p : pendingOperation) : pendingOperation :=
  MkPending (p_kind p) (p_name p) (p_host p) (p_remote p) (p_credentialKind p) (p_username p)
    (p_group p) x (p_target p) (p_user p) (p_grant p) (p_forwardRule p) (p_identity p)
    (p_identityID p) (p_keyFingerprint p) (p_privateKey p) (p_hostKey p) (p_totpSecret p)
    (p_totpURI p) (p_totpQR p).
Definition pwith_target (x : Target) (p : pendingOperation) : pendingOperation :=
  MkPending (p_kind p) (p_name p) (p_host p) (p_remote p) (p_credentialKind p) (p_username p)
    (p_group p) (p_port p) x (p_user p) (p_grant p) (p_forwardRule p) (p_identity p)
    (p_identityID p) (p_keyFingerprint p) (p_privateKey p) (p_hostKey p) (p_totpSecret p)
    (p_totpURI p) (p_totpQR p).
Definition pwith_user (x : User) (p : pendingOperation) : pendingOperation :=
  MkPending (p_kind p) (p_name p) (p_host p) (p_remote p) (p_credentialKind p) (p_username p)
    (p_group p) (p_port p) (p_target p) x (p_grant p) (p_forwardRule p) (p_identity p)
    (p_identityID p) (p_keyFingerprint p) (p_privateKey p) (p_hostKey p) (p_totpSecret p)
    (p_totpURI p) (p_totpQR p).
Definition pwith_grant (x : Grant) (p : pendingOperation) : pendingOperation :=
  MkPending (p_kind p) (p_name p) (p_host p) (p_remote p) (p_credentialKind p) (p_username p)
    (p_group p) (p_port p) (p_target p) (p_user p) x (p_forwardRule p) (p_identity p)
    (p_identityID p) (p_keyFingerprint p) (p_privateKey p) (p_hostKey p) (p_totpSecret p)
    (p_totpURI p) (p_totpQR p).
Definition pwith_forwardRule (x : ForwardRule) (p : pendingOperation) : pendingOperation :=
  MkPending (p_kind p) (p_name p) (p_host p) (p_remote p) (p_credentialKind p) (p_username p)
    (p_group p) (p_port p) (p_target p) (p_user p) (p_grant p) x (p_identity p) (p_identityID p)
    (p_keyFingerprint p) (p_privateKey p) (p_hostKey p) (p_totpSecret p) (p_totpURI p)
    (p_totpQR p).
Definition pwith_identity (x : SSHIdentity) (p : pendingOperation) : pendingOperation :=
  MkPending (p_kind p) (p_name p) (p_host p) (p_remote p) (p_credentialKind p) (p_username p)
    (p_group p) (p_port p) (p_target p) (p_user p) (p_grant p) (p_forwardRule p) x
    (p_identityID p) (p_keyFingerprint p) (p_privateKey p) (p_hostKey p) (p_totpSecret p)
    (p_totpURI p) (p_totpQR p).
Definition pwith_identityID (x : Z) (p : pendingOperation) : pendingOperation :=
  MkPending (p_kind p) (p_name p) (p_host p) (p_remote p) (p_credentialKind p) (p_username p)
    (p_group p) (p_port p) (p_target p) (p_user p) (p_grant p) (p_forwardRule p) (p_identity p)
    x (p_keyFingerprint p) (p_privateKey p) (p_hostKey p) (p_totpSecret p) (p_totpURI p)
    (p_totpQR p).
Definition pwith_keyFingerprint (x : string) (p : pendingOperation) : pendingOperation :=
  MkPending (p_kind p) (p_name p) (p_host p) (p_remote p) (p_credentialKind p) (p_username p)
    (p_group p) (p_port p) (p_target p) (p_user p) (p_grant p) (p_forwardRule p) (p_identity p)
    (p_identityID p) x (p_privateKey p) (p_hostKey p) (p_totpSecret p) (p_totpURI p)
    (p_totpQR p).
Definition pwith_privateKey (x : string) (p : pendingOperation) : pendingOperation :=
  MkPending (p_kind p) (p_name p) (p_host p) (p_remote p) (p_credentialKind p) (p_username p)
    (p_group p) (p_port p) (p_target p) (p_user p) (p_grant p) (p_forwardRule p) (p_identity p)
    (p_identityID p) (p_keyFingerprint p) x (p_hostKey p) (p_totpSecret p) (p_totpURI p)
    (p_totpQR p).
Definition pwith_hostKey (x : option SshKey) (p : pendingOperation) : pendingOperation :=
  MkPending (p_kind p) (p_name p) (p_host p) (p_remote p) (p_credentialKind p) (p_username p)
    (p_group p) (p_port p) (p_target p) (p_user p) (p_grant p) (p_forwardRule p) (p_identity p)
    (p_identityID p) (p_keyFingerprint p) (p_privateKey p) x (p_totpSecret p) (p_totpURI p)
    (p_totpQR p).
Definition pwith_totpSecret (x : string) (p : pendingOperation) : pendingOperation :=
  MkPending (p_kind p) (p_name p) (p_host p) (p_remote p) (p_credentialKind p) (p_username p)
    (p_group p) (p_port p) (p_target p) (p_user p) (p_grant p) (p_forwardRule p) (p_identity p)
    (p_identityID p) (p_keyFingerprint p) (p_privateKey p) (p_hostKey p) x (p_totpURI p)
    (p_totpQR p).
Definition pwith_totpURI (x : string) (p : pendingOperation) : pendingOperation :=
  MkPending (p_kind p) (p_name p) (p_host p) (p_remote p) (p_credentialKind p) (p_username p)
    (p_group p) (p_port p) (p_target p) (p_user p) (p_grant p) (p_forwardRule p) (p_identity p)
    (p_identityID p) (p_keyFingerprint p) (p_privateKey p) (p_hostKey p) (p_totpSecret p) x
    (p_totpQR p).
Definition pwith_totpQR (x : list string) (p : pendingOperation) : pendingOperation :=
  MkPending (p_kind p) (p_name p) (p_host p) (p_remote p) (p_credentialKind p) (p_username p)
    (p_group p) (p_port p) (p_target p) (p_user p) (p_grant p) (p_forwardRule p) (p_identity p)
    (p_identityID p) (p_keyFingerprint p) (p_privateKey p) (p_hostKey p) (p_totpSecret p)
    (p_totpURI p) x.

(** What [New] and [ConfigureOIDC] are given.  [c_cipher] and [c_oidc] tell
    whether there is a cipher and an authenticator (the pointers are not nil). *)
Record menu_config := MkConfig {
  c_cipher : bool;
  c_user : User;
  c_sourceAddress : string;
  c_oidc : bool;
  c_oidcIssuer : string;
  c_oidcTimeout : Z;
  c_canSelfLinkOIDC : bool;
}.

Record dataLists := MkData {
  d_targets : list Target;
  d_users : list User;
  d_groups : list Group;
  d_groupMembers : list GroupMember;
  d_identities : list SSHIdentity;
  d_grants : list Grant;
  d_forwardRules : list ForwardRule;
  d_auditEvents : list AuditEvent;
  d_oidcIdentities : list OIDCIdentity;
}.

Definition no_data : dataLists := MkData [] [] [] [] [] [] [] [] [].

Definition put_oidcIdentities (l : list OIDCIdentity) (d : dataLists) : dataLists :=
  MkData (d_targets d) (d_users d) (d_groups d) (d_groupMembers d) (d_identities d) (d_grants d)
    (d_forwardRules d) (d_auditEvents d) l.

(** The menu: its configuration, the rows it shows, and its state. *)
Record Model := MkModel {
  m_config : menu_config;
  m_data : dataLists;
  m_cursor : Z;
  m_width : Z;
  m_height : Z;
  m_query : string;
  m_status : string;
  m_result : option Result;
  m_section : string;
  m_oidcLogin : Login;
  m_mode : string;
  m_input : string;
  m_searching : bool;
  m_pending : option pendingOperation;
  m_form : option adminForm;
  m_actions : list actionItem;
  m_actionCursor : Z;
  m_totpAttempts : Z;
}.

Definition with_data (x : dataLists) (m : Model) : Model :=
  MkModel (m_config m) x (m_cursor m) (m_width m) (m_height m) (m_query m) (m_status m)
    (m_result m) (m_section m) (m_oidcLogin m) (m_mode m) (m_input m) (m_searching m)
    (m_pending m) (m_form m) (m_actions m) (m_actionCursor m) (m_totpAttempts m).
Definition with_cursor (x : Z) (m : Model) : Model :=
  MkModel (m_config m) (m_data m) x (m_width m) (m_height m) (m_query m) (m_status m)
    (m_result m) (m_section m) (m_oidcLogin m) (m_mode m) (m_input m) (m_searching m)
    (m_pending m) (m_form m) (m_actions m) (m_actionCursor m) (m_totpAttempts m).
Definition with_width (x : Z) (m : Model) : Model :=
  MkModel (m_config m) (m_data m) (m_cursor m) x (m_height m) (m_query m) (m_status m)
    (m_result m) (m_section m) (m_oidcLogin m) (m_mode m) (m_input m) (m_searching m)
    (m_pending m) (m_form m) (m_actions m) (m_actionCursor m) (m_totpAttempts m).
Definition with_height (x : Z) (m : Model) : Model :=
  MkModel (m_config m) (m_data m) (m_cursor m) (m_width m) x (m_query m) (m_status m)
    (m_result m) (m_section m) (m_oidcLogin m) (m_mode m) (m_input m) (m_searching m)
    (m_pending m) (m_form m) (m_actions m) (m_actionCursor m) (m_totpAttempts m).
Definition with_query (x : string) (m : Model) : Model :=
  MkModel (m_config m) (m_data m) (m_cursor m) (m_width m) (m_height m) x (m_status m)
    (m_result m) (m_section m) (m_oidcLogin m) (m_mode m) (m_input m) (m_searching m)
    (m_pending m) (m_form m) (m_actions m) (m_actionCursor m) (m_totpAttempts m).
Definition with_status (x : string) (m : Model) : Model :=
  MkModel (m_config m) (m_data m) (m_cursor m) (m_width m) (m_height m) (m_query m) x
    (m_result m) (m_section m) (m_oidcLogin m) (m_mode m) (m_input m) (m_searching m)
    (m_pending m) (m_form m) (m_actions m) (m_actionCursor m) (m_totpAttempts m).
Definition with_result (x : option Result) (m : Model) : Model :=
  MkModel (m_config m) (m_data m) (m_cursor m) (m_width m) (m_height m) (m_query m) (m_status m)
    x (m_section m) (m_oidcLogin m) (m_mode m) (m_input m) (m_searching m) (m_pending m)
    (m_form m) (m_actions m) (m_actionCursor m) (m_totpAttempts m).
Definition with_section (x : string) (m : Model) : Model :=
  MkModel (m_config m) (m_data m) (m_cursor m) (m_width m) (m_height m) (m_query m) (m_status m)
    (m_result m) x (m_oidcLogin m) (m_mode m) (m_input m) (m_searching m) (m_pending m)
    (m_form m) (m_actions m) (m_actionCursor m) (m_totpAttempts m).
Definition with_oidcLogin (x : Login) (m : Model) : Model :=
  MkModel (m_config m) (m_data m) (m_cursor m) (m_width m) (m_height m) (m_query m) (m_status m)
    (m_result m) (m_section m) x (m_mode m) (m_input m) (m_searching m) (m_pending m) (m_form m)
    (m_actions m) (m_actionCursor m) (m_totpAttempts m).
Definition with_mode (x : string) (m : Model) : Model :=
  MkModel (m_config m) (m_data m) (m_cursor m) (m_width m) (m_height m) (m_query m) (m_status m)
    (m_result m) (m_section m) (m_oidcLogin m) x (m_input m) (m_searching m) (m_pending m)
    (m_form m) (m_actions m) (m_actionCursor m) (m_totpAttempts m).
Definition with_input (x : string) (m : Model) : Model :=
  MkModel (m_config m) (m_data m) (m_cursor m) (m_width m) (m_height m) (m_query m) (m_status m)
    (m_result m) (m_section m) (m_oidcLogin m) (m_mode m) x (m_searching m) (m_pending m)
    (m_form m) (m_actions m) (m_actionCursor m) (m_totpAttempts m).
Definition with_searching (x : bool) (m : Model) : Model :=
  MkModel (m_config m) (m_data m) (m_cursor m) (m_width m) (m_height m) (m_query m) (m_status m)
    (m_result m) (m_section m) (m_oidcLogin m) (m_mode m) (m_input m) x (m_pending m) (m_form m)
    (m_actions m) (m_actionCursor m) (m_totpAttempts m).
Definition with_pending (x : option pendingOperation) (m : Model) : Model :=
  MkModel (m_config m) (m_data m) (m_cursor m) (m_width m) (m_height m) (m_query m) (m_status m)
    (m_result m) (m_section m) (m_oidcLogin m) (m_mode m) (m_input m) (m_searching m) x
    (m_form m) (m_actions m) (m_actionCursor m) (m_totpAttempts m).
Definition with_form (x : option adminForm) (m : Model) : Model :=
  MkModel (m_config m) (m_data m) (m_cursor m) (m_width m) (m_height m) (m_query m) (m_status m)
    (m_result m) (m_section m) (m_oidcLogin m) (m_mode m) (m_input m) (m_searching m)
    (m_pending m) x (m_actions m) (m_actionCursor m) (m_totpAttempts m).
Definition with_actions (x : list actionItem) (m : Model) : Model :=
  MkModel (m_config m) (m_data m) (m_cursor m) (m_width m) (m_height m) (m_query m) (m_status m)
    (m_result m) (m_section m) (m_oidcLogin m) (m_mode m) (m_input m) (m_searching m)
    (m_pending m) (m_form m) x (m_actionCursor m) (m_totpAttempts m).
Definition with_actionCursor (x : Z) (m : Model) : Model :=
  MkModel (m_config m) (m_data m) (m_cursor m) (m_width m) (m_height m) (m_query m) (m_status m)
    (m_result m) (m_section m) (m_oidcLogin m) (m_mode m) (m_input m) (m_searching m)
    (m_pending m) (m_form m) (m_actions m) x (m_totpAttempts m).
Definition with_totpAttempts (x : Z) (m : Model) : Model :=
  MkModel (m_config m) (m_data m) (m_cursor m) (m_width m) (m_height m) (m_query m) (m_status m)
    (m_result m) (m_section m) (m_oidcLogin m) (m_mode m) (m_input m) (m_searching m)
    (m_pending m) (m_form m) (m_actions m) (m_actionCursor m) x.

Definition m_user (m : Model) : User := c_user (m_config m).
Definition is_admin (m : Model) : bool := User_Role (m_user m) =s RoleAdmin.
Definition m_targets (m : Model) : list Target := d_targets (m_data m).
Definition m_users (m : Model) : list User := d_users (m_data m).
Definition m_groups (m : Model) : list Group := d_groups (m_data m).
Definition m_groupMembers (m : Model) : list GroupMember := d_groupMembers (m_data m).
Definition m_identities (m : Model) : list SSHIdentity := d_identities (m_data m).
Definition m_grants (m : Model) : list Grant := d_grants (m_data m).
Definition m_forwardRules (m : Model) : list ForwardRule := d_forwardRules (m_data m).
Definition m_auditEvents (m : Model) : list AuditEvent := d_auditEvents (m_data m).
Definition m_oidcIdentities (m : Model) : list OIDCIdentity := d_oidcIdentities (m_data m).
