(* ===== verification/MenuModel.v ===== *)
(** * The menu's constructors and helpers ([internal/tui/menu.go])

    [New], the functions on names and options, the rows that are shown, and the
    moves of the cursor and of the section. *)

From S2P Require Import Prelude GoStrings GoTime Schema StoreUsers StoreOIDC StoreTargets Auth MenuState.

(** ** Constructors *)

Definition New (cipher : bool) (sourceAddress : string) (u : User) (status : string) : Model :=
  MkModel (MkConfig cipher u sourceAddress false "" 0 false) no_data 0 0 0 "" status None "targets"
    (mkLogin "" "" "") "" "" false None None [] 0 0.

Definition ConfigureOIDC (authenticator : bool) (issuer : string) (timeout : Z) (canSelfLink : bool)
    (m : Model) : Model :=
  let c := m_config m in
  MkModel (MkConfig (c_cipher c) (c_user c) (c_sourceAddress c) authenticator issuer timeout canSelfLink)
    (m_data m) (m_cursor m) (m_width m) (m_height m) (m_query m) (m_status m) (m_result m) (m_section m)
    (m_oidcLogin m) (m_mode m) (m_input m) (m_searching m) (m_pending m) (m_form m) (m_actions m)
    (m_actionCursor m) (m_totpAttempts m).

Definition NewTOTPChallenge (cipher : bool) (sourceAddress : string) (u : User) : Model :=
  New cipher sourceAddress u "Enter the current code from your authenticator app."
  |> with_mode "totp_auth".

(** The method [Result] *)
Definition Model_Result (m : Model) : Result := default quit_result (m_result m).

(** ** Helpers *)

Definition removeLastRune (v : string) : string :=
  match runes v with
  | [] => v
  | rs => concat_strings (encode_rune <$> removelast (fst <$> rs))
  end.

(** [len([]rune(key)) == 1] *)
Definition one_rune (key : string) : bool := lenZ (runes key) =? 1.

Definition closeModal (status : string) (m : Model) : Model :=
  m |> with_mode "" |> with_input "" |> with_form None |> with_actions [] |> with_pending None
    |> with_actionCursor 0 |> with_status status.

Definition isGroupMember (m : Model) (group username : string) : bool :=
  existsb (λ member, (GM_Group member =s group) && (GM_Username member =s username)) (m_groupMembers m).

Definition oidcIdentityForUser (m : Model) (userID : Z) : option OIDCIdentity :=
  List.find (λ identity, (OIDC_UserID identity =? userID)
                         && (OIDC_Issuer identity =s c_oidcIssuer (m_config m))) (m_oidcIdentities m).

Definition targetNames (values : list Target) : list string := Target_Name <$> values.
Definition userNames (values : list User) : list string := User_Username <$> values.
Definition groupNames (values : list Group) : list string := Group_Name <$> values.
Definition identityNames (values : list SSHIdentity) : list string := SI_Name <$> values.

Definition firstIdentity (values : list SSHIdentity) : string :=
  match values with [] => "" | v :: _ => SI_Name v end.

Definition selectedIdentityName (values : list SSHIdentity) (selected : option Z) : string :=
  match selected with
  | Some id => match List.find (λ identity, SI_ID identity =? id) values with
               | Some identity => SI_Name identity
               | None => firstIdentity values
               end
  | None => firstIdentity values
  end.

Definition credentialKinds : list string :=
  [CredentialPrivateKey; CredentialPassword; CredentialStoredKey; CredentialAgent].

Definition firstUser (values : list User) : string :=
  match values with [] => "" | v :: _ => User_Username v end.

Definition contains (values : list string) (value : string) : bool := existsb (String.eqb value) values.

Definition enabledWord (enabled : bool) : string := if enabled then "enable" else "disable".
Definition addRemove (add : bool) : string := if add then "add" else "remove".

(** The first index the loop finds, 0 when there is none *)
Fixpoint index_of (values : list string) (value : string) : option nat :=
  match values with
  | [] => None
  | v :: more => if v =s value then Some O else S <$> index_of more value
  end.

(** [delta] is 1 or -1: the sum is not negative, so Go's [%] is [mod]. *)
Definition cycleOption (delta : Z) (field : formField) : formField :=
  match ff_options field with
  | [] => field
  | options =>
    let index := Z.of_nat (default O (index_of options (ff_value field))) in
    let index := (index + delta + lenZ options) mod lenZ options in
    set_value (nth (Z.to_nat index) options "") field
  end.

Definition minInt (a b : Z) : Z := if a <? b then a else b.
Definition maxInt (a b : Z) : Z := if b <? a then a else b.

Section helpers.
Context `{UnicodeTables}.

Definition filtered (m : Model) : list Target :=
  if m_query m =s "" then m_targets m
  else
    let q := ToLower (m_query m) in
    List.filter (λ t, Contains (ToLower (Target_Name t +:+ " " +:+ Target_Host t +:+ " "
                                         +:+ Target_RemoteUsername t)) q) (m_targets m).

Definition itemCount (m : Model) : Z :=
  if m_section m =s "keys" then lenZ (m_identities m)
  else if m_section m =s "users" then lenZ (m_users m)
  else if m_section m =s "groups" then lenZ (m_groups m)
  else if m_section m =s "grants" then lenZ (m_grants m)
  else if m_section m =s "forwards" then lenZ (m_forwardRules m)
  else if m_section m =s "audit" then lenZ (m_auditEvents m)
  else lenZ (filtered m).

Definition clamp (m : Model) : Model :=
  let n := itemCount m in
  if n =? 0 then m |> with_cursor 0
  else if n <=? m_cursor m then m |> with_cursor (n - 1)
  else m.

Definition pageSize (m : Model) : Z :=
  let h := if m_height m <=? 0 then 24 else m_height m in
  let h := if 1 <? h then h - 1 else h in
  if h <? 10 then 1 else h - 8.

Definition section_names : list string :=
  ["targets"; "keys"; "users"; "groups"; "grants"; "forwards"; "audit"].

Definition changeSection (delta : Z) (m : Model) : Model :=
  let current := Z.of_nat (default O (index_of section_names (m_section m))) in
  let current := (current + delta + lenZ section_names) mod lenZ section_names in
  m |> with_section (nth (Z.to_nat current) section_names "") |> with_cursor 0 |> with_query ""
    |> with_searching false.

End helpers.
