(* ===== verification/MenuCommands.v ===== *)
(** * The commands of the menu ([internal/tui/menu.go])

    A [tea.Cmd] is a closure that runs after the handler that made it and ends
    with a message.  [command] has one constructor per closure of the file, with
    the values it captures, and [perform] its body.  [RunRemote] runs a command
    before the next event, so what a closure reads through a pointer is what it
    was when the closure was made.  The deadlines of contexts are not modelled,
    except that the identity provider is given one. *)

From S2P Require Import Prelude GoStrings Json GoTime Effects SshKeys Sql Schema Names StoreUsers.
From S2P Require Import StoreOIDC StoreTargets StoreAccess StoreAudit StoreCalls Totp Auth Downstream.
From S2P Require Import MenuState MenuModel.

(** What the world outside answers while an event is handled: the clock, what
    [crypto/rand] yields (a nonce, a TOTP secret, a key), the QR encoder, the
    identity provider (given the deadline), and the probe of a host: the dial,
    the key its callback saw, the handshake. *)
Record menu_env := MkMenuEnv {
  env_now : Z;
  env_nonce : result string;
  env_secret : result (list Z);
  env_qr : string → result bitmap;
  env_GenerateKey : result string;
  env_MarshalPrivateKey : string → string → result string;
  env_oidc : Z → oidcAuthenticator;
  env_probe : string → result unit * option SshKey * result unit;
}.

(** [m.mutate]'s function: one call of the store, or the enrolment of a second
    factor *)
Inductive operation :=
  | StoreCall (c : call)
  | EnrollTOTP (userID : Z) (secret : string) (counter : Z).

Inductive command :=
  | QuitCmd
  | LoadCmd
  | OIDCBeginCmd
  | OIDCLinkCmd (login : Login) (user : User)
  | MutateCmd (section status event : string) (details : list (string * jvalue)) (op : operation)
  | ScanHostCmd (address : string)
  | HostKeyCmd (p : pendingOperation)
  | IdentityCmd (p : pendingOperation) (publicKey fingerprint : string) (payload : Payload)
  | StoredTargetCmd (p : pendingOperation)
  | CredentialCmd (p : pendingOperation) (payload : Payload).

Record dataMsg := MkDataMsg { dm_data : dataLists; dm_err : option error }.

Inductive message :=
  | QuitMsg
  | ReloadMsg
  | DataMsg (d : dataMsg)
  | OIDCBeginMsg (r : result Login)
  | OIDCLinkMsg (identity : Identity) (err : option error)
  | HostKeyMsg (r : result SshKey)
  | MutationMsg (status section : string) (err : option error)
  | PasteMsg (content : string)
  | WindowSizeMsg (width height : Z)
  | KeyPressMsg (keystroke : string).

Definition err_of {A} (r : result A) : option error :=
  match r with Ok _ => None | Err e => Some e end.

(** [d.x, d.err = q()]: the rows, none of them when there is an error *)
Definition rows_of {A} (r : result (list A)) : list A := match r with Ok l => l | Err _ => [] end.

Definition five_minutes : Z := 300 * 1000000000.

Definition key_payload (privateKey passphrase : string) : Payload :=
  mkPayload 0 "" privateKey "" passphrase "".
Definition password_payload (password : string) : Payload := mkPayload 0 password "" "" "" "".
Definition agent_payload (publicKey : string) : Payload := mkPayload 0 "" "" publicKey "" "".

Section commands.
Context `{UnicodeTables, Rowids, TimeParser, KeyFormats, SealOps}.

(** ** [load] *)

(** [if d.err == nil { d.x, d.err = q() }]: [put] stores the rows. *)
Definition load_rows {A} (q : prog db (result (list A))) (put : list A → dataLists → dataLists)
    (d : dataMsg) : prog db dataMsg :=
  match dm_err d with
  | Some _ => Ret d
  | None => let* r := q in Ret (MkDataMsg (put (rows_of r) (dm_data d)) (err_of r))
  end.

Definition load_oidc (cfg : menu_config) (d : dataMsg) : prog db dataMsg :=
  if c_oidcIssuer cfg =s "" then Ret d
  else if User_Role (c_user cfg) =s RoleAdmin then
    load_rows (ListOIDCIdentities (c_oidcIssuer cfg)) put_oidcIdentities d
  else
    let* r := OIDCIdentityForUser (User_ID (c_user cfg)) (c_oidcIssuer cfg) in
    match r with
    | Ok identity => Ret (MkDataMsg (put_oidcIdentities [identity] (dm_data d)) (dm_err d))
    | Err ErrNoRows => Ret d
    | Err e => Ret (MkDataMsg (dm_data d) (Some e))
    end.

Definition put_users l d := MkData (d_targets d) l (d_groups d) (d_groupMembers d) (d_identities d)
  (d_grants d) (d_forwardRules d) (d_auditEvents d) (d_oidcIdentities d).
Definition put_groups l d := MkData (d_targets d) (d_users d) l (d_groupMembers d) (d_identities d)
  (d_grants d) (d_forwardRules d) (d_auditEvents d) (d_oidcIdentities d).
Definition put_groupMembers l d := MkData (d_targets d) (d_users d) (d_groups d) l (d_identities d)
  (d_grants d) (d_forwardRules d) (d_auditEvents d) (d_oidcIdentities d).
Definition put_identities l d := MkData (d_targets d) (d_users d) (d_groups d) (d_groupMembers d) l
  (d_grants d) (d_forwardRules d) (d_auditEvents d) (d_oidcIdentities d).
Definition put_grants l d := MkData (d_targets d) (d_users d) (d_groups d) (d_groupMembers d)
  (d_identities d) l (d_forwardRules d) (d_auditEvents d) (d_oidcIdentities d).
Definition put_forwardRules l d := MkData (d_targets d) (d_users d) (d_groups d) (d_groupMembers d)
  (d_identities d) (d_grants d) l (d_auditEvents d) (d_oidcIdentities d).
Definition put_auditEvents l d := MkData (d_targets d) (d_users d) (d_groups d) (d_groupMembers d)
  (d_identities d) (d_grants d) (d_forwardRules d) l (d_oidcIdentities d).

Definition load_admin (d : dataMsg) : prog db dataMsg :=
  let* d := load_rows ListUsers put_users d in
  let* d := load_rows ListGroups put_groups d in
  let* d := load_rows ListSSHIdentities put_identities d in
  let* d := load_rows ListGroupMembers put_groupMembers d in
  let* d := load_rows ListGrants put_grants d in
  let* d := load_rows ListForwardRules put_forwardRules d in
  load_rows (ListAudit 50) put_auditEvents d.

Definition load (cfg : menu_config) : prog db dataMsg :=
  let* ts := if User_Role (c_user cfg) =s RoleAdmin then ListTargets
             else ListAuthorizedTargets (c_user cfg) in
  match ts with
  | Err e => Ret (MkDataMsg no_data (Some e))
  | Ok ts =>
    let* d := load_oidc cfg (MkDataMsg (MkData ts [] [] [] [] [] [] [] []) None) in
    if User_Role (c_user cfg) =s RoleAdmin then load_admin d else Ret d
  end.

(** ** The bodies of the closures *)

Definition menu_audit (cfg : menu_config) (type : string) (details : list (string * jvalue)) :
    prog db (result unit) :=
  Audit (event (Some (User_ID (c_user cfg))) (User_Username (c_user cfg)) (c_sourceAddress cfg)
           type None "success" (jsonString details)).

Definition run_operation (e : menu_env) (op : operation) : prog db (result unit) :=
  match op with
  | StoreCall c => exec c
  | EnrollTOTP userID secret counter =>
    let? sealed := Ret (EncryptTOTP (env_nonce e) userID secret) in
    let? _ := SetUserTOTP userID sealed.1 sealed.2 in
    ConsumeTOTPCounter userID counter
  end.

(** [c.key] of a nil cipher *)
Definition needs_cipher (op : operation) : bool :=
  match op with EnrollTOTP _ _ _ => true | StoreCall _ => false end.

(** [if err == nil { err = m.audit(...) }; return mutationMsg{...}] *)
Definition audited (cfg : menu_config) (status section type : string) (details : list (string * jvalue))
    (p : prog db (result unit)) : prog db (option message) :=
  let* err := (let? _ := p in menu_audit cfg type details) in
  Ret (Some (MutationMsg status section (err_of err))).

Definition failed (e : error) : prog db (option message) := Ret (Some (MutationMsg "" "" (Some e))).

Definition oidc_deadline (cfg : menu_config) : Z :=
  if c_oidcTimeout cfg <=? 0 then five_minutes else c_oidcTimeout cfg.

(** The closure of [completeOIDCLink]; [identity] is the zero value when
    [Complete] fails. *)
Definition oidc_link (cfg : menu_config) (e : menu_env) (login : Login) (user : User) :
    prog db (option message) :=
  match Complete (env_oidc e (oidc_deadline cfg)) login with
  | Err err => Ret (Some (OIDCLinkMsg (mkIdentity "" "") (Some err)))
  | Ok identity =>
    let* err :=
      (let? _ := LinkOIDCIdentity (User_ID user) (c_oidcIssuer cfg) (Identity_Subject identity)
                   (Identity_Username identity) in
       Audit (event (Some (User_ID user)) (User_Username user) (c_sourceAddress cfg) "user.oidc.link"
                None "success"
                (jsonString [("issuer", JString (c_oidcIssuer cfg));
                             ("provider_username", JString (Identity_Username identity))]))) in
    Ret (Some (OIDCLinkMsg identity (err_of err)))
  end.

Definition canonical_key (key : SshKey) : string := TrimSpace (MarshalAuthorizedKey key).

(** The closure of [finishHostKey]; a nil host key is a panic. *)
Definition host_key_body (cfg : menu_config) (p : pendingOperation) : prog db (option message) :=
  match p_hostKey p with
  | None => Ret None
  | Some key =>
    audited cfg "Host key replaced." "" "admin.target.host_key.replace"
      [("fingerprint", JString (FingerprintSHA256 key)); ("target", JString (Target_Name (p_target p)))]
      (SetTargetHostKey (Target_Name (p_target p)) (Key_Type key) (canonical_key key))
  end.

(** The closure of [finishIdentityPayload] *)
Definition identity_body (cfg : menu_config) (e : menu_env) (p : pendingOperation)
    (publicKey fingerprint : string) (payload : Payload) : prog db (option message) :=
  if negb (c_cipher cfg) then failed (Msg "credential cipher unavailable")
  else
    let* added := AddSSHIdentity (p_name p) publicKey fingerprint in
    match added with
    | Err err => failed err
    | Ok identity =>
      let* stored :=
        (let? sealed := Ret (EncryptSSHIdentity (env_nonce e) (SI_ID identity) payload) in
         SetSSHIdentitySecret (SI_ID identity) sealed.1 sealed.2) in
      match stored with
      | Err err => let* _ := DeleteSSHIdentity (SI_Name identity) in failed err
      | Ok _ =>
        audited cfg "SSH key stored." "keys" "admin.ssh_identity.add"
          [("fingerprint", JString fingerprint); ("ssh_key", JString (SI_Name identity))] (Ret (Ok tt))
      end
    end.

Definition new_target (p : pendingOperation) (key : SshKey) (kind : string) (identity : option Z) :
    NewTarget :=
  mkNewTarget (p_name p) (p_host p) (p_port p) (p_remote p) kind (Key_Type key) (canonical_key key)
    identity.

(** The closure of [finishStoredTarget] *)
Definition stored_target_body (cfg : menu_config) (p : pendingOperation) : prog db (option message) :=
  match p_hostKey p with
  | None => Ret None
  | Some key =>
    let* added := AddTarget (new_target p key CredentialStoredKey (Some (p_identityID p))) in
    let* err :=
      match added with
      | Err err => Ret (Err err)
      | Ok t =>
        menu_audit cfg "admin.target.add"
          [("credential_kind", JString CredentialStoredKey);
           ("fingerprint", JString (SI_Fingerprint (p_identity p)));
           ("host_key", JString (FingerprintSHA256 key));
           ("ssh_key", JString (SI_Name (p_identity p))); ("target", JString (Target_Name t))]
      end in
    Ret (Some (MutationMsg "Target added with saved SSH key." "targets" (err_of err)))
  end.

(** The branch of [finishCredential] that adds a target *)
Definition add_target_body (cfg : menu_config) (e : menu_env) (p : pendingOperation) (payload : Payload)
    (key : SshKey) : prog db (option message) :=
  let* added := AddTarget (new_target p key (p_credentialKind p) None) in
  match added with
  | Err err => failed err
  | Ok t =>
    let* stored :=
      (let? sealed := Ret (Encrypt (env_nonce e) (Target_ID t) (p_credentialKind p) payload) in
       SetTargetCredential (Target_ID t) sealed.1 sealed.2) in
    match stored with
    | Err err => let* _ := DeleteTarget (Target_Name t) in failed err
    | Ok _ =>
      audited cfg "Target added and credential saved." "targets" "admin.target.add"
        [("credential_kind", JString (p_credentialKind p));
         ("host_key", JString (FingerprintSHA256 key)); ("target", JString (Target_Name t))]
        (Ret (Ok tt))
    end
  end.

(** The closure of [finishCredential] *)
Definition credential_body (cfg : menu_config) (e : menu_env) (p : pendingOperation) (payload : Payload) :
    prog db (option message) :=
  if negb (c_cipher cfg) then failed (Msg "credential cipher unavailable")
  else if p_kind p =s "target_add" then
    match p_hostKey p with
    | None => Ret None
    | Some key => add_target_body cfg e p payload key
    end
  else
    let id := Target_ID (p_target p) in
    audited cfg "Credential replaced." "targets" "admin.target.credential.replace"
      [("credential_kind", JString (p_credentialKind p)); ("target", JString (Target_Name (p_target p)))]
      (let? sealed := Ret (Encrypt (env_nonce e) id (p_credentialKind p) payload) in
       SetTargetCredentialKind id (p_credentialKind p) sealed.1 sealed.2).

Definition scan (e : menu_env) (address : string) : result SshKey :=
  let '(dialled, observed, handshake) := env_probe e address in
  ScanHostKey dialled observed handshake.

(** A command, run: its message, or a panic. *)
Definition perform (cfg : menu_config) (e : menu_env) (c : command) : prog db (option message) :=
  match c with
  | QuitCmd => Ret (Some QuitMsg)
  | LoadCmd => let* d := load cfg in Ret (Some (DataMsg d))
  | OIDCBeginCmd => Ret (Some (OIDCBeginMsg (Begin (env_oidc e (oidc_deadline cfg)))))
  | OIDCLinkCmd login user => oidc_link cfg e login user
  | MutateCmd sect status type details op =>
    if needs_cipher op && negb (c_cipher cfg) then Ret None
    else audited cfg status sect type details (run_operation e op)
  | ScanHostCmd address => Ret (Some (HostKeyMsg (scan e address)))
  | HostKeyCmd p => host_key_body cfg p
  | IdentityCmd p publicKey fingerprint payload => identity_body cfg e p publicKey fingerprint payload
  | StoredTargetCmd p => stored_target_body cfg p
  | CredentialCmd p payload => credential_body cfg e p payload
  end.

End commands.
