(* ===== verification/MenuForms.v ===== *)
(** * The forms of the menu ([internal/tui/menu.go])

    Adding and editing rows: [openAddForm] and the forms' fields, the keys of a
    form, and [submitForm].  A handler is a [menu_step]: it may query the
    database, changes the model and may return a command; [None] is a panic. *)

From S2P Require Import Prelude GoStrings Json GoTime Effects SshKeys Sql Schema Names Net StoreUsers.
From S2P Require Import StoreOIDC StoreTargets StoreAccess StoreAudit StoreCalls Totp Auth.
From S2P Require Import MenuState MenuModel MenuCommands.

Definition step_result : Type := option (Model * option command).
Definition menu_step : Type := prog db step_result.

Definition no_cmd (m : Model) : step_result := Some (m, None).
Definition with_cmd (m : Model) (c : command) : step_result := Some (m, Some c).

(** A pointer that must not be nil *)
Definition deref {A B} (p : option A) (k : A → option B) : option B :=
  match p with None => None | Some a => k a end.

Definition yes_no : list string := ["yes"; "no"].

(** ** Opening a form *)

Definition target_add_form : adminForm :=
  mkForm "target_add" "Add target"
    [text_field "Name"; text_field "Host"; value_field "Port" "22"; text_field "Remote user";
     mkField "Authentication" CredentialPrivateKey credentialKinds] 0.

Definition identity_add_form : adminForm :=
  mkForm "identity_add" "Add SSH key"
    [text_field "Name"; mkField "Method" "generate_ed25519" ["generate_ed25519"; "import_private_key"]] 0.

Definition user_add_form : adminForm :=
  mkForm "user_add" "Add user"
    [text_field "Username"; mkField "Role" RoleMember [RoleMember; RoleAdmin]] 0.

Definition group_add_form : adminForm := mkForm "group_add" "Add group" [text_field "Name"] 0.

Definition grant_add_form (m : Model) (first : Target) : adminForm :=
  mkForm "grant_add" "Add access grant"
    [mkField "Target" (Target_Name first) (targetNames (m_targets m));
     mkField "Principal type" "user" ["user"; "group"];
     mkField "Principal" (firstUser (m_users m)) (userNames (m_users m));
     mkField "Shell" "yes" yes_no; mkField "SFTP" "yes" yes_no; mkField "Legacy SCP" "yes" yes_no;
     mkField "TCP forwarding" "no" ["no"; "yes"]] 0.

Definition forward_add_form (m : Model) (first : Target) : adminForm :=
  mkForm "forward_add" "Allow TCP destination"
    [mkField "Target" (Target_Name first) (targetNames (m_targets m));
     text_field "Destination host"; text_field "Destination port"] 0.

(** The form of the section, or the status that says why there is none *)
Definition add_form (m : Model) : result adminForm :=
  if m_section m =s "targets" then Ok target_add_form
  else if m_section m =s "keys" then Ok identity_add_form
  else if m_section m =s "users" then Ok user_add_form
  else if m_section m =s "groups" then Ok group_add_form
  else if m_section m =s "grants" then
    match m_targets m with
    | [] => Err (Msg "Add a target and a user or group before creating access.")
    | first :: _ =>
      if lenZ (m_users m) + lenZ (m_groups m) =? 0
      then Err (Msg "Add a target and a user or group before creating access.")
      else Ok (grant_add_form m first)
    end
  else if m_section m =s "forwards" then
    match m_targets m with
    | [] => Err (Msg "Add a target before creating a forwarding rule.")
    | first :: _ => Ok (forward_add_form m first)
    end
  else Err (Msg "This section is read-only.").

Section forms.
Context `{UnicodeTables, Rowids, TimeParser, KeyFormats, DriverTexts}.

Definition openAddForm (m : Model) : Model :=
  if negb (is_admin m) then m
  else
    match add_form m with
    | Err e => m |> with_status (error_text e)
    | Ok f => m |> with_form (Some f) |> with_mode "form" |> with_status "Complete the fields, then save."
    end.

(** ** Fields that depend on others *)

Definition pendingIdentityID (m : Model) : option Z :=
  match m_pending m, m_form m with
  | Some p, Some f => if f_kind f =s "target_credential" then Target_IdentityID (p_target p) else None
  | _, _ => None
  end.

(** [f] is [m.form]. *)
Definition sync_key_field (m : Model) (f : adminForm) (authIndex : nat) (baseFields : Z) : adminForm :=
  if lenZ (f_fields f) <? baseFields then f
  else
    let storedKey := match f_fields f !! authIndex with
                     | Some field => ff_value field =s CredentialStoredKey
                     | None => false
                     end in
    if storedKey && (lenZ (f_fields f) =? baseFields) then
      set_fields (f_fields f ++
        [mkField "Saved SSH key" (selectedIdentityName (m_identities m) (pendingIdentityID m))
           (identityNames (m_identities m))]) f
    else if negb storedKey && (baseFields <? lenZ (f_fields f)) then
      let f := set_fields (take (Z.to_nat baseFields) (f_fields f)) f in
      if baseFields <=? f_index f then set_index (baseFields - 1) f else f
    else f.

Definition syncTargetKeyField (m : Model) : Model :=
  match m_form m with
  | None => m
  | Some f =>
    if f_kind f =s "target_add" then m |> with_form (Some (sync_key_field m f 4 5))
    else if f_kind f =s "target_credential" then m |> with_form (Some (sync_key_field m f 0 1))
    else m
  end.

(** The "Principal" field follows the "Principal type". *)
Definition sync_principal (m : Model) (kind_value : string) (principal : formField) : formField :=
  let options := if kind_value =s "group" then groupNames (m_groups m) else userNames (m_users m) in
  let principal := set_options options principal in
  match options with
  | first :: _ => if contains options (ff_value principal) then principal else set_value first principal
  | [] => principal
  end.

Definition syncFormOptions (m : Model) : Model :=
  match m_form m with
  | None => m
  | Some f =>
    if (f_kind f =s "target_add") || (f_kind f =s "target_credential") then syncTargetKeyField m
    else if negb (f_kind f =s "grant_add") then m
    else match f_fields f with
         | target :: kind :: principal :: more =>
           m |> with_form (Some (set_fields
             (target :: kind :: sync_principal m (ff_value kind) principal :: more) f))
         | _ => m
         end
  end.

(** ** Submitting *)

(** The loops at the start of [submitForm]: the trimmed values, or the index of
    the first field that is required and empty *)
Fixpoint form_values (authentication : string) (i : Z) (fields : list formField) :
    list string + (Z * string) :=
  match fields with
  | [] => inl []
  | field :: more =>
    let v := TrimSpace (ff_value field) in
    let skip := (ff_label field =s "Saved SSH key") && negb (authentication =s CredentialStoredKey) in
    if negb skip && (v =s "") then inr (i, ff_label field)
    else match form_values authentication (i + 1) more with
         | inl vs => inl (v :: vs)
         | inr bad => inr bad
         end
  end.

Definition authentication_of (fields : list formField) : string :=
  match List.find (λ field, ff_label field =s "Authentication") fields with
  | Some field => TrimSpace (ff_value field)
  | None => ""
  end.

(** [m.status, f.index = status, i] *)
Definition refuse (status : string) (i : Z) (f : adminForm) (m : Model) : step_result :=
  no_cmd (m |> with_status status |> with_form (Some (set_index i f))).

Definition port_of (v : string) : option Z :=
  match Atoi v with
  | Some port => if (port <? 1) || (65535 <? port) then None else Some port
  | None => None
  end.

Definition bad_port : string := "Port must be between 1 and 65535.".

(** [m.mutate] *)
Definition mutate (sect status type : string) (details : list (string * jvalue)) (c : call) (m : Model) :
    step_result :=
  with_cmd m (MutateCmd sect status type details (StoreCall c)).

Definition scanHost (address : string) (m : Model) : step_result :=
  with_cmd (m |> with_mode "scanning" |> with_status "Scanning downstream host key…") (ScanHostCmd address).

Definition finishIdentityPayload (privateKey passphrase : string) (m : Model) : step_result :=
  deref (m_pending m) (λ p,
    let signer := if passphrase =s "" then ParsePrivateKey privateKey
                  else ParsePrivateKeyWithPassphrase privateKey passphrase in
    match signer with
    | Err e => no_cmd (m |> with_status ("Invalid private key: " +:+ error_text e))
    | Ok signer =>
      let key := Signer_PublicKey signer in
      with_cmd (m |> with_input "" |> with_mode "saving")
        (IdentityCmd p (canonical_key key) (FingerprintSHA256 key) (key_payload privateKey passphrase))
    end).

Definition finishIdentity (privateKey : string) (m : Model) : step_result :=
  finishIdentityPayload privateKey "" m.
Definition finishIdentityWithPassphrase (privateKey passphrase : string) (m : Model) : step_result :=
  finishIdentityPayload privateKey passphrase m.

(** ed25519.GenerateKey, gossh.MarshalPrivateKey and pem.EncodeToMemory *)
Definition generate_key (e : menu_env) (name : string) : result string :=
  let! key := env_GenerateKey e in
  env_MarshalPrivateKey e key ("SSHGateW generated key: " +:+ name).

Definition submit_identity_add (e : menu_env) (name method : string) (m : Model) : step_result :=
  let m := m |> with_pending (Some (empty_pending |> pwith_kind "identity_add" |> pwith_name name))
             |> with_form None in
  if method =s "generate_ed25519" then
    match generate_key e name with
    | Err err => no_cmd (m |> closeModal ("Key generation failed: " +:+ error_text err))
    | Ok pem => finishIdentity pem m
    end
  else no_cmd (m |> with_mode "secret_key" |> with_input ""
                 |> with_status "Paste the private key, then press Ctrl+D.").

Definition submit_grant_edit (values : list string) (m : Model) : step_result :=
  deref (m_pending m) (λ p,
    let g := p_grant p in
    match values with
    | shell :: sftp :: scp :: tcp :: _ =>
      mutate "grants" "Grant capabilities updated." "admin.grant.edit"
        [("kind", JString (Grant_Kind g)); ("principal", JString (Grant_Principal g));
         ("target", JString (Grant_Target g))]
        (SetGrantCapabilities_call (Grant_Target g) (Grant_Kind g) (Grant_Principal g) true
           (shell =s "yes") (sftp =s "yes") (scp =s "yes") (tcp =s "yes")) m
    | _ => None
    end).

Definition submit_oidc_map (name : string) (m : Model) : step_result :=
  deref (m_pending m) (λ p,
    let issuer := c_oidcIssuer (m_config m) in
    mutate "users" "OIDC username mapped; it will bind permanently on first login." "admin.user.oidc.map"
      [("issuer", JString issuer); ("provider_username", JString (ToLower name));
       ("username", JString (p_username p))]
      (SetOIDCUsernameMapping_call (User_ID (p_user p)) issuer name) m).

Definition submit_target_edit (f : adminForm) (host port remote : string) (m : Model) : step_result :=
  match port_of port with
  | None => refuse bad_port 1 f m
  | Some port =>
    deref (m_pending m) (λ p,
      let name := Target_Name (p_target p) in
      mutate "targets" "Target updated." "admin.target.edit" [("target", JString name)]
        (UpdateTarget_call name host port remote) m)
  end.

(** Where a credential is typed in, by its kind *)
Definition ask_credential (kind : string) (m : Model) : Model :=
  if kind =s CredentialPassword then
    m |> with_mode "secret_password" |> with_input ""
      |> with_status "Enter the downstream password, then press Enter."
  else if kind =s CredentialPrivateKey then
    m |> with_mode "secret_key" |> with_input ""
      |> with_status "Paste the private key, then press Ctrl+D."
  else
    m |> with_mode "agent_key" |> with_input ""
      |> with_status "Paste the public key that the forwarded agent must provide.".

Definition submit_target_credential (values : list string) (m : Model) : menu_step :=
  match m_pending m, values with
  | Some p, kind :: more =>
    let p := p |> pwith_kind "credential" |> pwith_credentialKind kind in
    let m := m |> with_pending (Some p) |> with_form None in
    if kind =s CredentialStoredKey then
      match more with
      | [] => Ret None
      | key_name :: _ =>
        let* found := SSHIdentityByName key_name in
        match found with
        | Err err => Ret (no_cmd (m |> closeModal ("Saved SSH key unavailable: " +:+ error_text err)))
        | Ok identity =>
          Ret (mutate "targets" "Credential replaced with saved SSH key." "admin.target.credential.replace"
            [("credential_kind", JString kind); ("fingerprint", JString (SI_Fingerprint identity));
             ("ssh_key", JString (SI_Name identity)); ("target", JString (Target_Name (p_target p)))]
            (SetTargetIdentity_call (Target_ID (p_target p)) (SI_ID identity)) m)
        end
      end
    else Ret (no_cmd (ask_credential kind m))
  | _, _ => Ret None
  end.

Definition submit_target_add (f : adminForm) (values : list string) (m : Model) : menu_step :=
  match values with
  | name :: host :: port_text :: remote :: kind :: more =>
    match port_of port_text with
    | None => Ret (refuse bad_port 2 f m)
    | Some port =>
      let p := empty_pending |> pwith_kind "target_add" |> pwith_name name |> pwith_host host
                 |> pwith_port port |> pwith_remote remote |> pwith_credentialKind kind in
      let m := m |> with_pending (Some p) in
      let scan m := scanHost (JoinHostPort host port_text) (m |> with_form None) in
      if kind =s CredentialStoredKey then
        match more with
        | [] => Ret None
        | key_name :: _ =>
          if key_name =s ""
          then Ret (refuse "Create an SSH key first, then select it here." 5 f m)
          else
            let* found := SSHIdentityByName key_name in
            match found with
            | Err err => Ret (refuse ("Saved SSH key unavailable: " +:+ error_text err) 5 f m)
            | Ok identity =>
              Ret (scan (m |> with_pending (Some (p |> pwith_identity identity
                                                    |> pwith_identityID (SI_ID identity)))))
            end
        end
      else Ret (scan m)
    end
  | _ => Ret None
  end.

(** The switch on the form's kind *)
Definition submit_values (e : menu_env) (f : adminForm) (values : list string) (m : Model) : menu_step :=
  if f_kind f =s "target_credential" then submit_target_credential values m
  else if f_kind f =s "target_add" then submit_target_add f values m
  else Ret (
    if f_kind f =s "identity_add" then
      match values with name :: method :: _ => submit_identity_add e name method m | _ => None end
    else if f_kind f =s "user_add" then
      match values with
      | name :: role :: _ =>
        mutate "users" "User added." "admin.user.add" [("role", JString role); ("username", JString name)]
          (AddUser_call name role) m
      | _ => None
      end
    else if f_kind f =s "user_oidc_map" then
      match values with name :: _ => submit_oidc_map name m | _ => None end
    else if f_kind f =s "group_add" then
      match values with
      | name :: _ => mutate "groups" "Group added." "admin.group.add" [("group", JString name)]
                       (AddGroup_call name) m
      | _ => None
      end
    else if f_kind f =s "grant_add" then
      match values with
      | target :: kind :: principal :: shell :: sftp :: scp :: tcp :: _ =>
        mutate "grants" "Access granted." "admin.grant.add"
          [("kind", JString kind); ("principal", JString principal); ("target", JString target)]
          (SetGrantCapabilities_call target kind principal true (shell =s "yes") (sftp =s "yes")
             (scp =s "yes") (tcp =s "yes")) m
      | _ => None
      end
    else if f_kind f =s "grant_edit" then submit_grant_edit values m
    else if f_kind f =s "forward_add" then
      match values with
      | target :: host :: port :: _ =>
        match port_of port with
        | None => refuse bad_port 2 f m
        | Some port =>
          mutate "forwards" "TCP destination allowed." "admin.forward.add"
            [("host", JString host); ("port", JInt port); ("target", JString target)]
            (AddForwardRule_call target host port) m
        end
      | _ => None
      end
    else if f_kind f =s "target_edit" then
      match values with
      | host :: port :: remote :: _ => submit_target_edit f host port remote m
      | _ => None
      end
    else no_cmd m).

Definition submitForm (e : menu_env) (m : Model) : menu_step :=
  match m_form m with
  | None => Ret None
  | Some f =>
    match form_values (authentication_of (f_fields f)) 0 (f_fields f) with
    | inr (i, label) => Ret (refuse (label +:+ " is required.") i f m)
    | inl values => submit_values e f values m
    end
  end.

(** ** The keys of a form *)

(** [change] applied to the field the form's index is at *)
Definition change_field (change : formField → formField) (f : adminForm) : adminForm :=
  set_fields (alter change (Z.to_nat (f_index f)) (f_fields f)) f.

Definition handleFormKey (e : menu_env) (key : string) (m : Model) : menu_step :=
  if key =s "esc" then Ret (no_cmd (m |> closeModal "Cancelled."))
  else
    match m_form m with
    | None => Ret (no_cmd m)
    | Some f =>
      if lenZ (f_fields f) =? 0 then Ret (no_cmd m)
      else
        match at_index (f_fields f) (f_index f) with
        | None => Ret None
        | Some field =>
          let is_text := lenZ (ff_options field) =? 0 in
          let last := lenZ (f_fields f) - 1 in
          let set f := Ret (no_cmd (m |> with_form (Some f))) in
          if (key =s "up") || (key =s "shift+tab") then
            if 0 <? f_index f then set (set_index (f_index f - 1) f) else Ret (no_cmd m)
          else if (key =s "down") || (key =s "tab") then
            if f_index f <? last then set (set_index (f_index f + 1) f) else Ret (no_cmd m)
          else if (key =s "left") || (key =s "right") || (key =s "space") then
            if negb is_text then
              let delta := if key =s "left" then -1 else 1 in
              Ret (no_cmd (m |> with_form (Some (change_field (cycleOption delta) f)) |> syncFormOptions))
            else if key =s "space" then set (change_field (set_value (ff_value field +:+ " ")) f)
            else Ret (no_cmd m)
          else if key =s "backspace" then
            if is_text then set (change_field (set_value (removeLastRune (ff_value field))) f)
            else Ret (no_cmd m)
          else if key =s "ctrl+u" then
            if is_text then set (change_field (set_value "") f) else Ret (no_cmd m)
          else if key =s "enter" then
            if f_index f <? last then set (set_index (f_index f + 1) f) else submitForm e m
          else if is_text && one_rune key then set (change_field (set_value (ff_value field +:+ key)) f)
          else Ret (no_cmd m)
        end
    end.

End forms.
