(* ===== verification/MenuKeys.v ===== *)
(** * The keys and messages of the menu ([internal/tui/menu.go], remote.go)

    [handleKey] and what it calls, [Update], and the loops of remote.go that run
    commands until there is none. *)

From S2P Require Import Prelude GoStrings Json GoTime Effects SshKeys Sql Schema Names Net StoreUsers.
From S2P Require Import StoreOIDC StoreTargets StoreAccess StoreAudit StoreCalls Totp Auth.
From S2P Require Import MenuState MenuModel MenuCommands MenuForms.

(** ** Actions on the selected row *)

Definition set_actions (m : Model) (p : pendingOperation) (items : list actionItem) : Model :=
  m |> with_pending (Some p) |> with_actions items |> with_mode "actions".

Definition target_actions (t : Target) : list actionItem :=
  let state := if Target_Enabled t then "Disable" else "Enable" in
  (if Target_Enabled t then [mkItem "Connect" "target_connect"] else [])
  ++ [mkItem "Edit connection" "target_edit"; mkItem "Replace credential" "target_credential";
      mkItem "Replace host key" "target_host_key"; mkItem state "target_toggle";
      mkItem "Delete" "target_delete"].

Definition user_actions (m : Model) (u : User) : list actionItem :=
  let role := if User_Role u =s RoleAdmin then "Make member" else "Make administrator" in
  let state := if User_Enabled u then "Disable" else "Enable" in
  let totp := if User_TOTPEnabled u then mkItem "Remove TOTP" "user_totp_remove"
              else mkItem "Set up TOTP" "user_totp_setup" in
  let base := [mkItem "Manage SSH keys" "user_keys"; totp; mkItem role "user_role";
               mkItem state "user_toggle"; mkItem "Delete" "user_delete"] in
  if c_oidcIssuer (m_config m) =s "" then base
  else match oidcIdentityForUser m (User_ID u) with
       | Some _ => mkItem "Change OIDC mapping" "user_oidc_map" :: base
                   ++ [mkItem "Remove OIDC mapping" "user_oidc_remove"]
       | None => mkItem "Map OIDC username" "user_oidc_map" :: base
       end.

Definition identity_actions : list actionItem :=
  [mkItem "View public key" "identity_view"; mkItem "Delete" "identity_delete"].
Definition group_actions : list actionItem :=
  [mkItem "Add member" "group_member_add"; mkItem "Remove member" "group_member_remove";
   mkItem "Delete" "group_delete"].
Definition grant_actions : list actionItem :=
  [mkItem "Edit capabilities" "grant_edit"; mkItem "Remove access" "grant_delete"].
Definition forward_actions : list actionItem := [mkItem "Delete destination" "forward_delete"].

(** The row at the cursor, when the section has one: [none] is the status of an
    empty section, an index out of range a panic. *)
Definition on_row {A} (m : Model) (rows : list A) (none : string)
    (k : A → pendingOperation * list actionItem) : option Model :=
  match rows with
  | [] => Some (m |> with_status none)
  | _ => deref (at_index rows (m_cursor m)) (λ row, let '(p, items) := k row in Some (set_actions m p items))
  end.

Section keys.
Context `{UnicodeTables, Rowids, TimeParser, KeyFormats, CipherOps, SealOps, DriverTexts}.

Definition openSelectedActions (m : Model) : option Model :=
  let m := m |> with_actionCursor 0 in
  if m_section m =s "targets" then
    on_row m (filtered m) "No target selected." (λ t, (empty_pending |> pwith_target t, target_actions t))
  else if m_section m =s "users" then
    on_row m (m_users m) "No user selected."
      (λ u, (empty_pending |> pwith_user u |> pwith_username (User_Username u), user_actions m u))
  else if m_section m =s "keys" then
    on_row m (m_identities m) "No SSH key selected."
      (λ i, (empty_pending |> pwith_identity i, identity_actions))
  else if m_section m =s "groups" then
    on_row m (m_groups m) "No group selected."
      (λ g, (empty_pending |> pwith_group (Group_Name g), group_actions))
  else if m_section m =s "grants" then
    on_row m (m_grants m) "No grant selected." (λ g, (empty_pending |> pwith_grant g, grant_actions))
  else if m_section m =s "forwards" then
    on_row m (m_forwardRules m) "No forwarding rule selected."
      (λ r, (empty_pending |> pwith_forwardRule r, forward_actions))
  else Some m.

(** ** [dispatchAction] *)

Definition yesNo (v : bool) : string := if v then "yes" else "no".

Definition grant_edit_form (g : Grant) : adminForm :=
  mkForm "grant_edit" ("Edit " +:+ Grant_Principal g +:+ " → " +:+ Grant_Target g)
    [mkField "Shell" (yesNo (Grant_Shell g)) yes_no; mkField "SFTP" (yesNo (Grant_SFTP g)) yes_no;
     mkField "Legacy SCP" (yesNo (Grant_SCP g)) yes_no;
     mkField "TCP forwarding" (yesNo (Grant_TCPForward g)) yes_no] 0.

Definition target_edit_form (t : Target) : adminForm :=
  mkForm "target_edit" ("Edit " +:+ Target_Name t)
    [value_field "Host" (Target_Host t); value_field "Port" (Itoa (Target_Port t));
     value_field "Remote user" (Target_RemoteUsername t)] 0.

Definition credential_form (t : Target) : adminForm :=
  mkForm "target_credential" "Replace credential"
    [mkField "Authentication" (Target_CredentialKind t) credentialKinds] 0.

Definition oidc_map_form (m : Model) (p : pendingOperation) : adminForm :=
  let value := match oidcIdentityForUser m (User_ID (p_user p)) with
               | Some identity => OIDC_ProviderUsername identity
               | None => ""
               end in
  mkForm "user_oidc_map" ("Map OIDC account for " +:+ p_username p) [value_field "OIDC username" value] 0.

Definition key_item (k : GatewayKey) : actionItem :=
  let label := if Key_Label k =s "" then Key_Fingerprint k
               else Key_Label k +:+ "  " +:+ Key_Fingerprint k in
  mkItem label (Key_Fingerprint k).

Definition show_user_keys (p : pendingOperation) (m : Model) : menu_step :=
  let* r := ListGatewayKeys (p_username p) in
  match r with
  | Err e => Ret (no_cmd (m |> closeModal ("Unable to load SSH keys: " +:+ error_text e)))
  | Ok keys =>
    Ret (no_cmd (m |> with_actions (mkItem "Add another SSH key" "user_key_add" :: (key_item <$> keys))
      |> with_mode "user_keys" |> with_actionCursor 0
      |> with_status (p_username p +:+ " has " +:+ Itoa (lenZ keys) +:+
           " SSH key(s). Adding a key keeps existing keys working.")))
  end.

Definition ok_option {A} (r : result A) : option A := match r with Ok a => Some a | Err _ => None end.
Definition result_text {A} (r : result A) : string := match r with Ok _ => "" | Err e => error_text e end.

Definition setup_totp (e : menu_env) (p : pendingOperation) (m : Model) : Model :=
  match env_secret e with
  | Err err => m |> closeModal ("TOTP setup failed: " +:+ error_text err)
  | Ok random =>
    let secret := GenerateSecret random in
    let uri := URI "SSHGateW" (p_username p) secret in
    match QR (λ c, ok_option (env_qr e c)) uri with
    | None => m |> closeModal ("TOTP QR generation failed: " +:+ result_text (env_qr e uri))
    | Some qr =>
      m |> with_pending (Some (p |> pwith_kind "user_totp_setup" |> pwith_totpSecret secret
                                 |> pwith_totpURI uri |> pwith_totpQR qr))
        |> with_mode "totp_enroll" |> with_status "Scan the QR code, then press Enter."
    end
  end.

(** Who may be added to, or removed from, the group *)
Definition eligible_members (m : Model) (group : string) (adding : bool) : list actionItem :=
  (λ u, mkItem (User_Username u) (User_Username u)) <$>
  List.filter (λ u, negb (Bool.eqb (isGroupMember m group (User_Username u)) adding)) (m_users m).

Definition choose_member (p : pendingOperation) (code : string) (m : Model) : Model :=
  let adding := code =s "group_member_add" in
  match eligible_members m (p_group p) adding with
  | [] => m |> closeModal "No eligible users for that membership action."
  | items => m |> with_actions items |> with_mode (TrimPrefix code "group_") |> with_actionCursor 0
  end.

Definition delete_codes : list string :=
  ["target_delete"; "user_delete"; "group_delete"; "grant_delete"; "forward_delete"; "identity_delete";
   "user_totp_remove"; "user_oidc_remove"].

Definition open_form (f : adminForm) (m : Model) : Model := m |> with_form (Some f) |> with_mode "form".

Definition toggle_target (p : pendingOperation) (m : Model) : step_result :=
  let t := p_target p in
  let enabled := negb (Target_Enabled t) in
  mutate "targets" "Target updated." ("admin.target." +:+ enabledWord enabled)
    [("target", JString (Target_Name t))] (SetTargetEnabled_call (Target_Name t) enabled) m.

Definition change_role (p : pendingOperation) (m : Model) : step_result :=
  let role := if User_Role (p_user p) =s RoleAdmin then RoleMember else RoleAdmin in
  mutate "users" "User role updated." "admin.user.role"
    [("role", JString role); ("username", JString (p_username p))] (SetUserRole_call (p_username p) role) m.

Definition toggle_user (p : pendingOperation) (m : Model) : step_result :=
  let enabled := negb (User_Enabled (p_user p)) in
  mutate "users" "User updated." ("admin.user." +:+ enabledWord enabled)
    [("username", JString (p_username p))] (SetUserEnabled_call (p_username p) enabled) m.

Definition change_member (p : pendingOperation) (code : string) (m : Model) : step_result :=
  deref (at_index (m_actions m) (m_actionCursor m)) (λ item,
    let adding := code =s "member_add" in
    mutate "groups" "Membership updated." ("admin.group.member." +:+ addRemove adding)
      [("group", JString (p_group p)); ("username", JString (ai_code item))]
      (SetGroupMember_call (p_group p) (ai_code item) adding) m).

Definition scan_target (p : pendingOperation) (m : Model) : step_result :=
  m |> with_pending (Some (p |> pwith_kind "host_key"))
    |> scanHost (JoinHostPort (Target_Host (p_target p)) (Itoa (Target_Port (p_target p)))).

(** Every action the menu offers uses [m.pending]: [p]. *)
Definition dispatch_on (e : menu_env) (code : string) (p : pendingOperation) (m : Model) : menu_step :=
  if code =s "user_keys" then show_user_keys p m
  else Ret (
    if code =s "target_connect" then
      with_cmd (m |> with_result (Some (mkResult (Target_ID (p_target p)) false false))) QuitCmd
    else if code =s "grant_edit" then no_cmd (m |> open_form (grant_edit_form (p_grant p)))
    else if code =s "target_edit" then no_cmd (m |> open_form (target_edit_form (p_target p)))
    else if code =s "target_credential" then
      no_cmd (m |> with_form (Some (credential_form (p_target p))) |> syncTargetKeyField |> with_mode "form")
    else if code =s "target_host_key" then scan_target p m
    else if code =s "target_toggle" then toggle_target p m
    else if contains delete_codes code then
      no_cmd (m |> with_pending (Some (p |> pwith_kind code)) |> with_mode "confirm_delete")
    else if code =s "identity_view" then no_cmd (m |> with_mode "identity_public")
    else if code =s "user_key_add" then
      no_cmd (m |> with_mode "public_key" |> with_input ""
                |> with_status "Paste an OpenSSH public key, then press Enter.")
    else if code =s "user_totp_setup" then no_cmd (setup_totp e p m)
    else if code =s "user_oidc_map" then no_cmd (m |> open_form (oidc_map_form m p))
    else if code =s "user_role" then change_role p m
    else if code =s "user_toggle" then toggle_user p m
    else if (code =s "group_member_add") || (code =s "group_member_remove") then
      no_cmd (choose_member p code m)
    else if (code =s "member_add") || (code =s "member_remove") then change_member p code m
    else no_cmd m).

(** Actions are offered with [m.pending] set.  Without it only the two codes that
    do not look at it are no use of a nil pointer. *)
Definition dispatchAction (e : menu_env) (code : string) (m : Model) : menu_step :=
  match m_pending m with
  | Some p => dispatch_on e code p m
  | None =>
    if code =s "identity_view" then Ret (no_cmd (m |> with_mode "identity_public"))
    else if code =s "user_key_add" then
      Ret (no_cmd (m |> with_mode "public_key" |> with_input ""
                     |> with_status "Paste an OpenSSH public key, then press Enter."))
    else Ret None
  end.

Definition press_action (e : menu_env) (m : Model) : menu_step :=
  if lenZ (m_actions m) =? 0 then Ret (no_cmd m)
  else
    match at_index (m_actions m) (m_actionCursor m) with
    | None => Ret None
    | Some item =>
      let code := ai_code item in
      if (m_mode m =s "user_keys") && negb (code =s "user_key_add") then
        Ret (deref (m_pending m) (λ p,
          no_cmd (m |> with_pending (Some (p |> pwith_kind "user_key_remove" |> pwith_keyFingerprint code))
                    |> with_mode "confirm_delete")))
      else
        let code := if (m_mode m =s "member_add") || (m_mode m =s "member_remove") then m_mode m else code in
        dispatchAction e code m
    end.

Definition handleActionKey (e : menu_env) (key : string) (m : Model) : menu_step :=
  let n := lenZ (m_actions m) in
  let c := m_actionCursor m in
  if key =s "esc" then Ret (no_cmd (m |> closeModal "Cancelled."))
  else if (key =s "up") || (key =s "k") then
    Ret (no_cmd (if 0 <? c then m |> with_actionCursor (c - 1) else m))
  else if (key =s "down") || (key =s "j") || (key =s "tab") then
    Ret (no_cmd (if c <? n - 1 then m |> with_actionCursor (c + 1) else m))
  else if key =s "home" then Ret (no_cmd (m |> with_actionCursor 0))
  else if key =s "end" then Ret (no_cmd (if 0 <? n then m |> with_actionCursor (n - 1) else m))
  else if (key =s "enter") || (key =s "space") then press_action e m
  else Ret (no_cmd m).

(** ** The ends of the dialogues *)

Definition invalid_key (prefix : string) (e : error) (m : Model) : step_result :=
  no_cmd (m |> with_status (prefix +:+ error_text e)).

(** A single key in the input, with its comment; [extra] is the error when more
    follows. *)
Definition one_key (extra input : string) : result (SshKey * string) :=
  match ParseAuthorizedKey (TrimSpace input) with
  | Err e => Err e
  | Ok (key, comment, rest) =>
    if negb (TrimSpace rest =s "") then Err (Msg extra) else Ok (key, comment)
  end.

Definition finishPublicKey (m : Model) : step_result :=
  match one_key "paste one public key at a time; use Manage SSH keys to add another" (m_input m) with
  | Err e => invalid_key "Invalid public key: " e m
  | Ok (key, comment) =>
    deref (m_pending m) (λ p,
      mutate "users" "SSH key added." "admin.gateway_key.add"
        [("fingerprint", JString (FingerprintSHA256 key)); ("username", JString (p_username p))]
        (AddGatewayKey_call (p_username p) (FingerprintSHA256 key) (canonical_key key) comment) m)
  end.

Definition finishCredential (payload : Payload) (m : Model) : step_result :=
  deref (m_pending m) (λ p, with_cmd (m |> with_input "") (CredentialCmd p payload)).

Definition finishAgentKey (m : Model) : step_result :=
  match one_key "paste exactly one public key" (m_input m) with
  | Err e => invalid_key "Invalid forwarded-agent public key: " e m
  | Ok (key, _) =>
    m |> with_status ("Forwarded-agent key " +:+ FingerprintSHA256 key +:+ " accepted.")
      |> finishCredential (agent_payload (canonical_key key))
  end.

Definition delete_operation (m : Model) (p : pendingOperation) :
    option (string * string * string * list (string * jvalue) * call) :=
  let username := ("username", JString (p_username p)) in
  let issuer := c_oidcIssuer (m_config m) in
  let g := p_grant p in
  let r := p_forwardRule p in
  if p_kind p =s "user_key_remove" then
    Some ("users", "SSH key removed.", "admin.gateway_key.remove",
          [("fingerprint", JString (p_keyFingerprint p)); username],
          RemoveGatewayKey_call (p_username p) (p_keyFingerprint p))
  else if p_kind p =s "target_delete" then
    Some ("targets", "Target deleted.", "admin.target.delete",
          [("target", JString (Target_Name (p_target p)))], DeleteTarget_call (Target_Name (p_target p)))
  else if p_kind p =s "user_delete" then
    Some ("users", "User deleted.", "admin.user.delete", [username], DeleteUser_call (p_username p))
  else if p_kind p =s "group_delete" then
    Some ("groups", "Group deleted.", "admin.group.delete", [("group", JString (p_group p))],
          DeleteGroup_call (p_group p))
  else if p_kind p =s "grant_delete" then
    Some ("grants", "Access removed.", "admin.grant.remove",
          [("kind", JString (Grant_Kind g)); ("principal", JString (Grant_Principal g));
           ("target", JString (Grant_Target g))],
          SetGrant_call (Grant_Target g) (Grant_Kind g) (Grant_Principal g) false)
  else if p_kind p =s "forward_delete" then
    Some ("forwards", "TCP destination removed.", "admin.forward.remove",
          [("host", JString (FR_Host r)); ("port", JInt (FR_Port r)); ("target", JString (FR_Target r))],
          DeleteForwardRule_call (FR_ID r))
  else if p_kind p =s "user_totp_remove" then
    Some ("users", "TOTP removed.", "admin.user.totp.remove", [username],
          RemoveUserTOTP_call (User_ID (p_user p)))
  else if p_kind p =s "user_oidc_remove" then
    Some ("users", "OIDC mapping removed.", "admin.user.oidc.remove", [("issuer", JString issuer); username],
          RemoveOIDCIdentity_call (User_ID (p_user p)) issuer)
  else if p_kind p =s "identity_delete" then
    Some ("keys", "SSH key deleted.", "admin.ssh_identity.delete",
          [("fingerprint", JString (SI_Fingerprint (p_identity p)));
           ("ssh_key", JString (SI_Name (p_identity p)))],
          DeleteSSHIdentity_call (SI_Name (p_identity p)))
  else None.

Definition finishDelete (m : Model) : step_result :=
  deref (m_pending m) (λ p,
    match delete_operation m p with
    | Some (sect, status, type, details, c) => mutate sect status type details c m
    | None => no_cmd m
    end).

Definition finishTOTPEnrollment (e : menu_env) (m : Model) : step_result :=
  deref (m_pending m) (λ p,
    match Validate (p_totpSecret p) (m_input m) (env_now e) with
    | None => no_cmd (m |> with_status "Invalid TOTP code. Try a fresh code." |> with_input "")
    | Some counter =>
      with_cmd m (MutateCmd "users" "TOTP enabled." "admin.user.totp.enable"
        [("username", JString (p_username p))]
        (EnrollTOTP (User_ID (p_user p)) (p_totpSecret p) counter))
    end).

Definition finishHostKey (m : Model) : step_result :=
  deref (m_pending m) (λ p, with_cmd m (HostKeyCmd p)).
Definition finishStoredTarget (m : Model) : step_result :=
  deref (m_pending m) (λ p, with_cmd m (StoredTargetCmd p)).

(** The checks of [verifyTOTPChallenge]; [None]: the cipher is a nil pointer. *)
Definition check_challenge (e : menu_env) (m : Model) : prog db (option (result unit)) :=
  let uid := User_ID (m_user m) in
  let* config := UserTOTP uid in
  match config with
  | Err err => Ret (Some (Err err))
  | Ok config =>
    if negb (c_cipher (m_config m)) then Ret None
    else
      let* r :=
        (let? secret := Ret (DecryptTOTP uid (TOTP_Nonce config) (TOTP_Ciphertext config)) in
         match Validate secret (m_input m) (env_now e) with
         | None => Ret (Err (Msg "invalid verification code"))
         | Some counter => ConsumeTOTPCounter uid counter
         end) in
      Ret (Some r)
  end.

Definition challenge_checked (checked : result unit) (m : Model) : Model :=
  let m := m |> with_input "" in
  match checked with
  | Ok _ => m |> with_result (Some (mkResult 0 false true))
  | Err _ =>
    let m := m |> with_totpAttempts (m_totpAttempts m + 1) in
    if 5 <=? m_totpAttempts m then m |> with_result (Some quit_result)
    else m |> with_status "Verification failed. Enter a fresh code."
  end.

Definition verifyTOTPChallenge (e : menu_env) (m : Model) : menu_step :=
  let* checked := check_challenge e m in
  Ret (deref checked (λ checked, no_cmd (challenge_checked checked m))).

(** ** OIDC *)

Definition startOIDCLink (m : Model) : step_result :=
  let c := m_config m in
  if negb (c_oidc c) || (c_oidcIssuer c =s "") then
    no_cmd (m |> with_status "OIDC linking is not configured.")
  else if negb (c_canSelfLinkOIDC c) then
    no_cmd (m |> with_status "Sign in with an SSH key before linking an OIDC account.")
  else
    with_cmd (m |> with_mode "oidc_start"
      |> with_pending (Some (empty_pending |> pwith_user (m_user m)
                               |> pwith_username (User_Username (m_user m))))
      |> with_status "Starting secure OIDC account linking…") OIDCBeginCmd.

Definition completeOIDCLink (m : Model) : step_result :=
  match m_pending m with
  | Some p =>
    if negb (c_oidc (m_config m)) then no_cmd (m |> closeModal "OIDC linking state expired.")
    else with_cmd (m |> with_mode "oidc_complete"
                     |> with_status "Waiting for Authentik to finish authorization…")
           (OIDCLinkCmd (m_oidcLogin m) (p_user p))
  | None => no_cmd (m |> closeModal "OIDC linking state expired.")
  end.

(** ** [handleModeKey] *)

(** The keys that type into [m.input], at the end of the function *)
Definition type_input (key : string) (m : Model) : step_result :=
  if key =s "backspace" then
    no_cmd (if 0 <? len (m_input m) then m |> with_input (removeLastRune (m_input m)) else m)
  else if key =s "space" then no_cmd (m |> with_input (m_input m +:+ " "))
  else if one_rune key then no_cmd (m |> with_input (m_input m +:+ key))
  else no_cmd m.

Definition accept_host (m : Model) : step_result :=
  deref (m_pending m) (λ p,
    if p_kind p =s "host_key" then finishHostKey m
    else if p_credentialKind p =s CredentialPassword then
      no_cmd (m |> with_mode "secret_password" |> with_input ""
                |> with_status "Enter downstream password (hidden), then press Enter.")
    else if p_credentialKind p =s CredentialPrivateKey then
      no_cmd (m |> with_mode "secret_key" |> with_input ""
                |> with_status "Paste the private key; its contents will not be rendered. Press Ctrl+D when complete.")
    else if p_credentialKind p =s CredentialStoredKey then finishStoredTarget m
    else
      no_cmd (m |> with_mode "agent_key" |> with_input ""
                |> with_status "Paste the public key that must be present in the forwarded agent.")).

Definition accept_private_key (m : Model) : step_result :=
  let keyBytes := m_input m in
  match ParsePrivateKey keyBytes with
  | Ok _ =>
    deref (m_pending m) (λ p,
      if p_kind p =s "identity_add" then finishIdentity keyBytes m
      else finishCredential (key_payload keyBytes "") m)
  | Err err =>
    if PassphraseMissing err then
      deref (m_pending m) (λ p,
        no_cmd (m |> with_pending (Some (p |> pwith_privateKey keyBytes)) |> with_mode "secret_passphrase"
                  |> with_input ""
                  |> with_status "Encrypted key received. Enter its passphrase (hidden), then press Enter."))
    else no_cmd (m |> with_status ("Invalid private key: " +:+ error_text err) |> with_input "")
  end.

Definition accept_passphrase (m : Model) : step_result :=
  deref (m_pending m) (λ p,
    let keyBytes := p_privateKey p in
    match ParsePrivateKeyWithPassphrase keyBytes (m_input m) with
    | Err err => no_cmd (m |> with_status ("Invalid passphrase: " +:+ error_text err) |> with_input "")
    | Ok _ =>
      if p_kind p =s "identity_add" then finishIdentityWithPassphrase keyBytes (m_input m) m
      else finishCredential (key_payload keyBytes (m_input m)) m
    end).

(** The second switch, and typing *)
Definition mode_key_input (key : string) (m : Model) : step_result :=
  let mode := m_mode m in
  if mode =s "confirm_host" then
    if key =s "n" then
      no_cmd (m |> with_mode "" |> with_pending None |> with_status "Host key rejected.")
    else if key =s "y" then accept_host m
    else no_cmd m
  else if (mode =s "secret_password") && (key =s "enter") then
    finishCredential (password_payload (m_input m)) m
  else if (mode =s "secret_key") && (key =s "ctrl+d") then accept_private_key m
  else if (mode =s "secret_key") && (key =s "enter") then
    no_cmd (m |> with_input (m_input m +:+ str1 (chr 0x0A)))
  else if (mode =s "secret_passphrase") && (key =s "enter") then accept_passphrase m
  else type_input key m.

(** What follows the first switch *)
Definition mode_key_rest (key : string) (m : Model) : step_result :=
  if key =s "esc" then no_cmd (m |> closeModal "Cancelled.") else mode_key_input key m.

Definition is_action_mode (mode : string) : bool :=
  contains ["actions"; "user_keys"; "member_add"; "member_remove"] mode.

Definition handleModeKey (e : menu_env) (key : string) (m : Model) : menu_step :=
  let mode := m_mode m in
  let submits := (key =s "enter") || (key =s "ctrl+d") in
  if mode =s "help" then Ret (no_cmd (m |> with_mode ""))
  else if (mode =s "totp_auth") && (key =s "enter") then
    verifyTOTPChallenge e m
  else if mode =s "form" then handleFormKey e key m
  else if is_action_mode mode then handleActionKey e key m
  else Ret (
    if (mode =s "totp_auth") && ((key =s "esc") || (key =s "ctrl+c")) then
      with_cmd (m |> with_result (Some quit_result)) QuitCmd
    else if (mode =s "totp_enroll") && (key =s "enter") then
      no_cmd (m |> with_mode "totp_confirm" |> with_input ""
                |> with_status "Enter a current code to verify enrollment.")
    else if (mode =s "totp_confirm") && (key =s "enter") then finishTOTPEnrollment e m
    else if (mode =s "oidc_link") && (key =s "enter") then completeOIDCLink m
    else if (mode =s "oidc_start") || (mode =s "oidc_complete") then no_cmd m
    else if mode =s "identity_public" then no_cmd (m |> closeModal "")
    else if mode =s "confirm_delete" then
      if key =s "y" then finishDelete m
      else if key =s "n" then no_cmd (m |> closeModal "Cancelled.")
      else no_cmd m
    else if (mode =s "public_key") && submits then finishPublicKey m
    else if (mode =s "agent_key") && submits then finishAgentKey m
    else mode_key_rest key m).

(** ** [handleKey] *)

Definition search_key (key : string) (m : Model) : Model :=
  if key =s "esc" then m |> with_searching false |> with_query "" |> with_cursor 0
  else if key =s "enter" then m |> with_searching false
  else if key =s "backspace" then m |> with_query (removeLastRune (m_query m)) |> with_cursor 0
  else if key =s "ctrl+u" then m |> with_query "" |> with_cursor 0
  else if key =s "space" then m |> with_query (m_query m +:+ " ") |> with_cursor 0
  else if one_rune key then m |> with_query (m_query m +:+ key) |> with_cursor 0
  else m.

(** The switch of an administrator: it returns from [handleKey], or goes on with
    the switch below it. *)
Inductive admin_outcome :=
  | Returns (r : step_result)
  | Continues (m : Model).

Definition to_section (s : string) (m : Model) : admin_outcome :=
  Continues (m |> with_section s |> with_cursor 0).

Definition as_step (m : option Model) : step_result := deref m no_cmd.

Definition admin_key (key : string) (m : Model) : admin_outcome :=
  if key =s "1" then to_section "targets" m
  else if key =s "2" then to_section "keys" m
  else if key =s "3" then to_section "users" m
  else if key =s "4" then to_section "groups" m
  else if key =s "5" then to_section "grants" m
  else if key =s "6" then to_section "forwards" m
  else if key =s "7" then to_section "audit" m
  else if key =s "r" then Returns (with_cmd m LoadCmd)
  else if key =s "a" then Returns (no_cmd (openAddForm m))
  else if key =s "m" then Returns (as_step (openSelectedActions m))
  else if (key =s "left") || (key =s "h") then Continues (changeSection (-1) m)
  else if (key =s "right") || (key =s "l") || (key =s "tab") then Continues (changeSection 1 m)
  else Continues m.

Definition press_enter (m : Model) : step_result :=
  if m_section m =s "targets" then
    match filtered m with
    | [] => no_cmd m
    | f => deref (at_index f (m_cursor m)) (λ t,
             with_cmd (m |> with_result (Some (mkResult (Target_ID t) false false))) QuitCmd)
    end
  else if is_admin m && negb (m_section m =s "audit") then as_step (openSelectedActions m)
  else no_cmd m.

Definition list_key (key : string) (m : Model) : step_result :=
  let c := m_cursor m in
  if (key =s "up") || (key =s "k") then no_cmd (if 0 <? c then m |> with_cursor (c - 1) else m)
  else if (key =s "down") || (key =s "j") then
    no_cmd (if c <? itemCount m - 1 then m |> with_cursor (c + 1) else m)
  else if key =s "pgup" then
    no_cmd (m |> with_cursor (if c - pageSize m <? 0 then 0 else c - pageSize m))
  else if key =s "pgdown" then no_cmd (clamp (m |> with_cursor (c + pageSize m)))
  else if (key =s "home") || (key =s "g") then no_cmd (m |> with_cursor 0)
  else if (key =s "end") || (key =s "G") then
    no_cmd (if 0 <? itemCount m then m |> with_cursor (itemCount m - 1) else m)
  else if key =s "/" then
    no_cmd (if m_section m =s "targets" then m |> with_searching true |> with_status "" else m)
  else if key =s "esc" then
    no_cmd (if m_section m =s "targets" then m |> with_query "" |> with_cursor 0 else m)
  else if key =s "?" then no_cmd (m |> with_mode "help")
  else if key =s "enter" then press_enter m
  else no_cmd m.

Definition handleKey (e : menu_env) (key : string) (m : Model) : menu_step :=
  if negb (m_mode m =s "") then handleModeKey e key m
  else Ret (
    if m_searching m then no_cmd (search_key key m)
    else if (key =s "ctrl+c") || (key =s "q") then
      with_cmd (m |> with_result (Some quit_result)) QuitCmd
    else if key =s "o" then startOIDCLink m
    else if is_admin m then
      match admin_key key m with Returns r => r | Continues m => list_key key m end
    else list_key key m).

(** ** [Update] *)

Definition paste_into_form (content : string) (m : Model) : step_result :=
  match m_form m with
  | None => no_cmd m
  | Some f =>
    deref (at_index (f_fields f) (f_index f)) (λ field,
      if lenZ (ff_options field) =? 0 then
        no_cmd (m |> with_form (Some (change_field (set_value (ff_value field +:+ TrimSpace content)) f)))
      else no_cmd m)
  end.

Definition paste_message (content : string) (m : Model) : step_result :=
  if m_mode m =s "secret_key" then no_cmd (m |> with_input (m_input m +:+ content))
  else if (m_mode m =s "public_key") || (m_mode m =s "agent_key") then
    no_cmd (m |> with_input (m_input m +:+ TrimSpace content))
  else if m_mode m =s "form" then paste_into_form content m
  else no_cmd m.

Definition mutation_message (status sect : string) (err : option error) (m : Model) : step_result :=
  let m := m |> with_mode "" |> with_input "" |> with_pending None |> with_form None |> with_actions []
             |> with_actionCursor 0 in
  match err with
  | Some e => with_cmd (m |> with_status ("Admin operation failed: " +:+ error_text e)) LoadCmd
  | None =>
    let m := m |> with_status status in
    with_cmd (if sect =s "" then m else m |> with_section sect |> with_cursor 0) LoadCmd
  end.

Definition host_key_message (r : result SshKey) (m : Model) : step_result :=
  match r with
  | Err e => no_cmd (m |> with_mode "" |> with_pending None
                       |> with_status ("Host-key scan failed: " +:+ error_text e))
  | Ok key =>
    deref (m_pending m) (λ p,
      no_cmd (m |> with_pending (Some (p |> pwith_hostKey (Some key))) |> with_mode "confirm_host"
        |> with_status ("Verify out-of-band: " +:+ Key_Type key +:+ " " +:+ FingerprintSHA256 key
                        +:+ ". Press y to accept or n to cancel.")))
  end.

Definition Update (e : menu_env) (msg : message) (m : Model) : menu_step :=
  match msg with
  | KeyPressMsg keystroke => handleKey e keystroke m
  | _ => Ret (
    match msg with
    | ReloadMsg => with_cmd m LoadCmd
    | DataMsg d =>
      let m := m |> with_data (dm_data d) in
      let m := match dm_err d with Some err => m |> with_status (error_text err) | None => m end in
      no_cmd (clamp m)
    | OIDCBeginMsg (Err err) => no_cmd (m |> closeModal ("OIDC linking failed: " +:+ error_text err))
    | OIDCBeginMsg (Ok login) =>
      no_cmd (m |> with_oidcLogin login |> with_mode "oidc_link"
                |> with_status "Complete sign-in in your browser, then press Enter.")
    | OIDCLinkMsg _ (Some err) => no_cmd (m |> closeModal ("OIDC linking failed: " +:+ error_text err))
    | OIDCLinkMsg identity None =>
      with_cmd (m |> with_mode "" |> with_pending None
                  |> with_status ("OIDC account linked as " +:+ Identity_Username identity +:+ ".")) LoadCmd
    | HostKeyMsg r => host_key_message r m
    | MutationMsg status sect err => mutation_message status sect err m
    | PasteMsg content => paste_message content m
    | WindowSizeMsg width height => no_cmd (m |> with_width width |> with_height height)
    | _ => no_cmd m
    end)
  end.

(** ** Running commands ([applyMessage] and [applyCommand] of remote.go) *)

Inductive outcome :=
  | Done (m : Model)
  | Panic
  | OutOfFuel.

(** [cmd] runs and [Update] gets its message, until there is no command. *)
Fixpoint applyCommand (fuel : nat) (e : menu_env) (m : Model) (cmd : option command) : prog db outcome :=
  match cmd, fuel with
  | None, _ => Ret (Done m)
  | Some _, O => Ret OutOfFuel
  | Some c, S fuel =>
    let* msg := perform (m_config m) e c in
    match msg with
    | None => Ret Panic
    | Some msg =>
      let* r := Update e msg m in
      match r with
      | None => Ret Panic
      | Some (m, cmd) => applyCommand fuel e m cmd
      end
    end
  end.

Definition applyMessage (fuel : nat) (e : menu_env) (m : Model) (msg : message) : prog db outcome :=
  let* r := Update e msg m in
  match r with
  | None => Ret Panic
  | Some (m, cmd) => applyCommand fuel e m cmd
  end.

End keys.
