(* ===== verification/MenuView.v ===== *)
(** * What the menu shows ([internal/tui/menu.go]: [View])

    The lines of a frame, over the widths of [github.com/charmbracelet/x/ansi]
    and the local form of an instant.  [fmt]'s padding counts runes.  What can
    panic - an index, a slice, a negative count for [strings.Repeat], a nil
    pointer - is [None]. *)

From S2P Require Import Prelude GoStrings GoTime Effects SshKeys Schema StoreUsers StoreOIDC StoreTargets.
From S2P Require Import StoreAccess StoreAudit Auth MenuState MenuModel.

(** [ansi.StringWidth], [ansi.Truncate], and [t.Local().Format(layout)] *)
Class Ansi := {
  StringWidth : string → Z;
  Truncate : string → Z → string → string;
  LocalFormat : time → string → string }.

(** A control sequence *)
Definition csi_text (s : string) : string := String (chr 0x1b) (String "[" s).

Definition reset : string := csi_text "0m".
Definition bold : string := csi_text "1m".
Definition dim : string := csi_text "2m".
Definition cyan : string := csi_text "36m".
Definition brightCyan : string := csi_text "1;96m".
Definition green : string := csi_text "32m".
Definition red : string := csi_text "31m".
Definition yellow : string := csi_text "33m".

(** [string(runes)] of a part of [[]rune(s)] *)
Definition of_runes (rs : list (Z * string)) : string := concat_strings (encode_rune <$> (fst <$> rs)).

(** ** [visibleRange] *)

Definition visibleRange (cursor total height : Z) : Z * Z :=
  if total <=? 0 then (0, 0)
  else
    let height := if height <? 1 then 1 else height in
    let start := Z.quot cursor height * height in
    let start := if total <? start + height then Z.max (total - height) 0 else start in
    let stop := if total <? start + height then total else start + height in
    (start, stop).

(** The loop of [wrapText]; each round takes at least one rune when [width] is
    positive, so as many rounds as there are runes are enough. *)
Fixpoint wrap_runes (fuel : nat) (width : Z) (rs : list (Z * string)) : option (list string) :=
  match rs, fuel with
  | [], _ => Some []
  | _, O => None
  | _, S fuel =>
    let stop := minInt (lenZ rs) width in
    line ← upto stop rs;
    rest ← from stop rs;
    lines ← wrap_runes fuel width rest;
    Some (of_runes line :: lines)
  end.

Definition wrapText (s : string) (width : Z) : option (list string) :=
  if width <? 1 then Some [s] else wrap_runes (length (runes s)) width (runes s).

Section view.
Context `{UnicodeTables, KeyFormats, Ansi}.

(** ** Fitting text *)

Definition fit (s : string) (width : Z) : option string :=
  if width <=? 0 then Some ""
  else
    let s := Truncate s width "…" in
    let n := StringWidth s in
    if n <? width then pad ← Repeat " " (width - n); Some (s +:+ pad) else Some s.

(** The loop of [tailFit]: runes leave at the front. *)
Fixpoint tail_runes (width : Z) (rs : list (Z * string)) : list (Z * string) :=
  match rs with
  | [] => []
  | _ :: more => if width <? StringWidth ("…" +:+ of_runes rs) then tail_runes width more else rs
  end.

Definition tailFit (s : string) (width : Z) : string :=
  if width <=? 0 then ""
  else if StringWidth s <=? width then s
  else "…" +:+ of_runes (tail_runes width (runes s)).

Definition joinSides (left right : string) (width : Z) : option string :=
  let space := width - StringWidth left - StringWidth right in
  if space <? 1 then fit (left +:+ " " +:+ right) width
  else gap ← Repeat " " space; Some (left +:+ gap +:+ right).

Definition borderTop (label : string) (width : Z) : option string :=
  let inside := width - 2 in
  if inside <? 1 then fit "─" width
  else
    let middle := "─ " +:+ Truncate label (maxInt 1 (inside - 3)) "…" +:+ " " in
    let n := StringWidth middle in
    middle ← (if n <? inside then rest ← Repeat "─" (inside - n); Some (middle +:+ rest) else Some middle);
    Some (dim +:+ "┌" +:+ middle +:+ "┐" +:+ reset).

Definition borderBottom (width : Z) : option string :=
  if width <? 2 then Repeat "─" width
  else line ← Repeat "─" (width - 2); Some (dim +:+ "└" +:+ line +:+ "┘" +:+ reset).

(** ** The rows of a section *)

Definition identity_row_text (m : Model) (identity : SSHIdentity) : string :=
  let keyType := match Fields (SI_PublicKey identity) with
                 | algorithm :: _ => TrimPrefix (ToUpper algorithm) "SSH-"
                 | [] => "SSH"
                 end in
  let uses := lenZ (List.filter (λ t, bool_decide (Target_IdentityID t = Some (SI_ID identity))) (m_targets m)) in
  "  " +:+ pad_right 20 (SI_Name identity) +:+ "  " +:+ pad_right 11 keyType +:+ "  " +:+ Itoa uses
    +:+ " target(s)  " +:+ SI_Fingerprint identity.

Definition user_row_text (m : Model) (u : User) : string :=
  let state := if User_Enabled u then "ENABLED" else "DISABLED" in
  let mfa := if User_TOTPEnabled u then "TOTP ON" else "TOTP OFF" in
  let oidcState := match oidcIdentityForUser m (User_ID u) with
                   | Some identity => if OIDC_Subject identity =s "" then "OIDC PENDING" else "OIDC LINKED"
                   | None => "OIDC OFF"
                   end in
  "  " +:+ pad_right 18 (User_Username u) +:+ "  " +:+ pad_right 7 (ToUpper (User_Role u)) +:+ "  "
    +:+ pad_right 8 mfa +:+ "  " +:+ pad_right 12 oidcState +:+ "  " +:+ state.

Definition group_row_text (m : Model) (g : Group) : string :=
  let count := lenZ (List.filter (λ member, GM_Group member =s Group_Name g) (m_groupMembers m)) in
  "  " +:+ pad_right 28 (Group_Name g) +:+ "  " +:+ Itoa count +:+ " member(s)".

Definition grant_row_text (g : Grant) : string :=
  let caps := (if Grant_Shell g then ["shell"] else []) ++ (if Grant_SFTP g then ["sftp"] else [])
              ++ (if Grant_SCP g then ["scp"] else []) ++ (if Grant_TCPForward g then ["tcp"] else []) in
  "  " +:+ pad_right 18 (Grant_Target g) +:+ "  " +:+ pad_right 7 (ToUpper (Grant_Kind g)) +:+ "  "
    +:+ pad_right 16 (Grant_Principal g) +:+ "  " +:+ Join caps ",".

Definition rule_row_text (r : ForwardRule) : string :=
  "  " +:+ pad_right 22 (FR_Target r) +:+ "  " +:+ FR_Host r +:+ ":" +:+ Itoa (FR_Port r).

Definition audit_row_text (e : AuditEvent) : string :=
  let actor := if Audit_ClaimedUsername e =s "" then "system" else Audit_ClaimedUsername e in
  "  " +:+ LocalFormat (Audit_At e) "01-02 15:04:05" +:+ "  " +:+ pad_right 25 (Audit_EventType e) +:+ "  "
    +:+ pad_right 7 (ToUpper (Audit_Outcome e)) +:+ "  " +:+ actor.

Definition target_row_text (t : Target) : string :=
  let state := if Target_Enabled t then "" else red +:+ "  DISABLED" +:+ reset in
  "  " +:+ pad_right 20 (Target_Name t) +:+ "  " +:+ pad_right 15 (Target_CredentialKind t) +:+ "  "
    +:+ Target_RemoteUsername t +:+ "@" +:+ Target_Host t +:+ ":" +:+ Itoa (Target_Port t) +:+ state.

Definition search_prompt (m : Model) : string :=
  if m_searching m then yellow +:+ "  Search: " +:+ reset +:+ m_query m +:+ "▏"
  else if negb (m_query m =s "") then "  Filter: " +:+ m_query m +:+ dim +:+ "  • Esc clears" +:+ reset
  else "  / Search profiles".

(** Title, context line and rows *)
Definition section_content (m : Model) : string * string * list string :=
  let about text := dim +:+ text +:+ reset in
  if m_section m =s "keys" then
    ("SSH keys", about "  Encrypted reusable downstream identities", identity_row_text m <$> m_identities m)
  else if m_section m =s "users" then
    ("Users", about "  Gateway identities and roles", user_row_text m <$> m_users m)
  else if m_section m =s "groups" then
    ("Groups", about "  Access-control groups", group_row_text m <$> m_groups m)
  else if m_section m =s "grants" then
    ("Grants", about "  Target → principal protocol capabilities", grant_row_text <$> m_grants m)
  else if m_section m =s "forwards" then
    ("TCP forwarding", about "  Exact destinations reachable through selected targets",
     rule_row_text <$> m_forwardRules m)
  else if m_section m =s "audit" then
    ("Recent audit events", about "  Newest first • metadata only", audit_row_text <$> m_auditEvents m)
  else ("Connection profiles", search_prompt m, target_row_text <$> filtered m).

(** ** The rows of a dialogue *)

Definition field_row (inner index i : Z) (field : formField) : string :=
  let value := match ff_options field with
               | _ :: _ => "‹ " +:+ ff_value field +:+ " ›"
               | [] => if i =? index then ff_value field +:+ "▏" else ff_value field
               end in
  let marker := if i =? index then brightCyan +:+ "› " +:+ reset else "  " in
  marker +:+ pad_right 18 (ff_label field) +:+ "  " +:+ tailFit value (maxInt (inner - 24) 8).

Definition form_content (inner : Z) (m : Model) : string * string * list string :=
  match m_form m with
  | None => ("Form", "  Esc cancels", [])
  | Some f =>
    (f_title f, "  Fill in each field; values are validated before saving",
     imap (λ i field, field_row inner (f_index f) (Z.of_nat i) field) (f_fields f)
     ++ [""; green +:+ "  Enter  Next / save" +:+ reset +:+ dim
             +:+ "   •   Tab  Next field   •   ←/→  Change option" +:+ reset])
  end.

Definition action_row (cursor i : Z) (action : actionItem) : string :=
  (if i =? cursor then brightCyan +:+ "› " +:+ reset else "  ") +:+ ai_label action.

(** [None]: the title reads a nil [m.pending]. *)
Definition actions_content (m : Model) : option (string * string * list string) :=
  let rows := imap (λ i action, action_row (m_actionCursor m) (Z.of_nat i) action) (m_actions m) in
  let context := "  Enter selects • Esc returns" in
  if m_mode m =s "user_keys" then
    match m_pending m with
    | None => None
    | Some p => Some ("SSH keys for " +:+ p_username p,
                      "  Add another key or select an existing key to remove • Esc returns", rows)
    end
  else if m_mode m =s "member_add" then Some ("Add group member", context, rows)
  else if m_mode m =s "member_remove" then Some ("Remove group member", context, rows)
  else Some ("Choose action", context, rows).

Definition deleted_name (m : Model) : string :=
  match m_pending m with
  | None => "selected item"
  | Some p =>
    if p_kind p =s "user_key_remove" then "SSH key " +:+ p_keyFingerprint p +:+ " for " +:+ p_username p
    else if p_kind p =s "target_delete" then "target " +:+ Target_Name (p_target p)
    else if p_kind p =s "user_delete" then "user " +:+ p_username p
    else if p_kind p =s "group_delete" then "group " +:+ p_group p
    else if p_kind p =s "grant_delete" then "grant for " +:+ Grant_Target (p_grant p)
    else if p_kind p =s "identity_delete" then "SSH key " +:+ SI_Name (p_identity p)
    else if p_kind p =s "user_totp_remove" then "TOTP for user " +:+ p_username p
    else if p_kind p =s "user_oidc_remove" then "OIDC mapping for user " +:+ p_username p
    else "selected item"
  end.

Definition captured (m : Model) (what : string) : string := what +:+ Itoa (len (m_input m)) +:+ " bytes".

(** Title, context line and rows; [None] is a panic. *)
Definition page : Type := option (string * string * list string).

(** Bullets for at most [limit] bytes, and their number *)
Definition bullets (m : Model) (limit : Z) (unit : string) : option string :=
  dots ← Repeat "•" (minInt (len (m_input m)) limit);
  Some ("  " +:+ dots +:+ "  " +:+ Itoa (len (m_input m)) +:+ unit).

Definition identity_content (inner : Z) (m : Model) : page :=
  match m_pending m with
  | None => Some ("SSH public key", "  Press any key to return", [])
  | Some p =>
    key ← wrapText ("  " +:+ SI_PublicKey (p_identity p)) (maxInt (inner - 2) 16);
    Some ("SSH public key", "  Safe to copy to the downstream server",
      ["  Name         " +:+ SI_Name (p_identity p); "  Fingerprint  " +:+ SI_Fingerprint (p_identity p); "";
       "  Public key:"] ++ key)
  end.

Definition host_content (m : Model) : string * string * list string :=
  let '(algorithm, fingerprint) :=
    match m_pending m with
    | Some p => match p_hostKey p with
                | Some key => (Key_Type key, FingerprintSHA256 key)
                | None => ("", "Unavailable")
                end
    | None => ("", "Unavailable")
    end in
  ("Confirm downstream host key", yellow +:+ "  Verify this fingerprint out-of-band" +:+ reset,
   ["  Algorithm    " +:+ algorithm; "  Fingerprint  " +:+ fingerprint; "";
    green +:+ "  y  Accept and continue" +:+ reset; red +:+ "  n  Reject" +:+ reset]).

Definition totp_confirm_content (inner : Z) (m : Model) : page :=
  let '(secret, uri) := match m_pending m with
                        | Some p => (p_totpSecret p, p_totpURI p)
                        | None => ("", "")
                        end in
  setup ← wrapText ("  " +:+ uri) (maxInt (inner - 2) 16);
  digits ← bullets m 6 " digits captured";
  Some ("Confirm TOTP enrollment", "  Enter the current six-digit authenticator code",
    ["  Manual secret  " +:+ secret; ""; "  Setup URI:"] ++ setup
    ++ [""; digits; ""; green +:+ "  Enter  Verify and enable" +:+ reset]).

Definition oidc_link_content (inner : Z) (m : Model) : page :=
  let login := m_oidcLogin m in
  let link := VerificationURIComplete login in
  direct ← (if link =s "" then Some []
            else lines ← wrapText ("  " +:+ link) (maxInt (inner - 2) 16);
                 Some ([""; "  Direct link:"] ++ lines));
  Some ("Link OIDC account",
    "  The signed provider identity will be bound to " +:+ User_Username (m_user m),
    ["  Open          " +:+ VerificationURI login; "  Enter code    " +:+ UserCode login]
    ++ direct ++ [""; green +:+ "  Enter  Finish linking after browser approval" +:+ reset]).

Definition help_rows : list string :=
  ["  ↑/↓ or j/k     Move selection"; "  Enter          Connect/manage selected item";
   "  a              Add item in current section"; "  m              Manage selected item";
   "  o              Link my OIDC account (key login)"; "  Tab            Move through form fields";
   "  ←/→            Change option or section"; "  /              Search targets";
   "  1–7            Change admin section"; "  r              Refresh data";
   "  q              Disconnect from SSHGateW"].

Definition entry_rows (line enter_row other_row : string) : list string :=
  [""; line; ""; green +:+ enter_row +:+ reset; dim +:+ other_row +:+ reset].

(** The dialogues whose text does not depend on the pending operation *)
Definition fixed_content (m : Model) : page :=
  let mode := m_mode m in
  if mode =s "help" then Some ("Keyboard help", "  Press any key to return", help_rows)
  else if mode =s "public_key" then
    Some ("Add SSH public key", "  Paste one OpenSSH public key",
     entry_rows (captured m "  Public key captured: ") "  Enter   Validate and save"
       "  Ctrl+D  Also saves • Esc cancels")
  else if mode =s "agent_key" then
    Some ("Forwarded-agent identity", "  This public key pins the only agent identity SSHGateW may use",
     entry_rows (captured m "  Public key captured: ") "  Enter   Validate and save"
       "  No private key is stored • Connect with ssh -A")
  else if mode =s "scanning" then
    Some ("Scanning host key", "  Connecting to the downstream SSH server…",
     [""; cyan +:+ "  ◌ Waiting for host-key exchange" +:+ reset; "";
      dim +:+ "  Esc cancels this workflow" +:+ reset])
  else if mode =s "secret_password" then
    typed ← bullets m 24 " bytes captured";
    Some ("Secure password input", "  Contents are never rendered or logged",
     entry_rows typed "  Enter  Save credential" "  Esc    Cancel")
  else if mode =s "secret_key" then
    Some ("Secure private-key input", "  Paste the key, then press Ctrl+D",
     entry_rows (captured m "  Private key captured: ") "  Ctrl+D  Validate and save" "  Esc     Cancel")
  else if mode =s "secret_passphrase" then
    typed ← bullets m 24 " bytes captured";
    Some ("Private-key passphrase", "  Contents are never rendered or logged",
     entry_rows typed "  Enter  Unlock and save" "  Esc    Cancel")
  else if mode =s "totp_auth" then
    typed ← bullets m 6 " digits captured";
    Some ("Two-factor authentication", "  Public key accepted • TOTP required",
     entry_rows typed "  Enter  Verify" "  Esc    Disconnect")
  else if mode =s "oidc_start" then
    Some ("Link OIDC account", "  Requesting a device authorization code…",
     [""; cyan +:+ "  ◌ Contacting the configured identity provider" +:+ reset])
  else if mode =s "oidc_complete" then
    Some ("Link OIDC account", "  Verifying the signed identity and saving its stable subject…",
     [""; cyan +:+ "  ◌ Waiting for authorization" +:+ reset])
  else Some ("Working", "  Please wait…", []).

Definition action_modes : list string := ["actions"; "user_keys"; "member_add"; "member_remove"].

Definition modalContent (inner : Z) (m : Model) : page :=
  let mode := m_mode m in
  if contains action_modes mode then actions_content m
  else if mode =s "form" then Some (form_content inner m)
  else if mode =s "confirm_delete" then
    Some ("Confirm removal", red +:+ "  This change takes effect immediately" +:+ reset,
      [""; "  Remove " +:+ deleted_name m +:+ "?"; ""; red +:+ "  y  Remove" +:+ reset;
       dim +:+ "  n  Keep it" +:+ reset])
  else if mode =s "identity_public" then identity_content inner m
  else if mode =s "confirm_host" then Some (host_content m)
  else if mode =s "totp_confirm" then totp_confirm_content inner m
  else if mode =s "oidc_link" then oidc_link_content inner m
  else fixed_content m.

Definition content (inner : Z) (m : Model) : page :=
  if negb (m_mode m =s "") then modalContent inner m else Some (section_content m).

(** ** The frame *)

Definition section_tabs : list (string * string) :=
  [("1", "targets"); ("2", "keys"); ("3", "users"); ("4", "groups"); ("5", "grants"); ("6", "forwards");
   ("7", "audit")].

Definition tab_text (m : Model) (s : string * string) : string :=
  (if m_section m =s s.2 then brightCyan else dim) +:+ "[" +:+ s.1 +:+ "] " +:+ ToUpper s.2 +:+ reset.

Definition tabLine (m : Model) (w : Z) : option string :=
  if negb (is_admin m) then fit "  CONNECTION PROFILES" w
  else fit (" " +:+ Join (tab_text m <$> section_tabs) "  ") w.

Definition status_color (lower : string) : string :=
  if Contains lower "fail" || Contains lower "error" || Contains lower "denied" || Contains lower "invalid"
  then red
  else if Contains lower "cancel" || Contains lower "verify" then yellow
  else green.

Definition statusLine (m : Model) (w : Z) : option string :=
  if m_status m =s "" then fit (dim +:+ "  ● Ready" +:+ reset) w
  else fit ("  " +:+ status_color (ToLower (m_status m)) +:+ "● " +:+ reset +:+ m_status m) w.

Definition footer_actions (m : Model) : string :=
  if is_admin m then
    if m_section m =s "targets" then
      "  Enter connect  •  a add  •  m manage  •  / search  •  ←→ tabs  •  ? help"
    else if m_section m =s "keys" then
      "  Enter/m manage  •  a add or generate  •  ←→ tabs  •  ? help  •  q quit"
    else if (m_section m =s "users") || (m_section m =s "groups") then
      "  Enter/m manage  •  a add  •  ←→ tabs  •  ? help  •  q quit"
    else if m_section m =s "grants" then
      "  Enter/m manage  •  a grant access  •  ←→ tabs  •  ? help  •  q quit"
    else if m_section m =s "forwards" then
      "  a allow destination  •  Enter/m manage  •  ←→ tabs  •  ? help  •  q quit"
    else "  ↑↓ navigate  •  ←→ tabs  •  r refresh  •  ? help  •  q quit"
  else if c_canSelfLinkOIDC (m_config m) && c_oidc (m_config m) then
    "  Enter connect  •  o link OIDC  •  / search  •  ? help  •  q quit"
  else "  ↑↓ navigate  •  Enter connect  •  / search  •  ? help  •  q quit".

Definition footer (m : Model) : string :=
  if negb (m_mode m =s "") then
    if m_mode m =s "help" then dim +:+ "  Any key  close help" +:+ reset
    else dim +:+ "  Esc  cancel" +:+ reset
  else if m_searching m then dim +:+ "  Type to filter  •  Enter apply  •  Esc clear" +:+ reset
  else dim +:+ footer_actions m +:+ reset.

(** [for len(lines) < n { lines = append(lines, line) }] *)
Definition fill_to (n : Z) (line : option string) (lines : list string) : option (list string) :=
  if lenZ lines <? n
  then text ← line; Some (lines ++ replicate (Z.to_nat (n - lenZ lines)) text)
  else Some lines.

(** [if len(lines) > h { lines = lines[:h] }] *)
Definition cut_to (h : Z) (lines : list string) : option (list string) :=
  if h <? lenZ lines then upto h lines else Some lines.

Definition compactView (m : Model) (w h : Z) : option (list string) :=
  let w := if w <? 1 then 1 else w in
  let h := if h <? 1 then 1 else h in
  lines ← mapM (λ line, fit line w)
            [brightCyan +:+ "SSHGateW" +:+ reset;
             User_Username (m_user m) +:+ " • " +:+ ToUpper (User_Role (m_user m));
             "Terminal too small"; "Resize to at least 20×8"];
  cut_to h lines.

Definition qr_row (w : Z) (qrLine : string) : option string :=
  padding ← Repeat " " (maxInt (Z.quot (w - StringWidth qrLine) 2) 0);
  fit (padding +:+ csi_text "47;30m" +:+ qrLine +:+ reset) w.

Definition totpEnrollmentView (m : Model) (w h : Z) : option (list string) :=
  title ← fit (brightCyan +:+ " SSHGateW • TOTP enrollment " +:+ reset) w;
  qr ← mapM (qr_row w) (match m_pending m with Some p => p_totpQR p | None => [] end);
  lines ← fill_to (h - 1) (Repeat " " w) (title :: qr);
  foot ← fit (dim +:+ "  Scan QR  •  Enter continue  •  Esc cancel" +:+ reset) w;
  cut_to h (lines ++ [foot]).

(** A row between the borders *)
Definition boxed (row : string) : string := dim +:+ "│" +:+ reset +:+ " " +:+ row +:+ " " +:+ dim +:+ "│" +:+ reset.

Definition row_cursor (m : Model) : Z :=
  if contains action_modes (m_mode m) then m_actionCursor m else m_cursor m.

(** The round of the loop over the rows at the index [i] *)
Definition shown_row (m : Model) (inner : Z) (selectable : bool) (rows : list string) (i : Z) : option string :=
  row ← at_index rows i;
  row ← fit row inner;
  Some (boxed (if (m_mode m =s "") && selectable && (i =? m_cursor m) then brightCyan +:+ row +:+ reset else row)).

(** The message shown instead of the rows when there are none *)
Definition no_rows (m : Model) : string :=
  dim +:+ (if (m_section m =s "forwards") && (m_mode m =s "") then "Press a to allow a destination."
           else "Nothing to show here yet.") +:+ reset.

Definition frame_label (m : Model) (title : string) (start stop total : Z) : string :=
  if (0 <? total) && (m_mode m =s "")
  then title +:+ "  " +:+ Itoa (start + 1) +:+ "–" +:+ Itoa stop +:+ " of " +:+ Itoa total
  else title.

(** The frame around the rows of a page *)
Definition frame_lines (m : Model) (w h : Z) (c : string * string * list string) : option (list string) :=
  let inner := w - 4 in
  let '(title, contextLine, rows) := c in
  head ← joinSides (brightCyan +:+ " SSHGateW " +:+ reset)
           (dim +:+ User_Username (m_user m) +:+ " • " +:+ ToUpper (User_Role (m_user m)) +:+ reset) w;
  tabs ← tabLine m w;
  rule ← Repeat "─" w;
  context ← fit contextLine w;
  let listHeight := if h - 8 <? 1 then 1 else h - 8 in
  let selectable := 0 <? lenZ rows in
  let '(start, stop) := visibleRange (row_cursor m) (lenZ rows) listHeight in
  border ← borderTop (frame_label m title start stop (lenZ rows)) w;
  let '(rows, start, stop) := match rows with [] => ([no_rows m], 0, 1) | _ => (rows, start, stop) end in
  shown ← mapM (shown_row m inner selectable rows) (seqZ start (stop - start));
  let blank := spaces ← Repeat " " (w - 2); Some (dim +:+ "│" +:+ reset +:+ spaces +:+ dim +:+ "│" +:+ reset) in
  lines ← fill_to (h - 3) blank ([head; tabs; dim +:+ rule +:+ reset; context; border] ++ shown);
  bottom ← borderBottom w;
  status ← statusLine m w;
  foot ← fit (footer m) w;
  cut_to h (lines ++ [bottom; status; foot]).

Definition view_size (m : Model) : Z * Z :=
  let w := if m_width m <=? 0 then 80 else m_width m in
  let h := if m_height m <=? 0 then 24 else m_height m in
  (if 1 <? w then w - 1 else w, if 1 <? h then h - 1 else h).

(** The lines of the view; [None] is a panic. *)
Definition view_lines (m : Model) : option (list string) :=
  let '(w, h) := view_size m in
  if (w <? 20) || (h <? 8) then compactView m w h
  else if m_mode m =s "totp_enroll" then totpEnrollmentView m w h
  else c ← content (w - 4) m; frame_lines m w h c.

Definition View (m : Model) : option string := (λ lines, Join lines (str1 (chr 0x0A))) <$> view_lines m.

End view.
