(* ===== verification/MenuRemote.v ===== *)
(** * The menu on an SSH channel ([internal/tui/remote.go])

    [RunRemote] draws the menu, reads the channel and gives the model the events
    of each read.  What the channel, the windows and the context deliver is a
    list of [remote_input]s in the order the [select] receives them; [write] is
    how the channel answers a write, given what was written before. *)

From S2P Require Import Prelude GoStrings Json GoTime Effects SshKeys Sql Schema StoreUsers StoreOIDC.
From S2P Require Import StoreTargets StoreAccess StoreAudit Totp Auth Input MenuState MenuModel.
From S2P Require Import MenuCommands MenuForms MenuKeys MenuView.

Definition enterScreen : string := csi "?1049h" +:+ csi "?25l" +:+ csi "?2004h" +:+ csi "H" +:+ csi "2J".
Definition leaveScreen : string := csi "?2004l" +:+ csi "?25h" +:+ csi "?1049l".

Inductive remote_input :=
  | ContextDone (e : error)
  | Window (width height : Z)
  | WindowsClosed
  | ReadResult (data : string) (err : option read_error).

Inductive remote_end :=
  | Returned (r : Result)
  | Failed (e : error)
  | Panicked.

(** The loop's state: the model, the bytes not parsed yet, what was written, and
    how many events were handled. *)
Record remote := MkRemote {
  rm_model : Model;
  rm_pending : string;
  rm_written : list string;
  rm_events : nat }.

Definition set_model (m : Model) (s : remote) : remote :=
  MkRemote m (rm_pending s) (rm_written s) (rm_events s).

(** A stage of the loop: it goes on, or [RunRemote] returns. *)
Definition stage : Type := remote + remote_end * remote.

(** A chain of commands has at most two of them ([MenuSafe.commands_end]). *)
Definition command_fuel : nat := 3.

Section run_remote.
Context `{UnicodeTables, Rowids, TimeParser, KeyFormats, CipherOps, SealOps, DriverTexts, Ansi}.
Context (write : list string → string → result unit) (outside : nat → menu_env).

Definition write_string (text : string) (s : remote) : stage :=
  match write (rm_written s) text with
  | Ok _ => inl (MkRemote (rm_model s) (rm_pending s) (rm_written s ++ [text]) (rm_events s))
  | Err e => inr (Failed e, s)
  end.

Definition render (s : remote) : stage :=
  match View (rm_model s) with
  | None => inr (Panicked, s)
  | Some view => write_string (csi "?2026h" +:+ csi "H" +:+ view +:+ csi "J" +:+ csi "?2026l") s
  end.

(** [if m.result != nil { return *m.result, nil }] *)
Definition check_result (s : remote) : stage :=
  match m_result (rm_model s) with
  | Some r => inr (Returned r, s)
  | None => inl s
  end.

Definition andThen (st : stage) (k : remote → prog db stage) : prog db stage :=
  match st with inl s => k s | inr ended => Ret (inr ended) end.

Definition event_step (e : menu_env) (event : inputEvent) (m : Model) : menu_step :=
  if negb (paste event =s "") then Update e (PasteMsg (paste event)) m else handleKey e (key event) m.

Definition run_command (e : menu_env) (cmd : option command) (s : remote) : prog db stage :=
  match cmd with
  | None => Ret (inl s)
  | Some _ =>
    andThen (render s) (λ s,
      let* r := applyCommand command_fuel e (rm_model s) cmd in
      match r with
      | Done m => Ret (inl (set_model m s))
      | Panic | OutOfFuel => Ret (inr (Panicked, s))
      end)
  end.

Definition handle_event (event : inputEvent) (s : remote) : prog db stage :=
  let e := outside (rm_events s) in
  let* r := event_step e event (rm_model s) in
  match r with
  | None => Ret (inr (Panicked, s))
  | Some (m, cmd) =>
    let s := MkRemote m (rm_pending s) (rm_written s) (S (rm_events s)) in
    andThen (check_result s) (λ s,
      let* st := run_command e cmd s in
      andThen st (λ s, andThen (render s) (λ s, Ret (check_result s))))
  end.

Fixpoint handle_events (events : list inputEvent) (s : remote) : prog db stage :=
  match events with
  | [] => Ret (inl s)
  | event :: more => let* st := handle_event event s in andThen st (handle_events more)
  end.

Definition handle_data (data : string) (s : remote) : prog db stage :=
  if data =s "" then Ret (inl s)
  else
    let '(events, rest) := parseInput (rm_pending s +:+ data) in
    handle_events events (MkRemote (rm_model s) rest (rm_written s) (rm_events s)).

Definition after_read (err : option read_error) (s : remote) : stage :=
  match err with
  | None => inl s
  | Some EOF => inr (Returned quit_result, s)
  | Some (ReadFailed e) => inr (Failed e, s)
  end.

Definition remote_step (input : remote_input) (s : remote) : prog db stage :=
  match input with
  | ContextDone e => Ret (inr (Failed e, s))
  | WindowsClosed => Ret (inl s)
  | Window width height =>
    let m := rm_model s in
    if negb (width =? m_width m) || negb (height =? m_height m)
    then Ret (render (set_model (m |> with_width width |> with_height height) s))
    else Ret (inl s)
  | ReadResult data err =>
    let* st := handle_data data s in
    andThen st (λ s, Ret (after_read err s))
  end.

Fixpoint remote_loop (inputs : list remote_input) (s : remote) : prog db stage :=
  match inputs with
  | [] => Ret (inl s)
  | input :: more => let* st := remote_step input s in andThen st (remote_loop more)
  end.

(** What precedes the loop: the first load, and the first frame *)
Definition remote_start (width height : Z) (m : Model) : prog db stage :=
  let m := m |> with_width width |> with_height height in
  let start m := Ret (let s := MkRemote m "" [] 1 in
                      match write_string enterScreen s with
                      | inl s => render s
                      | inr ended => inr ended
                      end) in
  if m_mode m =s "totp_auth" then start m
  else
    let* r := applyMessage command_fuel (outside 0) m ReloadMsg in
    match r with
    | Done m => start m
    | Panic | OutOfFuel => Ret (inr (Panicked, MkRemote m "" [] 1))
    end.

(** [defer io.WriteString(rw, leaveScreen)], in force once the screen was
    entered; its error is dropped. *)
Definition leave (st : stage) : stage :=
  match st with
  | inr (ended, MkRemote m pending (w :: ws) n) =>
    inr (ended, MkRemote m pending
      ((w :: ws) ++ if is_ok (write (w :: ws) leaveScreen) then [leaveScreen] else []) n)
  | _ => st
  end.

(** [inl]: the inputs are used up and it still waits for one. *)
Definition RunRemote (width height : Z) (inputs : list remote_input) (m : Model) : prog db stage :=
  let* st := remote_start width height m in
  let* st := andThen st (remote_loop inputs) in
  Ret (leave st).

End run_remote.
