(* ===== verification/MenuSamples.v ===== *)
(** * Concrete instances for the examples of the menu *)

From S2P Require Import Prelude GoStrings GoTime Effects SshKeys Sql Schema StoreUsers StoreOIDC.
From S2P Require Import StoreTargets StoreCalls Totp Auth Input MenuState MenuModel MenuCommands MenuForms.
From S2P Require Import MenuKeys MenuView MenuRemote.

(** A private key is its public key's wire form; one that starts with a lock
    needs a passphrase. *)
Definition menu_formats : KeyFormats := {|
  ParseAuthorizedKey := λ line,
    match split_byte " " line with
    | [t; m] => Ok (MkKey t m, "", "")
    | [t; m; c] => Ok (MkKey t m, c, "")
    | _ => Err (Ext "ssh: no key found")
    end;
  MarshalAuthorizedKey := λ k, Key_Type k +:+ " " +:+ Key_Marshal k +:+ str1 (chr 0x0A);
  FingerprintSHA256 := λ k, "SHA256:" +:+ Key_Marshal k;
  ParsePrivateKey := λ s, if HasPrefix s "lock" then Err (Ext "ssh: this private key is passphrase protected")
                          else Ok (MkSigner (MkKey "ssh-ed25519" s));
  ParsePrivateKeyWithPassphrase := λ s _, Ok (MkSigner (MkKey "ssh-ed25519" s));
  PassphraseMissing := λ _, true |}.

Definition menu_seal : SealOps := {|
  Encrypt := λ rand _ _ p, let! n := rand in Ok (n, "sealed " +:+ Password p +:+ PrivateKey p);
  EncryptSSHIdentity := λ rand _ p, let! n := rand in Ok (n, "sealed " +:+ PrivateKey p);
  EncryptTOTP := λ rand _ s, let! n := rand in Ok (n, "sealed " +:+ s) |}.

Definition menu_cipher : CipherOps := {|
  Decrypt := λ _ _ _ c, Ok (mkPayload 1 c "" "" "" "");
  DecryptSSHIdentity := λ _ _ c, Ok (mkPayload 1 "" c "" "" "");
  DecryptTOTP := λ _ _ c, Ok c |}.

Definition menu_texts : DriverTexts := {| violation_text := λ _, "constraint failed" |}.

(** Every rune is one cell wide. *)
Definition menu_ansi : Ansi := {|
  StringWidth := λ s, lenZ (runes s);
  Truncate := λ s w tail,
    if lenZ (runes s) <=? w then s else of_runes (take (Z.to_nat (w - 1)) (runes s)) +:+ tail;
  LocalFormat := λ t _, sqlite_text t |}.

Definition menu_host_key : SshKey := MkKey "ssh-ed25519" "AAAAhost".

Definition sample_env : menu_env := {|
  env_now := 0;
  env_nonce := Ok "nonce";
  env_secret := Ok [1; 2; 3; 4; 5; 6; 7; 8; 9; 10; 11; 12; 13; 14; 15; 16; 17; 18; 19; 20];
  env_qr := λ _, Ok [[true]];
  env_GenerateKey := Ok "generated";
  env_MarshalPrivateKey := λ key comment, Ok (key +:+ " " +:+ comment);
  env_oidc := λ _, {| Begin := Ok (mkLogin "CODE" "https://id.example/device" "");
                      Complete := λ _, Ok (mkIdentity "subject" "carol@example") |};
  env_probe := λ _, (Ok tt, Some menu_host_key, Err (Ext "probe")) |}.

Definition open_channel (written : list string) (text : string) : result unit := Ok tt.

(** The users of [StoreCalls.sample_db] *)
Definition user_named (name : string) : User :=
  match List.find (λ u, u_username u =s name) sample_db.(users) with
  | Some u => mkUser (u_id u) (u_username u) (u_role u) (u_enabled u) false noon
  | None => no_user
  end.

Definition alice : User := Eval vm_compute in user_named "alice".
Definition carol : User := Eval vm_compute in user_named "carol".

Definition menu_of (u : User) : Model :=
  New true "10.1.1.1" u "" |> ConfigureOIDC true "https://id.example" 0 true.
