(* ===== verification/MenuWf.v ===== *)
(** * The menu's invariant: no index and no pointer goes wrong

    [menu_ok] says what each mode of the menu relies on: a pending operation, a
    form of the right shape, a host key.  Every handler keeps it and never
    panics ([MenuProps] puts the handlers together). *)

From S2P Require Import Prelude GoStrings Json GoTime Effects SshKeys Sql Schema Names StoreUsers.
From S2P Require Import StoreOIDC StoreTargets StoreAccess StoreAudit StoreWf StoreCalls Totp Auth.
From S2P Require Import MenuState MenuModel MenuCommands MenuForms MenuKeys.

(** ** The invariant *)

(** [submitForm] trims what [syncTargetKeyField] does not. *)
Definition kind_ok (kind : string) : Prop := TrimSpace kind = kind.
Definition targets_ok (ts : list Target) : Prop := ∀ t, t ∈ ts → kind_ok (Target_CredentialKind t).

Definition in_rows (i n : Z) : Prop := 0 <= i < Z.max 1 n.

(** A host key is there when a target is being added. *)
Definition host_ok (p : pendingOperation) : Prop := p_kind p = "target_add" → is_Some (p_hostKey p).

(** The fields of a form that chooses a credential: [before], the authentication
    method and, exactly for a stored key, the key. *)
Definition auth_fields (before : list string) (l : list formField) (v : string) : Prop :=
  kind_ok v ∧ l !! length before = Some (mkField "Authentication" v credentialKinds) ∧
  take (length before) (ff_label <$> l) = before.

Definition auth_shape (before : list string) (l : list formField) : Prop :=
  ∃ v, auth_fields before l v ∧
       length l = (length before + if v =s CredentialStoredKey then 2 else 1)%nat.

Definition target_labels : list string := ["Name"; "Host"; "Port"; "Remote user"].

Definition required_fields (kind : string) : nat :=
  if kind =s "grant_add" then 7
  else if kind =s "grant_edit" then 4
  else if (kind =s "forward_add") || (kind =s "target_edit") then 3
  else if (kind =s "identity_add") || (kind =s "user_add") then 2
  else 1.

Definition form_shape (kind : string) (l : list formField) : Prop :=
  if kind =s "target_add" then auth_shape target_labels l
  else if kind =s "target_credential" then auth_shape [] l
  else (required_fields kind <= length l)%nat.

Definition pending_forms : list string := ["target_credential"; "grant_edit"; "user_oidc_map"; "target_edit"].

Definition form_ok (pending : option pendingOperation) (f : adminForm) : Prop :=
  0 <= f_index f < lenZ (f_fields f) ∧
  (contains pending_forms (f_kind f) = true → is_Some pending) ∧
  form_shape (f_kind f) (f_fields f).

(** What a mode relies on *)
Inductive need := NoNeed | NeedPending | NeedActions | NeedForm | NeedHostKey | NeedCredential.

Definition mode_need (mode : string) : need :=
  if is_action_mode mode then NeedActions
  else if mode =s "form" then NeedForm
  else if mode =s "confirm_host" then NeedHostKey
  else if contains ["secret_password"; "secret_key"; "secret_passphrase"; "agent_key"] mode
  then NeedCredential
  else if contains ["confirm_delete"; "public_key"; "totp_enroll"; "totp_confirm"; "scanning"] mode
  then NeedPending
  else NoNeed.

Definition need_met (n : need) (m : Model) : Prop :=
  match n with
  | NoNeed => True
  | NeedPending => is_Some (m_pending m)
  | NeedActions =>
    (∃ p, m_pending m = Some p ∧ kind_ok (Target_CredentialKind (p_target p))) ∧
    in_rows (m_actionCursor m) (lenZ (m_actions m))
  | NeedForm => ∀ f, m_form m = Some f → form_ok (m_pending m) f
  | NeedHostKey => ∃ p, m_pending m = Some p ∧ is_Some (p_hostKey p)
  | NeedCredential => ∃ p, m_pending m = Some p ∧ host_ok p
  end.

Definition mode_ok (m : Model) : Prop := need_met (mode_need (m_mode m)) m.

Section invariant.
Context `{UnicodeTables}.

Definition base_ok (m : Model) : Prop :=
  c_cipher (m_config m) = true ∧ targets_ok (m_targets m) ∧ in_rows (m_cursor m) (itemCount m).

Definition menu_ok (m : Model) : Prop := base_ok m ∧ mode_ok m.

(** What a command relies on, next to the model it leaves *)
Definition command_ok (m : Model) (c : command) : Prop :=
  match c with
  | ScanHostCmd _ => is_Some (m_pending m)
  | HostKeyCmd p | StoredTargetCmd p => is_Some (p_hostKey p)
  | CredentialCmd p _ => host_ok p
  | _ => True
  end.

Definition step_ok (r : step_result) : Prop :=
  match r with
  | None => False
  | Some (m, c) => menu_ok m ∧ match c with Some c => command_ok m c | None => True end
  end.

End invariant.

Lemma at_index_in {A} (l : list A) i : 0 <= i < lenZ l → ∃ x, at_index l i = Some x ∧ x ∈ l.
Proof.
  unfold at_index, lenZ. intros Hi. destruct (Z.ltb_spec i 0); [lia|].
  destruct (lookup_lt_is_Some_2 l (Z.to_nat i)) as [x Hx]; [lia|].
  exists x. split; [done|]. by eapply list_elem_of_lookup_2.
Qed.

Lemma at_index_lookup {A} (l : list A) i x : at_index l i = Some x → l !! Z.to_nat i = Some x.
Proof. unfold at_index. by destruct (i <? 0). Qed.

Lemma lenZ_zero {A} (l : list A) : lenZ l =? 0 = true ↔ l = [].
Proof. unfold lenZ. rewrite Z.eqb_eq. destruct l; cbn; split; (done || lia). Qed.

Lemma in_rows_zero n : in_rows 0 n.
Proof. unfold in_rows. lia. Qed.

Lemma valid_kind_ok kind : validCredentialKind kind = true → kind_ok kind.
Proof.
  unfold validCredentialKind. rewrite !orb_true_iff, !String.eqb_eq.
  intros [[[->| ->]| ->]| ->]; by vm_compute.
Qed.

#[export] Hint Resolve in_rows_zero : gateway.

Lemma no_cmd_ok `{UnicodeTables} m : menu_ok m → step_ok (no_cmd m).
Proof. by split. Qed.

Lemma with_cmd_ok `{UnicodeTables} m c : menu_ok m → command_ok m c → step_ok (with_cmd m c).
Proof. by split. Qed.

Lemma closeModal_ok `{UnicodeTables} status m : base_ok m → menu_ok (closeModal status m).
Proof. intros H'. split; [exact H'|exact I]. Qed.

(** A change of the model that leaves the rows, the cursor and what the mode
    relies on alone *)
Lemma status_ok `{UnicodeTables} status m : menu_ok m → menu_ok (with_status status m).
Proof. by intros [? ?]. Qed.
Lemma input_ok `{UnicodeTables} input m : menu_ok m → menu_ok (with_input input m).
Proof. by intros [? ?]. Qed.

#[export] Hint Resolve no_cmd_ok with_cmd_ok closeModal_ok status_ok input_ok : gateway.
