(* ===== verification/MenuFormsWf.v ===== *)
(** * The forms of the menu keep their shape

    What [submitForm] indexes is there: the keys of a form, and the fields that
    depend on others, keep [form_ok], and a submitted form's values have the
    length its kind needs. *)

From S2P Require Import Prelude GoStrings Json GoTime Effects SshKeys Sql Schema Names StoreUsers.
From S2P Require Import StoreOIDC StoreTargets StoreAccess StoreAudit StoreWf StoreCalls Totp Auth.
From S2P Require Import MenuState MenuModel MenuCommands MenuForms MenuKeys MenuWf.

(** ** Values of a form *)

Lemma form_values_lookup a i fields vs : form_values a i fields = inl vs →
  vs = TrimSpace ∘ ff_value <$> fields.
Proof.
  revert i vs. induction fields as [|f fields IH]; intros i vs; cbn; [by intros [= <-]|].
  destruct (_ && _); [discriminate|].
  destruct (form_values a (i + 1) fields) as [us|] eqn:E; [|discriminate].
  intros [= <-]. by rewrite (IH _ _ E).
Qed.

Lemma form_values_refused a i fields j label : form_values a i fields = inr (j, label) →
  i <= j < i + lenZ fields.
Proof.
  revert i. induction fields as [|f fields IH]; intros i; cbn; [discriminate|].
  unfold lenZ in *. cbn [length]. destruct (_ && _); [intros [= <- <-]; lia|].
  destruct (form_values a (i + 1) fields) as [|bad] eqn:E; [discriminate|].
  intros [= ->]. specialize (IH _ E). lia.
Qed.

Lemma authentication_of_auth before l v : auth_fields before l v → "Authentication" ∉ before →
  authentication_of l = v.
Proof.
  intros (Hk & Hl & Hb) Hn. unfold authentication_of.
  enough (List.find (λ field, ff_label field =s "Authentication") l =
          Some (mkField "Authentication" v credentialKinds)) as -> by exact Hk.
  clear Hk. revert l Hl Hb. induction before as [|b before IH]; intros [|f l]; cbn; try done.
  - intros [= ->] _. by rewrite String.eqb_refl.
  - intros Hl [= <- Hb]. apply not_elem_of_cons in Hn as [Hne Hn].
    destruct (String.eqb_spec (ff_label f) "Authentication"); [congruence|].
    apply IH; auto.
Qed.

(** ** Changing a field *)

Lemma labels_alter (change : formField → formField) (k : nat) (l : list formField) :
  (∀ field, l !! k = Some field → ff_label (change field) = ff_label field) →
  ff_label <$> alter change k l = ff_label <$> l.
Proof.
  intros H. apply list_eq. intros i. rewrite !list_lookup_fmap.
  destruct (decide (i = k)) as [->|Hne]; [|by rewrite list_lookup_alter_ne by done].
  rewrite list_lookup_alter_eq. destruct (l !! k) as [f|] eqn:E; cbn; [|done]. by rewrite H.
Qed.

Lemma auth_fields_other before change k l v : k ≠ length before →
  (∀ field, l !! k = Some field → ff_label (change field) = ff_label field) →
  auth_fields before l v → auth_fields before (alter change k l) v.
Proof.
  intros Hne Hlab (Hk & Hl & Hb). split_and!; [done| |by rewrite labels_alter].
  by rewrite list_lookup_alter_ne.
Qed.

Lemma cycleOption_option delta field : ff_options field ≠ [] →
  ∃ v, v ∈ ff_options field ∧ cycleOption delta field = set_value v field.
Proof.
  intros Hne. unfold cycleOption. destruct (ff_options field) as [|o options] eqn:E; [done|].
  set (l := o :: options). eexists. split; [|reflexivity].
  apply list_elem_of_In, nth_In.
  assert (0 < lenZ l) as Hpos by (unfold lenZ, l; cbn; lia).
  set (i := Z.of_nat _ + delta + lenZ l).
  pose proof (Z.mod_pos_bound i (lenZ l) Hpos) as Hb. unfold lenZ in *. lia.
Qed.

Lemma cycle_auth delta v : ∃ v', kind_ok v' ∧
  cycleOption delta (mkField "Authentication" v credentialKinds) = mkField "Authentication" v' credentialKinds.
Proof.
  destruct (cycleOption_option delta (mkField "Authentication" v credentialKinds)) as (v' & Hin & ->);
    [done|].
  exists v'. split; [|done]. apply valid_kind_ok.
  repeat (apply elem_of_cons in Hin as [->|Hin]; [done|]). by apply elem_of_nil in Hin.
Qed.

Lemma cycle_label delta field : ff_label (cycleOption delta field) = ff_label field.
Proof. unfold cycleOption. by destruct (ff_options field). Qed.

(** Cycling a field: the authentication method may change, its list of fields
    not yet. *)
Lemma auth_fields_cycle before delta k l v : auth_fields before l v →
  ∃ v', auth_fields before (alter (cycleOption delta) k l) v'.
Proof.
  intros Ha. destruct (decide (k = length before)) as [->|Hne].
  - destruct Ha as (Hk & Hl & Hb). destruct (cycle_auth delta v) as (v' & Hk' & Hc).
    exists v'. split_and!; [done| |].
    + by rewrite list_lookup_alter_eq, Hl; cbn [fmap option_fmap option_map]; rewrite Hc.
    + rewrite labels_alter; [done|]. intros field _. apply cycle_label.
  - exists v. apply auth_fields_other; [done| |done]. intros field _. apply cycle_label.
Qed.

(** ** [syncTargetKeyField] *)

Lemma sync_key_field_ok m f before v :
  auth_fields before (f_fields f) v →
  length (f_fields f) = (length before + 1)%nat ∨ length (f_fields f) = (length before + 2)%nat →
  0 <= f_index f < lenZ (f_fields f) →
  let f' := sync_key_field m f (length before) (Z.of_nat (length before) + 1) in
  auth_shape before (f_fields f') ∧ 0 <= f_index f' < lenZ (f_fields f') ∧ f_kind f' = f_kind f.
Proof.
  intros (Hk & Hl & Hb) Hlen Hi. unfold sync_key_field, lenZ in *.
  destruct (Z.ltb_spec (Z.of_nat (length (f_fields f))) (Z.of_nat (length before) + 1)); [lia|].
  rewrite Hl. cbn [ff_value].
  destruct (String.eqb v CredentialStoredKey) eqn:Ev; cbn [andb negb].
  - destruct (Z.eqb_spec (Z.of_nat (length (f_fields f))) (Z.of_nat (length before) + 1)) as [E|E].
    + cbn. split_and!; [|lia|rewrite length_app; cbn; lia|done].
      exists v. rewrite Ev. split; [|rewrite length_app; cbn; lia]. split_and!; [done| |].
      * rewrite lookup_app_l; [done|lia].
      * rewrite fmap_app, take_app_le; [done|rewrite length_fmap; lia].
    + split_and!; [|lia..|done]. exists v. rewrite Ev. split; [done|lia].
  - destruct (Z.ltb_spec (Z.of_nat (length before) + 1) (Z.of_nat (length (f_fields f)))) as [E|E].
    + set (l := take (Z.to_nat (Z.of_nat (length before) + 1)) (f_fields f)).
      assert (length l = (length before + 1)%nat) as Hll by (unfold l; rewrite length_take; lia).
      assert (auth_shape before l) as Hshape.
      { exists v. rewrite Ev. split; [|done]. split_and!; [done| |].
        - unfold l. rewrite lookup_take_lt by lia. done.
        - unfold l. rewrite fmap_take, take_take, Nat.min_l by lia. done. }
      destruct (Z.leb_spec (Z.of_nat (length before) + 1) (f_index (set_fields l f))); cbn in *;
        split_and!; (done || lia).
    + split_and!; [|lia..|done]. exists v. rewrite Ev. split; [done|lia].
Qed.

(** ** The keys of a form *)

Lemma in_bounds_alter change k (l : list formField) : lenZ (alter change k l) = lenZ l.
Proof. unfold lenZ. by rewrite length_alter. Qed.

Lemma auth_shape_text before change k l field :
  auth_shape before l → l !! k = Some field → ff_options field = [] →
  (∀ x, ff_label (change x) = ff_label x) → auth_shape before (alter change k l).
Proof.
  intros (v & Ha & Hlen) Hf Ho Hlab. exists v. rewrite length_alter. split; [|done].
  apply auth_fields_other; [|by auto|done]. intros ->. destruct Ha as (_ & Hl & _). by simplify_eq.
Qed.

(** Typing into a text field *)
Lemma form_ok_text pending f change field :
  form_ok pending f → at_index (f_fields f) (f_index f) = Some field → ff_options field = [] →
  (∀ x, ff_label (change x) = ff_label x) → form_ok pending (change_field change f).
Proof.
  intros (Hi & Hp & Hs) Hf%at_index_lookup Ho Hlab. unfold form_ok, change_field. cbn.
  rewrite in_bounds_alter. split_and!; [lia..|done|]. unfold form_shape in *.
  destruct (f_kind f =s "target_add"); [by eapply auth_shape_text|].
  destruct (f_kind f =s "target_credential"); [by eapply auth_shape_text|].
  by rewrite length_alter.
Qed.

Lemma set_value_label v field : ff_label (set_value v field) = ff_label field.
Proof. done. Qed.

Lemma form_ok_index pending f i :
  form_ok pending f → 0 <= i < lenZ (f_fields f) → form_ok pending (set_index i f).
Proof. by intros (_ & Hp & Hs) Hi. Qed.

Lemma contains_true l v : contains l v = true ↔ v ∈ l.
Proof.
  unfold contains. rewrite existsb_true. split.
  - intros (x & Hx & E). apply String.eqb_eq in E. by subst.
  - intros Hv. exists v. split; [done|]. apply String.eqb_refl.
Qed.

Lemma syncFormOptions_pending m : m_pending (syncFormOptions m) = m_pending m.
Proof.
  unfold syncFormOptions, syncTargetKeyField. destruct (m_form m) as [f|]; [|done].
  by repeat (case_match; try done).
Qed.

(** The forms of a target, between a change of the method and the sync *)
Definition half_shape (kind : string) (l : list formField) : Prop :=
  if kind =s "target_add" then
    ∃ v, auth_fields target_labels l v ∧ (length l = 5%nat ∨ length l = 6%nat)
  else if kind =s "target_credential" then
    ∃ v, auth_fields [] l v ∧ (length l = 1%nat ∨ length l = 2%nat)
  else (required_fields kind <= length l)%nat.

Lemma sync_form pending m f :
  m_form m = Some f → m_pending m = pending →
  0 <= f_index f < lenZ (f_fields f) → (contains pending_forms (f_kind f) = true → is_Some pending) →
  half_shape (f_kind f) (f_fields f) →
  ∃ f', syncFormOptions m = m |> with_form (Some f') ∧ form_ok pending f'.
Proof.
  intros Hf <- Hi Hp Hs. unfold syncFormOptions, syncTargetKeyField, half_shape in *. rewrite Hf.
  assert (form_ok (m_pending m) f → ∃ f', m = m |> with_form (Some f') ∧ form_ok (m_pending m) f') as Hsame.
  { intros Hok. exists f. split; [|done]. destruct m; cbn in *. by rewrite <- Hf. }
  assert (∀ before v n, auth_fields before (f_fields f) v →
    length (f_fields f) = (length before + 1)%nat ∨ length (f_fields f) = (length before + 2)%nat →
    Z.of_nat (length before) + 1 = n →
    (∀ l, form_shape (f_kind f) l = auth_shape before l) →
    form_ok (m_pending m) (sync_key_field m f (length before) n)) as Hsync.
  { intros before v n Ha Hlen <- Hshape.
    destruct (sync_key_field_ok m f before v Ha Hlen Hi) as (Hs' & Hi' & Hk).
    split; [exact Hi'|]. rewrite Hk, Hshape. done. }
  destruct (String.eqb_spec (f_kind f) "target_add") as [E1|E1]; cbn [orb].
  { destruct Hs as (v & Ha & Hlen). eexists. split; [reflexivity|].
    apply (Hsync target_labels v 5 Ha Hlen); [done|]. intros l. by rewrite E1. }
  destruct (String.eqb_spec (f_kind f) "target_credential") as [E2|E2].
  { destruct Hs as (v & Ha & Hlen). eexists. split; [reflexivity|].
    apply (Hsync [] v 1 Ha Hlen); [done|]. intros l. by rewrite E2. }
  assert (form_ok (m_pending m) f) as Hok.
  { split_and!; [lia..|done|]. unfold form_shape. by rewrite !(proj2 (String.eqb_neq _ _)). }
  destruct (String.eqb_spec (f_kind f) "grant_add") as [E3|E3]; cbn [negb]; [|by apply Hsame].
  destruct (f_fields f) as [|a [|b [|c more]]] eqn:El; try by apply Hsame.
  eexists. split; [reflexivity|]. destruct Hok as (_ & Hp' & Hs'). split_and!; cbn.
  1,2: unfold lenZ in *; cbn in *; lia.
  - done.
  - rewrite E3, El in *. exact Hs'.
Qed.

Lemma half_shape_cycle pending f delta k :
  form_ok pending f → half_shape (f_kind f) (alter (cycleOption delta) k (f_fields f)).
Proof.
  intros (_ & _ & Hs). unfold form_shape, half_shape in *.
  assert (∀ before, auth_shape before (f_fields f) →
    ∃ v, auth_fields before (alter (cycleOption delta) k (f_fields f)) v ∧
      (length (alter (cycleOption delta) k (f_fields f)) = (length before + 1)%nat ∨
       length (alter (cycleOption delta) k (f_fields f)) = (length before + 2)%nat)) as Hauth.
  { intros before (v & Ha & Hlen). destruct (auth_fields_cycle before delta k _ v Ha) as [v' Ha'].
    exists v'. split; [done|]. rewrite length_alter, Hlen. destruct (v =s _); auto. }
  destruct (f_kind f =s "target_add"); [by apply (Hauth target_labels)|].
  destruct (f_kind f =s "target_credential"); [by apply (Hauth [])|]. by rewrite length_alter.
Qed.
