(* ===== verification/MenuProps.v ===== *)
(** * The menu never panics *)

From S2P Require Import Prelude GoStrings Json GoTime Effects SshKeys Sql Schema Names StoreUsers.
From S2P Require Import StoreOIDC StoreTargets StoreAccess StoreAudit StoreWf StoreCalls Totp Auth Net.
From S2P Require Import MenuState MenuModel MenuCommands MenuForms MenuKeys MenuWf MenuFormsWf.

Section safe.
Context `{UnicodeTables, RowidsLaws, TimeParser, KeyFormats, CipherOps, SealOps, DriverTexts}.

(** A handler that keeps the invariant, whatever happens to a well-formed
    database in the meantime *)
Definition safe_step (p : menu_step) : Prop := ensures wf_db step_ok p.

Lemma menu_ok_mode m mode : base_ok m → m_mode m = mode → need_met (mode_need mode) m → menu_ok m.
Proof. intros ? <- ?. by split. Qed.

Lemma mode_need_met m mode : menu_ok m → m_mode m = mode → need_met (mode_need mode) m.
Proof. by intros [_ ?] <-. Qed.

Lemma need_none m mode : base_ok m → m_mode m = mode → mode_need mode = NoNeed → menu_ok m.
Proof. intros Hb Hm Hn. apply (menu_ok_mode m mode Hb Hm). by rewrite Hn. Qed.

Lemma form_menu m : base_ok m → m_mode m = "form" →
  (∀ f, m_form m = Some f → form_ok (m_pending m) f) → menu_ok m.
Proof. intros Hb Hm Hf. by apply (menu_ok_mode m "form"). Qed.

Lemma credential_menu m p mode : base_ok m → m_mode m = mode → mode_need mode = NeedCredential →
  m_pending m = Some p → host_ok p → menu_ok m.
Proof. intros Hb Hm Hn Hp Hh. apply (menu_ok_mode m mode Hb Hm). rewrite Hn. cbn. eauto. Qed.

(** ** Submitting a form *)

Lemma refuse_ok status i f m : base_ok m → m_mode m = "form" → form_ok (m_pending m) f →
  0 <= i < lenZ (f_fields f) → step_ok (refuse status i f m).
Proof.
  intros Hb Hm Hf Hi. apply no_cmd_ok, form_menu; [exact Hb|exact Hm|].
  intros g [= <-]. by apply form_ok_index.
Qed.

Lemma mutate_ok sect status type details c m : menu_ok m → step_ok (mutate sect status type details c m).
Proof. intros Hm. by apply with_cmd_ok. Qed.

Lemma finishIdentityPayload_ok key pass p m : base_ok m → menu_ok m → m_pending m = Some p →
  step_ok (finishIdentityPayload key pass m).
Proof.
  intros Hb Hm Hp. unfold finishIdentityPayload. rewrite Hp. cbn.
  destruct (if pass =s "" then _ else _) as [signer|e].
  - apply with_cmd_ok; [|exact I]. by apply (need_none _ "saving").
  - by apply no_cmd_ok, status_ok.
Qed.

Lemma submit_identity_add_ok e name method m : base_ok m → m_mode m = "form" →
  step_ok (submit_identity_add e name method m).
Proof.
  intros Hb Hm. unfold submit_identity_add.
  destruct (method =s _).
  - destruct (generate_key e name) as [pem|err]; [|by apply no_cmd_ok, closeModal_ok].
    eapply finishIdentityPayload_ok; [exact Hb| |done]. by apply form_menu.
  - apply no_cmd_ok. by eapply credential_menu.
Qed.

Lemma ask_credential_ok kind p m : base_ok m → m_pending m = Some p → host_ok p →
  menu_ok (ask_credential kind m).
Proof.
  intros Hb Hp Hh. unfold ask_credential.
  destruct (kind =s _); [|destruct (kind =s _)]; by eapply credential_menu.
Qed.

Lemma submit_target_credential_ok v p values m :
  base_ok m → m_mode m = "form" → m_pending m = Some p → values !! 0%nat = Some v →
  length values = (if v =s CredentialStoredKey then 2 else 1)%nat →
  safe_step (submit_target_credential values m).
Proof.
  intros Hb Hm Hp Hv Hlen. unfold submit_target_credential. rewrite Hp.
  destruct values as [|v' more]; [discriminate|]. injection Hv as ->.
  destruct (v =s CredentialStoredKey) eqn:Ek.
  - destruct more as [|key_name more]; [discriminate|]. intros s Hs. split; [done|].
    set (found := _ : result SSHIdentity). destruct found as [identity|err].
    + apply mutate_ok. by apply form_menu.
    + by apply no_cmd_ok, closeModal_ok.
  - apply no_cmd_ok. by eapply ask_credential_ok.
Qed.

Lemma scanHost_ok address m : base_ok m → is_Some (m_pending m) → step_ok (scanHost address m).
Proof. intros Hb Hp. apply with_cmd_ok; [|exact Hp]. by apply (menu_ok_mode _ "scanning"). Qed.

Lemma auth_shape_lenZ before l : auth_shape before l →
  Z.of_nat (length before) + 1 <= lenZ l <= Z.of_nat (length before) + 2.
Proof. intros (v & _ & Hlen). unfold lenZ. rewrite Hlen. destruct (v =s _); lia. Qed.

Lemma submit_target_add_ok f v values m :
  base_ok m → m_mode m = "form" → m_form m = Some f → f_kind f = "target_add" →
  form_ok (m_pending m) f → length values = length (f_fields f) → values !! 4%nat = Some v →
  length values = (if v =s CredentialStoredKey then 6 else 5)%nat →
  safe_step (submit_target_add f values m).
Proof.
  intros Hb Hm Hf Hkind Hok Hlf Hv Hlen. unfold submit_target_add.
  assert (∀ pend, form_ok pend f) as Hany.
  { intros pend. destruct Hok as (Hi & _ & Hs). split_and!; [lia..| |done]. by rewrite Hkind. }
  destruct values as [|name [|host [|port_text [|remote [|kind more]]]]]; try discriminate.
  injection Hv as ->. cbn [length] in *.
  destruct (port_of port_text) as [port|]; [|apply refuse_ok; auto; unfold lenZ; lia].
  destruct (v =s CredentialStoredKey) eqn:Ek; [|by apply scanHost_ok].
  destruct more as [|key_name more]; [discriminate|].
  destruct (key_name =s ""); [by apply refuse_ok; auto; unfold lenZ; cbn in *; lia|].
  intros s Hs. split; [done|].
  set (found := _ : result SSHIdentity). destruct found as [identity|err].
  - by apply scanHost_ok.
  - by apply refuse_ok; auto; unfold lenZ; cbn in *; lia.
Qed.

(** The values of an authentication form *)
Lemma auth_values before l : auth_shape before l → ∃ v,
  (TrimSpace ∘ ff_value <$> l) !! length before = Some v ∧
  length l = (length before + if v =s CredentialStoredKey then 2 else 1)%nat.
Proof.
  intros (v & (Hk & Hl & _) & Hlen). exists v. split; [|done].
  unfold kind_ok in Hk. rewrite list_lookup_fmap, Hl. cbn -[TrimSpace]. by rewrite Hk.
Qed.

Ltac short_values :=
  match goal with
  | Hv : (_ <= length ?vs)%nat |- context [match ?vs with _ => _ end] =>
      destruct vs; [cbn in Hv; exfalso; lia|]; cbn [length] in Hv; apply le_S_n in Hv
  end.

Lemma submit_values_ok e f m : base_ok m → m_mode m = "form" → m_form m = Some f →
  form_ok (m_pending m) f → safe_step (submit_values e f (TrimSpace ∘ ff_value <$> f_fields f) m).
Proof.
  intros Hb Hm Hf Hok. set (values := TrimSpace ∘ ff_value <$> f_fields f).
  assert (length values = length (f_fields f)) as Hlen by apply length_fmap.
  assert (menu_ok m) as Hmenu by (apply form_menu; [done..|]; intros g Hg; by simplify_eq).
  pose proof Hok as (Hi & Hp & Hs). unfold form_shape in Hs. unfold submit_values.
  assert (∀ i, 0 <= i < lenZ (f_fields f) → step_ok (refuse bad_port i f m)) as Hport
    by (intros; by apply refuse_ok).
  destruct (String.eqb_spec (f_kind f) "target_credential") as [E1|E1].
  { rewrite E1 in *. cbn in Hs, Hp. destruct Hp as [p Hp]; [done|].
    destruct (auth_values [] _ Hs) as (v & Hv & Hl).
    eapply (submit_target_credential_ok v); [done|done|done|exact Hv|by rewrite Hlen]. }
  destruct (String.eqb_spec (f_kind f) "target_add") as [E2|E2].
  { destruct (auth_values _ _ Hs) as (v & Hv & Hl).
    eapply (submit_target_add_ok f v); [done..|exact Hv|]. rewrite Hlen, Hl. by destruct (v =s _). }
  unfold safe_step, ensures. cbn [guarantees]. unfold lenZ in Hport. rewrite <- Hlen in Hs, Hport.
  clearbody values.
  destruct (String.eqb_spec (f_kind f) "identity_add") as [E|_].
  { rewrite E in Hs. cbn in Hs. do 2 short_values. by apply submit_identity_add_ok. }
  destruct (String.eqb_spec (f_kind f) "user_add") as [E|_].
  { rewrite E in Hs. cbn in Hs. do 2 short_values. by apply mutate_ok. }
  destruct (String.eqb_spec (f_kind f) "user_oidc_map") as [E|_].
  { rewrite E in Hs, Hp. cbn in Hs, Hp. short_values. destruct Hp as [p Hp]; [done|].
    unfold submit_oidc_map. rewrite Hp. by apply mutate_ok. }
  destruct (String.eqb_spec (f_kind f) "group_add") as [E|_].
  { rewrite E in Hs. cbn in Hs. short_values. by apply mutate_ok. }
  destruct (String.eqb_spec (f_kind f) "grant_add") as [E|_].
  { rewrite E in Hs. cbn in Hs. do 7 short_values. by apply mutate_ok. }
  destruct (String.eqb_spec (f_kind f) "grant_edit") as [E|_].
  { rewrite E in Hs, Hp. cbn in Hs, Hp. destruct Hp as [p Hp]; [done|].
    unfold submit_grant_edit. rewrite Hp. cbn [deref]. do 4 short_values. by apply mutate_ok. }
  destruct (String.eqb_spec (f_kind f) "forward_add") as [E|_].
  { rewrite E in Hs. cbn in Hs. do 3 short_values.
    destruct (port_of _); [by apply mutate_ok|]. apply Hport. cbn. lia. }
  destruct (String.eqb_spec (f_kind f) "target_edit") as [E|_].
  { rewrite E in Hs, Hp. cbn in Hs, Hp. do 3 short_values. destruct Hp as [p Hp]; [done|].
    unfold submit_target_edit. destruct (port_of _); [|apply Hport; cbn; lia].
    rewrite Hp. by apply mutate_ok. }
  by apply no_cmd_ok.
Qed.

Lemma submitForm_ok e f m : base_ok m → m_mode m = "form" → m_form m = Some f →
  form_ok (m_pending m) f → safe_step (submitForm e m).
Proof.
  intros Hb Hm Hf Hok. unfold submitForm. rewrite Hf.
  destruct (form_values _ 0 _) as [values|[i label]] eqn:E.
  - apply form_values_lookup in E as ->. by apply submit_values_ok.
  - apply form_values_refused in E. apply refuse_ok; auto; lia.
Qed.

(** ** The keys of a form *)

Lemma with_form_ok m f : base_ok m → m_mode m = "form" → form_ok (m_pending m) f →
  step_ok (no_cmd (m |> with_form (Some f))).
Proof. intros Hb Hm Hf. apply no_cmd_ok, form_menu; [exact Hb|exact Hm|]. by intros g [= <-]. Qed.

Lemma handleFormKey_ok e key m : menu_ok m → m_mode m = "form" → safe_step (handleFormKey e key m).
Proof.
  intros Hmenu Hm. pose proof Hmenu as [Hb _]. pose proof (mode_need_met m _ Hmenu Hm) as Hneed.
  unfold handleFormKey, safe_step, ensures.
  destruct (key =s "esc"); [by apply no_cmd_ok, closeModal_ok|].
  destruct (m_form m) as [f|] eqn:Hf; [|by apply no_cmd_ok].
  specialize (Hneed f Hf). pose proof Hneed as (Hi & Hp & Hs).
  destruct (lenZ (f_fields f) =? 0); [by apply no_cmd_ok|].
  destruct (at_index_in _ _ Hi) as (field & Hfield & _). rewrite Hfield.
  assert (∀ i, 0 <= i < lenZ (f_fields f) → step_ok (no_cmd (m |> with_form (Some (set_index i f))))) as Hindex.
  { intros i Hi'. apply with_form_ok; [done..|]. by apply form_ok_index. }
  assert (∀ v, lenZ (ff_options field) = 0 →
    step_ok (no_cmd (m |> with_form (Some (change_field (set_value v) f))))) as Htext.
  { intros v Ho%Z.eqb_eq%lenZ_zero. apply with_form_ok; [done..|]. by eapply form_ok_text. }
  assert (step_ok (no_cmd m)) as Hsame by by apply no_cmd_ok.
  repeat match goal with |- guarantees _ _ _ (if ?b then _ else _) => destruct b eqn:? end;
    try exact Hsame; cbn [guarantees]; bool_simp; auto; try (apply Hindex; lia).
  - set (fc := change_field (cycleOption (if key =s "left" then -1 else 1)) f).
    assert (0 <= f_index fc < lenZ (f_fields fc)) as Hi' by (cbn; by rewrite in_bounds_alter).
    assert (half_shape (f_kind fc) (f_fields fc)) as Hs' by exact (half_shape_cycle _ f _ _ Hneed).
    destruct (sync_form (m_pending m) (m |> with_form (Some fc)) fc eq_refl eq_refl Hi' Hp Hs')
      as (f' & -> & Hf').
    apply no_cmd_ok, form_menu; [exact Hb|exact Hm|]. by intros g [= <-].
  - by eapply submitForm_ok.
Qed.

(** ** Opening forms and lists of actions *)

Lemma add_form_ok m f pending : add_form m = Ok f → form_ok pending f.
Proof.
  unfold add_form. intros Hf.
  assert (∀ k t l, lenZ l > 0 → contains pending_forms k = false → form_shape k l →
    form_ok pending (mkForm k t l 0)) as Hform.
  { intros k t l Hl Hk Hs. split_and!; [cbn; lia|cbn; lia| |done]. cbn [f_kind]. by rewrite Hk. }
  repeat match type of Hf with
  | (if ?b then _ else _) = _ => destruct b
  | match ?l with _ => _ end = _ => destruct l
  end; try discriminate; injection Hf as <-; apply Hform; try done; cbn; try lia.
  by exists CredentialPrivateKey.
Qed.

Lemma openAddForm_ok m : base_ok m → m_mode m = "" → menu_ok (openAddForm m).
Proof.
  intros Hb Hm. unfold openAddForm. destruct (is_admin m); cbn [negb].
  - destruct (add_form m) as [f|e] eqn:Ef; [|by apply (need_none _ "")].
    apply form_menu; [exact Hb|done|]. intros g [= <-]. by eapply add_form_ok.
  - by apply (need_none _ "").
Qed.

Lemma set_actions_ok m p items : base_ok m → kind_ok (Target_CredentialKind (p_target p)) →
  m_actionCursor m = 0 → menu_ok (set_actions m p items).
Proof.
  intros Hb Hk Hc. apply (menu_ok_mode _ "actions"); [exact Hb|done|].
  split; [by exists p|]. cbn. rewrite Hc. apply in_rows_zero.
Qed.

Lemma on_row_ok {A} m (rows : list A) none k : base_ok m → m_mode m = "" → m_actionCursor m = 0 →
  itemCount m = lenZ rows →
  (∀ row, row ∈ rows → kind_ok (Target_CredentialKind (p_target (k row).1))) →
  step_ok (as_step (on_row m rows none k)).
Proof.
  intros Hb Hm Hc Hn Hk. unfold on_row. destruct rows as [|r rows].
  { apply no_cmd_ok. by apply (need_none _ ""). }
  pose proof Hb as (_ & _ & Hcur). rewrite Hn in Hcur. unfold in_rows in Hcur.
  assert (0 < lenZ (r :: rows)) by (unfold lenZ; cbn; lia).
  destruct (at_index_in (r :: rows) (m_cursor m)) as (row & -> & Hrow); [lia|].
  cbn. specialize (Hk row Hrow). destruct (k row) as [p items]. apply no_cmd_ok. by apply set_actions_ok.
Qed.

Lemma filtered_targets m : targets_ok (m_targets m) → targets_ok (filtered m).
Proof.
  unfold filtered. destruct (m_query m =s ""); [done|]. intros Ht t Hin. apply Ht.
  by apply (elem_of_select (λ t, Contains (ToLower (Target_Name t +:+ " " +:+ Target_Host t +:+ " "
    +:+ Target_RemoteUsername t)) (ToLower (m_query m)))) in Hin as [Hin _].
Qed.

Lemma no_target_kind : kind_ok "".
Proof. by vm_compute. Qed.

Lemma openSelectedActions_ok m : base_ok m → m_mode m = "" → step_ok (as_step (openSelectedActions m)).
Proof.
  intros Hb Hm. unfold openSelectedActions. set (m0 := m |> with_actionCursor 0).
  assert (base_ok m0) as Hb0 by exact Hb.
  repeat match goal with
  | |- context [m_section m0 =s ?x] => destruct (String.eqb_spec (m_section m0) x) as [E|_]
  end; try (apply on_row_ok; [exact Hb0|done|done|by unfold itemCount; rewrite E|]).
  - intros row Hrow. apply (filtered_targets m0); [apply Hb0|exact Hrow].
  - intros row _. apply no_target_kind.
  - intros row _. apply no_target_kind.
  - intros row _. apply no_target_kind.
  - intros row _. apply no_target_kind.
  - intros row _. apply no_target_kind.
  - apply no_cmd_ok. by apply (need_none _ "").
Qed.

(** ** Actions *)

Lemma actions_menu m p mode : base_ok m → m_mode m = mode → mode_need mode = NeedActions →
  m_pending m = Some p → kind_ok (Target_CredentialKind (p_target p)) →
  in_rows (m_actionCursor m) (lenZ (m_actions m)) → menu_ok m.
Proof. intros Hb Hm Hn Hp Hk Hi. apply (menu_ok_mode m mode Hb Hm). rewrite Hn. cbn. eauto. Qed.

Lemma pending_menu m p mode : base_ok m → m_mode m = mode → mode_need mode = NeedPending →
  m_pending m = Some p → menu_ok m.
Proof. intros Hb Hm Hn Hp. apply (menu_ok_mode m mode Hb Hm). rewrite Hn. by exists p. Qed.

Lemma open_form_ok f m : base_ok m → form_ok (m_pending m) f → step_ok (no_cmd (open_form f m)).
Proof. intros Hb Hf. apply no_cmd_ok, form_menu; [exact Hb|done|]. by intros g [= <-]. Qed.

Lemma form_ok_simple pending k t l : is_Some pending → 0 < lenZ l → form_shape k l →
  form_ok pending (mkForm k t l 0).
Proof. intros Hp Hl Hs. by split_and!. Qed.

Lemma open_simple_ok k t l p m : base_ok m → m_pending m = Some p → 0 < lenZ l → form_shape k l →
  step_ok (no_cmd (open_form (mkForm k t l 0) m)).
Proof. intros Hb Hp Hl Hs. apply open_form_ok; [done|]. apply form_ok_simple; [by exists p|done..]. Qed.

Lemma credential_form_ok m p : base_ok m → m_pending m = Some p →
  kind_ok (Target_CredentialKind (p_target p)) →
  step_ok (no_cmd (m |> with_form (Some (credential_form (p_target p))) |> syncTargetKeyField
                     |> with_mode "form")).
Proof.
  intros Hb Hp Hk. apply no_cmd_ok, form_menu; [exact Hb|done|]. intros g Hg.
  set (m' := m |> with_form (Some (credential_form (p_target p)))) in *.
  change (Some (sync_key_field m' (credential_form (p_target p)) 0 1) = Some g) in Hg.
  injection Hg as <-.
  pose proof (sync_key_field_ok m' (credential_form (p_target p)) [] (Target_CredentialKind (p_target p)))
    as Hsync.
  change (length (@nil string)) with O in Hsync. change (Z.of_nat 0 + 1) with 1 in Hsync. cbv zeta in Hsync.
  destruct Hsync as (Hs & Hi & Hkind); [done|by left|done|].
  split; [exact Hi|split; [intros _; by exists p|]]. rewrite Hkind. exact Hs.
Qed.

Lemma choose_member_ok p code m : base_ok m → m_pending m = Some p →
  kind_ok (Target_CredentialKind (p_target p)) →
  code = "group_member_add" ∨ code = "group_member_remove" → step_ok (no_cmd (choose_member p code m)).
Proof.
  intros Hb Hp Hk Hcode. apply no_cmd_ok. unfold choose_member.
  destruct (eligible_members m (p_group p) _); [by apply closeModal_ok|].
  destruct Hcode as [->| ->]; (eapply actions_menu; [exact Hb|reflexivity|done|exact Hp|done|apply in_rows_zero]).
Qed.

Lemma setup_totp_ok e p m : base_ok m → step_ok (no_cmd (setup_totp e p m)).
Proof.
  intros Hb. apply no_cmd_ok. unfold setup_totp. destruct (env_secret e); [|by apply closeModal_ok].
  destruct (QR _ _); [|by apply closeModal_ok]. by eapply pending_menu.
Qed.

Lemma show_user_keys_ok p m : base_ok m → m_pending m = Some p →
  kind_ok (Target_CredentialKind (p_target p)) → safe_step (show_user_keys p m).
Proof.
  intros Hb Hp Hk. eapply guarantees_bind.
  - apply keeps_ensures. unfold ListGatewayKeys, UserByName. keeps_tac.
  - intros [keys|err] _; [|by apply no_cmd_ok, closeModal_ok].
    apply no_cmd_ok. eapply actions_menu; [exact Hb|reflexivity|done|exact Hp|done|apply in_rows_zero].
Qed.

Lemma dispatch_on_ok e code p m item : menu_ok m → m_pending m = Some p →
  kind_ok (Target_CredentialKind (p_target p)) →
  at_index (m_actions m) (m_actionCursor m) = Some item → safe_step (dispatch_on e code p m).
Proof.
  intros Hmenu Hp Hk Hitem. pose proof Hmenu as [Hb _]. unfold dispatch_on, safe_step, ensures.
  destruct (code =s "user_keys"); [by apply show_user_keys_ok|]. cbn [guarantees].
  destruct (code =s _); [by apply with_cmd_ok|].
  destruct (code =s _); [eapply open_simple_ok; [done|done|done|cbn; lia]|].
  destruct (code =s _); [eapply open_simple_ok; [done|done|done|cbn; lia]|].
  destruct (code =s _); [by apply credential_form_ok|].
  destruct (code =s _); [by apply scanHost_ok|].
  destruct (code =s _); [by apply mutate_ok|].
  destruct (contains _ _); [apply no_cmd_ok; by eapply pending_menu|].
  destruct (code =s _); [apply no_cmd_ok; by apply (need_none _ "identity_public")|].
  destruct (code =s _); [apply no_cmd_ok; by eapply pending_menu|].
  destruct (code =s _); [by apply setup_totp_ok|].
  destruct (code =s _); [eapply open_simple_ok; [done|done|done|cbn; lia]|].
  destruct (code =s _); [by apply mutate_ok|].
  destruct (code =s _); [by apply mutate_ok|].
  destruct (String.eqb_spec code "group_member_add") as [E|_]; [apply choose_member_ok; auto|].
  destruct (String.eqb_spec code "group_member_remove") as [E|_]; [apply choose_member_ok; auto|]. cbn [orb].
  destruct (_ || _); [|by apply no_cmd_ok].
  unfold change_member. rewrite Hitem. by apply mutate_ok.
Qed.

Lemma press_action_ok e m : menu_ok m → mode_need (m_mode m) = NeedActions → safe_step (press_action e m).
Proof.
  intros Hmenu Hn. pose proof Hmenu as [Hb Hneed]. unfold mode_ok in Hneed. rewrite Hn in Hneed.
  destruct Hneed as [(p & Hp & Hk) Hi]. unfold press_action, safe_step, ensures.
  destruct (lenZ (m_actions m) =? 0) eqn:Hlen; [by apply no_cmd_ok|]. bool_simp.
  unfold in_rows in Hi. destruct (at_index_in (m_actions m) (m_actionCursor m)) as (item & Hitem & _);
    [unfold lenZ in *; lia|].
  rewrite Hitem. destruct (_ && _).
  - cbn [guarantees]. rewrite Hp. apply no_cmd_ok. by eapply pending_menu.
  - unfold dispatchAction. rewrite Hp. by eapply dispatch_on_ok.
Qed.

Lemma handleActionKey_ok e key m : menu_ok m → mode_need (m_mode m) = NeedActions →
  safe_step (handleActionKey e key m).
Proof.
  intros Hmenu Hn. pose proof Hmenu as [Hb Hneed]. unfold mode_ok in Hneed. rewrite Hn in Hneed.
  destruct Hneed as [(p & Hp & Hk) Hi]. unfold handleActionKey, safe_step, ensures.
  assert (∀ c, in_rows c (lenZ (m_actions m)) → step_ok (no_cmd (m |> with_actionCursor c))) as Hcursor.
  { intros c Hc. apply no_cmd_ok. by eapply actions_menu. }
  assert (step_ok (no_cmd m)) as Hsame by by apply no_cmd_ok.
  unfold in_rows in *.
  destruct (key =s "esc"); [by apply no_cmd_ok, closeModal_ok|].
  destruct (_ || _); [destruct (0 <? _) eqn:E; bool_simp; [apply Hcursor; lia|done]|].
  destruct (_ || _); [destruct (_ <? _) eqn:E; bool_simp; [apply Hcursor; lia|done]|].
  destruct (key =s _); [apply Hcursor; lia|].
  destruct (key =s _); [destruct (0 <? _) eqn:E; bool_simp; [apply Hcursor; lia|done]|].
  destruct (_ || _); [by apply press_action_ok|done].
Qed.

End safe.
