(* ===== verification/MenuLine.v ===== *)
(** * The menu's command line ([internal/tui/menu.go]: [runCommand])

    The words of a line choose an operation.  No key of the menu opens a command
    line any more: [runCommand] is called by the tests only, and is modelled for
    what it promises them. *)

From S2P Require Import Prelude GoStrings Json GoTime Effects SshKeys Sql Schema Names Net StoreUsers.
From S2P Require Import StoreOIDC StoreTargets StoreAccess StoreAudit StoreWf StoreCalls Totp Auth.
From S2P Require Import Downstream MenuState MenuModel MenuCommands MenuForms MenuKeys MenuView MenuSamples.
From S2P Require Import MenuWf MenuFormsWf MenuProps.

Section line.
Context `{UnicodeTables, Rowids, TimeParser, KeyFormats, SealOps, DriverTexts}.

(** A branch of the switch: [None] goes on to the message at its end. *)
Definition branch : Type := option menu_step.

(** [runCommand]'s own [mutate]: no section *)
Definition line_mutate (ok type : string) (details : list (string * jvalue)) (c : call) (m : Model) : branch :=
  Some (Ret (mutate "" ok type details c m)).

Definition line_status (status : string) (m : Model) : branch := Some (Ret (no_cmd (m |> with_status status))).

Definition user_line (f : list string) (m : Model) : branch :=
  match f with
  | _ :: verb :: name :: more =>
    if verb =s "add" then
      let role := match more with role :: _ => role | [] => RoleMember end in
      line_mutate "User added." "admin.user.add" [("role", JString role); ("username", JString name)]
        (AddUser_call name role) m
    else if verb =s "delete" then
      line_mutate "User deleted." "admin.user.delete" [("username", JString name)] (DeleteUser_call name) m
    else if (verb =s "enable") || (verb =s "disable") then
      line_mutate "User updated." ("admin.user." +:+ verb) [("username", JString name)]
        (SetUserEnabled_call name (verb =s "enable")) m
    else if verb =s "role" then
      match more with
      | [role] =>
        line_mutate "Role updated." "admin.user.role" [("role", JString role); ("username", JString name)]
          (SetUserRole_call name role) m
      | _ => None
      end
    else None
  | _ => None
  end.

Definition key_line (f : list string) (m : Model) : branch :=
  match f with
  | _ :: verb :: name :: word :: more =>
    if verb =s "remove" then
      line_mutate "Gateway key removed." "admin.gateway_key.remove"
        [("fingerprint", JString word); ("username", JString name)] (RemoveGatewayKey_call name word) m
    else
      match more with
      | [] => None
      | _ =>
        if verb =s "add" then
          match ParseAuthorizedKey (Join (word :: more) " ") with
          | Err e => line_status ("Invalid public key: " +:+ error_text e) m
          | Ok (k, _, _) =>
            line_mutate "Gateway key added." "admin.gateway_key.add"
              [("fingerprint", JString (FingerprintSHA256 k)); ("username", JString name)]
              (AddGatewayKey_call name (FingerprintSHA256 k) (canonical_key k) "") m
          end
        else None
      end
  | _ => None
  end.

Definition group_line (f : list string) (m : Model) : branch :=
  match f with
  | [_; verb; name] =>
    if (verb =s "add") || (verb =s "delete") then
      line_mutate "Group updated." ("admin.group." +:+ verb) [("group", JString name)]
        (if verb =s "add" then AddGroup_call name else DeleteGroup_call name) m
    else None
  | _ => None
  end.

Definition member_line (f : list string) (m : Model) : branch :=
  match f with
  | [_; verb; group; name] =>
    if (verb =s "add") || (verb =s "remove") then
      line_mutate "Membership updated." ("admin.group.member." +:+ verb)
        [("group", JString group); ("username", JString name)] (SetGroupMember_call group name (verb =s "add")) m
    else None
  | _ => None
  end.

Definition grant_line (f : list string) (m : Model) : branch :=
  match f with
  | [_; verb; target; kind; principal] =>
    if (verb =s "add") || (verb =s "remove") then
      line_mutate "Grant updated." ("admin.grant." +:+ verb)
        [("kind", JString kind); ("principal", JString principal); ("target", JString target)]
        (SetGrant_call target kind principal (verb =s "add")) m
    else None
  | _ => None
  end.

(** [target edit NAME HOST PORT USER] *)
Definition target_edit_line (name host port_text remote : string) (m : Model) : branch :=
  match Atoi port_text with
  | None => line_status "Port must be numeric." m
  | Some port =>
    line_mutate "Target updated." "admin.target.edit" [("target", JString name)]
      (UpdateTarget_call name host port remote) m
  end.

Definition typed_kind (kind : string) : bool := (kind =s CredentialPassword) || (kind =s CredentialPrivateKey).
Definition bad_kind : string := "Credential kind must be password or private_key.".

(** [target add NAME HOST PORT USER KIND] *)
Definition target_add_line (name host port_text remote kind : string) (m : Model) : branch :=
  match Atoi port_text with
  | None => line_status "Port must be numeric." m
  | Some port =>
    if negb (typed_kind kind) then line_status bad_kind m
    else
      Some (Ret (m |> with_pending (Some (empty_pending |> pwith_kind "target_add" |> pwith_name name
                                            |> pwith_host host |> pwith_port port |> pwith_remote remote
                                            |> pwith_credentialKind kind))
                   |> scanHost (JoinHostPort host port_text)))
  end.

Definition target_line (f : list string) (m : Model) : branch :=
  match f with
  | _ :: verb :: name :: more =>
    if verb =s "delete" then
      line_mutate "Target deleted." "admin.target.delete" [("target", JString name)] (DeleteTarget_call name) m
    else if (verb =s "enable") || (verb =s "disable") then
      line_mutate "Target updated." ("admin.target." +:+ verb) [("target", JString name)]
        (SetTargetEnabled_call name (verb =s "enable")) m
    else
      match more with
      | [host; port; remote] => if verb =s "edit" then target_edit_line name host port remote m else None
      | [host; port; remote; kind] => if verb =s "add" then target_add_line name host port remote kind m else None
      | _ => None
      end
  | _ => None
  end.

Definition replace_credential (name kind : string) (m : Model) : menu_step :=
  let* found := TargetByName name in
  match found with
  | Err e => Ret (no_cmd (m |> with_status (error_text e)))
  | Ok t =>
    Ret (no_cmd (
      if negb (typed_kind kind) then m |> with_status bad_kind
      else
        let m := m |> with_pending (Some (empty_pending |> pwith_kind "credential" |> pwith_target t
                                            |> pwith_credentialKind kind)) in
        if kind =s CredentialPassword
        then m |> with_mode "secret_password"
               |> with_status "Enter replacement password (hidden), then press Enter."
        else m |> with_mode "secret_key" |> with_status "Paste replacement private key, then press Ctrl+D."))
  end.

Definition replace_host_key (name : string) (m : Model) : menu_step :=
  let* found := TargetByName name in
  match found with
  | Err e => Ret (no_cmd (m |> with_status (error_text e)))
  | Ok t =>
    Ret (m |> with_pending (Some (empty_pending |> pwith_kind "host_key" |> pwith_target t))
           |> scanHost (JoinHostPort (Target_Host t) (Itoa (Target_Port t))))
  end.

Definition credential_line (f : list string) (m : Model) : branch :=
  match f with
  | [_; verb; name; kind] => if verb =s "replace" then Some (replace_credential name kind m) else None
  | _ => None
  end.

Definition host_key_line (f : list string) (m : Model) : branch :=
  match f with
  | [_; verb; name] => if verb =s "replace" then Some (replace_host_key name m) else None
  | _ => None
  end.

Definition runCommand (line : string) (m : Model) : menu_step :=
  let f := Fields line in
  match f with
  | [] => Ret (no_cmd m)
  | first :: _ =>
    if first =s "help" then Ret (no_cmd (m |> with_mode "help"))
    else
      let chosen :=
        if first =s "user" then user_line f m
        else if first =s "key" then key_line f m
        else if first =s "group" then group_line f m
        else if first =s "member" then member_line f m
        else if first =s "grant" then grant_line f m
        else if first =s "target" then target_line f m
        else if first =s "credential" then credential_line f m
        else if first =s "host-key" then host_key_line f m
        else None in
      default (Ret (no_cmd (m |> with_status "Invalid admin command. Type : then 'help' for syntax."))) chosen
  end.

End line.

(** ** The command line keeps the menu well formed *)

Section properties.
Context `{UnicodeTables, RowidsLaws, TimeParser, KeyFormats, CipherOps, SealOps, DriverTexts}.

(** A branch that is taken is safe; [mutates] are those that only call [mutate]
    or set the status. *)
Definition branch_ok (b : branch) : Prop := match b with Some p => safe_step p | None => True end.

Lemma done_ok r : step_ok r → safe_step (Ret r).
Proof. by intros Hr. Qed.

Lemma line_mutate_ok ok type details c m : menu_ok m → branch_ok (line_mutate ok type details c m).
Proof. intros Hm. by apply done_ok, mutate_ok. Qed.

Lemma line_status_ok status m : menu_ok m → branch_ok (line_status status m).
Proof. intros Hm. by apply done_ok, no_cmd_ok, status_ok. Qed.

Lemma scan_line_ok address p m : menu_ok m → branch_ok (Some (Ret (scanHost address (with_pending (Some p) m)))).
Proof. intros [Hb _]. apply done_ok, scanHost_ok; [exact Hb|by eexists]. Qed.

#[local] Hint Resolve line_mutate_ok line_status_ok scan_line_ok : gateway.
#[local] Hint Extern 0 (branch_ok None) => exact I : gateway.

Ltac branches := repeat case_match; auto with gateway.

Lemma simple_lines_ok f m : menu_ok m →
  branch_ok (user_line f m) ∧ branch_ok (key_line f m) ∧ branch_ok (group_line f m) ∧
  branch_ok (member_line f m) ∧ branch_ok (grant_line f m).
Proof.
  intros Hm. unfold user_line, key_line, group_line, member_line, grant_line.
  split_and!; branches.
Qed.

Lemma target_line_ok f m : menu_ok m → branch_ok (target_line f m).
Proof. intros Hm. unfold target_line, target_edit_line, target_add_line. branches. Qed.

Lemma replace_credential_ok name kind m : menu_ok m → safe_step (replace_credential name kind m).
Proof.
  intros Hm s Hs. split; [done|]. pose proof Hm as [Hb _].
  set (found := _ : result Target). destruct found as [t|e]; [|by apply no_cmd_ok, status_ok].
  apply no_cmd_ok. destruct (negb (typed_kind kind)); [by apply status_ok|].
  destruct (kind =s CredentialPassword).
  - eapply (credential_menu _ _ "secret_password"); [exact Hb|done..|intros Hk; discriminate Hk].
  - eapply (credential_menu _ _ "secret_key"); [exact Hb|done..|intros Hk; discriminate Hk].
Qed.

Lemma replace_host_key_ok name m : menu_ok m → safe_step (replace_host_key name m).
Proof.
  intros Hm s Hs. split; [done|].
  set (found := _ : result Target). destruct found as [t|e]; [|by apply no_cmd_ok, status_ok].
  exact (scan_line_ok _ _ m Hm).
Qed.

(** Whatever the line and the state of the menu, the command line ends in a
    state the other handlers are safe in, with a command that does not panic. *)
Lemma runCommand_ok line m : menu_ok m → safe_step (runCommand line m).
Proof.
  intros Hm. unfold runCommand. destruct (Fields line) as [|first more]; [by apply done_ok, no_cmd_ok|].
  set (f := first :: more). destruct (first =s "help").
  { apply done_ok, no_cmd_ok. destruct Hm as [Hb _]. split; [exact Hb|exact I]. }
  enough (∀ b, branch_ok b → safe_step (default (Ret (no_cmd (with_status
    "Invalid admin command. Type : then 'help' for syntax." m))) b)) as Hd.
  { destruct (simple_lines_ok f m Hm) as (Hu & Hk & Hg & Hme & Hgr). apply Hd.
    pose proof (target_line_ok f m Hm) as Ht.
    do 6 (destruct (first =s _); [assumption|]).
    destruct (first =s "credential"); [unfold credential_line; branches; by apply replace_credential_ok|].
    destruct (first =s "host-key"); [unfold host_key_line; branches; by apply replace_host_key_ok|done]. }
  intros [p|] Hb; [exact Hb|]. by apply done_ok, no_cmd_ok, status_ok.
Qed.

End properties.
