(* ===== verification/MenuViewProps.v ===== *)
(** * What the menu shows, and what it never shows *)

From S2P Require Import Prelude GoStrings StringFacts GoTime Effects SshKeys Sql Schema StoreUsers.
From S2P Require Import StoreOIDC StoreTargets StoreAccess StoreAudit StoreCalls Auth Input MenuState.
From S2P Require Import MenuModel MenuCommands MenuForms MenuKeys MenuView MenuRemote MenuSamples MenuWf.
From S2P Require Import MenuFormsWf.

(** ** Secrets

    [redact] forgets what must not be shown: the typed input but for its length,
    the private key of the pending operation, and every ciphertext. *)

Definition redact_target (t : Target) : Target :=
  mkTarget (Target_ID t) (Target_Name t) (Target_Host t) (Target_RemoteUsername t)
    (Target_CredentialKind t) (Target_Port t) (Target_Enabled t) (Target_HostKeyAlgorithm t)
    (Target_HostPublicKey t) "" "" (Target_IdentityID t) (Target_CreatedAt t) (Target_UpdatedAt t).

Definition redact_identity (i : SSHIdentity) : SSHIdentity :=
  mkSSHIdentity (SI_ID i) (SI_Name i) (SI_PublicKey i) (SI_Fingerprint i) "" "" (SI_CreatedAt i).

Definition redact_pending (p : pendingOperation) : pendingOperation :=
  p |> pwith_privateKey "" |> pwith_target (redact_target (p_target p))
    |> pwith_identity (redact_identity (p_identity p)).

Definition redact_data (d : dataLists) : dataLists :=
  MkData (redact_target <$> d_targets d) (d_users d) (d_groups d) (d_groupMembers d)
    (redact_identity <$> d_identities d) (d_grants d) (d_forwardRules d) (d_auditEvents d)
    (d_oidcIdentities d).

Definition redact (m : Model) : Model :=
  m |> with_input (copies "*" (len (m_input m))) |> with_pending (redact_pending <$> m_pending m)
    |> with_data (redact_data (m_data m)).

Lemma length_copies c n : len (copies (str1 c) n) = Z.max 0 n.
Proof.
  unfold copies, len. enough (∀ k, String.length (concat_strings (replicate k (str1 c))) = k) as ->; [lia|].
  intros k. induction k; cbn; [done|]. by rewrite IHk.
Qed.

Lemma redact_input m : len (m_input (redact m)) = len (m_input m).
Proof. cbn [m_input redact with_data with_pending with_input]. unfold redact. cbn.
  rewrite (length_copies "*"). pose proof (len_nonneg (m_input m)). lia. Qed.

Section view.
Context `{UnicodeTables, KeyFormats, Ansi}.

Lemma filter_map_same {A} (p : A → bool) (f : A → A) l : (∀ x, p (f x) = p x) →
  List.filter p (f <$> l) = f <$> List.filter p l.
Proof.
  intros Hp. induction l as [|x l IH]; cbn; [done|]. rewrite Hp. destruct (p x); cbn; by rewrite IH.
Qed.

Lemma redact_filtered m : filtered (redact m) = redact_target <$> filtered m.
Proof.
  unfold filtered, m_targets. cbn -[ToLower Contains]. destruct (m_query m =s ""); [done|].
  by apply filter_map_same.
Qed.

Lemma redact_identity_row m i : identity_row_text (redact m) (redact_identity i) = identity_row_text m i.
Proof.
  unfold identity_row_text, m_targets.
  change (d_targets (m_data (redact m))) with (redact_target <$> d_targets (m_data m)).
  rewrite filter_map_same by done. unfold lenZ. by rewrite length_fmap.
Qed.

Lemma redact_section m : section_content (redact m) = section_content m.
Proof.
  unfold section_content. change (m_section (redact m)) with (m_section m).
  change (m_identities (redact m)) with (redact_identity <$> m_identities m). rewrite redact_filtered.
  rewrite <- !list_fmap_compose.
  by rewrite (list_fmap_ext (identity_row_text (redact m) ∘ redact_identity) (identity_row_text m)
                (m_identities m)) by (intros; apply redact_identity_row).
Qed.

Lemma redact_captured m what : captured (redact m) what = captured m what.
Proof. unfold captured. by rewrite redact_input. Qed.

Lemma redact_bullets m limit unit : bullets (redact m) limit unit = bullets m limit unit.
Proof. unfold bullets. by rewrite redact_input. Qed.

Lemma redact_modal inner m : modalContent inner (redact m) = modalContent inner m.
Proof.
  unfold modalContent. change (m_mode (redact m)) with (m_mode m).
  destruct (contains action_modes (m_mode m)).
  { unfold actions_content. change (m_mode (redact m)) with (m_mode m).
    change (m_pending (redact m)) with (redact_pending <$> m_pending m).
    change (m_actionCursor (redact m)) with (m_actionCursor m).
    change (m_actions (redact m)) with (m_actions m).
    by destruct (m_pending m). }
  destruct (m_mode m =s _); [done|].
  destruct (m_mode m =s _).
  { enough (deleted_name (redact m) = deleted_name m) as -> by done. unfold deleted_name.
    change (m_pending (redact m)) with (redact_pending <$> m_pending m). by destruct (m_pending m). }
  destruct (m_mode m =s _); [by unfold identity_content; cbn; destruct (m_pending m)|].
  destruct (m_mode m =s _); [by unfold host_content; cbn; destruct (m_pending m)|].
  destruct (m_mode m =s _).
  { unfold totp_confirm_content. rewrite redact_bullets.
    change (m_pending (redact m)) with (redact_pending <$> m_pending m). by destruct (m_pending m). }
  destruct (m_mode m =s _); [done|].
  unfold fixed_content. by rewrite !redact_captured, !redact_bullets.
Qed.

Lemma redact_content inner m : content inner (redact m) = content inner m.
Proof.
  unfold content. rewrite redact_modal, redact_section. done.
Qed.

Lemma redact_frame m w h c : frame_lines (redact m) w h c = frame_lines m w h c.
Proof. done. Qed.

Lemma redact_enrollment m w h : totpEnrollmentView (redact m) w h = totpEnrollmentView m w h.
Proof.
  unfold totpEnrollmentView. change (m_pending (redact m)) with (redact_pending <$> m_pending m).
  by destruct (m_pending m).
Qed.

(** C19: nothing the menu draws depends on a secret: passwords, passphrases,
    private keys and one-time codes as they are typed or pasted, the private key
    that waits for its passphrase, and the stored ciphertexts.  Two menus that
    differ in these only, lengths of inputs apart, show the same text. *)
Theorem secrets_are_never_drawn (m1 m2 : Model) : redact m1 = redact m2 → View m1 = View m2.
Proof.
  intros Hm. enough (∀ m, View m = View (redact m)) as Hr by by rewrite (Hr m1), (Hr m2), Hm.
  intros m. unfold View, view_lines. change (view_size (redact m)) with (view_size m).
  destruct (view_size m) as [w h]. rewrite redact_content, redact_enrollment. f_equal.
Qed.

End view.

(** ** The frame *)

(** The rows on screen are a window of the list that fits the height, lies inside
    the list and is full when the list is long enough, wherever the cursor is. *)
Lemma visibleRange_inside cursor height total : 0 <= cursor → 0 < total →
  let '(start, stop) := visibleRange cursor total height in
  0 <= start ∧ stop <= total ∧ stop - start = Z.min (Z.max 1 height) total.
Proof.
  intros Hc Ht. unfold visibleRange. destruct (Z.leb_spec total 0); [lia|].
  set (h := if height <? 1 then 1 else height).
  assert (h = Z.max 1 height) as Eh by (unfold h; destruct (Z.ltb_spec height 1); lia).
  rewrite Z.quot_div_nonneg by lia. pose proof (Z.div_pos cursor h ltac:(lia) ltac:(lia)).
  set (q := cursor / h) in *.
  destruct (Z.ltb_spec total (q * h + h)) as [E|E].
  - destruct (Z.ltb_spec total (Z.max (total - h) 0 + h)); lia.
  - destruct (Z.ltb_spec total (q * h + h)); [lia|]. nia.
Qed.

(** A cursor inside the list is one of the rows on screen. *)
Theorem visible_range_holds_cursor cursor height total :
  0 <= cursor < total →
  let '(start, stop) := visibleRange cursor total height in
  0 <= start <= cursor ∧ cursor < stop <= total ∧ stop - start = Z.min (Z.max 1 height) total.
Proof.
  intros Hc. pose proof (visibleRange_inside cursor height total ltac:(lia) ltac:(lia)) as Hin. revert Hin.
  unfold visibleRange. destruct (Z.leb_spec total 0); [lia|].
  set (h := if height <? 1 then 1 else height).
  assert (h = Z.max 1 height) as Eh by (unfold h; destruct (Z.ltb_spec height 1); lia).
  rewrite Z.quot_div_nonneg by lia. pose proof (Z.mul_div_le cursor h ltac:(lia)).
  pose proof (Z.mod_pos_bound cursor h ltac:(lia)). pose proof (Z.div_mod cursor h ltac:(lia)).
  set (q := cursor / h) in *.
  destruct (Z.ltb_spec total (q * h + h)); [destruct (Z.ltb_spec total (Z.max (total - h) 0 + h))|
    destruct (Z.ltb_spec total (q * h + h))]; lia.
Qed.

Lemma bind_is_Some {A B} (o : option A) (f : A → option B) :
  is_Some o → (∀ a, o = Some a → is_Some (f a)) → is_Some (o ≫= f).
Proof. intros [a ->] Hf. by apply Hf. Qed.

Lemma Repeat_is_Some s n : 0 <= n → is_Some (Repeat s n).
Proof. intros Hn. unfold Repeat. destruct (Z.ltb_spec n 0); [lia|done]. Qed.

Lemma upto_is_Some {A} n (l : list A) : 0 <= n <= lenZ l → is_Some (upto n l).
Proof. intros Hn. unfold upto. destruct (Z.ltb_spec n 0), (Z.ltb_spec (lenZ l) n); (lia || done). Qed.

Lemma from_is_Some {A} n (l : list A) : 0 <= n <= lenZ l → is_Some (from n l).
Proof. intros Hn. unfold from. destruct (Z.ltb_spec n 0), (Z.ltb_spec (lenZ l) n); (lia || done). Qed.

Lemma lenZ_app {A} (l k : list A) : lenZ (l ++ k) = lenZ l + lenZ k.
Proof. unfold lenZ. rewrite length_app. lia. Qed.

Lemma wrap_runes_is_Some fuel width rs : 1 <= width → (length rs <= fuel)%nat →
  is_Some (wrap_runes fuel width rs).
Proof.
  intros Hw. revert rs. induction fuel as [|fuel IH]; intros [|r rs] Hf; cbn [length] in Hf; try done; [lia|].
  cbn [wrap_runes]. set (stop := minInt _ _).
  assert (1 <= stop <= lenZ (r :: rs)) as Hs.
  { unfold stop, minInt, lenZ. cbn [length]. destruct (Z.ltb_spec (Z.of_nat (S (length rs))) width); lia. }
  apply bind_is_Some; [apply upto_is_Some; lia|]. intros line _.
  apply bind_is_Some; [apply from_is_Some; lia|]. intros rest Hrest.
  apply bind_is_Some; [|by intros]. apply IH.
  unfold from in Hrest. destruct (_ || _); [done|]. injection Hrest as <-. rewrite length_drop.
  cbn [length] in *. lia.
Qed.

Lemma wrapText_is_Some s width : is_Some (wrapText s width).
Proof. unfold wrapText. destruct (Z.ltb_spec width 1); [done|]. apply wrap_runes_is_Some; lia. Qed.

Lemma fill_to_is_Some n line lines : is_Some line → is_Some (fill_to n line lines).
Proof. intros [text ->]. unfold fill_to. by destruct (_ <? n). Qed.

Lemma cut_to_is_Some h lines : 0 <= h → is_Some (cut_to h lines).
Proof.
  intros Hh. unfold cut_to. destruct (Z.ltb_spec h (lenZ lines)); [|done]. apply upto_is_Some. lia.
Qed.

Lemma fill_to_length n line lines l : fill_to n line lines = Some l → lenZ l = Z.max (lenZ lines) n.
Proof.
  unfold fill_to. destruct (Z.ltb_spec (lenZ lines) n); [|intros [= <-]; lia].
  destruct line as [text|]; [|done]. cbn. intros [= <-]. rewrite lenZ_app. unfold lenZ at 2.
  rewrite length_replicate. lia.
Qed.

Lemma cut_to_length h lines l : 0 <= h → cut_to h lines = Some l → lenZ l = Z.min h (lenZ lines).
Proof.
  intros Hh. unfold cut_to, upto. destruct (Z.ltb_spec h (lenZ lines)); [|intros [= <-]; lia].
  destruct (_ || _); [done|]. intros [= <-]. unfold lenZ in *. rewrite length_take. lia.
Qed.

Lemma view_size_positive m : let '(w, h) := view_size m in 1 <= w ∧ 1 <= h.
Proof.
  unfold view_size. destruct (Z.leb_spec (m_width m) 0), (Z.leb_spec (m_height m) 0); cbn; try lia;
    repeat match goal with |- context [?a <? ?b] => destruct (Z.ltb_spec a b) end; lia.
Qed.

Section frame.
Context `{UnicodeTables, KeyFormats, Ansi}.

Lemma fit_is_Some s width : is_Some (fit s width).
Proof.
  unfold fit. destruct (width <=? 0); [done|]. cbv zeta. destruct (Z.ltb_spec (StringWidth (Truncate s width "…")) width);
    [|done]. apply bind_is_Some; [apply Repeat_is_Some; lia|by intros].
Qed.

Lemma joinSides_is_Some left right width : is_Some (joinSides left right width).
Proof.
  unfold joinSides. cbv zeta. destruct (Z.ltb_spec (width - StringWidth left - StringWidth right) 1);
    [apply fit_is_Some|]. apply bind_is_Some; [apply Repeat_is_Some; lia|by intros].
Qed.

Lemma borderTop_is_Some label width : is_Some (borderTop label width).
Proof.
  unfold borderTop. cbv zeta. destruct (_ <? 1); [apply fit_is_Some|]. apply bind_is_Some; [|by intros].
  set (n := StringWidth _). destruct (Z.ltb_spec n (width - 2)); [|done].
  apply bind_is_Some; [apply Repeat_is_Some; lia|by intros].
Qed.

Lemma borderBottom_is_Some width : 0 <= width → is_Some (borderBottom width).
Proof.
  intros Hw. unfold borderBottom. destruct (Z.ltb_spec width 2); [by apply Repeat_is_Some|].
  apply bind_is_Some; [apply Repeat_is_Some; lia|by intros].
Qed.

Lemma bullets_is_Some m limit unit : 0 <= limit → is_Some (bullets m limit unit).
Proof.
  intros Hl. unfold bullets. apply bind_is_Some; [|by intros]. apply Repeat_is_Some. unfold minInt.
  pose proof (len_nonneg (m_input m)). destruct (_ <? limit); lia.
Qed.

(** Every page can be drawn when the lists of actions have what they refer to. *)
Lemma content_is_Some inner m :
  (m_mode m = "user_keys" → is_Some (m_pending m)) → is_Some (content inner m).
Proof.
  intros Hp. unfold content. destruct (negb _); [|done]. unfold modalContent.
  destruct (contains action_modes (m_mode m)).
  { unfold actions_content. destruct (String.eqb_spec (m_mode m) "user_keys") as [E|_]; [|by repeat case_match].
    by destruct (Hp E) as [p ->]. }
  unfold identity_content, totp_confirm_content, oidc_link_content, fixed_content.
  repeat match goal with
  | |- is_Some (_ ≫= _) => apply bind_is_Some; [|intros]
  | |- is_Some (wrapText _ _) => apply wrapText_is_Some
  | |- is_Some (bullets _ _ _) => by apply bullets_is_Some
  | |- is_Some (if ?b then _ else _) => destruct b
  | |- is_Some (match ?x with _ => _ end) => destruct x
  | |- is_Some (Some _) => done
  end.
Qed.

(** The loop over the rows stays inside them. *)
Lemma shown_rows_is_Some m inner selectable rows start stop : 0 <= start → stop <= lenZ rows →
  is_Some (mapM (shown_row m inner selectable rows) (seqZ start (stop - start))).
Proof.
  intros Hs He. apply mapM_is_Some_2, Forall_forall. intros i Hi%elem_of_seqZ. unfold compose, shown_row.
  apply bind_is_Some.
  { destruct (at_index_in rows i) as (x & -> & _); [lia|done]. }
  intros row _. apply bind_is_Some; [apply fit_is_Some|by intros].
Qed.

Lemma frame_is_Some m w h c : 2 <= w → 0 <= h → 0 <= row_cursor m → is_Some (frame_lines m w h c).
Proof.
  intros Hw Hh Hc. destruct c as [[title context] rows]. unfold frame_lines. cbv zeta.
  apply bind_is_Some; [apply joinSides_is_Some|]. intros head _.
  apply bind_is_Some; [unfold tabLine; destruct (negb _); apply fit_is_Some|]. intros tabs _.
  apply bind_is_Some; [apply Repeat_is_Some; lia|]. intros rule _.
  apply bind_is_Some; [apply fit_is_Some|]. intros line _.
  set (listHeight := if _ <? 1 then 1 else _).
  pose proof (visibleRange_inside (row_cursor m) listHeight (lenZ rows) Hc) as Hin.
  destruct (visibleRange _ _ _) as [start stop].
  apply bind_is_Some; [apply borderTop_is_Some|]. intros border _.
  assert (∃ rows' start' stop', match rows with [] => ([no_rows m], 0, 1) | _ => (rows, start, stop) end =
    (rows', start', stop') ∧ 0 <= start' ∧ stop' <= lenZ rows') as (rows' & start' & stop' & -> & Hs & He).
  { destruct rows as [|r rows]; [by do 3 eexists|]. do 3 eexists. split; [reflexivity|].
    unfold lenZ in *. cbn [length] in *. lia. }
  apply bind_is_Some; [by apply shown_rows_is_Some|]. intros shown _.
  apply bind_is_Some; [apply fill_to_is_Some, bind_is_Some; [apply Repeat_is_Some; lia|by intros]|]. intros lines _.
  apply bind_is_Some; [apply borderBottom_is_Some; lia|]. intros bottom _.
  apply bind_is_Some; [unfold statusLine; destruct (_ =s ""); apply fit_is_Some|]. intros status _.
  apply bind_is_Some; [apply fit_is_Some|]. intros foot _. by apply cut_to_is_Some.
Qed.

Lemma compactView_is_Some m w h : is_Some (compactView m w h).
Proof.
  unfold compactView. cbv zeta. apply bind_is_Some.
  { apply mapM_is_Some_2, Forall_forall. intros line _. apply fit_is_Some. }
  intros lines _. apply cut_to_is_Some. destruct (Z.ltb_spec h 1); lia.
Qed.

Lemma totpEnrollmentView_is_Some m w h : 0 <= w → 0 <= h → is_Some (totpEnrollmentView m w h).
Proof.
  intros Hw Hh. unfold totpEnrollmentView. apply bind_is_Some; [apply fit_is_Some|]. intros title _.
  apply bind_is_Some.
  { apply mapM_is_Some_2, Forall_forall. intros line _. unfold compose, qr_row.
    apply bind_is_Some; [|intros; apply fit_is_Some]. apply Repeat_is_Some. unfold maxInt.
    destruct (Z.ltb_spec 0 (Z.quot (w - StringWidth line) 2)); lia. }
  intros qr _. apply bind_is_Some; [by apply fill_to_is_Some, Repeat_is_Some|]. intros lines _.
  apply bind_is_Some; [apply fit_is_Some|]. intros foot _. by apply cut_to_is_Some.
Qed.

(** The menu can be drawn whatever it shows: no row, no slice and no padding is
    out of range. *)
Lemma View_is_Some m : 0 <= row_cursor m → (m_mode m = "user_keys" → is_Some (m_pending m)) → is_Some (View m).
Proof.
  intros Hc Hp. unfold View. apply fmap_is_Some. unfold view_lines.
  pose proof (view_size_positive m) as Hsize. destruct (view_size m) as [w h].
  destruct ((w <? 20) || (h <? 8)) eqn:Esmall; [apply compactView_is_Some|]. bool_simp.
  destruct (_ =s _); [apply totpEnrollmentView_is_Some; lia|].
  apply bind_is_Some; [by apply content_is_Some|]. intros c _. apply frame_is_Some; lia.
Qed.

(** Taking the result of a chain of steps apart *)
Ltac steps H :=
  repeat match type of H with
  | (?o ≫= _) = Some _ => let a := fresh "a" in let E := fresh "E" in
                          destruct o as [a|] eqn:E; [cbn [mbind option_bind] in H|done]
  end.

(** A frame has as many lines as the terminal has rows but for the gutter,
    whatever is shown in it; the notice of a small terminal has no more. *)
Theorem view_has_the_height m lines : view_lines m = Some lines →
  let '(w, h) := view_size m in
  lenZ lines = if (w <? 20) || (h <? 8) then Z.min h 4 else h.
Proof.
  unfold view_lines. pose proof (view_size_positive m) as Hsize. destruct (view_size m) as [w h].
  destruct ((w <? 20) || (h <? 8)) eqn:Esmall.
  - unfold compactView. cbv zeta. intros Hl. steps Hl.
    destruct (Z.ltb_spec h 1); [lia|]. apply cut_to_length in Hl as ->; [|lia].
    apply length_mapM in E. unfold lenZ. rewrite <- E. cbn [length]. lia.
  - bool_simp. destruct (m_mode m =s "totp_enroll").
    + unfold totpEnrollmentView. intros Hl. steps Hl. apply cut_to_length in Hl as ->; [|lia].
      rewrite lenZ_app. apply fill_to_length in E1 as ->. unfold lenZ at 2. cbn [length]. lia.
    + intros Hl. destruct (content (w - 4) m) as [c|]; [|done]. change (frame_lines m w h c = Some lines) in Hl.
      destruct c as [[title context] rows]. unfold frame_lines in Hl. cbv zeta in Hl.
      destruct (visibleRange _ _ _) as [start stop].
      steps Hl. destruct (match rows with [] => _ | _ => _ end) as [[rows' start'] stop'] eqn:Er.
      steps Hl. apply cut_to_length in Hl as ->; [|lia].
      match goal with F : fill_to _ _ _ = Some _ |- _ => apply fill_to_length in F end.
      rewrite lenZ_app. unfold lenZ at 2. cbn [length]. lia.
Qed.

End frame.

#[local] Existing Instances ascii_tables menu_formats menu_ansi.

Definition typing (secret : string) : Model :=
  menu_of alice |> with_mode "secret_password" |> with_input secret |> with_pending (Some empty_pending).

Lemma secrets_are_never_drawn_witness :
  redact (typing "hunter2") = redact (typing "letmein") ∧
  View (typing "hunter2") = View (typing "letmein").
Proof. split; [vm_compute; reflexivity|]. apply secrets_are_never_drawn. vm_compute. reflexivity. Defined.

Lemma visible_range_holds_cursor_witness :
  visibleRange 7 9 4 = (4, 8) ∧ (let '(start, stop) := visibleRange 7 9 4 in
    0 <= start <= 7 ∧ 7 < stop <= 9 ∧ stop - start = Z.min (Z.max 1 4) 9).
Proof. split; [done|]. apply (visible_range_holds_cursor 7 4 9). lia. Defined.

Lemma view_has_the_height_witness :
  ∃ lines, view_lines (typing "hunter2" |> with_width 90 |> with_height 30) = Some lines ∧
    (let '(w, h) := view_size (typing "hunter2" |> with_width 90 |> with_height 30) in
     lenZ lines = if (w <? 20) || (h <? 8) then Z.min h 4 else h).
Proof.
  eexists. split; [vm_compute; reflexivity|].
  apply (view_has_the_height (typing "hunter2" |> with_width 90 |> with_height 30)).
  vm_compute. reflexivity.
Defined.

(** In a form, and in every other dialogue but the lists of actions, the window
    of rows follows the cursor of the list underneath: on a terminal of 14 rows
    the last field of a grant's form, which is being edited, is not shown. *)
Definition long_form : Model :=
  menu_of alice |> with_mode "form" |> with_width 90 |> with_height 14
    |> with_form (Some (set_index 6 (grant_add_form (menu_of alice) no_target))).

Example edited_field_is_not_shown :
  match view_lines long_form with
  | Some lines => existsb (λ line, Contains line "TCP forwarding") lines = false
  | None => False
  end.
Proof. vm_compute. reflexivity. Qed.
