(* ===== verification/MenuSafe.v ===== *)
(** * The menu never panics, and its commands end

    [MenuProps] for forms and actions, and here for the other modes, the lists,
    messages, commands and the loop of [RunRemote]. *)

From S2P Require Import Prelude GoStrings Json GoTime Effects SshKeys Sql Schema Names StoreUsers.
From S2P Require Import StoreOIDC StoreTargets StoreAccess StoreAudit StoreWf StoreCalls Totp Auth Net.
From S2P Require Import Downstream Input MenuState MenuModel MenuCommands MenuForms MenuKeys MenuView.
From S2P Require Import MenuRemote MenuSamples MenuWf MenuFormsWf MenuProps MenuViewProps.

Section safe.
Context `{UnicodeTables, RowidsLaws, TimeParser, KeyFormats, CipherOps, SealOps, DriverTexts}.

(** ** Dialogues *)

Lemma pending_of m mode : menu_ok m → m_mode m = mode → mode_need mode = NeedPending →
  ∃ p, m_pending m = Some p.
Proof. intros Hm Hmode Hn. pose proof (mode_need_met m _ Hm Hmode) as Hp. rewrite Hn in Hp. exact Hp. Qed.

Lemma credential_of m mode : menu_ok m → m_mode m = mode → mode_need mode = NeedCredential →
  ∃ p, m_pending m = Some p ∧ host_ok p.
Proof. intros Hm Hmode Hn. pose proof (mode_need_met m _ Hm Hmode) as Hp. rewrite Hn in Hp. exact Hp. Qed.

Lemma finishCredential_ok payload p m : menu_ok m → m_pending m = Some p → host_ok p →
  step_ok (finishCredential payload m).
Proof. intros Hm Hp Hh. unfold finishCredential. rewrite Hp. by apply with_cmd_ok; [apply input_ok|]. Qed.

Lemma finishPublicKey_ok p m : menu_ok m → m_pending m = Some p → step_ok (finishPublicKey m).
Proof.
  intros Hm Hp. unfold finishPublicKey. destruct (one_key _ _) as [[key comment]|e].
  - rewrite Hp. by apply mutate_ok.
  - by apply no_cmd_ok, status_ok.
Qed.

Lemma finishAgentKey_ok p m : menu_ok m → m_pending m = Some p → host_ok p → step_ok (finishAgentKey m).
Proof.
  intros Hm Hp Hh. unfold finishAgentKey. destruct (one_key _ _) as [[key comment]|e].
  - eapply finishCredential_ok; [by apply status_ok|exact Hp|done].
  - by apply no_cmd_ok, status_ok.
Qed.

Lemma finishDelete_ok p m : menu_ok m → m_pending m = Some p → step_ok (finishDelete m).
Proof.
  intros Hm Hp. unfold finishDelete. rewrite Hp. cbn [deref].
  destruct (delete_operation m p) as [[[[[sect status] type] details] c]|]; [by apply mutate_ok|].
  by apply no_cmd_ok.
Qed.

Lemma finishTOTPEnrollment_ok e p m : menu_ok m → m_pending m = Some p →
  step_ok (finishTOTPEnrollment e m).
Proof.
  intros Hm Hp. unfold finishTOTPEnrollment. rewrite Hp. cbn [deref].
  destruct (Validate _ _ _); [by apply with_cmd_ok|]. by apply no_cmd_ok, input_ok, status_ok.
Qed.

Lemma accept_host_ok p m : menu_ok m → m_pending m = Some p → is_Some (p_hostKey p) →
  step_ok (accept_host m).
Proof.
  intros Hm Hp Hk. pose proof Hm as [Hb _]. assert (host_ok p) as Hh by (intros _; exact Hk).
  unfold accept_host. rewrite Hp. cbn [deref].
  destruct (p_kind p =s _); [unfold finishHostKey; rewrite Hp; cbn [deref]; by apply with_cmd_ok|].
  destruct (p_credentialKind p =s _); [apply no_cmd_ok; by eapply credential_menu|].
  destruct (p_credentialKind p =s _); [apply no_cmd_ok; by eapply credential_menu|].
  destruct (p_credentialKind p =s _); [unfold finishStoredTarget; rewrite Hp; cbn [deref]; by apply with_cmd_ok|].
  apply no_cmd_ok. by eapply credential_menu.
Qed.

Lemma accept_private_key_ok p m : menu_ok m → m_pending m = Some p → host_ok p →
  step_ok (accept_private_key m).
Proof.
  intros Hm Hp Hh. pose proof Hm as [Hb _]. unfold accept_private_key.
  destruct (ParsePrivateKey (m_input m)) as [signer|err].
  - rewrite Hp. cbn [deref]. destruct (p_kind p =s _).
    + by eapply finishIdentityPayload_ok.
    + by eapply finishCredential_ok.
  - destruct (PassphraseMissing err); [|by apply no_cmd_ok, input_ok, status_ok].
    rewrite Hp. apply no_cmd_ok. by eapply credential_menu.
Qed.

Lemma accept_passphrase_ok p m : menu_ok m → m_pending m = Some p → host_ok p →
  step_ok (accept_passphrase m).
Proof.
  intros Hm Hp Hh. pose proof Hm as [Hb _]. unfold accept_passphrase. rewrite Hp. cbn [deref].
  destruct (ParsePrivateKeyWithPassphrase _ _); [|by apply no_cmd_ok, input_ok, status_ok].
  destruct (p_kind p =s _); [by eapply finishIdentityPayload_ok|by eapply finishCredential_ok].
Qed.

Lemma type_input_ok key m : menu_ok m → step_ok (type_input key m).
Proof.
  intros Hm. unfold type_input.
  repeat match goal with |- context [if ?b then _ else _] => destruct b end; auto with gateway.
Qed.

Lemma mode_key_input_ok key m : menu_ok m → step_ok (mode_key_input key m).
Proof.
  intros Hm. pose proof Hm as [Hb _]. unfold mode_key_input.
  destruct (String.eqb_spec (m_mode m) "confirm_host") as [E|_].
  { destruct (key =s "n"); [by apply no_cmd_ok, (need_none _ "")|].
    destruct (key =s "y"); [|by apply no_cmd_ok].
    destruct (mode_need_met m _ Hm E) as (p & Hp & Hk). by eapply accept_host_ok. }
  destruct (String.eqb_spec (m_mode m) "secret_password") as [E|_]; cbn [andb].
  { destruct (credential_of m _ Hm E eq_refl) as (p & Hp & Hh). rewrite E. cbn [andb String.eqb].
    destruct (key =s "enter"); [by eapply finishCredential_ok|by apply type_input_ok]. }
  destruct (String.eqb_spec (m_mode m) "secret_key") as [E|_]; cbn [andb].
  { destruct (credential_of m _ Hm E eq_refl) as (p & Hp & Hh).
    destruct (key =s "ctrl+d"); [by eapply accept_private_key_ok|].
    destruct (key =s "enter"); [by apply no_cmd_ok, input_ok|]. rewrite E. by apply type_input_ok. }
  destruct (String.eqb_spec (m_mode m) "secret_passphrase") as [E|_]; cbn [andb].
  { destruct (credential_of m _ Hm E eq_refl) as (p & Hp & Hh).
    destruct (key =s "enter"); [by eapply accept_passphrase_ok|by apply type_input_ok]. }
  by apply type_input_ok.
Qed.

Lemma verifyTOTPChallenge_ok e m : menu_ok m → safe_step (verifyTOTPChallenge e m).
Proof.
  intros Hm. pose proof Hm as [Hb _]. destruct Hb as (Hc & _).
  apply (guarantees_bind _ _ (λ r, is_Some r)).
  - unfold check_challenge. rewrite Hc. cbn [negb].
    eapply guarantees_bind; [apply keeps_ensures; unfold UserTOTP; keeps_tac|].
    intros [config|err] _; [|by exists (Err err)]. eapply guarantees_bind.
    + apply keeps_ensures. wf_keeps.
    + intros r _. by exists r.
  - intros ? [checked ->]. cbn [guarantees deref]. apply no_cmd_ok. unfold challenge_checked.
    destruct checked; [exact Hm|]. cbv zeta. destruct (5 <=? _); exact Hm.
Qed.

Lemma startOIDCLink_ok m : base_ok m → m_mode m = "" → step_ok (startOIDCLink m).
Proof.
  intros Hb Hm. unfold startOIDCLink.
  destruct (_ || _); [by apply no_cmd_ok, (need_none _ "")|].
  destruct (negb _); [by apply no_cmd_ok, (need_none _ "")|].
  apply with_cmd_ok; [by apply (need_none _ "oidc_start")|done].
Qed.

Lemma completeOIDCLink_ok m : base_ok m → step_ok (completeOIDCLink m).
Proof.
  intros Hb. unfold completeOIDCLink.
  destruct (m_pending m); [|by apply no_cmd_ok, closeModal_ok].
  destruct (negb _); [by apply no_cmd_ok, closeModal_ok|].
  apply with_cmd_ok; [by apply (need_none _ "oidc_complete")|done].
Qed.

Lemma handleModeKey_ok e key m : menu_ok m → safe_step (handleModeKey e key m).
Proof.
  intros Hm. pose proof Hm as [Hb _]. unfold handleModeKey, safe_step, ensures.
  destruct (String.eqb_spec (m_mode m) "help") as [E|_]; [by apply no_cmd_ok, (need_none _ "")|].
  destruct (_ && (key =s "enter")); [by apply verifyTOTPChallenge_ok|].
  destruct (String.eqb_spec (m_mode m) "form") as [E|_]; [by apply handleFormKey_ok|].
  destruct (is_action_mode (m_mode m)) eqn:Ea.
  { apply handleActionKey_ok; [done|]. unfold mode_need. by rewrite Ea. }
  cbn [guarantees].
  destruct (_ && _); [by apply with_cmd_ok|].
  destruct (String.eqb_spec (m_mode m) "totp_enroll") as [E|_]; cbn [andb].
  { destruct (pending_of m _ Hm E eq_refl) as [p Hp].
    destruct (key =s "enter"); [apply no_cmd_ok; by eapply pending_menu|]. rewrite E. cbn [andb String.eqb].
    unfold mode_key_rest. destruct (key =s "esc"); [by apply no_cmd_ok, closeModal_ok|].
    by apply mode_key_input_ok. }
  destruct (String.eqb_spec (m_mode m) "totp_confirm") as [E|_]; cbn [andb].
  { destruct (pending_of m _ Hm E eq_refl) as [p Hp].
    destruct (key =s "enter"); [by eapply finishTOTPEnrollment_ok|]. rewrite E. cbn [andb orb String.eqb].
    unfold mode_key_rest. destruct (key =s "esc"); [by apply no_cmd_ok, closeModal_ok|].
    by apply mode_key_input_ok. }
  destruct (_ && (key =s "enter")); [by apply completeOIDCLink_ok|].
  destruct (_ || _); [by apply no_cmd_ok|].
  destruct (m_mode m =s "identity_public"); [by apply no_cmd_ok, closeModal_ok|].
  destruct (String.eqb_spec (m_mode m) "confirm_delete") as [E|_].
  { destruct (pending_of m _ Hm E eq_refl) as [p Hp].
    destruct (key =s "y"); [by eapply finishDelete_ok|].
    destruct (key =s "n"); [by apply no_cmd_ok, closeModal_ok|by apply no_cmd_ok]. }
  destruct (String.eqb_spec (m_mode m) "public_key") as [E|_]; cbn [andb].
  { destruct (pending_of m _ Hm E eq_refl) as [p Hp].
    destruct (_ || _); [by eapply finishPublicKey_ok|]. rewrite E. cbn [andb String.eqb].
    unfold mode_key_rest. destruct (key =s "esc"); [by apply no_cmd_ok, closeModal_ok|].
    by apply mode_key_input_ok. }
  destruct (String.eqb_spec (m_mode m) "agent_key") as [E|_]; cbn [andb].
  { destruct (credential_of m _ Hm E eq_refl) as (p & Hp & Hh).
    destruct (_ || _); [by eapply finishAgentKey_ok|].
    unfold mode_key_rest. destruct (key =s "esc"); [by apply no_cmd_ok, closeModal_ok|].
    by apply mode_key_input_ok. }
  unfold mode_key_rest. destruct (key =s "esc"); [by apply no_cmd_ok, closeModal_ok|].
  by apply mode_key_input_ok.
Qed.

(** ** Lists *)

Lemma cursor_menu m c : base_ok m → m_mode m = "" → in_rows c (itemCount m) →
  menu_ok (m |> with_cursor c).
Proof. intros (? & ? & ?) Hm Hc. by apply (need_none _ ""). Qed.

Lemma clamp_menu m : c_cipher (m_config m) = true → targets_ok (m_targets m) → 0 <= m_cursor m →
  mode_ok m → menu_ok (clamp m).
Proof.
  intros Hc Ht Hcur Hm. unfold clamp.
  destruct (Z.eqb_spec (itemCount m) 0) as [E|E]; [split; [split_and!; [done..|apply in_rows_zero]|done]|].
  assert (0 <= itemCount m) by (unfold itemCount, lenZ; repeat case_match; lia).
  destruct (Z.leb_spec (itemCount m) (m_cursor m)).
  - split; [|exact Hm]. split_and!; [done..|]. change (in_rows (itemCount m - 1) (itemCount m)).
    unfold in_rows. lia.
  - split; [|exact Hm]. split_and!; [done..|]. unfold in_rows. lia.
Qed.

Lemma search_key_ok key m : base_ok m → m_mode m = "" → step_ok (no_cmd (search_key key m)).
Proof.
  intros Hb Hm. pose proof Hb as (Hc & Ht & _). apply no_cmd_ok. apply (need_none _ ""); [|by unfold search_key; repeat case_match|done].
  unfold search_key. repeat case_match; try exact Hb; split_and!; try done; apply in_rows_zero.
Qed.

Lemma pageSize_pos m : 1 <= pageSize m.
Proof.
  unfold pageSize. set (h := if m_height m <=? 0 then 24 else m_height m). cbv zeta.
  destruct (1 <? h); [destruct (Z.ltb_spec (h - 1) 10)|destruct (Z.ltb_spec h 10)]; lia.
Qed.

Lemma press_enter_ok m : base_ok m → m_mode m = "" → step_ok (press_enter m).
Proof.
  intros Hb Hm. unfold press_enter. pose proof Hb as (_ & _ & Hcur).
  assert (menu_ok m) as Hmenu by by apply (need_none _ "").
  destruct (String.eqb_spec (m_section m) "targets") as [E|_].
  - unfold itemCount in Hcur. rewrite E in Hcur. cbn in Hcur.
    destruct (filtered m) as [|t ts]; [by apply no_cmd_ok|].
    destruct (at_index_in (t :: ts) (m_cursor m)) as (x & -> & _);
      [unfold in_rows, lenZ in *; cbn [length] in *; lia|].
    cbn [deref]. by apply with_cmd_ok.
  - destruct (_ && _); [by apply openSelectedActions_ok|by apply no_cmd_ok].
Qed.

Lemma list_key_ok key m : base_ok m → m_mode m = "" → step_ok (list_key key m).
Proof.
  intros Hb Hm. pose proof Hb as (Hc & Ht & Hcur). pose proof (pageSize_pos m) as Hpage.
  assert (step_ok (no_cmd m)) as Hsame by by apply no_cmd_ok, (need_none _ "").
  assert (∀ c, in_rows c (itemCount m) → step_ok (no_cmd (m |> with_cursor c))) as Hcursor.
  { intros c Hc'. by apply no_cmd_ok, cursor_menu. }
  unfold list_key, in_rows in *.
  destruct (_ || _); [destruct (0 <? _) eqn:E; bool_simp; [apply Hcursor; lia|done]|].
  destruct (_ || _); [destruct (_ <? _) eqn:E; bool_simp; [apply Hcursor; lia|done]|].
  destruct (key =s _); [destruct (_ <? 0) eqn:E; bool_simp; apply Hcursor; lia|].
  destruct (key =s _).
  { apply no_cmd_ok, clamp_menu; [done|done|cbn; lia|]. unfold mode_ok. cbn. by rewrite Hm. }
  destruct (_ || _); [apply Hcursor; lia|].
  destruct (_ || _); [destruct (0 <? _) eqn:E; bool_simp; [apply Hcursor; lia|done]|].
  destruct (key =s _); [destruct (_ =s _); [by apply no_cmd_ok, (need_none _ "")|done]|].
  destruct (key =s _).
  { destruct (_ =s _); [|done]. apply no_cmd_ok, (need_none _ ""); [|done..].
    split_and!; [done..|apply in_rows_zero]. }
  destruct (key =s _); [by apply no_cmd_ok, (need_none _ "help")|].
  destruct (key =s _); [by apply press_enter_ok|done].
Qed.

Lemma admin_key_ok key m : base_ok m → m_mode m = "" →
  match admin_key key m with
  | Returns r => step_ok r
  | Continues m' => base_ok m' ∧ m_mode m' = ""
  end.
Proof.
  intros Hb Hm. pose proof Hb as (Hc & Ht & _). unfold admin_key.
  assert (∀ s, base_ok (m |> with_section s |> with_cursor 0)) as Hsect.
  { intros s. split_and!; [done..|apply in_rows_zero]. }
  do 7 (destruct (key =s _); [by split|]).
  destruct (key =s _); [by apply with_cmd_ok; [apply (need_none _ "")|]|].
  destruct (key =s _); [by apply no_cmd_ok, openAddForm_ok|].
  destruct (key =s _); [by apply openSelectedActions_ok|].
  destruct (_ || _); [split; [split_and!; [done..|apply in_rows_zero]|done]|].
  destruct (_ || _); [split; [split_and!; [done..|apply in_rows_zero]|done]|]. done.
Qed.

Lemma handleKey_ok e key m : menu_ok m → safe_step (handleKey e key m).
Proof.
  intros Hm. pose proof Hm as [Hb _]. unfold handleKey.
  destruct (String.eqb_spec (m_mode m) "") as [E|_]; cbn [negb]; [|by apply handleModeKey_ok].
  unfold safe_step, ensures. cbn [guarantees].
  destruct (m_searching m); [by apply search_key_ok|].
  destruct (_ || _); [by apply with_cmd_ok|].
  destruct (key =s "o"); [by apply startOIDCLink_ok|].
  destruct (is_admin m); [|by apply list_key_ok].
  pose proof (admin_key_ok key m Hb E) as Ha. destruct (admin_key key m) as [r|m']; [done|].
  destruct Ha. by apply list_key_ok.
Qed.

(** ** Messages *)

Definition message_ok (m : Model) (msg : message) : Prop :=
  match msg with
  | HostKeyMsg (Ok _) => is_Some (m_pending m)
  | DataMsg d => targets_ok (d_targets (dm_data d))
  | _ => True
  end.

Lemma paste_message_ok content m : menu_ok m → step_ok (paste_message content m).
Proof.
  intros Hm. pose proof Hm as [Hb _]. unfold paste_message.
  destruct (_ =s _); [by apply no_cmd_ok, input_ok|].
  destruct (_ || _); [by apply no_cmd_ok, input_ok|].
  destruct (String.eqb_spec (m_mode m) "form") as [E|_]; [|by apply no_cmd_ok].
  unfold paste_into_form. pose proof (mode_need_met m _ Hm E) as Hneed.
  destruct (m_form m) as [f|] eqn:Hf; [|by apply no_cmd_ok].
  specialize (Hneed f Hf). pose proof Hneed as (Hi & _ & _).
  destruct (at_index_in _ _ Hi) as (field & Hfield & _). rewrite Hfield. cbn [deref].
  destruct (lenZ (ff_options field) =? 0) eqn:Ho; [|by apply no_cmd_ok].
  apply lenZ_zero in Ho. apply with_form_ok; [done..|]. by eapply form_ok_text.
Qed.

Lemma mutation_message_ok status sect err m : base_ok m → step_ok (mutation_message status sect err m).
Proof.
  intros Hb. pose proof Hb as (Hc & Ht & _). unfold mutation_message. destruct err as [e|].
  - by apply with_cmd_ok; [apply (need_none _ "")|].
  - apply with_cmd_ok; [|exact I]. destruct (sect =s ""); [by apply (need_none _ "")|].
    apply (need_none _ ""); [|done..]. split_and!; [done..|apply in_rows_zero].
Qed.

Lemma Update_ok e msg m : menu_ok m → message_ok m msg → safe_step (Update e msg m).
Proof.
  intros Hm Hmsg. pose proof Hm as [Hb Hmode]. pose proof Hb as (Hc & Ht & Hcur).
  unfold safe_step, ensures. destruct msg as [| |d|[login|err]|identity [err|]|[key|err]|status sect err|content|w h|key];
    cbn [Update guarantees].
  - by apply no_cmd_ok.
  - by apply with_cmd_ok.
  - apply no_cmd_ok, clamp_menu; [by destruct (dm_err d)..|by destruct (dm_err d); apply Hcur|].
    by destruct (dm_err d).
  - by apply no_cmd_ok, (need_none _ "oidc_link").
  - by apply no_cmd_ok, closeModal_ok.
  - by apply no_cmd_ok, closeModal_ok.
  - by apply with_cmd_ok; [apply (need_none _ "")|].
  - destruct Hmsg as [p Hp]. cbn [host_key_message]. rewrite Hp. cbn [deref]. apply no_cmd_ok.
    apply (menu_ok_mode _ "confirm_host"); [exact Hb|done|]. eexists. split; [reflexivity|]. by eexists.
  - by apply no_cmd_ok, (need_none _ "").
  - by apply mutation_message_ok.
  - by apply paste_message_ok.
  - by apply no_cmd_ok.
  - by apply handleKey_ok.
Qed.

(** ** Commands *)

Lemma ListTargets_ok : ensures wf_db (λ r, match r with Ok ts => targets_ok ts | Err _ => True end) ListTargets.
Proof.
  intros d Hd. split; [done|]. cbn. intros t Ht. apply list_elem_of_fmap in Ht as (row & -> & Hrow).
  apply valid_kind_ok, (wf_t_kind d); [by apply wf_db_targets|].
  by rewrite (order_by_Permutation target_name_le) in Hrow.
Qed.

Lemma ListAuthorizedTargets_ok u :
  ensures wf_db (λ r, match r with Ok ts => targets_ok ts | Err _ => True end) (ListAuthorizedTargets u).
Proof.
  unfold ListAuthorizedTargets. destruct (_ =s _); intros d Hd; (split; [done|]); cbn; intros t Ht;
    apply list_elem_of_fmap in Ht as (row & -> & Hrow);
    rewrite (order_by_Permutation target_name_le) in Hrow; apply elem_of_select in Hrow as [Hrow _];
    apply valid_kind_ok, (wf_t_kind d); auto with sql.
Qed.

Definition loaded_ok (d : dataMsg) : Prop := targets_ok (d_targets (dm_data d)).

Lemma load_rows_ok {A} (q : prog db (result (list A))) put d : keeps wf_db q →
  (∀ l d, d_targets (put l d) = d_targets d) → loaded_ok d → ensures wf_db loaded_ok (load_rows q put d).
Proof.
  intros Hq Hput Hd. unfold load_rows. destruct (dm_err d); [done|].
  eapply guarantees_bind; [by apply keeps_ensures|]. intros r _. unfold loaded_ok. cbn.
  rewrite Hput. exact Hd.
Qed.

Lemma load_ok cfg : ensures wf_db loaded_ok (load cfg).
Proof.
  unfold load, ensures.
  apply (guarantees_bind _ _ (λ r, match r with Ok ts => targets_ok ts | Err _ => True end)).
  { destruct (_ =s _); [apply ListTargets_ok|apply ListAuthorizedTargets_ok]. }
  intros [ts|e] Hts; [|intros t Ht; by apply not_elem_of_nil in Ht].
  apply (guarantees_bind _ _ loaded_ok).
  - unfold load_oidc. destruct (_ =s ""); [exact Hts|]. destruct (_ =s RoleAdmin).
    + apply load_rows_ok; [wf_keeps|done|exact Hts].
    + eapply guarantees_bind; [apply keeps_ensures; wf_keeps|].
      intros [identity|[]] _; exact Hts.
  - intros d Hd. destruct (_ =s RoleAdmin); [|exact Hd]. unfold load_admin.
    do 6 (eapply guarantees_bind; [apply load_rows_ok; [wf_keeps|done|eassumption]|intros ? ?]).
    apply load_rows_ok; [wf_keeps|done|done].
Qed.

(** The message of a command that changes the database *)
Definition mutation (r : option message) : Prop :=
  match r with
  | Some (MutationMsg _ _ _) | Some (OIDCLinkMsg _ _) => True
  | _ => False
  end.

Lemma menu_audit_wf cfg type details : keeps wf_db (menu_audit cfg type details).
Proof. unfold menu_audit. wf_keeps. Qed.

Lemma audited_ok cfg status sect type details p : keeps wf_db p →
  ensures wf_db mutation (audited cfg status sect type details p).
Proof.
  intros Hp. unfold audited. eapply guarantees_bind; [|by intros err _].
  apply keeps_ensures, keeps_bind_ok; [done|]. intros _. apply menu_audit_wf.
Qed.

Lemma run_operation_wf e op : keeps wf_db (run_operation e op).
Proof. destruct op as [c|userID secret counter]; [apply exec_keeps_wf|]. cbn [run_operation]. wf_keeps. Qed.

Lemma failed_ok e : ensures wf_db mutation (failed e).
Proof. done. Qed.

(** A row is added, its secret stored, and the row deleted when that fails. *)
Lemma added_or_deleted {A} (add : prog db (result A)) (store : A → prog db (result unit))
    (undo : A → prog db (result unit)) (announce : A → prog db (option message)) :
  keeps wf_db add → (∀ a, keeps wf_db (store a)) → (∀ a, keeps wf_db (undo a)) →
  (∀ a, ensures wf_db mutation (announce a)) →
  ensures wf_db mutation
    (let* added := add in
     match added with
     | Err err => failed err
     | Ok a =>
       let* stored := store a in
       match stored with
       | Err err => let* _ := undo a in failed err
       | Ok _ => announce a
       end
     end).
Proof.
  intros Hadd Hstore Hundo Hann. eapply guarantees_bind; [by apply keeps_ensures|].
  intros [a|err] _; [|apply failed_ok].
  eapply guarantees_bind; [by apply keeps_ensures|]. intros [[]|err] _; [apply Hann|].
  eapply guarantees_bind; [by apply keeps_ensures|]. intros _ _. apply failed_ok.
Qed.

Lemma AddSSHIdentity_wf name publicKey fingerprint : keeps wf_db (AddSSHIdentity name publicKey fingerprint).
Proof. wf_keeps. Qed.
Lemma SetSSHIdentitySecret_wf id nonce ciphertext : keeps wf_db (SetSSHIdentitySecret id nonce ciphertext).
Proof. wf_keeps. Qed.
Lemma DeleteSSHIdentity_wf name : keeps wf_db (DeleteSSHIdentity name).
Proof. wf_keeps. Qed.
Lemma AddTarget_wf n : keeps wf_db (AddTarget n).
Proof. wf_keeps. Qed.
Lemma SetTargetCredential_wf id nonce ciphertext : keeps wf_db (SetTargetCredential id nonce ciphertext).
Proof. wf_keeps. Qed.
Lemma SetTargetCredentialKind_wf id kind nonce ciphertext :
  keeps wf_db (SetTargetCredentialKind id kind nonce ciphertext).
Proof. wf_keeps. Qed.
Lemma DeleteTarget_wf name : keeps wf_db (DeleteTarget name).
Proof. wf_keeps. Qed.

Lemma sealed_wf {A} (sealed : result (string * string)) (k : string * string → prog db (result A)) :
  (∀ x, keeps wf_db (k x)) → keeps wf_db (let? x := Ret sealed in k x).
Proof. intros Hk. apply keeps_bind_ok; [exact I|exact Hk]. Qed.

Lemma identity_body_ok cfg e p publicKey fingerprint payload :
  ensures wf_db mutation (identity_body cfg e p publicKey fingerprint payload).
Proof.
  unfold identity_body. destruct (negb _); [apply failed_ok|].
  apply (added_or_deleted (AddSSHIdentity (p_name p) publicKey fingerprint)
    (λ identity, let? sealed := Ret (EncryptSSHIdentity (env_nonce e) (SI_ID identity) payload) in
                 SetSSHIdentitySecret (SI_ID identity) sealed.1 sealed.2)
    (λ identity, DeleteSSHIdentity (SI_Name identity))).
  - apply AddSSHIdentity_wf.
  - intros a. apply sealed_wf. intros x. apply SetSSHIdentitySecret_wf.
  - intros a. apply DeleteSSHIdentity_wf.
  - intros a. by apply audited_ok.
Qed.

Lemma credential_body_ok cfg e p payload : host_ok p →
  ensures wf_db mutation (credential_body cfg e p payload).
Proof.
  intros Hh. unfold credential_body. destruct (negb _); [apply failed_ok|].
  destruct (String.eqb_spec (p_kind p) "target_add") as [E|_].
  - destruct (Hh E) as [key ->]. unfold add_target_body.
    apply (added_or_deleted (AddTarget (new_target p key (p_credentialKind p) None))
      (λ t, let? sealed := Ret (Encrypt (env_nonce e) (Target_ID t) (p_credentialKind p) payload) in
            SetTargetCredential (Target_ID t) sealed.1 sealed.2)
      (λ t, DeleteTarget (Target_Name t))).
    + apply AddTarget_wf.
    + intros t. apply sealed_wf. intros x. apply SetTargetCredential_wf.
    + intros t. apply DeleteTarget_wf.
    + intros t. by apply audited_ok.
  - apply audited_ok, sealed_wf. intros x. apply SetTargetCredentialKind_wf.
Qed.

Lemma stored_target_body_ok cfg p : is_Some (p_hostKey p) → ensures wf_db mutation (stored_target_body cfg p).
Proof.
  intros [key Hk]. unfold stored_target_body. rewrite Hk.
  eapply guarantees_bind; [apply keeps_ensures; wf_keeps|]. intros added _.
  eapply guarantees_bind; [|by intros err _]. apply keeps_ensures.
  destruct added; [apply menu_audit_wf|exact I].
Qed.

Lemma oidc_link_ok cfg e login user : ensures wf_db mutation (oidc_link cfg e login user).
Proof.
  unfold oidc_link. destruct (Complete _ _); [|done].
  eapply guarantees_bind; [|by intros err _]. apply keeps_ensures. wf_keeps.
Qed.

Lemma mutation_message m r : mutation r → ∃ msg, r = Some msg ∧ message_ok m msg.
Proof. destruct r as [[]|]; try done; eauto. Qed.

Lemma perform_ok e m c : menu_ok m → command_ok m c →
  ensures wf_db (λ r, ∃ msg, r = Some msg ∧ message_ok m msg) (perform (m_config m) e c).
Proof.
  intros [(Hc & _) _] Hcmd.
  assert (∀ p, ensures wf_db mutation p →
    ensures wf_db (λ r, ∃ msg, r = Some msg ∧ message_ok m msg) p) as Hmut.
  { intros p Hp. eapply guarantees_mono; [exact Hp|done|apply mutation_message]. }
  destruct c; cbn [perform]; rewrite ?Hc, ?andb_false_r; cbn [negb].
  - eexists. by split.
  - eapply guarantees_bind; [apply load_ok|]. intros d Hd. eexists. by split.
  - eexists. by split.
  - apply Hmut, oidc_link_ok.
  - apply Hmut. apply audited_ok, run_operation_wf.
  - eexists. split; [reflexivity|]. cbn. by destruct (scan e address).
  - apply Hmut. destruct Hcmd as [key Hk]. unfold host_key_body. rewrite Hk. apply audited_ok. wf_keeps.
  - apply Hmut, identity_body_ok.
  - by apply Hmut, stored_target_body_ok.
  - by apply Hmut, credential_body_ok.
Qed.

(** ** Chains of commands *)

(** How many commands may still run *)
Definition command_rank (c : command) : nat :=
  match c with
  | QuitCmd | LoadCmd | OIDCBeginCmd | ScanHostCmd _ => 1
  | _ => 2
  end.

Definition reply_rank (msg : message) : nat :=
  match msg with
  | QuitMsg | DataMsg _ | OIDCBeginMsg _ | HostKeyMsg _ => 0
  | MutationMsg _ _ _ | OIDCLinkMsg _ _ => 1
  | _ => 2
  end.

Definition replies (c : command) (r : option message) : Prop :=
  match r with Some msg => (reply_rank msg < command_rank c)%nat | None => True end.

Lemma perform_replies cfg e c : always (replies c) (perform cfg e c).
Proof.
  destruct c; cbn [perform]; unfold oidc_link, host_key_body, identity_body, stored_target_body,
    credential_body, add_target_body, audited, failed;
  repeat match goal with
  | |- always _ (bind _ _) => apply always_bind; intros
  | |- always _ (match ?x with _ => _ end) => destruct x
  | |- always _ (Ret _) => first [exact I | cbn; lia]
  end.
Qed.

Lemma Update_reply e msg m : (reply_rank msg <= 1)%nat → ∃ r, Update e msg m = Ret r ∧
  match r with Some (_, Some c) => (command_rank c <= reply_rank msg)%nat | _ => True end.
Proof.
  destruct msg as [| |d|[]|? []|[key|err]|? ? []| | |]; cbn; try lia; intros _;
    (eexists; split; [reflexivity|]); cbn; try done; try lia.
  by destruct (m_pending m).
Qed.

Lemma applyCommand_ok fuel e m cmd : menu_ok m →
  match cmd with Some c => command_ok m c ∧ (command_rank c <= fuel)%nat | None => True end →
  ensures wf_db (λ o, ∃ m', o = Done m' ∧ menu_ok m') (applyCommand fuel e m cmd).
Proof.
  revert m cmd. induction fuel as [|fuel IH]; intros m [c|] Hm; cbn [applyCommand];
    try (intros _; by exists m).
  { intros [_ Hr]. destruct c; cbn in Hr; lia. }
  intros [Hc Hr]. eapply guarantees_bind.
  { eapply guarantees_always; [by apply perform_ok|apply perform_replies]. }
  intros r [(msg & -> & Hmsg) Hreply]. cbn in Hreply.
  pose proof (Update_ok e msg m Hm Hmsg) as Hu.
  destruct (Update_reply e msg m) as (r & Er & Hnext); [destruct c; cbn in *; lia|].
  rewrite Er in Hu |- *. cbn [bind]. unfold safe_step, ensures in Hu. cbn [guarantees] in Hu.
  destruct r as [[m' cmd']|]; [|done]. destruct Hu as [Hm' Hc']. apply IH; [done|].
  destruct cmd' as [c'|]; [|done]. split; [done|]. destruct c; cbn in *; lia.
Qed.

Lemma rank_le_2 c : (command_rank c <= 2)%nat.
Proof. destruct c; cbn; lia. Qed.

Lemma applyMessage_ok e m msg : menu_ok m → message_ok m msg →
  ensures wf_db (λ o, ∃ m', o = Done m' ∧ menu_ok m') (applyMessage command_fuel e m msg).
Proof.
  intros Hm Hmsg. eapply guarantees_bind; [by apply Update_ok|].
  intros [[m' cmd]|] Hr; [|done]. destruct Hr as [Hm' Hc]. apply applyCommand_ok; [done|].
  destruct cmd as [c|]; [|done]. split; [done|]. unfold command_fuel. pose proof (rank_le_2 c). lia.
Qed.

(** ** [RunRemote] *)

Section remote.
Context `{Ansi} (write : list string → string → result unit) (outside : nat → menu_env).

Lemma view_ok m : menu_ok m → is_Some (View m).
Proof.
  intros [(_ & _ & Hcur) Hm]. apply View_is_Some.
  - unfold row_cursor. destruct (contains action_modes (m_mode m)) eqn:Ea; [|unfold in_rows in Hcur; lia].
    unfold mode_ok, mode_need in Hm. change is_action_mode with (contains action_modes) in Hm.
    rewrite Ea in Hm. destruct Hm as [_ Hc]. unfold in_rows in Hc. lia.
  - intros E. unfold mode_ok in Hm. rewrite E in Hm. destruct Hm as [(p & -> & _) _]. done.
Qed.

Definition stage_ok (st : stage) : Prop :=
  match st with
  | inl s => menu_ok (rm_model s)
  | inr (ended, _) => ended ≠ Panicked
  end.

Definition safe_stage (p : prog db stage) : Prop := ensures wf_db stage_ok p.

Lemma andThen_ok st k : stage_ok st → (∀ s, menu_ok (rm_model s) → safe_stage (k s)) →
  safe_stage (andThen st k).
Proof. destruct st as [s|ended]; [intros ? Hk; by apply Hk|done]. Qed.

Lemma bind_andThen_ok p k : safe_stage p → (∀ s, menu_ok (rm_model s) → safe_stage (k s)) →
  safe_stage (let* st := p in andThen st k).
Proof. intros Hp Hk. eapply guarantees_bind; [exact Hp|]. intros st Hst. by apply andThen_ok. Qed.

Lemma write_string_ok text s : menu_ok (rm_model s) → stage_ok (write_string write text s).
Proof. intros Hm. unfold write_string. by destruct (write _ _). Qed.

Lemma render_ok s : menu_ok (rm_model s) → stage_ok (render write s).
Proof.
  intros Hm. unfold render. destruct (view_ok _ Hm) as [view ->]. by apply write_string_ok.
Qed.

Lemma check_result_ok s : menu_ok (rm_model s) → stage_ok (check_result s).
Proof. intros Hm. unfold check_result. by destruct (m_result (rm_model s)). Qed.

Lemma run_command_ok e cmd s : menu_ok (rm_model s) →
  match cmd with Some c => command_ok (rm_model s) c | None => True end →
  safe_stage (run_command write e cmd s).
Proof.
  intros Hm Hc. unfold run_command. destruct cmd as [c|]; [|done].
  unfold render. destruct (view_ok _ Hm) as [view ->].
  unfold write_string. destruct (write _ _); [|done]. cbn [andThen rm_model].
  eapply guarantees_bind.
  - apply applyCommand_ok; [done|]. split; [done|]. unfold command_fuel. pose proof (rank_le_2 c). lia.
  - by intros o (m' & -> & Hm').
Qed.

Lemma handle_event_ok event s : menu_ok (rm_model s) → safe_stage (handle_event write outside event s).
Proof.
  intros Hm. unfold handle_event.
  eapply guarantees_bind.
  { unfold event_step. destruct (negb _); [by apply Update_ok|by apply handleKey_ok]. }
  intros [[m cmd]|] Hr; [|done]. destruct Hr as [Hm' Hc].
  unfold check_result at 1. cbn [rm_model].
  destruct (m_result m); [done|]. cbn [andThen].
  apply bind_andThen_ok; [by apply run_command_ok|]. intros s' Hs'.
  apply andThen_ok; [by apply render_ok|]. intros s'' Hs''. by apply check_result_ok.
Qed.

Lemma handle_events_ok events s : menu_ok (rm_model s) → safe_stage (handle_events write outside events s).
Proof.
  revert s. induction events as [|event events IH]; intros s Hm; [exact Hm|].
  apply bind_andThen_ok; [by apply handle_event_ok|done].
Qed.

Lemma remote_step_ok input s : menu_ok (rm_model s) → safe_stage (remote_step write outside input s).
Proof.
  intros Hm. destruct input as [e|w h| |data err]; cbn [remote_step]; [done| |exact Hm|].
  - destruct (_ || _); [|exact Hm]. by apply render_ok.
  - apply bind_andThen_ok.
    + unfold handle_data. destruct (data =s ""); [exact Hm|]. destruct (parseInput _) as [events rest].
      by apply handle_events_ok.
    + intros s' Hs'. by destruct err as [[|e]|].
Qed.

Lemma remote_loop_ok inputs s : menu_ok (rm_model s) → safe_stage (remote_loop write outside inputs s).
Proof.
  revert s. induction inputs as [|input inputs IH]; intros s Hm; [exact Hm|].
  apply bind_andThen_ok; [by apply remote_step_ok|done].
Qed.

Lemma remote_start_ok w h m : menu_ok m → safe_stage (remote_start write outside w h m).
Proof.
  intros Hm. unfold remote_start. cbv zeta.
  assert (∀ m, menu_ok m → safe_stage (Ret
    (match write_string write enterScreen (MkRemote m "" [] 1) with
     | inl s => render write s
     | inr ended => inr ended
     end))) as Hstart.
  { intros m' Hm'. unfold write_string. cbn. destruct (write _ _); [|done]. by apply render_ok. }
  destruct (_ =s _); [by apply Hstart|].
  eapply guarantees_bind; [by apply applyMessage_ok|]. intros o (m' & -> & Hm'). by apply Hstart.
Qed.

Lemma leave_ok st : stage_ok st → stage_ok (leave write st).
Proof. by destruct st as [s|[ended [m pending [|w ws] n]]]. Qed.

Lemma RunRemote_ok w h inputs m : menu_ok m → safe_stage (RunRemote write outside w h inputs m).
Proof.
  intros Hm. unfold RunRemote. eapply guarantees_bind; [by apply remote_start_ok|]. intros st Hst.
  eapply guarantees_bind; [apply andThen_ok; [exact Hst|intros; by apply remote_loop_ok]|].
  intros st' Hst'. by apply leave_ok.
Qed.

End remote.
End safe.

(** The state [New] returns satisfies the invariant. *)
Lemma New_ok `{UnicodeTables} source u status : menu_ok (New true source u status).
Proof.
  split; [|exact I]. split_and!; [done| |apply in_rows_zero]. intros t Ht. by apply not_elem_of_nil in Ht.
Qed.

(** ** Properties *)

Section properties.
Context `{UnicodeTables, RowidsLaws, TimeParser, KeyFormats, CipherOps, SealOps, DriverTexts, Ansi}.

(** The menu of a session, as the gateway starts it *)
Definition session_menu (p : prog db stage) : Prop :=
  ∃ write outside width height inputs source u status oidc issuer timeout link,
    p = RunRemote write outside width height inputs
          (ConfigureOIDC oidc issuer timeout link (New true source u status)).

(** Another session's call of the store; what it returns is not a menu's end. *)
Definition session_call (p : prog db stage) : Prop :=
  ∃ c r, p = let* _ := exec c in Ret (inr (Returned r, MkRemote (New true "" no_user "") "" [] 0)).

(** C6: however the menus of any number of sessions and other calls of the
    store interleave, whatever is typed, pasted, resized, answered by the
    network, and written back, no menu ends in a panic - an index or a slice out
    of range, a negative count of repetitions or a nil pointer, in a handler or
    while the screen is drawn - or in a chain of commands that does not end, and
    the database stays well formed. *)
Theorem menus_never_panic (ps ps' : list (prog db stage)) (d d' : db) s :
  wf_db d → (∀ p, p ∈ ps → session_menu p ∨ session_call p) →
  interleaves (ps, d) (ps', d') → wf_db d' ∧ Ret (inr (Panicked, s)) ∉ ps'.
Proof.
  intros Hd Hps Hi.
  destruct (interleaves_ensures wf_db stage_ok _ _ _ _ Hi) as [Hall Hd']; [|done|].
  - apply Forall_forall. intros p Hp. destruct (Hps p Hp) as [Hmenu|(c & r & ->)].
    + destruct Hmenu as (wr & out & w & h & ins & src & u & st & o & iss & t & l & ->).
      apply RunRemote_ok. apply (New_ok src u st).
    + eapply guarantees_bind; [apply keeps_ensures, exec_keeps_wf|]. by intros.
  - split; [done|]. intros Hin. rewrite Forall_forall in Hall. by apply (Hall _ Hin).
Qed.

Definition rank (cmd : option command) : nat := match cmd with Some c => command_rank c | None => 0 end.

Lemma applyCommand_fuel n n' e m cmd d : (rank cmd <= n)%nat → (rank cmd <= n')%nat →
  run (applyCommand n e m cmd) d = run (applyCommand n' e m cmd) d ∧
  value (applyCommand n e m cmd) d ≠ OutOfFuel.
Proof.
  unfold value. revert n' m cmd d. induction n as [|n IH]; intros n' m [c|] d Hn Hn'; cbn in Hn, Hn'.
  { destruct c; cbn in Hn; lia. }
  { by destruct n'. }
  2: { by destruct n'. }
  destruct n' as [|n']; [destruct c; cbn in Hn'; lia|]. cbn [applyCommand]. rewrite !run_bind.
  pose proof (always_value _ _ d (perform_replies (m_config m) e c)) as Hr.
  set (d1 := final _ d). destruct (value (perform (m_config m) e c) d) as [msg|]; [|done]. cbn in Hr.
  destruct (Update_reply e msg m) as (r & -> & Hnext); [destruct c; cbn in *; lia|]. cbn [bind].
  destruct r as [[m' cmd']|]; [|done]. apply IH; destruct cmd' as [c'|]; cbn; lia.
Qed.

(** C21: whatever the state of the menu, a command and the commands that follow
    from its message are at most two: [applyCommand]'s loop ends, and more fuel
    changes nothing. *)
Theorem commands_end n e m cmd d : (2 <= n)%nat →
  run (applyCommand n e m cmd) d = run (applyCommand 2 e m cmd) d ∧
  value (applyCommand n e m cmd) d ≠ OutOfFuel.
Proof.
  intros Hn. apply applyCommand_fuel; destruct cmd as [c|]; cbn; pose proof rank_le_2; try lia.
  all: specialize (rank_le_2 c); lia.
Qed.

End properties.

#[local] Existing Instances ascii_tables max_rowids max_rowids_laws sqlite_parser menu_formats menu_seal
  menu_cipher menu_texts menu_ansi.

(** Alice adds a user while another session deletes a target. *)
Definition sample_sessions : list (prog db stage) :=
  [RunRemote open_channel (λ _, sample_env) 100 30
     [ReadResult "3adave" None; ReadResult (String (chr 9) "") None; ReadResult (String (chr 13) "") None]
     (menu_of alice);
   let* _ := exec (DeleteTarget_call "web") in
   Ret (inr (Returned quit_result, MkRemote (New true "" no_user "") "" [] 0))].

Definition sample_schedule : list nat := replicate 3 0%nat ++ 1%nat :: replicate 30 0%nat.

Lemma menus_never_panic_witness :
  let c := schedule sample_schedule sample_sessions sample_db in
  (match c.1 with Ret (inl s) :: _ => m_status (rm_model s) | _ => "" end) = "User added." ∧
  wf_db c.2 ∧ Ret (inr (Panicked, MkRemote (menu_of alice) "" [] 0)) ∉ c.1.
Proof.
  split; [vm_compute; reflexivity|].
  apply (menus_never_panic sample_sessions (schedule sample_schedule sample_sessions sample_db).1
           sample_db (schedule sample_schedule sample_sessions sample_db).2).
  - apply sample_db_wf.
  - intros p Hp. apply elem_of_cons in Hp as [->|Hp]; [left|right].
    + do 12 eexists. reflexivity.
    + apply list_elem_of_singleton in Hp as ->. do 2 eexists. reflexivity.
  - rewrite <- surjective_pairing. apply schedule_interleaves.
Defined.

Lemma commands_end_witness :
  let m := menu_of alice in
  let cmd := Some (MutateCmd "groups" "Group added." "admin.group.add" [] (StoreCall (AddGroup_call "dev"))) in
  value (applyCommand 5 sample_env m cmd) sample_db ≠ OutOfFuel.
Proof. apply (commands_end 5). lia. Defined.
