(* ===== verification/MenuExit.v ===== *)
(** * The menu can always be left *)

From S2P Require Import Prelude GoStrings Json GoTime Effects SshKeys Sql Schema Names StoreUsers.
From S2P Require Import StoreOIDC StoreTargets StoreAccess StoreAudit StoreWf StoreCalls Totp Auth Net.
From S2P Require Import Downstream Input MenuState MenuModel MenuCommands MenuForms MenuKeys MenuView.
From S2P Require Import MenuRemote MenuSamples MenuWf MenuFormsWf MenuProps MenuSafe.

(** Modes that do not close on Esc: the help and the public key close on any
    key, a deletion must be answered, and the two OIDC modes wait for the
    provider. *)
Definition waiting_modes : list string := ["oidc_start"; "oidc_complete"].
Definition stubborn_modes : list string := ["help"; "confirm_delete"; "identity_public"] ++ waiting_modes.

Section exit.
Context `{UnicodeTables, RowidsLaws, TimeParser, KeyFormats, CipherOps, SealOps, DriverTexts, Ansi}.

(** [p] is a step without a command that keeps the result and ends in [P] (or a
    panic, which [MenuSafe] excludes). *)
Definition yields (m : Model) (P : Model → Prop) (p : menu_step) : Prop :=
  ∃ r, p = Ret r ∧
       match r with
       | None => True
       | Some (m', cmd) => cmd = None ∧ m_result m' = m_result m ∧ P m'
       end.

Lemma yields_ret m m' (P : Model → Prop) : m_result m' = m_result m → P m' → yields m P (Ret (no_cmd m')).
Proof. intros Hr Hp. by exists (no_cmd m'). Qed.

Lemma yields_panic m P : yields m P (Ret None).
Proof. by exists None. Qed.

Definition closes_on_esc (m : Model) : Prop := contains stubborn_modes (m_mode m) = false.

Lemma type_n m : type_input "n" m = no_cmd (m |> with_input (m_input m +:+ "n")).
Proof. unfold type_input. assert (one_rune "n" = true) as -> by (vm_compute; reflexivity). done. Qed.

(** "n" answers the questions, closes what any key closes, and is typed
    elsewhere. *)
Lemma key_n e m : contains waiting_modes (m_mode m) = false →
  yields m closes_on_esc (handleKey e "n" m).
Proof.
  intros Hw. unfold handleKey.
  destruct (String.eqb_spec (m_mode m) "") as [E|_]; cbn [negb].
  { assert (closes_on_esc m) as Hc by (unfold closes_on_esc; by rewrite E).
    destruct (m_searching m).
    { unfold search_key. assert (one_rune "n" = true) as -> by (vm_compute; reflexivity).
      by apply yields_ret. }
    cbn -[list_key]. by destruct (is_admin m); apply yields_ret. }
  unfold handleModeKey. unfold contains in Hw. cbn in Hw. bool_simp.
  destruct (String.eqb_spec (m_mode m) "help") as [E|E1]; [by apply yields_ret|].
  cbn [String.eqb Ascii.eqb Bool.eqb andb orb]. rewrite !andb_false_r.
  destruct (String.eqb_spec (m_mode m) "form") as [E|E2].
  { assert (closes_on_esc m) as Hc by (unfold closes_on_esc; by rewrite E).
    unfold handleFormKey. cbn -[one_rune change_field]. destruct (m_form m) as [f|]; [|by apply yields_ret].
    destruct (lenZ (f_fields f) =? 0); [by apply yields_ret|].
    destruct (at_index (f_fields f) (f_index f)); [|apply yields_panic].
    destruct (_ && _); by apply yields_ret. }
  destruct (is_action_mode (m_mode m)) eqn:Ea.
  { apply yields_ret; [done|]. unfold closes_on_esc. unfold is_action_mode in Ea.
    apply contains_true in Ea.
    repeat (apply elem_of_cons in Ea as [->|Ea]; [done|]). by apply elem_of_nil in Ea. }
  replace (m_mode m =s "oidc_start") with false by (symmetry; by apply String.eqb_neq).
  replace (m_mode m =s "oidc_complete") with false by (symmetry; by apply String.eqb_neq). cbn [orb].
  destruct (String.eqb_spec (m_mode m) "identity_public") as [E|E3]; [by apply yields_ret|].
  destruct (String.eqb_spec (m_mode m) "confirm_delete") as [E|E4]; [by apply yields_ret|].
  assert (closes_on_esc m) as Hc.
  { unfold closes_on_esc, contains. cbn. by rewrite !(proj2 (String.eqb_neq _ _)). }
  unfold mode_key_rest, mode_key_input. cbn [String.eqb Ascii.eqb Bool.eqb].
  destruct (m_mode m =s "confirm_host"); [by apply yields_ret|]. rewrite !andb_false_r.
  rewrite type_n. by apply yields_ret.
Qed.

Definition in_list (m : Model) : Prop := m_mode m = "".
Definition in_plain_list (m : Model) : Prop := m_mode m = "" ∧ m_searching m = false.

(** Esc leaves the second factor's dialogue for good, and every other one for
    the list. *)
Lemma key_esc e m : closes_on_esc m →
  yields m in_list (handleKey e "esc" m) ∨
  ∃ m' cmd, handleKey e "esc" m = Ret (Some (m', cmd)) ∧ m_result m' = Some quit_result.
Proof.
  intros Hc. unfold handleKey.
  destruct (String.eqb_spec (m_mode m) "") as [E|E0]; cbn [negb].
  { left. destruct (m_searching m); [by apply yields_ret|]. cbn -[list_key].
    destruct (is_admin m); unfold list_key; cbn; destruct (_ =s "targets"); by apply yields_ret. }
  unfold closes_on_esc, contains in Hc. cbn in Hc. bool_simp. unfold handleModeKey.
  repeat match goal with
  | Hne : m_mode m ≠ ?s |- context [m_mode m =s ?s] => rewrite (proj2 (String.eqb_neq (m_mode m) s) Hne)
  end.
  cbn [String.eqb Ascii.eqb Bool.eqb andb orb]. rewrite !andb_false_r, ?andb_true_r.
  destruct (String.eqb_spec (m_mode m) "form") as [E|E2].
  { left. by apply yields_ret. }
  destruct (is_action_mode (m_mode m)); [left; by apply yields_ret|].
  destruct (m_mode m =s "totp_auth"); [right; by do 2 eexists|].
  left. by apply yields_ret.
Qed.

Lemma list_esc e m : in_list m → yields m in_plain_list (handleKey e "esc" m).
Proof.
  intros Hm. unfold handleKey. rewrite Hm. cbn -[list_key].
  destruct (m_searching m) eqn:Es; [by apply yields_ret|].
  destruct (is_admin m); unfold list_key; cbn; destruct (_ =s "targets"); by apply yields_ret.
Qed.

Lemma list_q e m : in_plain_list m →
  handleKey e "q" m = Ret (with_cmd (m |> with_result (Some quit_result)) QuitCmd).
Proof. intros [Hm Hs]. unfold handleKey. by rewrite Hm, Hs. Qed.

Section channel.
Context (write : list string → string → result unit) (outside : nat → menu_env).
Hypothesis channel_open : ∀ written text, write written text = Ok tt.

Definition quits (events : list inputEvent) (s : remote) : Prop :=
  ∃ s', handle_events write outside events s = Ret (inr (Returned quit_result, s')).

Lemma ending_event key m' cmd s :
  handleKey (outside (rm_events s)) key (rm_model s) = Ret (Some (m', cmd)) →
  m_result m' = Some quit_result →
  ∃ s', handle_event write outside (key_event key) s = Ret (inr (Returned quit_result, s')).
Proof.
  intros Hk Hr. unfold handle_event, event_step. cbn [paste key_event negb String.eqb Input.key].
  rewrite Hk. cbn [bind]. unfold check_result at 1. cbn [rm_model]. rewrite Hr. by eexists.
Qed.

Lemma quiet_event key m' s :
  handleKey (outside (rm_events s)) key (rm_model s) = Ret (no_cmd m') →
  menu_ok m' → m_result m' = None →
  ∃ s', rm_model s' = m' ∧ handle_event write outside (key_event key) s = Ret (inl s').
Proof.
  intros Hk Hm Hr. destruct (view_ok m' Hm) as [view Hv].
  unfold handle_event, event_step. cbn [paste key_event negb String.eqb Input.key].
  rewrite Hk. cbn [bind no_cmd]. unfold check_result at 1. cbn [rm_model]. rewrite Hr.
  cbn [andThen run_command bind]. unfold render. cbn [rm_model]. rewrite Hv. unfold write_string.
  rewrite channel_open. cbn [andThen]. unfold check_result. cbn [rm_model]. rewrite Hr.
  eexists. split; [|reflexivity]. done.
Qed.

Lemma event_quits key m' cmd events s :
  handleKey (outside (rm_events s)) key (rm_model s) = Ret (Some (m', cmd)) →
  m_result m' = Some quit_result → quits (key_event key :: events) s.
Proof.
  intros Hk Hr. destruct (ending_event key m' cmd s Hk Hr) as [s' He].
  exists s'. cbn [handle_events]. by rewrite He.
Qed.

Lemma event_goes_on key (P : Model → Prop) events s :
  menu_ok (rm_model s) → m_result (rm_model s) = None →
  yields (rm_model s) P (handleKey (outside (rm_events s)) key (rm_model s)) →
  (∀ s', menu_ok (rm_model s') → m_result (rm_model s') = None → P (rm_model s') → quits events s') →
  quits (key_event key :: events) s.
Proof.
  intros Hm Hr (r & Hk & Hnext) Hq. pose proof (handleKey_ok (outside (rm_events s)) key _ Hm) as Hok.
  rewrite Hk in Hok. destruct r as [[m' cmd]|]; [|done]. destruct Hnext as (-> & Hr' & Hp).
  destruct Hok as [Hm' _]. rewrite Hr in Hr'.
  destruct (quiet_event key m' s Hk Hm' Hr') as (s' & <- & He).
  unfold quits. cbn [handle_events]. rewrite He. cbn [bind andThen]. by apply Hq.
Qed.

(** C22: from every state the menu can be in, except while it waits for the
    identity provider, the keys n, Esc, Esc, q end the session, and do
    nothing to the database (the program they run has no step). *)
Theorem menu_can_be_left s :
  menu_ok (rm_model s) → m_result (rm_model s) = None →
  contains waiting_modes (m_mode (rm_model s)) = false →
  ∃ s', handle_events write outside (key_event <$> ["n"; "esc"; "esc"; "q"]) s =
        Ret (inr (Returned quit_result, s')).
Proof.
  intros Hm Hr Hw. change (quits (key_event <$> ["n"; "esc"; "esc"; "q"]) s).
  apply (event_goes_on "n" closes_on_esc); [done|done|by apply key_n|]. intros s1 Hm1 Hr1 Hc1.
  destruct (key_esc (outside (rm_events s1)) (rm_model s1) Hc1) as [Hy|(m' & cmd & Hk & Hq)];
    [|by eapply event_quits].
  eapply (event_goes_on "esc"); [done|done|exact Hy|]. intros s2 Hm2 Hr2 Hl2.
  eapply (event_goes_on "esc"); [done|done|by apply list_esc|]. intros s3 Hm3 Hr3 Hl3.
  eapply event_quits; [by apply list_q|done].
Qed.

End channel.
End exit.

#[local] Existing Instances ascii_tables max_rowids max_rowids_laws sqlite_parser menu_formats menu_seal
  menu_cipher menu_texts menu_ansi.

(** A deletion waits to be confirmed while a search is on. *)
Definition stuck : remote :=
  MkRemote (menu_of alice |> with_mode "confirm_delete" |> with_searching true
              |> with_pending (Some empty_pending)) "" [] 7.

Lemma menu_can_be_left_witness :
  ∃ s', handle_events open_channel (λ _, sample_env) (key_event <$> ["n"; "esc"; "esc"; "q"]) stuck =
        Ret (inr (Returned quit_result, s')).
Proof.
  apply menu_can_be_left; [done| |done|done].
  split; [|by exists empty_pending]. split_and!; [done| |apply in_rows_zero].
  intros t Ht. by apply not_elem_of_nil in Ht.
Defined.
