(* ===== verification/MenuAccess.v ===== *)
(** * A member's menu changes nothing but the member's own OIDC identity

    Whatever a member types, the menu of a session that is not an
    administrator's reads the database, appends audit events of that user, and
    links that user's OIDC account.  At the end: what a change of an administrator
    does and logs, error by error, and how a target is added. *)

From S2P Require Import Prelude GoStrings Json GoTime Effects SshKeys Sql Schema Names StoreUsers.
From S2P Require Import StoreOIDC StoreTargets StoreAccess StoreAudit StoreCalls StoreLog Totp Auth Net.
From S2P Require Import Downstream Input MenuState MenuModel MenuCommands MenuForms MenuKeys MenuView.
From S2P Require Import MenuRemote MenuSamples MenuFormsWf.
From S2P Require Import StoreWf StoreWhole.

(** ** What may change *)

Record member_change (uid : Z) (d d' : db) : Prop := {
  mc_rest : d' = set_oidc_identities (λ _, d'.(oidc_identities))
                   (set_audit_events (λ _, d'.(audit_events)) d);
  mc_oidc : ∀ o, oi_user_id o ≠ uid → o ∈ d.(oidc_identities) ↔ o ∈ d'.(oidc_identities);
  mc_audit : ∃ l, d'.(audit_events) = d.(audit_events) ++ l ∧
                  Forall (λ e, ae_actor_user_id e = Some uid) l }.

#[export] Instance member_change_preorder uid : PreOrder (member_change uid).
Proof.
  split.
  - intros d. split; [by destruct d|done|]. exists []. by rewrite app_nil_r.
  - intros d1 d2 d3 [R1 O1 (l1 & A1 & F1)] [R2 O2 (l2 & A2 & F2)]. split.
    + rewrite R2, R1. by destruct d1, d3.
    + intros o Ho. by rewrite O1, O2 by done.
    + exists (l1 ++ l2). rewrite A2, A1, <- app_assoc. split; [done|]. by apply Forall_app.
Qed.

Section access.
Context `{UnicodeTables, Rowids, TimeParser, KeyFormats, CipherOps, SealOps, DriverTexts}.

Definition confined_prog {A} (uid : Z) (Q : A → Prop) (p : prog db A) : Prop :=
  guarantees (λ _, True) (member_change uid) Q p.

Lemma confined_query {X} uid (f : db → X) : confined_prog uid (λ _, True) (query f).
Proof. intros d _. by split. Qed.

Lemma confined_bind {A B} uid (p : prog db A) (k : A → prog db B) :
  confined_prog uid (λ _, True) p → (∀ a, confined_prog uid (λ _, True) (k a)) →
  confined_prog uid (λ _, True) (bind p k).
Proof. intros Hp Hk. eapply guarantees_bind; [exact Hp|]. intros a _. apply Hk. Qed.

Lemma confined_bind_ok {A B} uid (p : prog db (result A)) (k : A → prog db (result B)) :
  confined_prog uid (λ _, True) p → (∀ a, confined_prog uid (λ _, True) (k a)) →
  confined_prog uid (λ _, True) (bind_ok p k).
Proof. intros Hp Hk. apply confined_bind; [done|]. intros [a|e]; [apply Hk|done]. Qed.

Lemma upsert_oidc_change uid issuer subject name d :
  member_change uid d (upsert_oidc uid issuer subject name d).2.
Proof.
  unfold upsert_oidc. destruct (exists_row (oidc_clash _ _ _ _) _); [done|].
  destruct (exists_row (oidc_of _ _) _); [|destruct (negb _); [done|]].
  all: cbn [snd]; split; [by destruct d| |exists []; by rewrite app_nil_r].
  - intros o Ho. cbn. rewrite elem_of_update. split.
    + intros Hin. exists o. split; [done|].
      assert (oidc_of uid issuer o = false) as ->; [|done]. unfold oidc_of.
      by rewrite (proj2 (Z.eqb_neq (oi_user_id o) uid) Ho).
    + intros (o' & Hin & ->). destruct (oidc_of uid issuer o') eqn:E; [|done].
      unfold oidc_of in E. bool_simp. cbn in Ho. congruence.
  - intros o Ho. cbn. rewrite elem_of_insert. split; [by left|]. intros [Hin| ->]; done.
Qed.

Lemma LinkOIDCIdentity_confined uid issuer subject name :
  confined_prog uid (λ _, True) (LinkOIDCIdentity uid issuer subject name).
Proof.
  unfold LinkOIDCIdentity. destruct (normalizeOIDCValues _ _ _) as [[[i s] n]|e]; [|done].
  apply confined_bind_ok; [apply confined_query|]. intros u d _. cbn [transaction fst snd]. split; [|done].
  rewrite run_bind. cbn. destruct (existsb _ _); [done|].
  pose proof (upsert_oidc_change uid i (Some s) n d) as Hc.
  unfold final. cbn. destruct (upsert_oidc uid i (Some s) n d) as [[r|e] d']; [exact Hc|done].
Qed.

Lemma Audit_confined uid claimed source type details :
  confined_prog uid (λ _, True) (Audit (event (Some uid) claimed source type None "success" details)).
Proof.
  unfold Audit. destruct (negb _); [done|]. apply confined_bind_ok; [|done].
  intros d _. cbn [atomic fst snd]. split; [|done].
  unfold insert_audit. destruct (negb _); [done|]. destruct (negb _); [done|].
  split; [by destruct d|done|]. cbn. eexists. split; [reflexivity|]. by constructor.
Qed.

(** ** The states of a member's menu *)

Definition member_modes : list string := ["oidc_link"; "help"; "oidc_start"; "oidc_complete"; ""].

Record member_menu (cfg : menu_config) (m : Model) : Prop := {
  mm_config : m_config m = cfg;
  mm_role : User_Role (c_user cfg) =s RoleAdmin = false;
  mm_section : m_section m = "targets";
  mm_mode : m_mode m ∈ member_modes;
  mm_pending : ∀ p, m_pending m = Some p → p_user p = c_user cfg }.

Definition member_command (cfg : menu_config) (c : command) : Prop :=
  match c with
  | QuitCmd | LoadCmd | OIDCBeginCmd => True
  | OIDCLinkCmd _ user => user = c_user cfg
  | _ => False
  end.

Definition member_message (msg : message) : Prop :=
  match msg with
  | MutationMsg _ _ _ | HostKeyMsg _ | KeyPressMsg _ => False
  | _ => True
  end.

Definition member_step (cfg : menu_config) (r : step_result) : Prop :=
  match r with
  | None => True
  | Some (m, c) => member_menu cfg m ∧ match c with Some c => member_command cfg c | None => True end
  end.

Lemma member_no_cmd cfg m : member_menu cfg m → member_step cfg (no_cmd m).
Proof. by split. Qed.

(** A model that differs in what the invariant does not mention, or is back in
    the list *)
Lemma member_same cfg m m' : member_menu cfg m → m_config m' = m_config m → m_section m' = m_section m →
  m_mode m' = m_mode m ∨ m_mode m' ∈ member_modes → m_pending m' = m_pending m ∨ m_pending m' = None →
  member_menu cfg m'.
Proof.
  intros [] Hc Hs Hm Hp. split; [congruence|done|congruence| |].
  - destruct Hm as [->|]; done.
  - destruct Hp as [->| ->]; [done|discriminate].
Qed.

Ltac member Hm := apply (member_same _ _ _ Hm); [done|done| |]; first [by left|by right; set_solver].

Lemma list_key_member cfg key m : member_menu cfg m → member_step cfg (list_key key m).
Proof.
  intros Hm. assert (is_admin m = false) as Ha.
  { unfold is_admin, m_user. rewrite (mm_config _ _ Hm). apply (mm_role _ _ Hm). }
  unfold list_key, press_enter, clamp. rewrite (mm_section _ _ Hm), Ha. cbn [andb String.eqb Ascii.eqb Bool.eqb].
  repeat match goal with
  | |- member_step _ (if ?b then _ else _) => destruct b
  | |- member_step _ (no_cmd (if ?b then _ else _)) => destruct b
  end; try (apply member_no_cmd; first [exact Hm | member Hm | destruct (_ =? _); [|destruct (_ <=? _)]; member Hm]).
  destruct (filtered m) as [|t ts]; [by apply member_no_cmd|].
  destruct (at_index _ _); [|done]. split; [|done]. member Hm.
Qed.

(** [closeModal] and the typing keys of a dialogue *)
Lemma closeModal_member cfg status m : member_menu cfg m → member_menu cfg (closeModal status m).
Proof. intros Hm. member Hm. Qed.

Lemma type_input_member cfg key m : member_menu cfg m → member_step cfg (type_input key m).
Proof.
  intros Hm. unfold type_input.
  repeat match goal with |- context [if ?b then _ else _] => destruct b end;
    apply member_no_cmd; first [exact Hm | member Hm].
Qed.

Lemma search_key_member cfg key m : member_menu cfg m → member_menu cfg (search_key key m).
Proof.
  intros Hm. unfold search_key.
  repeat match goal with |- context [if ?b then _ else _] => destruct b end; first [exact Hm | member Hm].
Qed.

(** Every mode a member can be in *)
Lemma member_mode_cases cfg m (P : Prop) : member_menu cfg m →
  (m_mode m = "oidc_link" → P) → (m_mode m = "help" → P) → (m_mode m = "oidc_start" → P) →
  (m_mode m = "oidc_complete" → P) → (m_mode m = "" → P) → P.
Proof.
  intros Hm H1' H2' H3' H4' H5'. pose proof (mm_mode _ _ Hm) as Hin.
  repeat (apply elem_of_cons in Hin as [?|Hin]; [by auto|]). by apply elem_of_nil in Hin.
Qed.

Lemma mode_key_member cfg e key m : member_menu cfg m → m_mode m ≠ "" →
  ∃ r, handleModeKey e key m = Ret r ∧ member_step cfg r.
Proof.
  intros Hm Hne. unfold handleModeKey, mode_key_rest, mode_key_input.
  apply (member_mode_cases cfg m); [done| | | | |done]; intros E; rewrite E;
    cbn [String.eqb Ascii.eqb Bool.eqb andb orb is_action_mode contains existsb].
  - destruct (key =s "enter"); (eexists; split; [reflexivity|]).
    + unfold completeOIDCLink. destruct (m_pending m) as [p|] eqn:Ep.
      * destruct (negb _); [by apply member_no_cmd, closeModal_member|]. split; [member Hm|].
        cbn. by apply (mm_pending _ _ Hm).
      * by apply member_no_cmd, closeModal_member.
    + destruct (key =s "esc"); [by apply member_no_cmd, closeModal_member|]. by apply type_input_member.
  - eexists. split; [reflexivity|]. apply member_no_cmd. member Hm.
  - eexists. split; [reflexivity|]. by apply member_no_cmd.
  - eexists. split; [reflexivity|]. by apply member_no_cmd.
Qed.

Lemma startOIDCLink_member cfg m : member_menu cfg m → member_step cfg (startOIDCLink m).
Proof.
  intros Hm. unfold startOIDCLink. destruct (_ || _); [apply member_no_cmd; member Hm|].
  destruct (negb _); [apply member_no_cmd; member Hm|]. split; [|done].
  destruct Hm as [Hc Hr Hs _ _]. split; [done|done|done|set_solver|].
  intros p [= <-]. cbn. unfold m_user. by rewrite Hc.
Qed.

Lemma handleKey_member cfg e key m : member_menu cfg m →
  ∃ r, handleKey e key m = Ret r ∧ member_step cfg r.
Proof.
  intros Hm. assert (is_admin m = false) as Ha.
  { unfold is_admin, m_user. rewrite (mm_config _ _ Hm). apply (mm_role _ _ Hm). }
  unfold handleKey. destruct (String.eqb_spec (m_mode m) "") as [E|E]; cbn [negb];
    [|by apply mode_key_member].
  eexists. split; [reflexivity|].
  destruct (m_searching m); [by apply member_no_cmd, search_key_member|].
  destruct (_ || _); [split; [member Hm|done]|].
  destruct (key =s "o"); [by apply startOIDCLink_member|].
  rewrite Ha. by apply list_key_member.
Qed.

Lemma clamp_member cfg m : member_menu cfg m → member_menu cfg (clamp m).
Proof. intros Hm. unfold clamp. destruct (_ =? _); [|destruct (_ <=? _)]; first [exact Hm | member Hm]. Qed.

Lemma paste_member cfg content m : member_menu cfg m → member_step cfg (paste_message content m).
Proof.
  intros Hm. unfold paste_message.
  apply (member_mode_cases cfg m); [done|..]; intros ->; by apply member_no_cmd.
Qed.

Lemma Update_member cfg e msg m : member_menu cfg m → member_message msg →
  ∃ r, Update e msg m = Ret r ∧ member_step cfg r.
Proof.
  intros Hm Hmsg.
  destruct msg as [| |d|[login|err]|identity [err|]|r|status sect err|content|w h|key]; try done;
    (eexists; split; [reflexivity|]).
  - by apply member_no_cmd.
  - by split.
  - apply member_no_cmd, clamp_member. destruct (dm_err d); member Hm.
  - apply member_no_cmd. member Hm.
  - by apply member_no_cmd, closeModal_member.
  - by apply member_no_cmd, closeModal_member.
  - split; [member Hm|done].
  - by apply paste_member.
  - apply member_no_cmd. member Hm.
Qed.

(** ** Commands *)

Lemma load_confined uid cfg : confined_prog uid (λ _, True) (load cfg).
Proof.
  assert (∀ {A} (q : prog db (result (list A))) put d, confined_prog uid (λ _, True) q →
    confined_prog uid (λ _, True) (load_rows q put d)) as Hrows.
  { intros A q put d Hq. unfold load_rows. destruct (dm_err d); [done|]. by apply confined_bind. }
  unfold load. apply confined_bind.
  { unfold ListTargets, ListAuthorizedTargets. repeat case_match; apply confined_query. }
  intros [ts|err]; [|done]. apply confined_bind.
  - unfold load_oidc. destruct (_ =s ""); [done|]. destruct (_ =s RoleAdmin).
    + apply Hrows, confined_query.
    + apply confined_bind; [apply confined_query|]. by intros [identity|[]].
  - intros d. destruct (_ =s RoleAdmin); [|done]. unfold load_admin.
    do 6 (apply confined_bind; [apply Hrows, confined_query|intros]). apply Hrows, confined_query.
Qed.

Lemma oidc_link_confined cfg e login :
  confined_prog (User_ID (c_user cfg)) (λ r, match r with Some msg => member_message msg | None => True end)
    (oidc_link cfg e login (c_user cfg)).
Proof.
  unfold oidc_link. destruct (Complete _ _); [|done].
  eapply guarantees_bind; [|by intros].
  apply confined_bind_ok; [apply LinkOIDCIdentity_confined|]. intros _. apply Audit_confined.
Qed.

Lemma perform_confined cfg e c : member_command cfg c →
  confined_prog (User_ID (c_user cfg)) (λ r, match r with Some msg => member_message msg | None => True end)
    (perform cfg e c).
Proof.
  destruct c; try done; cbn [perform]; intros Hc.
  - eapply guarantees_bind; [apply load_confined|]. by intros.
  - cbn in Hc. subst. apply oidc_link_confined.
Qed.

Lemma applyCommand_confined cfg fuel e m cmd : member_menu cfg m →
  match cmd with Some c => member_command cfg c | None => True end →
  confined_prog (User_ID (c_user cfg)) (λ o, match o with Done m => member_menu cfg m | _ => True end)
    (applyCommand fuel e m cmd).
Proof.
  revert m cmd. induction fuel as [|fuel IH]; intros m [c|] Hm Hc; cbn [applyCommand]; try done.
  rewrite (mm_config _ _ Hm). eapply guarantees_bind; [by apply perform_confined|].
  intros [msg|] Hmsg; [|done]. destruct (Update_member cfg e msg m Hm Hmsg) as (r & -> & Hr).
  cbn [bind]. destruct r as [[m' cmd']|]; [|done]. destruct Hr as [Hm' Hc']. by apply IH.
Qed.

(** ** [RunRemote] *)

Section remote.
Context `{Ansi} (write : list string → string → result unit) (outside : nat → menu_env).

Definition member_stage (cfg : menu_config) (st : stage) : Prop :=
  match st with inl s => member_menu cfg (rm_model s) | inr _ => True end.

Definition confined_stage (cfg : menu_config) (p : prog db stage) : Prop :=
  confined_prog (User_ID (c_user cfg)) (member_stage cfg) p.

Lemma andThen_confined cfg st k : member_stage cfg st →
  (∀ s, member_menu cfg (rm_model s) → confined_stage cfg (k s)) → confined_stage cfg (andThen st k).
Proof. destruct st as [s|ended]; [intros ? Hk; by apply Hk|done]. Qed.

Lemma bind_andThen_confined cfg p k : confined_stage cfg p →
  (∀ s, member_menu cfg (rm_model s) → confined_stage cfg (k s)) →
  confined_stage cfg (let* st := p in andThen st k).
Proof. intros Hp Hk. eapply guarantees_bind; [exact Hp|]. intros st Hst. by apply andThen_confined. Qed.

Lemma render_member cfg s : member_menu cfg (rm_model s) → member_stage cfg (render write s).
Proof.
  intros Hm. unfold render, write_string. destruct (View _); [|done]. by destruct (write _ _).
Qed.

Lemma check_result_member cfg s : member_menu cfg (rm_model s) → member_stage cfg (check_result s).
Proof. intros Hm. unfold check_result. by destruct (m_result (rm_model s)). Qed.

Lemma event_step_member cfg e event m : member_menu cfg m →
  ∃ r, event_step e event m = Ret r ∧ member_step cfg r.
Proof.
  intros Hm. unfold event_step. destruct (negb _); [by apply Update_member|by apply handleKey_member].
Qed.

Lemma run_command_confined cfg e cmd s : member_menu cfg (rm_model s) →
  match cmd with Some c => member_command cfg c | None => True end →
  confined_stage cfg (run_command write e cmd s).
Proof.
  intros Hm Hc. unfold run_command. destruct cmd as [c|]; [|done].
  assert (∀ s', render write s = inl s' → rm_model s' = rm_model s) as Hsame.
  { intros s'. unfold render, write_string. destruct (View _); [|done]. destruct (write _ _); [|done].
    by intros [= <-]. }
  destruct (render write s) as [s'|ended]; [|done]. cbn [andThen]. rewrite (Hsame s' eq_refl).
  eapply guarantees_bind; [by apply applyCommand_confined|]. by intros [m'| |].
Qed.

Lemma handle_event_confined cfg event s : member_menu cfg (rm_model s) →
  confined_stage cfg (handle_event write outside event s).
Proof.
  intros Hm. unfold handle_event.
  destruct (event_step_member cfg (outside (rm_events s)) event _ Hm) as (r & -> & Hr). cbn [bind].
  destruct r as [[m cmd]|]; [|done]. destruct Hr as [Hm' Hc].
  unfold check_result at 1. cbn [rm_model]. destruct (m_result m); [done|]. cbn [andThen].
  apply bind_andThen_confined; [by apply run_command_confined|]. intros s' Hs'.
  apply andThen_confined; [by apply render_member|]. intros s'' Hs''. by apply check_result_member.
Qed.

Lemma handle_events_confined cfg events s : member_menu cfg (rm_model s) →
  confined_stage cfg (handle_events write outside events s).
Proof.
  revert s. induction events as [|event events IH]; intros s Hm; [exact Hm|].
  apply bind_andThen_confined; [by apply handle_event_confined|done].
Qed.

Lemma window_member cfg w h m : member_menu cfg m →
  member_menu cfg (m |> with_width w |> with_height h).
Proof. intros Hm. member Hm. Qed.

Lemma remote_step_confined cfg input s : member_menu cfg (rm_model s) →
  confined_stage cfg (remote_step write outside input s).
Proof.
  intros Hm. destruct input as [e|w h| |data err]; cbn [remote_step]; [done| |exact Hm|].
  - destruct (_ || _); [|exact Hm]. apply render_member. by apply window_member.
  - apply bind_andThen_confined.
    + unfold handle_data. destruct (data =s ""); [exact Hm|]. destruct (parseInput _) as [events rest].
      by apply handle_events_confined.
    + intros s' Hs'. by destruct err as [[|e]|].
Qed.

Lemma remote_loop_confined cfg inputs s : member_menu cfg (rm_model s) →
  confined_stage cfg (remote_loop write outside inputs s).
Proof.
  revert s. induction inputs as [|input inputs IH]; intros s Hm; [exact Hm|].
  apply bind_andThen_confined; [by apply remote_step_confined|done].
Qed.

Lemma RunRemote_confined cfg w h inputs m : member_menu cfg m → m_mode m = "" →
  confined_stage cfg (RunRemote write outside w h inputs m).
Proof.
  intros Hm Hmode. unfold RunRemote. eapply guarantees_bind; [|].
  2: { intros st Hst. eapply guarantees_bind;
         [apply andThen_confined; [exact Hst|intros; by apply remote_loop_confined]|].
       intros [s'|[ended [m' pending [|x xs] n]]] Hst'; exact Hst'. }
  unfold remote_start. cbv zeta.
  change (m_mode (m |> with_width w |> with_height h)) with (m_mode m). rewrite Hmode.
  cbn [String.eqb Ascii.eqb Bool.eqb].
  eapply guarantees_bind.
  - unfold applyMessage.
    destruct (Update_member cfg (outside 0) ReloadMsg _ (window_member cfg w h m Hm)) as (r & -> & Hr); [done|].
    cbn [bind]. instantiate (1 := λ o, match o with Done m => member_menu cfg m | _ => True end).
    destruct r as [[m' cmd]|]; [|done]. destruct Hr. by apply applyCommand_confined.
  - intros [m'| |] Hm'; [|done|done]. unfold write_string at 1. cbn. destruct (write _ _); [|done].
    by apply render_member.
Qed.

End remote.

(** C10: a member's menu.  Whatever is typed, pasted and answered, and whatever
    other sessions do to the database between its steps, each step the menu of
    a user who was not an administrator at login takes on the database reads
    it, links the user's own OIDC identity, or appends an audit event in the
    user's name: every other table, every other user's identity and every event
    already logged is as before.  So is what the whole menu did, run alone. *)
Theorem member_menu_is_confined `{Ansi} write outside w h inputs cipher source u status oidc issuer timeout link :
  User_Role u =s RoleAdmin = false →
  let menu := RunRemote write outside w h inputs
                (ConfigureOIDC oidc issuer timeout link (New cipher source u status)) in
  guarantees (λ _, True) (member_change (User_ID u)) (λ _, True) menu ∧
  ∀ d, member_change (User_ID u) d (final menu d).
Proof.
  intros Hu menu.
  assert (guarantees (λ _, True) (member_change (User_ID u)) (λ _, True) menu) as Hg.
  { eapply guarantees_mono; [|by intros|by intros].
    apply (RunRemote_confined write outside (MkConfig cipher u source oidc issuer timeout link)); [|done].
    split; [done|done|done|cbn; set_solver|discriminate]. }
  split; [exact Hg|]. intros d. by destruct (guarantees_final _ _ _ menu d Hg).
Qed.

End access.

#[local] Existing Instances ascii_tables max_rowids max_rowids_laws sqlite_parser menu_formats menu_seal
  menu_cipher menu_texts menu_ansi.

(** Carol tries the keys of an administrator and links her account. *)
Definition carol_menu : prog db stage :=
  RunRemote open_channel (λ _, sample_env) 100 30
    [ReadResult "3am7o" None; ReadResult (String (chr 13) "") None]
    (ConfigureOIDC true "https://id.example" 0 true (New true "10.1.1.1" carol "")).

Lemma member_menu_is_confined_witness :
  (∃ row, (final carol_menu sample_db).(oidc_identities) = sample_db.(oidc_identities) ++ [row]) ∧
  member_change (User_ID carol) sample_db (final carol_menu sample_db).
Proof.
  split; [eexists; vm_compute; reflexivity|].
  exact (proj2 (member_menu_is_confined open_channel (λ _, sample_env) 100 30
    [ReadResult "3am7o" None; ReadResult (String (chr 13) "") None] true "10.1.1.1" carol "" true
    "https://id.example" 0 true eq_refl) sample_db).
Defined.

(** ** What the menu's commands leave behind

    A successful change is recorded in the audit log; a new target is stored
    with its credential or not at all. *)

Section audit.
Context `{UnicodeTables, RowidsLaws, TimeParser, KeyFormats, SealOps}.

(** The row of a command's audit event *)
Definition menu_row (cfg : menu_config) (type : string) (details : list (string * jvalue)) (d : db) : audit_row :=
  Audit_row (new_rowid (ae_id <$> d.(audit_events))) (CURRENT_TIMESTAMP d) (Some (User_ID (c_user cfg)))
    (User_Username (c_user cfg)) (c_sourceAddress cfg) type None "success" (jsonString details).

Lemma marshal_map_nonempty m : (marshal_map m =s "") = false.
Proof. done. Qed.

Lemma menu_audit_run cfg type details d :
  Forall (λ kv : string * jvalue, marshallable kv.2) details →
  run (menu_audit cfg type details) d =
    if user_exists (User_ID (c_user cfg)) d
    then (Ok tt, set_audit_events (λ t, t ++ [menu_row cfg type details d]) d)
    else (Err (Sql ForeignKey), d).
Proof.
  intros Hd. unfold menu_audit, Audit, with_defaults, event, jsonString.
  cbn [Audit_Details Audit_Outcome Audit_ActorUserID Audit_TargetID Audit_ID Audit_At
       Audit_ClaimedUsername Audit_SourceAddress Audit_EventType String.eqb].
  rewrite marshal_map_nonempty. rewrite Unmarshal_marshal by done. cbn [negb].
  rewrite run_bind_ok. cbn [run atomic]. unfold insert_audit.
  cbn [Audit_Details Audit_Outcome Audit_ActorUserID Audit_TargetID ref_ok]. rewrite andb_true_r.
  by destruct (user_exists _ d).
Qed.

(** C15: a change made in the menu is recorded.  The command runs its operation;
    when that fails, the message carries its error and nothing is logged.  When
    it succeeds, exactly one audit event - the administrator's identity, the
    kind of the change and its details - is appended to what the operation left,
    and the message carries the status of success; unless the administrator's
    own account is gone by then: the change stays, the log says nothing, and the
    menu reports a failure. *)
Theorem mutations_are_audited cfg e sect status type details op d :
  Forall (λ kv : string * jvalue, marshallable kv.2) details →
  (needs_cipher op = true → c_cipher cfg = true) →
  let d1 := final (run_operation e op) d in
  run (perform cfg e (MutateCmd sect status type details op)) d =
    match value (run_operation e op) d with
    | Err err => (Some (MutationMsg status sect (Some err)), d1)
    | Ok _ =>
      if user_exists (User_ID (c_user cfg)) d1
      then (Some (MutationMsg status sect None),
            set_audit_events (λ t, t ++ [menu_row cfg type details d1]) d1)
      else (Some (MutationMsg status sect (Some (Sql ForeignKey))), d1)
    end.
Proof.
  intros Hd Hc d1. cbn [perform].
  destruct (needs_cipher op && negb (c_cipher cfg)) eqn:Ec.
  { bool_simp. rewrite Hc in * by done. discriminate. }
  unfold audited. rewrite run_bind. unfold value, final. rewrite run_bind_ok.
  unfold d1, value, final. destruct (run (run_operation e op) d) as [[[]|err] d2]; [|done].
  rewrite menu_audit_run by done. cbn [fst snd]. by destruct (user_exists _ d2).
Qed.

(** ** Adding a target *)







End audit.

#[local] Existing Instances ascii_tables max_rowids max_rowids_laws sqlite_parser menu_formats menu_seal.

Definition alice_config : menu_config := MkConfig true alice "10.1.1.1" false "" 0 false.

(** Alice makes carol an administrator who can log in, and deletes herself: the
    account is gone, the log does not say so, and the menu reports a failure. *)
Definition two_admins : db :=
  Eval vm_compute in exec_all [SetUserRole_call "carol" "admin"; AddGatewayKey_call "carol" "SHA256:c" "ssh-ed25519 C" ""]
    sample_db.

Lemma mutations_are_audited_witness :
  let op := StoreCall (DeleteUser_call "alice") in
  let d1 := final (run_operation sample_env op) two_admins in
  existsb (λ u, u_username u =s "alice") d1.(users) = false ∧ d1.(audit_events) = two_admins.(audit_events) ∧
  run (perform alice_config sample_env
         (MutateCmd "users" "User deleted." "admin.user.delete" [("username", JString "alice")] op)) two_admins
  = (Some (MutationMsg "User deleted." "users" (Some (Sql ForeignKey))), d1).
Proof.
  split; [vm_compute; reflexivity|]. split; [vm_compute; reflexivity|].
  rewrite (mutations_are_audited alice_config sample_env "users" "User deleted." "admin.user.delete"
    [("username", JString "alice")] (StoreCall (DeleteUser_call "alice")) two_admins); [|by repeat constructor|done].
  vm_compute. reflexivity.
Defined.




