(* ===== verification/Secrets.v ===== *)
(** * Encrypted secrets ([internal/secrets/secrets.go])

    The master key file, the associated data that ties a ciphertext to its owner,
    and encryption and decryption of payloads.  XChaCha20-Poly1305 and the JSON
    codec are parameters. *)

From S2P Require Import Prelude GoStrings Effects Auth Paths.
From S2P Require Import StringFacts.

Definition KeySize : Z := 32.
Definition NonceSize : nat := 24.

(** [aead.Seal] and [aead.Open] (key, nonce, text, associated data) *)
Class Aead := {
  Seal : string → string → string → string → string;
  Open : string → string → string → string → option string }.

(** What an AEAD promises the holder of the key *)
Class AeadLaws `{Aead} := {
  open_seal : ∀ key nonce plain ad, Open key nonce (Seal key nonce plain ad) ad = Some plain;
  open_sealed : ∀ key nonce c ad plain, Open key nonce c ad = Some plain →
    c = Seal key nonce plain ad }.

(** [json.Marshal] and [json.Unmarshal] of a [Payload]; the texts of a payload
    that the codec keeps are valid UTF-8. *)
Class PayloadCodec := {
  payload_Marshal : Payload → string;
  payload_Unmarshal : string → option Payload }.

Definition payload_utf8 (p : Payload) : Prop :=
  ValidString (Password p) = true ∧ ValidString (Passphrase p) = true ∧
  ValidString (TOTPSecret p) = true.

Class PayloadCodecLaws `{PayloadCodec} := {
  unmarshal_marshal : ∀ p, payload_utf8 p → payload_Unmarshal (payload_Marshal p) = Some p }.

(** ** The master key file: [os.Lstat] and [os.ReadFile] of it *)

Record FileInfo := MkFile { IsRegular : bool; Perm : Z; Content : result string }.

Definition Load (lstat : result FileInfo) : result string :=
  match lstat with
  | Err e => Err (Wrap "master key" e)
  | Ok info =>
    if negb (IsRegular info) then Err (Msg "master key must be a regular file")
    else if too_open (Perm info)
    then Err (Msg ("master key permissions " +:+ octal4 (Perm info) +:+ " are too open; require 0600"))
    else match Content info with
         | Err e => Err e
         | Ok b => if negb (len b =? KeySize)
                   then Err (Msg ("master key must be exactly " +:+ Itoa KeySize +:+ " bytes"))
                   else Ok b
         end
  end.

(** ** Associated data *)

Definition aad (targetID : Z) (kind : string) : string :=
  "sshgatew:credential:v1:" +:+ Itoa targetID +:+ ":" +:+ kind.
Definition identityAAD (identityID : Z) : string := "sshgatew:ssh-identity:v1:" +:+ Itoa identityID.
Definition totpAAD (userID : Z) : string := "sshgatew:user-totp:v1:" +:+ Itoa userID.

(** ** Encryption.  The nonce is the next bytes of [rand.Read]. *)

Section Cipher.
Context `{Aead, PayloadCodec} (key : string).

Definition encrypt (rand_Read : result string) (p : Payload) (ad : string) : result (string * string) :=
  let p := mkPayload 1 (Password p) (PrivateKey p) (PublicKey p) (Passphrase p) (TOTPSecret p) in
  let plain := payload_Marshal p in
  let! nonce := rand_Read in
  Ok (nonce, Seal key nonce plain ad).

Definition decrypt (nonce ciphertext ad : string) : result Payload :=
  match Open key nonce ciphertext ad with
  | None => Err (Msg "credential authentication failed")
  | Some plain =>
    match payload_Unmarshal plain with
    | None => Err (Msg "credential payload is corrupt")
    | Some p =>
      if negb (Version p =? 1)
      then Err (Msg ("unsupported credential payload version " +:+ Itoa (Version p)))
      else Ok p
    end
  end.

Definition Encrypt rand (targetID : Z) (kind : string) (p : Payload) := encrypt rand p (aad targetID kind).
Definition Decrypt (targetID : Z) (kind nonce ciphertext : string) := decrypt nonce ciphertext (aad targetID kind).
Definition EncryptSSHIdentity rand (identityID : Z) (p : Payload) := encrypt rand p (identityAAD identityID).
Definition DecryptSSHIdentity (identityID : Z) (nonce ciphertext : string) :=
  decrypt nonce ciphertext (identityAAD identityID).
Definition EncryptTOTP rand (userID : Z) (secret : string) :=
  encrypt rand (mkPayload 0 "" "" "" "" secret) (totpAAD userID).
Definition DecryptTOTP (userID : Z) (nonce ciphertext : string) : result string :=
  let! payload := decrypt nonce ciphertext (totpAAD userID) in
  if TOTPSecret payload =s "" then Err (Msg "TOTP payload is empty") else Ok (TOTPSecret payload).

(** The cipher the gateway's handlers are written against *)
Definition cipher_ops : CipherOps := {|
  Auth.Decrypt := Decrypt;
  Auth.DecryptSSHIdentity := DecryptSSHIdentity;
  Auth.DecryptTOTP := DecryptTOTP |}.

Definition seal_ops : SealOps := {|
  Auth.Encrypt := Encrypt;
  Auth.EncryptSSHIdentity := EncryptSSHIdentity;
  Auth.EncryptTOTP := EncryptTOTP |}.

End Cipher.

(** ** What a ciphertext belongs to *)

Inductive owner :=
  | OfTarget (targetID : Z) (kind : string)
  | OfIdentity (identityID : Z)
  | OfUser (userID : Z).

Definition owner_data (o : owner) : string :=
  match o with
  | OfTarget t kind => aad t kind
  | OfIdentity i => identityAAD i
  | OfUser u => totpAAD u
  end.

(** ** Theorems about the encrypted secrets *)

(** The number before a colon is the text up to it. *)
Lemma colon_split a b s t :
  sforall (λ c, negb (Ascii.eqb c ":")) a = true → sforall (λ c, negb (Ascii.eqb c ":")) b = true →
  a +:+ String ":" s = b +:+ String ":" t → a = b ∧ s = t.
Proof.
  revert b. induction a as [|c a IH]; intros [|d b] Ha Hb; cbn in Ha, Hb;
    rewrite ?append_cons; cbn [String.append].
  - by intros [= ->].
  - intros [= <- _]. discriminate Hb.
  - intros [= -> _]. discriminate Ha.
  - intros [= -> Hs]. bool_simp. by destruct (IH b) as [-> ->].
Qed.

Lemma digit_no_colon c : is_digit c = true → negb (Ascii.eqb c ":") = true.
Proof.
  intros Hd. destruct (Ascii.eqb c ":") eqn:E; [|done]. apply Ascii.eqb_eq in E as ->. discriminate Hd.
Qed.

Lemma Itoa_no_colon z : sforall (λ c, negb (Ascii.eqb c ":")) (Itoa z) = true.
Proof.
  assert (∀ n, 0 <= n → sforall (λ c, negb (Ascii.eqb c ":")) (Itoa n) = true) as Hn.
  { intros n Hn. destruct (Itoa_nonneg n Hn) as (_ & Hd & _).
    apply (sforall_impl is_digit); [|done]. apply digit_no_colon. }
  destruct (Z.ltb_spec z 0); [|by apply Hn]. rewrite Itoa_neg by done. cbn. apply Hn. lia.
Qed.

Lemma aad_inj t1 k1 t2 k2 : aad t1 k1 = aad t2 k2 → t1 = t2 ∧ k1 = k2.
Proof.
  unfold aad. intros Ha%append_inv_head.
  change (":" +:+ k1) with (String ":" k1) in Ha. change (":" +:+ k2) with (String ":" k2) in Ha.
  apply colon_split in Ha as [?%Itoa_inj ?]; [done|apply Itoa_no_colon..].
Qed.

(** The associated data names one owner: the ciphertext of a target's
    credential, of a stored identity and of a user's TOTP secret never share it,
    and two owners of the same sort share it only when they are the same target
    with the same kind of credential, the same identity, the same user.  So a
    ciphertext copied to another row, or a target whose kind is changed, is
    opened with other associated data than it was sealed with. *)
Theorem associated_data_names_owner o1 o2 : owner_data o1 = owner_data o2 → o1 = o2.
Proof.
  destruct o1 as [t1 k1|i1|u1], o2 as [t2 k2|i2|u2]; cbn [owner_data]; try discriminate.
  - by intros [-> ->]%aad_inj.
  - unfold identityAAD. by intros ->%append_inv_head%Itoa_inj.
  - unfold totpAAD. by intros ->%append_inv_head%Itoa_inj.
Qed.

(** ** Round trips *)

Section Cipher.
Context `{AeadLaws, PayloadCodecLaws}.

Lemma decrypt_encrypt key nonce p ad : payload_utf8 p →
  ∃ c, encrypt key (Ok nonce) p ad = Ok (nonce, c) ∧
       decrypt key nonce c ad =
         Ok (mkPayload 1 (Password p) (PrivateKey p) (PublicKey p) (Passphrase p) (TOTPSecret p)).
Proof.
  intros Hu. unfold encrypt, decrypt. cbn [rbind]. eexists. split; [done|].
  rewrite open_seal, unmarshal_marshal by done. done.
Qed.

(** What opens was sealed under the same key for the same owner. *)
Lemma decrypt_sealed key nonce c ad p : decrypt key nonce c ad = Ok p →
  ∃ plain, c = Seal key nonce plain ad ∧ payload_Unmarshal plain = Some p ∧ Version p = 1.
Proof.
  unfold decrypt. destruct (Open key nonce c ad) as [plain|] eqn:Eo; [|discriminate].
  destruct (payload_Unmarshal plain) as [q|] eqn:Eq; [|discriminate].
  destruct (Version q =? 1) eqn:Ev; [|discriminate]. intros [= <-]. bool_simp.
  exists plain. split_and!; try done. by apply open_sealed.
Qed.

(** What is encrypted for a user's TOTP is what the login decrypts.  Through
    the operations the handlers use, a non-empty secret enrolled for a user opens
    for that user, and a target's payload for that target and kind, with the
    version set to 1 whatever it was. *)
Theorem cipher_round_trip key nonce userID secret targetID kind p :
  ValidString secret = true → secret ≠ "" → payload_utf8 p →
  (∃ c, EncryptTOTP key (Ok nonce) userID secret = Ok (nonce, c) ∧
        @Auth.DecryptTOTP (cipher_ops key) userID nonce c = Ok secret) ∧
  (∃ c, Encrypt key (Ok nonce) targetID kind p = Ok (nonce, c) ∧
        @Auth.Decrypt (cipher_ops key) targetID kind nonce c =
          Ok (mkPayload 1 (Password p) (PrivateKey p) (PublicKey p) (Passphrase p) (TOTPSecret p))).
Proof.
  intros Hs Hne Hp. split.
  - destruct (decrypt_encrypt key nonce (mkPayload 0 "" "" "" "" secret) (totpAAD userID))
      as (c & Hc & Hd); [done|]. exists c. split; [done|].
    cbn [Auth.DecryptTOTP cipher_ops]. unfold DecryptTOTP. rewrite Hd. cbn.
    by apply String.eqb_neq in Hne as ->.
  - by apply decrypt_encrypt.
Qed.
End Cipher.

(** ** The key file *)

(** A key is loaded only from a regular file that nobody but its owner can
    read, and it has the size the cipher needs. *)
Lemma loaded_key_private lstat key : Load lstat = Ok key →
  ∃ info, lstat = Ok info ∧ IsRegular info = true ∧ Z.land (Perm info) 0x3F = 0 ∧ len key = KeySize.
Proof.
  unfold Load, too_open. destruct lstat as [info|]; [|discriminate].
  destruct (IsRegular info) eqn:Er; [|discriminate]. cbn [negb].
  destruct (Z.land (Perm info) 0x3F =? 0) eqn:Ep; [|discriminate]. cbn [negb].
  destruct (Content info) as [b|]; [|discriminate].
  destruct (len b =? KeySize) eqn:El; [|discriminate]. intros [= <-]. bool_simp. by exists info.
Qed.

(** ** A toy cipher and codec, for the examples: the numbers of [Countable] *)

Definition number_text {A} `{Countable A} (a : A) : string := Itoa (Z.pos (encode a)).
Definition text_number {A} `{Countable A} (s : string) : option A :=
  z ← unsigned_value s; decode (Z.to_pos z).

#[local] Arguments text_number : simpl never.
#[local] Arguments number_text : simpl never.

Lemma text_number_text {A} `{Countable A} (a : A) : text_number (number_text a) = Some a.
Proof.
  unfold text_number, number_text. rewrite unsigned_value_Itoa by done. cbn. apply decode_encode.
Qed.

Definition toy_aead : Aead := {|
  Seal := λ key nonce plain ad, number_text (key, nonce, plain, ad);
  Open := λ key nonce c ad,
    x ← text_number (A := string * string * string * string) c;
    let plain := x.1.2 in
    if c =s number_text (key, nonce, plain, ad) then Some plain else None |}.

Lemma toy_aead_laws : @AeadLaws toy_aead.
Proof.
  split; cbn.
  - intros key nonce plain ad. rewrite text_number_text. cbn. by rewrite String.eqb_refl.
  - intros key nonce c ad plain. destruct (text_number c) as [x|]; [|discriminate]. cbn.
    destruct (c =s _) eqn:E; [|discriminate]. intros [= <-]. by bool_simp.
Qed.

Definition toy_codec : PayloadCodec := {|
  payload_Marshal := λ p, number_text
    (Version p, Password p, PrivateKey p, PublicKey p, Passphrase p, TOTPSecret p);
  payload_Unmarshal := λ s,
    '(v, pw, sk, pk, pp, t) ← text_number (A := Z * string * string * string * string * string) s;
    Some (mkPayload v pw sk pk pp t) |}.

Lemma toy_codec_laws : @PayloadCodecLaws toy_codec.
Proof. split. intros [] _. cbn. by rewrite text_number_text. Qed.

Lemma cipher_round_trip_witness :
  let H := toy_aead in let H0 := toy_codec in
  let p := mkPayload 0 "hunter2" "" "" "" "" in
  (∃ c, EncryptTOTP "key" (Ok "nonce") 7 "JBSWY3DP" = Ok ("nonce", c) ∧
        @Auth.DecryptTOTP (cipher_ops "key") 7 "nonce" c = Ok "JBSWY3DP") ∧
  (∃ c, Encrypt "key" (Ok "nonce") 3 "password" p = Ok ("nonce", c) ∧
        @Auth.Decrypt (cipher_ops "key") 3 "password" "nonce" c = Ok (mkPayload 1 "hunter2" "" "" "" "")).
Proof.
  apply (@cipher_round_trip toy_aead toy_aead_laws toy_codec toy_codec_laws "key" "nonce" 7 "JBSWY3DP"
    3 "password" (mkPayload 0 "hunter2" "" "" "" "")); [reflexivity|discriminate|repeat split].
Defined.

Lemma associated_data_names_owner_witness :
  owner_data (OfTarget 12 "password") = "sshgatew:credential:v1:12:password" ∧
  OfTarget 12 "password" = OfTarget 12 "password".
Proof.
  split; [vm_compute; reflexivity|].
  apply (associated_data_names_owner (OfTarget 12 "password") (OfTarget 12 "password")). reflexivity.
Defined.
