(* ===== verification/Flags.v ===== *)
(** * Command-line flags

    Package flag as the commands of [cmd/sshgatew] use it - [NewFlagSet] with
    [ContinueOnError], and [Parse] - over [strconv.ParseInt], [strconv.ParseBool]
    and [strconv.Quote].  What a failed [Parse] prints (the error and the usage
    text, on the error output) is not modelled. *)

From S2P Require Import Prelude GoStrings StringFacts Json Effects Config.

(** ** [strconv.ParseInt(s, 0, 64)] *)

Inductive num_error := ErrSyntax | ErrRange.

(** [lower(c)] of strconv, and the value of a digit in any base up to 36 *)
Definition lower (c : ascii) : Z := Z.lor (byte c) 0x20.
Definition digit_of (c : ascii) : option Z :=
  if is_digit c then Some (byte c - 0x30)
  else if in_range 0x61 0x7A (lower c) then Some (lower c - 0x61 + 10)
  else None.

(** The loop of [ParseUint]: the value, and whether there were underscores *)
Fixpoint uint_loop (base : Z) (base0 : bool) (n : Z) (underscores : bool) (s : string) : (Z * bool) + num_error :=
  match s with
  | EmptyString => inl (n, underscores)
  | String c s =>
    if Ascii.eqb c "_" && base0 then uint_loop base base0 n true s
    else match digit_of c with
         | None => inr ErrSyntax
         | Some d =>
           if base <=? d then inr ErrSyntax
           else if 2 ^ 64 <=? n * base + d then inr ErrRange
           else uint_loop base base0 (n * base + d) underscores s
         end
  end.

(** Base prefixes: the base and what follows the prefix.  [ParseUint] wants a
    digit after it, and takes a plain leading zero for octal. *)
Definition base_prefix (s : string) : Z * string :=
  match s with
  | String "0" (String c (String _ _ as t)) =>
    if lower c =? 0x62 then (2, t)
    else if lower c =? 0x6F then (8, t)
    else if lower c =? 0x78 then (16, t)
    else (8, String c t)
  | String "0" t => (8, t)
  | _ => (10, s)
  end.

(** [underscoreOK]: underscores separate digits, or follow the prefix *)
Inductive seen := SeenStart | SeenDigit | SeenUnderscore | SeenOther.

Definition hex_letter (c : ascii) : bool := in_range 0x61 0x66 (lower c).

Fixpoint underscores_ok (hex : bool) (i : seen) (s : string) : bool :=
  match s with
  | EmptyString => match i with SeenUnderscore => false | _ => true end
  | String c s =>
    if is_digit c || hex && hex_letter c then underscores_ok hex SeenDigit s
    else if Ascii.eqb c "_" then
      match i with SeenDigit => underscores_ok hex SeenUnderscore s | _ => false end
    else match i with SeenUnderscore => false | _ => underscores_ok hex SeenOther s end
  end.

Definition underscoreOK (s : string) : bool :=
  match s with
  | String "0" (String c t) =>
    if (lower c =? 0x62) || (lower c =? 0x6F) || (lower c =? 0x78)
    then underscores_ok (lower c =? 0x78) SeenDigit t
    else underscores_ok false SeenStart s
  | _ => underscores_ok false SeenStart s
  end.

(** [ParseUint(s, 0, 64)] of a text without sign *)
Definition ParseUint0 (s : string) : Z + num_error :=
  if s =s "" then inr ErrSyntax
  else let '(base, digits) := base_prefix s in
       match uint_loop base true 0 false digits with
       | inr e => inr e
       | inl (n, underscores) => if underscores && negb (underscoreOK s) then inr ErrSyntax else inl n
       end.

(** The sign *)
Definition signed (s : string) : bool * string :=
  match s with
  | String "-" t => (true, t)
  | String "+" t => (false, t)
  | _ => (false, s)
  end.

Definition ParseInt0 (s : string) : Z + num_error :=
  let '(neg, digits) := signed s in
  match ParseUint0 digits with
  | inr e => inr e
  | inl n =>
    if negb neg && (2 ^ 63 <=? n) || neg && (2 ^ 63 <? n) then inr ErrRange
    else inl (if neg then - n else n)
  end.

Example parse_int_texts :
  ParseInt0 <$> ["22"; "-1"; "0x16"; "026"; "0b1_0"; "2_2"; "_22"; "22_"; "09"; "0"; ""; "-"; "0x"; "9223372036854775808"] =
  [inl 22; inl (-1); inl 22; inl 22; inl 2; inl 22; inr ErrSyntax; inr ErrSyntax; inr ErrSyntax; inl 0;
   inr ErrSyntax; inr ErrSyntax; inr ErrSyntax; inr ErrRange].
Proof. by vm_compute. Qed.

(** ** [%q] *)

(** [strconv.IsPrint] from U+0100 up *)
Class PrintTables := { print_table : Z → bool }.

Section quote.
Context `{PrintTables}.

Definition IsPrint (r : Z) : bool :=
  if r <=? 0xFF then in_range 0x20 0x7E r || in_range 0xA1 0xFF r && negb (r =? 0xAD)
  else print_table r.

Definition hex_digits (n : nat) (z : Z) : string :=
  String.string_of_list_ascii ((λ i, hex_digit (Z.shiftr z (4 * Z.of_nat i) mod 16)) <$> rev (seq 0 n)).

(** [appendEscapedRune], after the test for a byte that is not UTF-8 *)
Definition quote_rune (r : Z) (raw : string) : string :=
  if (r =? RuneError) && (len raw =? 1)
  then String backslash "x" +:+ concat_strings (hex_digits 2 <$> bytes_of raw)
  else if (r =? 0x22) || (r =? 0x5C) then String backslash raw
  else if IsPrint r then raw
  else if r =? 0x07 then short_escape "a"
  else if r =? 0x08 then short_escape "b"
  else if r =? 0x0C then short_escape "f"
  else if r =? 0x0A then short_escape "n"
  else if r =? 0x0D then short_escape "r"
  else if r =? 0x09 then short_escape "t"
  else if r =? 0x0B then short_escape "v"
  else if (r <? 0x20) || (r =? 0x7F) then String backslash "x" +:+ hex_digits 2 r
  else if r <? 0x10000 then String backslash "u" +:+ hex_digits 4 r
  else String backslash "U" +:+ hex_digits 8 r.

Definition Quote (s : string) : string :=
  String dquote (concat_strings (map (λ '(r, raw), quote_rune r raw) (runes s)) +:+ str1 dquote).

End quote.

(** ** [FlagSet] *)

Inductive flag_value :=
  | StringFlag (v : string)
  | IntFlag (v : Z)
  | BoolFlag (v : bool).

(** The flags that are defined, with their values *)
Definition flag_set : Type := list (string * flag_value).

Fixpoint lookup_flag (name : string) (fs : flag_set) : option flag_value :=
  match fs with
  | [] => None
  | (n, v) :: fs => if n =s name then Some v else lookup_flag name fs
  end.

Definition assign_flag (name : string) (v : flag_value) (fs : flag_set) : flag_set :=
  (λ '(n, w), (n, if n =s name then v else w)) <$> fs.

(** What the pointers of [fs.String], [fs.Int] and [fs.Bool] hold *)
Definition flag_string (name : string) (fs : flag_set) : string :=
  match lookup_flag name fs with Some (StringFlag v) => v | _ => "" end.
Definition flag_int (name : string) (fs : flag_set) : Z :=
  match lookup_flag name fs with Some (IntFlag v) => v | _ => 0 end.
Definition flag_bool (name : string) (fs : flag_set) : bool :=
  match lookup_flag name fs with Some (BoolFlag v) => v | _ => false end.

Definition ErrHelp : error := Msg "flag: help requested".

(** The first word: not a flag, the end of the flags, or a name and perhaps a
    value after the first [=] *)
Inductive flag_word :=
  | NotAFlag
  | Terminator
  | BadSyntax
  | IsFlag (name : string) (value : option string).

(** The loop from the name's second byte *)
Fixpoint cut_equals (s : string) : string * option string :=
  match s with
  | EmptyString => ("", None)
  | String c s =>
    if Ascii.eqb c "=" then ("", Some s) else let '(name, value) := cut_equals s in (String c name, value)
  end.

Definition flag_name (s : string) : flag_word :=
  match s with
  | EmptyString => BadSyntax
  | String c t =>
    if Ascii.eqb c "-" || Ascii.eqb c "=" then BadSyntax
    else let '(name, value) := cut_equals t in IsFlag (String c name) value
  end.

Definition flag_word_of (s : string) : flag_word :=
  match s with
  | String "-" (String c t) =>
    if Ascii.eqb c "-" then if t =s "" then Terminator else flag_name t
    else flag_name (String c t)
  | _ => NotAFlag
  end.

Section parse.
Context `{PrintTables}.

(** [flag.Value.Set]; package flag has its own words for a number's errors. *)
Definition num_error_text (e : num_error) : string :=
  match e with ErrSyntax => "parse error" | ErrRange => "value out of range" end.

Definition parse_value (v : flag_value) (text : string) : flag_value + string :=
  match v with
  | StringFlag _ => inl (StringFlag text)
  | IntFlag _ =>
    match ParseInt0 text with inl z => inl (IntFlag z) | inr e => inr (num_error_text e) end
  | BoolFlag _ =>
    match ParseBool text with Some b => inl (BoolFlag b) | None => inr "parse error" end
  end.

Definition undefined_flag (name : string) : error :=
  if (name =s "help") || (name =s "h") then ErrHelp
  else Msg ("flag provided but not defined: -" +:+ name).

Definition invalid_value (v : flag_value) (name text why : string) : error :=
  match v with
  | BoolFlag _ => Msg ("invalid boolean value " +:+ Quote text +:+ " for -" +:+ name +:+ ": " +:+ why)
  | _ => Msg ("invalid value " +:+ Quote text +:+ " for flag -" +:+ name +:+ ": " +:+ why)
  end.

(** [Parse], one [parseOne] a turn; the arguments that are left are [Args]. *)
Fixpoint Parse (fs : flag_set) (args : list string) : result (flag_set * list string) :=
  match args with
  | [] => Ok (fs, [])
  | s :: rest =>
    match flag_word_of s with
    | NotAFlag => Ok (fs, args)
    | Terminator => Ok (fs, rest)
    | BadSyntax => Err (Msg ("bad flag syntax: " +:+ s))
    | IsFlag name value =>
      match lookup_flag name fs with
      | None => Err (undefined_flag name)
      | Some v =>
        let text := match v, value with BoolFlag _, None => Some "true" | _, _ => value end in
        match text, rest with
        | Some text, _ =>
          match parse_value v text with
          | inl w => Parse (assign_flag name w fs) rest
          | inr why => Err (invalid_value v name text why)
          end
        | None, text :: rest =>
          match parse_value v text with
          | inl w => Parse (assign_flag name w fs) rest
          | inr why => Err (invalid_value v name text why)
          end
        | None, [] => Err (Msg ("flag needs an argument: -" +:+ name))
        end
      end
    end
  end.

End parse.

(** ** Flags that are written are the flags that are read *)

(** ** Numbers *)

Lemma digit_of_digit c : is_digit c = true → digit_of c = Some (byte c - 0x30) ∧ byte c - 0x30 < 10.
Proof.
  intros Hc. unfold digit_of. rewrite Hc. split; [done|]. unfold is_digit, in_range in Hc. bool_simp. lia.
Qed.

Lemma digit_not_underscore c : is_digit c = true → Ascii.eqb c "_" = false.
Proof. intros Hc. apply Ascii.eqb_neq. intros ->. discriminate Hc. Qed.

Lemma uint_loop_digits acc s v :
  0 <= acc → digits_value acc s = Some v → v < 2 ^ 64 → uint_loop 10 true acc false s = inl (v, false).
Proof.
  revert acc. induction s as [|c s IH]; intros acc Ha Hv Hb; cbn [digits_value] in Hv; [by injection Hv as <-|].
  cbn [uint_loop]. destruct (is_digit c) eqn:Ec; [|discriminate].
  rewrite (digit_not_underscore c Ec). cbn [andb]. destruct (digit_of_digit c Ec) as [-> Hd].
  assert (0 <= byte c - 0x30) as Hd0 by (unfold is_digit, in_range in Ec; bool_simp; lia).
  pose proof (digits_value_lower (10 * acc + (byte c - 0x30)) s v ltac:(lia) Hv) as Hl.
  assert (10 * acc + (byte c - 0x30) <= v) as Hle.
  { pose proof (Z.pow_pos_nonneg 10 (len s) ltac:(lia) ltac:(apply len_nonneg)) as Hp.
    etrans; [|exact Hl]. rewrite <- (Z.mul_1_r (10 * acc + (byte c - 0x30))) at 1.
    apply Z.mul_le_mono_nonneg_l; lia. }
  rewrite (proj2 (Z.leb_gt 10 _)) by lia. rewrite (proj2 (Z.leb_gt _ _)) by lia.
  replace (acc * 10 + (byte c - 0x30)) with (10 * acc + (byte c - 0x30)) by lia. apply IH; [lia|done|done].
Qed.

Lemma base_prefix_plain s : leading_nonzero s → base_prefix s = (10, s).
Proof.
  destruct s as [|c s]; [done|]. cbn [leading_nonzero]. intros Hc. cbn [base_prefix].
  by destruct c as [[] [] [] [] [] [] [] []].
Qed.

Lemma ParseUint0_Itoa z : 0 <= z < 2 ^ 64 → ParseUint0 (Itoa z) = inl z.
Proof.
  intros Hz. destruct (Itoa_nonneg z ltac:(lia)) as (Hv & _ & Hl). destruct Hl as [[-> _]|Hl]; [done|].
  unfold ParseUint0. destruct (Itoa z =s "") eqn:E; [apply String.eqb_eq in E; by rewrite E in Hl|].
  rewrite (base_prefix_plain _ Hl), (uint_loop_digits 0 _ z) by (done || lia). done.
Qed.

Lemma signed_digits s : sforall is_digit s = true → signed s = (false, s).
Proof.
  destruct s as [|c s]; [done|]. cbn [sforall]. intros Hd. bool_simp. cbn [signed].
  by destruct c as [[] [] [] [] [] [] [] []].
Qed.

Lemma ParseInt0_Itoa z : in_int64 z = true → ParseInt0 (Itoa z) = inl z.
Proof.
  unfold in_int64, in_range, min_int64, max_int64. intros Hz. bool_simp. unfold ParseInt0.
  destruct (Z.lt_ge_cases z 0) as [Hneg|Hpos].
  - rewrite Itoa_neg by done. cbn [signed]. rewrite ParseUint0_Itoa by lia. cbn [negb andb orb].
    rewrite (proj2 (Z.ltb_ge _ _)) by lia. f_equal. lia.
  - destruct (Itoa_nonneg z Hpos) as (_ & Hd & _). rewrite signed_digits by done.
    rewrite ParseUint0_Itoa by lia. cbn [negb andb orb]. by rewrite (proj2 (Z.leb_gt _ _)) by lia.
Qed.

(** ** Words *)

(** A name that package flag can tell from its dashes and its value *)
Definition plain_name (name : string) : bool :=
  match name with
  | EmptyString => false
  | String c _ => negb (Ascii.eqb c "-") && sforall (λ c, negb (Ascii.eqb c "=")) name
  end.

Definition FormatBool (b : bool) : string := if b then "true" else "false".

(** A flag as one or two words *)
Definition flag_words (f : string * flag_value) : list string :=
  match f.2 with
  | StringFlag v => ["--" +:+ f.1; v]
  | IntFlag z => ["--" +:+ f.1; Itoa z]
  | BoolFlag b => ["--" +:+ f.1 +:+ "=" +:+ FormatBool b]
  end.

Lemma cut_equals_plain s : sforall (λ c, negb (Ascii.eqb c "=")) s = true → cut_equals s = (s, None).
Proof.
  induction s as [|c s IH]; [done|]. cbn [sforall cut_equals]. intros Hs. bool_simp.
  by destruct (Ascii.eqb c "="); [|rewrite IH].
Qed.

Lemma cut_equals_value s v :
  sforall (λ c, negb (Ascii.eqb c "=")) s = true → cut_equals (s +:+ "=" +:+ v) = (s, Some v).
Proof.
  induction s as [|c s IH]; [done|]. rewrite append_cons. cbn [sforall cut_equals]. intros Hs. bool_simp.
  by destruct (Ascii.eqb c "="); [|rewrite IH].
Qed.

Lemma flag_word_plain name : plain_name name = true → flag_word_of ("--" +:+ name) = IsFlag name None.
Proof.
  destruct name as [|c t]; [done|]. cbn [plain_name sforall]. intros Hn. bool_simp.
  rewrite !append_cons. cbn [flag_word_of Ascii.eqb Bool.eqb String.eqb flag_name String.append].
  destruct (Ascii.eqb c "-"); [done|]. destruct (Ascii.eqb c "="); [done|]. cbn [orb].
  by rewrite cut_equals_plain.
Qed.

Lemma flag_word_value name v :
  plain_name name = true → flag_word_of ("--" +:+ name +:+ "=" +:+ v) = IsFlag name (Some v).
Proof.
  destruct name as [|c t]; [done|]. cbn [plain_name sforall]. intros Hn. bool_simp.
  rewrite !append_cons. cbn [flag_word_of Ascii.eqb Bool.eqb String.eqb flag_name String.append].
  destruct (Ascii.eqb c "-"); [done|]. destruct (Ascii.eqb c "="); [done|]. cbn [orb].
  change (String "=" v) with ("=" +:+ v). by rewrite cut_equals_value.
Qed.

(** ** Parsing *)

Definition same_kind (v w : flag_value) : bool :=
  match v, w with
  | StringFlag _, StringFlag _ | BoolFlag _, BoolFlag _ => true
  | IntFlag _, IntFlag z => in_int64 z
  | _, _ => false
  end.

(** A flag that the set defines, with a value of its kind *)
Definition declared (fs : flag_set) (f : string * flag_value) : Prop :=
  plain_name f.1 = true ∧ ∃ v, lookup_flag f.1 fs = Some v ∧ same_kind v f.2 = true.

Definition assign_all (l : flag_set) (fs : flag_set) : flag_set :=
  foldl (λ fs f, assign_flag f.1 f.2 fs) fs l.

Lemma lookup_assign name v n fs :
  lookup_flag n (assign_flag name v fs) = if n =s name then (λ _, v) <$> lookup_flag n fs else lookup_flag n fs.
Proof.
  induction fs as [|[m w] fs IH]; cbn; [by destruct (n =s name)|].
  destruct (String.eqb_spec m n) as [->|Hn]; [|done]. by destruct (n =s name).
Qed.

Lemma same_kind_trans u v w : same_kind u v = true → same_kind u w = true → same_kind v w = true.
Proof. by destruct u, v, w. Qed.

Lemma declared_assign fs f g : declared fs f → declared fs g → declared (assign_flag g.1 g.2 fs) f.
Proof.
  intros (Hn & v & Hv & Hk) (_ & w & Hw & Hk'). split; [done|]. rewrite lookup_assign.
  destruct (String.eqb_spec f.1 g.1) as [E|]; [|by exists v]. rewrite Hv. exists g.2. split; [done|].
  rewrite E in Hv. assert (v = w) as -> by congruence. by apply (same_kind_trans w).
Qed.

Section parse.
Context `{PrintTables}.

Lemma Parse_words fs f rest : declared fs f → Parse fs (flag_words f ++ rest) = Parse (assign_flag f.1 f.2 fs) rest.
Proof.
  destruct f as [name v]. intros (Hn & w & Hw & Hk). cbn in Hn, Hw, Hk. unfold flag_words. cbn [fst snd].
  destruct v as [s|z|b]; cbn [app Parse].
  - rewrite flag_word_plain, Hw by done. destruct w; [|discriminate..]. done.
  - rewrite flag_word_plain, Hw by done. destruct w; [discriminate| |discriminate]. cbn [parse_value same_kind] in *.
    by rewrite ParseInt0_Itoa.
  - rewrite flag_word_value, Hw by done. destruct w; [discriminate..|]. by destruct b.
Qed.

Lemma Parse_all_words fs l rest :
  Forall (declared fs) l → Parse fs ((l ≫= flag_words) ++ rest) = Parse (assign_all l fs) rest.
Proof.
  revert fs. induction l as [|f l IH]; intros fs Hl; [done|]. apply Forall_cons in Hl as [Hf Hl].
  change ((f :: l) ≫= flag_words) with (flag_words f ++ (l ≫= flag_words)). rewrite <- app_assoc, Parse_words by done.
  apply IH. eapply Forall_impl; [exact Hl|]. intros g Hg. by apply declared_assign.
Qed.

Lemma lookup_assign_all fs l name v :
  Forall (declared fs) l → NoDup l.*1 → (name, v) ∈ l → lookup_flag name (assign_all l fs) = Some v.
Proof.
  intros Hl Hnd Hin.
  assert (∀ l fs w, name ∉ l.*1 → lookup_flag name fs = Some w → lookup_flag name (assign_all l fs) = Some w) as Hother.
  { clear. induction l as [|[n u] l IH]; intros fs w Hn Hw; [done|]. cbn in *. apply not_elem_of_cons in Hn as [Hne Hn].
    apply IH; [done|]. rewrite lookup_assign. by rewrite (proj2 (String.eqb_neq _ _)). }
  revert fs Hl. induction l as [|[n u] l IH]; intros fs Hl; [by apply elem_of_nil in Hin|].
  cbn in Hnd. apply NoDup_cons in Hnd as [Hn Hnd]. apply Forall_cons in Hl as [Hf Hl]. cbn.
  apply elem_of_cons in Hin as [E|Hin].
  - injection E as <- <-. apply Hother; [done|]. destruct Hf as (_ & w & Hw & _). cbn in Hw.
    by rewrite lookup_assign, String.eqb_refl, Hw.
  - apply IH; [done..|]. eapply Forall_impl; [exact Hl|]. intros g Hg.
    by apply (declared_assign fs g (n, u)).
Qed.

(** The value of a flag among those that were written, or else a default *)
Definition given_text (name default : string) (l : flag_set) : string :=
  match lookup_flag name l with Some (StringFlag v) => v | Some _ => "" | None => default end.
Definition given_int (name : string) (default : Z) (l : flag_set) : Z :=
  match lookup_flag name l with Some (IntFlag v) => v | Some _ => 0 | None => default end.
Definition given_bool (name : string) (default : bool) (l : flag_set) : bool :=
  match lookup_flag name l with Some (BoolFlag v) => v | Some _ => false | None => default end.

Lemma lookup_flag_in name l v : NoDup l.*1 → (name, v) ∈ l → lookup_flag name l = Some v.
Proof.
  induction l as [|[n w] l IH]; cbn; [by intros _ ?%elem_of_nil|]. intros [Hn Hnd]%NoDup_cons [[= <- <-]|Hin]%elem_of_cons.
  - by rewrite String.eqb_refl.
  - destruct (String.eqb_spec n name) as [->|]; [|by apply IH]. destruct Hn. by apply (list_elem_of_fmap_2 fst l (name, v)).
Qed.

Lemma lookup_flag_some name l v : lookup_flag name l = Some v → (name, v) ∈ l.
Proof.
  induction l as [|[n w] l IH]; [done|]. cbn. destruct (String.eqb_spec n name) as [->|].
  - intros [= ->]. left.
  - intros Hv. right. by apply IH.
Qed.

Lemma lookup_flag_none name l : lookup_flag name l = None → name ∉ l.*1.
Proof.
  induction l as [|[n w] l IH]; cbn; [by intros _ ?%elem_of_nil|]. destruct (String.eqb_spec n name) as [->|Hne]; [done|].
  intros Hl [<-|Hin]%elem_of_cons; [done|]. by apply IH.
Qed.

Lemma lookup_assign_other fs l name : name ∉ l.*1 → lookup_flag name (assign_all l fs) = lookup_flag name fs.
Proof.
  revert fs. induction l as [|[n u] l IH]; intros fs Hn; [done|]. cbn [fmap list_fmap fst] in Hn.
  change (assign_all ((n, u) :: l) fs) with (assign_all l (assign_flag n u fs)). apply not_elem_of_cons in Hn as [Hne Hn]. rewrite (IH (assign_flag n u fs)) by done. rewrite lookup_assign.
  by rewrite (proj2 (String.eqb_neq _ _)).
Qed.

(** What is read of the flags that were written *)
Lemma lookup_written fs l name : Forall (declared fs) l → NoDup l.*1 →
  lookup_flag name (assign_all l fs) = match lookup_flag name l with Some v => Some v | None => lookup_flag name fs end.
Proof.
  intros Hl Hnd. destruct (lookup_flag name l) as [v|] eqn:E.
  - by apply lookup_assign_all; [..|apply lookup_flag_some].
  - by apply lookup_assign_other, lookup_flag_none.
Qed.

Lemma flag_string_written fs l name : Forall (declared fs) l → NoDup l.*1 →
  flag_string name (assign_all l fs) = given_text name (flag_string name fs) l.
Proof. intros. unfold flag_string at 1, given_text. rewrite lookup_written by done. by destruct (lookup_flag name l). Qed.

Lemma flag_int_written fs l name : Forall (declared fs) l → NoDup l.*1 →
  flag_int name (assign_all l fs) = given_int name (flag_int name fs) l.
Proof. intros. unfold flag_int at 1, given_int. rewrite lookup_written by done. by destruct (lookup_flag name l). Qed.

Lemma flag_bool_written fs l name : Forall (declared fs) l → NoDup l.*1 →
  flag_bool name (assign_all l fs) = given_bool name (flag_bool name fs) l.
Proof. intros. unfold flag_bool at 1, given_bool. rewrite lookup_written by done. by destruct (lookup_flag name l). Qed.

(** [written doc l]: the flags [l] are among those of [doc], each at most once, with
    values of their kind. *)
Definition written (doc l : flag_set) : Prop :=
  NoDup l.*1 ∧ Forall (λ f, ∃ v, lookup_flag f.1 doc = Some v ∧ same_kind v f.2 = true) l.

(** The flags of [doc] are defined in [fs], with their kinds. *)
Definition kinds_agree (v w : flag_value) : bool :=
  match v, w with
  | StringFlag _, StringFlag _ | IntFlag _, IntFlag _ | BoolFlag _, BoolFlag _ => true
  | _, _ => false
  end.
Definition defines (fs doc : flag_set) : bool :=
  forallb (λ f, plain_name f.1 && match lookup_flag f.1 fs with Some w => kinds_agree w f.2 | None => false end) doc.

Lemma written_declared fs doc l : defines fs doc = true → written doc l → Forall (declared fs) l.
Proof.
  unfold defines. intros Hd [_ Hl]. eapply Forall_impl; [exact Hl|]. intros f (v & Hv & Hk).
  rewrite forallb_true in Hd. specialize (Hd (f.1, v) (lookup_flag_some _ _ _ Hv)). cbn in Hd.
  apply andb_true_iff in Hd as [Hn Hw]. destruct (lookup_flag f.1 fs) as [w|] eqn:E; [|done].
  split; [done|]. exists w. split; [done|]. by destruct w, v, f.2.
Qed.

Lemma Parse_written fs doc l : defines fs doc = true → written doc l →
  Parse fs (l ≫= flag_words) = Ok (assign_all l fs, []).
Proof.
  intros Hd Hw. rewrite <- (app_nil_r (l ≫= flag_words)), Parse_all_words; [done|]. by eapply written_declared.
Qed.

End parse.

Definition ascii_print : PrintTables := {| print_table := λ _, true |}.

