(* ===== verification/Proxies.v ===== *)
(** * File transfers to a target (downstream/protocols.go, downstream.go)

    [ProxySubsystem] and [ProxySCP] with [proxySession]: what they check before a
    channel runs, and then the copying goroutines, the [select] over the end of the
    context and of the transfer, and the deferred calls.  [Connect] puts a
    connection and a shell together. *)

From S2P Require Import Prelude GoStrings StringFacts Effects Net Schema StoreTargets Auth SshKeys Scp Downstream ProxyShell Flags.

(** ** [ProxySubsystem] *)

Record subsystem_calls := MkSubsystemCalls {
  sb_OpenChannel : string → result unit;
  sb_SendRequest : string → string → result bool;
}.

(** The channel is open; what is not [Ok] is returned with it closed. *)
Definition request_subsystem (calls : subsystem_calls) (subsystem : string) : result unit :=
  match sb_SendRequest calls "subsystem" subsystem with
  | Ok true => Ok tt
  | Ok false => Err (Wrap "start downstream subsystem" (Msg "request rejected"))
  | Err e => Err (Wrap "start downstream subsystem" e)
  end.

Definition start_subsystem `{PrintTables} (calls : subsystem_calls) (subsystem : string) : result unit :=
  if negb (subsystem =s "sftp") then Err (Msg ("unsupported subsystem " +:+ Quote subsystem))
  else match sb_OpenChannel calls "session" with
       | Err e => Err (Wrap "create downstream subsystem channel" e)
       | Ok _ => request_subsystem calls subsystem
       end.

(** The three copies: to the target, from it, and of its error output *)
Record subsystem := MkSubsystem {
  su_up : stream;
  su_down : stream;
  su_stderr : stream;
  su_ctx : option error;
  su_closed : bool;
  su_returned : option (result unit);
}.

Definition subsystem_start (up down stderr : string) (up_end down_end stderr_end : result unit) : subsystem :=
  MkSubsystem (copying up up_end) (copying down down_end) (copying stderr stderr_end) None false None.

(** The [select], and the deferred [channel.Close()] *)
Definition subsystem_moves (s : subsystem) : list subsystem :=
  let returns r := MkSubsystem (su_up s) (su_down s) (su_stderr s) (su_ctx s) true (Some r) in
  match su_returned s with
  | Some _ => []
  | None =>
    match su_ctx s with Some e => [returns (Err e)] | None => [] end
    ++ match st_result (su_down s) with Some r => [returns r] | None => [] end
  end.

Inductive subsystem_step : subsystem → subsystem → Prop :=
  | subsystem_own s s' : s' ∈ subsystem_moves s → subsystem_step s s'
  | subsystem_ctx s e : su_ctx s = None →
      subsystem_step s (MkSubsystem (su_up s) (su_down s) (su_stderr s) (Some e) (su_closed s) (su_returned s))
  | subsystem_up s x : copy_step (su_up s) x →
      subsystem_step s (MkSubsystem x (su_down s) (su_stderr s) (su_ctx s) (su_closed s) (su_returned s))
  | subsystem_down s x : copy_step (su_down s) x →
      subsystem_step s (MkSubsystem (su_up s) x (su_stderr s) (su_ctx s) (su_closed s) (su_returned s))
  | subsystem_stderr s x : copy_step (su_stderr s) x →
      subsystem_step s (MkSubsystem (su_up s) (su_down s) x (su_ctx s) (su_closed s) (su_returned s))
  | subsystem_cut s r1 r2 r3 : su_closed s = true →
      st_result (su_down s) = None →
      subsystem_step s (MkSubsystem (cut r1 (su_up s)) (cut r2 (su_down s)) (cut r3 (su_stderr s)) (su_ctx s) true (su_returned s)).

(** ** [ProxySCP] and [proxySession] *)

(** [sn_exit]: how the program on the target ended; [sn_waited]: what [Wait]
    returned to its goroutine; [sn_exits]: the calls of [inbound.Exit] *)
Record session := MkSession {
  sn_stdout : stream;
  sn_stderr : stream;
  sn_exit : option (option wait_error);
  sn_waited : option (option wait_error);
  sn_ctx : option error;
  sn_closed : bool;
  sn_exits : list Z;
  sn_returned : option (result unit);
}.

Record session_calls := MkSessionCalls {
  ss_NewSession : result unit;
  ss_Start : string → result unit;
}.

Definition start_session (calls : session_calls) (command : string) : result unit :=
  match ss_NewSession calls with
  | Err e => Err (Wrap "create downstream session" e)
  | Ok _ =>
    match ss_Start calls command with
    | Err e => Err (Wrap "start downstream protocol" e)
    | Ok _ => Ok tt
    end
  end.

(** The command that is started on the target *)
Definition ProxySCP `{Shlex} (calls : session_calls) (raw : string) : result string :=
  let! command := SafeSCPCommand raw in
  let! _ := start_session calls command in
  Ok command.

Definition session_start (stdout stderr : string) (stdout_end stderr_end : result unit) : session :=
  MkSession (copying stdout stdout_end) (copying stderr stderr_end) None None None false [] None.

Section session.
(** The [*gossh.ExitError] as an error *)
Context (exit_error : Z → error).

(** What [Wait] returns once the program has ended and both copies are over *)
Definition session_wait (s : session) : option (option wait_error) :=
  match sn_exit s, st_result (sn_stdout s), st_result (sn_stderr s) with
  | Some (Some w), Some _, Some _ => Some (Some w)
  | Some None, Some (Err e), Some _ => Some (Some (OtherError e))
  | Some None, Some (Ok _), Some (Err e) => Some (Some (OtherError e))
  | Some None, Some (Ok _), Some (Ok _) => Some None
  | _, _, _ => None
  end.

Definition session_error (w : option wait_error) : result unit :=
  match w with
  | None => Ok tt
  | Some (ExitError n) => Err (exit_error n)
  | Some (OtherError e) => Err e
  end.

(** The [select]; [defer sess.Close()] *)
Definition session_moves (s : session) : list session :=
  match sn_returned s with
  | Some _ => []
  | None =>
    match sn_ctx s with
    | Some e => [MkSession (sn_stdout s) (sn_stderr s) (sn_exit s) (sn_waited s) (sn_ctx s) true (sn_exits s) (Some (Err e))]
    | None => []
    end ++
    match sn_waited s with
    | Some w =>
      [MkSession (sn_stdout s) (sn_stderr s) (sn_exit s) (sn_waited s) (sn_ctx s) true
         (match w with Some (ExitError n) => sn_exits s ++ [n] | _ => sn_exits s end) (Some (session_error w))]
    | None => []
    end
  end.

Inductive session_step : session → session → Prop :=
  | session_own s s' : s' ∈ session_moves s → session_step s s'
  | session_ctx s e : sn_ctx s = None →
      session_step s (MkSession (sn_stdout s) (sn_stderr s) (sn_exit s) (sn_waited s) (Some e) (sn_closed s) (sn_exits s) (sn_returned s))
  | session_ends s w : sn_exit s = None →
      session_step s (MkSession (sn_stdout s) (sn_stderr s) (Some w) (sn_waited s) (sn_ctx s) (sn_closed s) (sn_exits s) (sn_returned s))
  | session_stdout s x : copy_step (sn_stdout s) x →
      session_step s (MkSession x (sn_stderr s) (sn_exit s) (sn_waited s) (sn_ctx s) (sn_closed s) (sn_exits s) (sn_returned s))
  | session_stderr s x : copy_step (sn_stderr s) x →
      session_step s (MkSession (sn_stdout s) x (sn_exit s) (sn_waited s) (sn_ctx s) (sn_closed s) (sn_exits s) (sn_returned s))
  | session_waits s w : sn_waited s = None → session_wait s = Some w →
      session_step s (MkSession (sn_stdout s) (sn_stderr s) (sn_exit s) (Some w) (sn_ctx s) (sn_closed s) (sn_exits s) (sn_returned s))
  | session_lost s e : sn_waited s = None →
      session_step s (MkSession (sn_stdout s) (sn_stderr s) (sn_exit s) (Some (Some (OtherError e))) (sn_ctx s) (sn_closed s) (sn_exits s) (sn_returned s)).

End session.

(** ** [Connect]: the shell runs on the client that was dialled, which is closed
    afterwards *)

Inductive connect_effect :=
  | OnDial (e : dial_effect)
  | ShellRan
  | ClientClosed.

Definition Connect `{KeyFormats, Ssh} (shell : ssh_client → result unit) (t : Target) (credential : Payload)
    (forwarded : option agent_signers) : result unit * list connect_effect :=
  match Dial t credential forwarded with
  | (Err e, tr) => (Err e, OnDial <$> tr)
  | (Ok client, tr) => (shell client, (OnDial <$> tr) ++ [ShellRan; ClientClosed])
  end.

(** ** What a transfer's result says

    The results of [ProxySubsystem] and [proxySession], on every interleaving of
    their copies with the end of the context. *)

(** ** The subsystem *)

Section subsystem.
Context (up down stderr : string) (up_end down_end stderr_end : result unit).

Definition subsystem_reachable : subsystem → Prop :=
  rtc subsystem_step (subsystem_start up down stderr up_end down_end stderr_end).

(** Until the return nothing is cut off; afterwards the result is known. *)
Definition subsystem_ok (s : subsystem) : Prop :=
  match su_returned s with
  | None => stream_ok down down_end (su_down s) ∧ stream_ok up up_end (su_up s) ∧ su_closed s = false
  | Some (Ok _) => stream_ok down down_end (su_down s) ∧ st_result (su_down s) = Some (Ok tt) ∧ su_closed s = true
  | Some (Err e) => (su_ctx s = Some e ∨ st_result (su_down s) = Some (Err e)) ∧ su_closed s = true
  end.

Lemma subsystem_own_ok s s' : s' ∈ subsystem_moves s → subsystem_ok s → subsystem_ok s'.
Proof.
  unfold subsystem_moves, subsystem_ok. destruct (su_returned s); [by intros ?%not_elem_of_nil|].
  rewrite elem_of_app. intros [H|H] (Hd & Hu & Hc).
  - destruct (su_ctx s) as [e|] eqn:E; [|by apply not_elem_of_nil in H]. apply list_elem_of_singleton in H as ->. cbn. by auto.
  - destruct (st_result (su_down s)) as [[[]|e]|] eqn:E; [| |by apply not_elem_of_nil in H];
      apply list_elem_of_singleton in H as ->; cbn; auto.
Qed.

Lemma subsystem_step_ok s s' : subsystem_step s s' → subsystem_ok s → subsystem_ok s'.
Proof.
  intros Hs Hok. destruct Hs as [s s' H|s e H|s x H|s x H|s x H|s r1 r2 r3 H Hn]; [by eapply subsystem_own_ok|..];
    unfold subsystem_ok in *; cbn; destruct (su_returned s) as [[[]|e']|]; try done.
  - destruct Hok as [[?|?] ?]; [congruence|by auto].
  - destruct Hok as (Hd & Hu & Hc). split_and!; [done| |done]. by eapply copy_step_ok.
  - destruct Hok as (_ & Hd & _). by destruct (copy_step_done _ _ _ H Hd).
  - destruct Hok as [[?|Hd] ?]; [by auto|]. by destruct (copy_step_done _ _ _ H Hd).
  - destruct Hok as (Hd & Hu & Hc). split_and!; [|done|done]. by eapply copy_step_ok.
  - destruct Hok as (_ & Hd & _). congruence.
  - destruct Hok as [[?|Hd] ?]; [by auto|congruence].
  - destruct Hok as (_ & _ & Hc). congruence.
Qed.

Lemma start_subsystem_ok `{PrintTables} calls name : start_subsystem calls name = Ok tt →
  name = "sftp" ∧ is_ok (sb_OpenChannel calls "session") = true ∧ sb_SendRequest calls "subsystem" name = Ok true.
Proof.
  unfold start_subsystem, request_subsystem. destruct (name =s "sftp") eqn:E; [|done]. apply String.eqb_eq in E as ->. cbn [negb].
  destruct (sb_OpenChannel _ _); [|done]. by destruct (sb_SendRequest _ _ _) as [[]|].
Qed.

(** A file transfer over the subsystem.  It starts only for "sftp", on a
    channel of the target's that accepted the request.  When [ProxySubsystem] returns nil, the
    client has every byte the target sent, in order, to the end of the target's
    output; an error is that of this copy or the end of the client's session; and
    the channel is closed in each case. *)
Theorem subsystem_result_is_true `{PrintTables} calls name s r :
  start_subsystem calls name = Ok tt → subsystem_reachable s → su_returned s = Some r →
  (name = "sftp" ∧ is_ok (sb_OpenChannel calls "session") = true ∧ sb_SendRequest calls "subsystem" name = Ok true) ∧
  su_closed s = true ∧
  match r with
  | Ok _ => st_passed (su_down s) = down ∧ down_end = Ok tt
  | Err e => su_ctx s = Some e ∨ st_result (su_down s) = Some (Err e)
  end.
Proof.
  intros Hstart Hr E. split; [by apply start_subsystem_ok|]. assert (subsystem_ok s) as Hok.
  { assert (subsystem_ok (subsystem_start up down stderr up_end down_end stderr_end)) as H0
      by (split_and!; [apply copying_ok|apply copying_ok|done]).
    revert H0. induction Hr as [|s s1 s' Hs _ IH]; [done|]. intros H0. apply IH; [done|]. by eapply subsystem_step_ok. }
  unfold subsystem_ok in Hok. rewrite E in Hok. destruct r as [[]|e].
  - destruct Hok as ([Ha He Hd] & Hdone & Hc). split; [done|]. destruct (Hd Hdone) as [Hs ->].
    by rewrite Hs, append_nil_r in Ha.
  - by destruct Hok.
Qed.

End subsystem.

(** ** The session of a transfer *)

Section session.
Context (exit_error : Z → error) (stdout stderr : string) (stdout_end stderr_end : result unit).

Definition session_reachable : session → Prop :=
  rtc (session_step exit_error) (session_start stdout stderr stdout_end stderr_end).

(** What is known of the error [Wait] returned *)
Definition session_waited (s : session) (w : option wait_error) : Prop :=
  match w with
  | None => sn_exit s = Some None ∧ st_result (sn_stdout s) = Some (Ok tt) ∧ st_result (sn_stderr s) = Some (Ok tt)
  | Some (ExitError n) => sn_exit s = Some (Some (ExitError n))
  | Some (OtherError _) => True
  end.

Record session_ok (s : session) : Prop := {
  sx_stdout : stream_ok stdout stdout_end (sn_stdout s);
  sx_stderr : stream_ok stderr stderr_end (sn_stderr s);
  sx_waited : ∀ w, sn_waited s = Some w → session_waited s w;
  sx_returned : match sn_returned s with
    | None => sn_exits s = []
    | Some r => sn_closed s = true ∧
        ((∃ e, sn_ctx s = Some e ∧ r = Err e ∧ sn_exits s = []) ∨
         ∃ w, sn_waited s = Some w ∧ r = session_error exit_error w ∧
           sn_exits s = match w with Some (ExitError n) => [n] | _ => [] end)
    end;
}.

Lemma session_wait_ok s w : session_wait s = Some w → session_waited s w.
Proof.
  unfold session_wait, session_waited.
  destruct (sn_exit s) as [[[n|e]|]|], (st_result (sn_stdout s)) as [[[]|]|], (st_result (sn_stderr s)) as [[[]|]|];
    intros [= <-]; done.
Qed.

Lemma session_own_ok s s' : s' ∈ session_moves exit_error s → session_ok s → session_ok s'.
Proof.
  unfold session_moves. intros H [H1 H2 H3 H4]. destruct (sn_returned s); [by apply not_elem_of_nil in H|].
  apply elem_of_app in H as [H|H].
  - destruct (sn_ctx s) as [e|] eqn:E; [|by apply not_elem_of_nil in H]. apply list_elem_of_singleton in H as ->.
    split; try done. cbn. split; [done|]. left. by exists e.
  - destruct (sn_waited s) as [w|] eqn:E; [|by apply not_elem_of_nil in H]. apply list_elem_of_singleton in H as ->.
    split; try done. cbn. split; [done|]. right. exists w. rewrite H4. by destruct w as [[]|].
Qed.

Lemma session_step_ok s s' : session_step exit_error s s' → session_ok s → session_ok s'.
Proof.
  intros Hs Hok. destruct Hs as [s s' H|s e H|s w H|s x H|s x H|s w H Hw|s e H]; [by eapply session_own_ok|..];
    destruct Hok as [H1 H2 H3 H4]; split; cbn; try done; try (by eapply copy_step_ok).
  - destruct (sn_returned s); [|done]. destruct H4 as [Hc [(e' & E & _)|Hr]]; [congruence|]. split; [done|by right].
  - intros w' Hw. specialize (H3 w' Hw). unfold session_waited in *. cbn. destruct w' as [[]|]; [congruence|done|].
    destruct H3 as [? _]. congruence.
  - intros w' Hw. specialize (H3 w' Hw). unfold session_waited in *. cbn. destruct w' as [[]|]; [done..|].
    destruct H3 as (_ & Hd & _). by destruct (copy_step_done _ _ _ H Hd).
  - intros w' Hw. specialize (H3 w' Hw). unfold session_waited in *. cbn. destruct w' as [[]|]; [done..|].
    destruct H3 as (_ & _ & Hd). by destruct (copy_step_done _ _ _ H Hd).
  - intros w' [= <-]. by apply session_wait_ok in Hw.
  - destruct (sn_returned s); [|done]. destruct H4 as [Hc [Hr|(w' & E & _)]]; [|congruence]. split; [done|by left].
  - intros w' [= <-]. done.
  - destruct (sn_returned s); [|done]. destruct H4 as [Hc [Hr|(w' & E & _)]]; [|congruence]. split; [done|by left].
Qed.

(** C37: A transfer by the legacy protocol.  When [proxySession] returns nil, the
    program on the target ended with status zero and the client has all its
    output; when the program ended with another status and that was waited for,
    the client's session was ended with this status, once; an error is that of
    the program, of the copying or connection, or the end of the client's
    session; and the target's session is closed in each case. *)
Theorem session_result_is_true s r : session_reachable s → sn_returned s = Some r →
  sn_closed s = true ∧
  match r with
  | Ok _ => sn_exit s = Some None ∧ st_passed (sn_stdout s) = stdout ∧ st_passed (sn_stderr s) = stderr ∧ sn_exits s = []
  | Err e =>
    (∃ n, sn_exit s = Some (Some (ExitError n)) ∧ e = exit_error n ∧ sn_exits s = [n]) ∨
    sn_exits s = [] ∧ (sn_ctx s = Some e ∨ sn_waited s = Some (Some (OtherError e)))
  end.
Proof.
  intros Hr E. assert (session_ok s) as [Ho He Hw Hret].
  { assert (session_ok (session_start stdout stderr stdout_end stderr_end)) as H0
      by (split; [apply copying_ok|apply copying_ok|done|done]).
    revert H0. induction Hr as [|s s1 s' Hs _ IH]; [done|]. intros H0. apply IH; [done|]. by eapply session_step_ok. }
  rewrite E in Hret. destruct Hret as [Hc [(e & Ectx & -> & Hx)|(w & Ew & -> & Hx)]]; (split; [done|]); [by auto|].
  specialize (Hw w Ew). destruct w as [[n|e]|]; cbn in *; [left; by exists n|by auto|].
  destruct Hw as (Hexit & Hso & Hse). destruct Ho as [Hoa _ Hod], He as [Hea _ Hed].
  destruct (Hod Hso) as [E1 _], (Hed Hse) as [E2 _]. rewrite E1, append_nil_r in Hoa. rewrite E2, append_nil_r in Hea. by split_and!.
Qed.

End session.

(** ** Two transfers *)

Definition sent_file : subsystem :=
  MkSubsystem (copying "get" (Ok tt)) (MkStream "" (Ok tt) "file" (Some (Ok tt))) (copying "warning" (Ok tt)) None true
    (Some (Ok tt)).

Lemma sent_file_reached : subsystem_reachable "get" "file" "warning" (Ok tt) (Ok tt) (Ok tt) sent_file.
Proof.
  unfold subsystem_reachable.
  eapply rtc_l; [apply subsystem_down; apply (copy_passes "file" "" (Ok tt) "")|].
  eapply rtc_l; [apply subsystem_down; apply copy_ends|].
  eapply rtc_l; [apply subsystem_own; cbn; left|]. apply rtc_refl.
Qed.

Definition sftp_target : subsystem_calls := MkSubsystemCalls (λ _, Ok tt) (λ _ name, Ok (name =s "sftp")).

Definition every_rune : PrintTables := {| print_table := λ _, true |}.

(** The copy of the error output is not waited for: the client need not see it. *)
Lemma subsystem_result_is_true_witness :
  su_returned sent_file = Some (Ok tt) ∧ st_passed (su_stderr sent_file) = "" ∧ st_passed (su_down sent_file) = "file".
Proof.
  split; [reflexivity|]. split; [reflexivity|].
  apply (@subsystem_result_is_true "get" "file" "warning" (Ok tt) (Ok tt) (Ok tt) every_rune sftp_target "sftp" sent_file (Ok tt) eq_refl
    sent_file_reached eq_refl).
Defined.

Definition exit_text (n : Z) : error := Ext ("Process exited with status " +:+ Itoa n).

Definition failed_copy : session :=
  MkSession (MkStream "" (Ok tt) "" (Some (Ok tt))) (MkStream "" (Ok tt) "no such file" (Some (Ok tt)))
    (Some (Some (ExitError 1))) (Some (Some (ExitError 1))) None true [1] (Some (Err (exit_text 1))).

Lemma failed_copy_reached : session_reachable exit_text "" "no such file" (Ok tt) (Ok tt) failed_copy.
Proof.
  unfold session_reachable.
  eapply rtc_l; [apply session_stderr; apply (copy_passes "no such file" "" (Ok tt) "")|].
  eapply rtc_l; [apply session_stderr; apply copy_ends|].
  eapply rtc_l; [apply session_stdout; apply copy_ends|].
  eapply rtc_l; [apply (session_ends _ _ (Some (ExitError 1))); reflexivity|].
  eapply rtc_l; [apply (session_waits _ _ (Some (ExitError 1))); reflexivity|].
  eapply rtc_l; [apply session_own; cbn; left|]. apply rtc_refl.
Qed.

Lemma session_result_is_true_witness :
  sn_returned failed_copy = Some (Err (exit_text 1)) ∧ sn_closed failed_copy = true ∧ sn_exits failed_copy = [1].
Proof.
  split; [reflexivity|].
  destruct (session_result_is_true exit_text "" "no such file" (Ok tt) (Ok tt) failed_copy (Err (exit_text 1))
    failed_copy_reached eq_refl) as [Hc [(n & Hn & _ & Hx)|[Hx _]]].
  - split; [exact Hc|]. exact (eq_trans Hx (f_equal (λ w, match w with Some (Some (ExitError k)) => [k] | _ => [] end) (eq_sym Hn))).
  - discriminate Hx.
Defined.
