(* ===== verification/Commands.v ===== *)
(** * The administrator's commands ([cmd/sshgatew/main.go])

    [users], [groups], [targets], [grants] and [audit], as programs on the
    database and the standard output.  The files, the standard input, the probe
    of a host and [crypto/rand] are what the environment answers; prompts and the
    diagnostics of package flag go to the error output, which is not modelled. *)

From S2P Require Import Prelude GoStrings Json GoTime Effects SshKeys Net Sql Schema Names StoreUsers Paths.
From S2P Require Import StoreOIDC StoreTargets StoreAccess StoreAudit StoreCalls Auth Config Downstream Secrets.
From S2P Require Import MenuCommands Flags.

(** ** The world of a command *)

(** The database and what was printed *)
Record console := MkConsole { con_db : db; con_out : string }.

Definition con_put (d : db) (c : console) : console := MkConsole d (con_out c).

(** A call of the store *)
Definition store {A} (p : prog db A) : prog console A := zoom con_db con_put p.

(** [fmt.Fprintf(out, ...)]: what writing returns is ignored. *)
Definition print (text : string) : prog console unit :=
  atomic (λ c, (tt, MkConsole (con_db c) (con_out c +:+ text))).

Definition tab : string := str1 (chr 0x09).

(** The standard input: a terminal, which [term.ReadPassword] reads a line from,
    or else what [io.ReadAll] gives *)
Inductive stdin :=
  | Terminal (password : string) (err : option error)
  | Stream (data : string) (err : option error).

(** [cli_probe]: the dial, the key the callback saw, the handshake; [cli_write]: what
    the standard output returns for a text, after what was written to it *)
Record cli_env := MkCliEnv {
  cli_ReadFile : string → result string;
  cli_Lstat : string → result FileInfo;
  cli_in : stdin;
  cli_rand : result string;
  cli_probe : string → result unit * option SshKey * result unit;
  cli_write : string → string → result unit;
}.

Definition fails {A} (e : error) : prog console (result A) := Ret (Err e).

(** The layout of [time.RFC3339] *)
Definition RFC3339 : string := "2006-01-02T15:04:05Z07:00".

(** [readPublicKey] of a file that was read: the key, its canonical line and its
    fingerprint *)
Definition public_key_in `{UnicodeTables, KeyFormats} (file : result string) : result (SshKey * string * string) :=
  match file with
  | Err err => Err err
  | Ok b =>
    match ParseAuthorizedKey b with
    | Err err => Err (Wrap "parse authorized key" err)
    | Ok (k, _, _) => Ok (k, canonical_key k, FingerprintSHA256 k)
    end
  end.

Section commands.
Context `{UnicodeTables, Rowids, TimeParser, KeyFormats, Aead, PayloadCodec, PrintTables}.
Context (cfg : Config) (e : cli_env).

Definition auditLocal (event_type : string) (details : list (string * jvalue)) : prog console (result unit) :=
  store (Audit (event None "local-admin" "local" event_type None "success" (jsonString details))).

(** ** users *)

Definition user_text (u : User) : string :=
  pad_right 32 (User_Username u) +:+ " " +:+ pad_right 8 (User_Role u) +:+ " "
  +:+ pad_right 8 (if User_TOTPEnabled u then "totp-on" else "totp-off") +:+ " "
  +:+ (if User_Enabled u then "enabled" else "disabled") +:+ newline.

(** [for _, x := range xs { fmt.Fprintf(out, ...) }; return nil] *)
Fixpoint print_lines {A} (line : A → string) (xs : list A) : prog console (result unit) :=
  match xs with
  | [] => Ret (Ok tt)
  | x :: xs => let* _ := print (line x) in print_lines line xs
  end.

Definition readPublicKey (path : string) : result (SshKey * string * string) :=
  public_key_in (cli_ReadFile e path).

Definition users_list : prog console (result unit) :=
  let? us := store ListUsers in print_lines user_text us.

Definition users_add_flags : flag_set := [("role", StringFlag RoleMember)].

Definition users_add (args : list string) : prog console (result unit) :=
  match args with
  | name :: rest =>
    let? p := lift (Parse users_add_flags rest) in
    if negb (length p.2 =? 0)%nat then fails (Msg "usage: users add USER [--role role]")
    else
      let? u := store (AddUser name (flag_string "role" p.1)) in
      auditLocal "admin.user.add" [("role", JString (User_Role u)); ("username", JString (User_Username u))]
  | [] => fails (Msg "usage: users add USER [--role role]")
  end.

Definition users_enable (op : string) (args : list string) : prog console (result unit) :=
  match args with
  | [name] =>
    let? _ := store (SetUserEnabled name (op =s "enable")) in
    auditLocal ("admin.user." +:+ op) [("username", JString name)]
  | _ => fails (Msg ("usage: users " +:+ op +:+ " USER"))
  end.

Definition users_delete (args : list string) : prog console (result unit) :=
  match args with
  | [name] =>
    let? _ := store (DeleteUser name) in
    auditLocal "admin.user.delete" [("username", JString name)]
  | _ => fails (Msg "usage: users delete USER")
  end.

Definition users_set_role (args : list string) : prog console (result unit) :=
  match args with
  | [name; role] =>
    let? _ := store (SetUserRole name role) in
    auditLocal "admin.user.set_role" [("role", JString role); ("username", JString name)]
  | _ => fails (Msg "usage: users set-role USER admin|member")
  end.

Definition users_totp (args : list string) : prog console (result unit) :=
  match args with
  | [op; name] =>
    if negb (op =s "remove") then fails (Msg "usage: users totp remove USER")
    else
      let? u := store (UserByName name) in
      let? _ := store (RemoveUserTOTP (User_ID u)) in
      auditLocal "admin.user.totp.remove" [("username", JString (User_Username u))]
  | _ => fails (Msg "usage: users totp remove USER")
  end.

Definition keys_add_flags : flag_set := [("file", StringFlag ""); ("label", StringFlag "")].

Definition key_text (k : GatewayKey) : string := Key_Fingerprint k +:+ tab +:+ Key_Label k +:+ newline.

Definition userKeysCommand (args : list string) : prog console (result unit) :=
  match args with
  | op :: user :: rest =>
    if op =s "list" then
      let? ks := store (ListGatewayKeys user) in print_lines key_text ks
    else if op =s "add" then
      let? p := lift (Parse keys_add_flags rest) in
      if flag_string "file" p.1 =s "" then fails (Msg "--file is required")
      else
        let? k := lift (readPublicKey (flag_string "file" p.1)) in
        let? _ := store (AddGatewayKey user k.2 k.1.2 (flag_string "label" p.1)) in
        auditLocal "admin.gateway_key.add" [("fingerprint", JString k.2); ("username", JString user)]
    else if op =s "remove" then
      match rest with
      | [fp] =>
        let? _ := store (RemoveGatewayKey user fp) in
        auditLocal "admin.gateway_key.remove" [("fingerprint", JString fp); ("username", JString user)]
      | _ => fails (Msg "usage: users keys remove USER FINGERPRINT")
      end
    else fails (Msg ("unknown key operation " +:+ Quote op))
  | _ => fails (Msg "usage: users keys list|add|remove USER")
  end.

Definition usersCommand (args : list string) : prog console (result unit) :=
  match args with
  | [] => fails (Msg "users requires list, add, enable, disable, delete, set-role, keys, or totp")
  | op :: rest =>
    if op =s "list" then users_list
    else if op =s "add" then users_add rest
    else if (op =s "enable") || (op =s "disable") then users_enable op rest
    else if op =s "delete" then users_delete rest
    else if op =s "set-role" then users_set_role rest
    else if op =s "keys" then userKeysCommand rest
    else if op =s "totp" then users_totp rest
    else fails (Msg ("unknown users operation " +:+ Quote op))
  end.

(** ** groups *)

Definition group_text (members : list GroupMember) (g : Group) : string :=
  pad_right 32 (Group_Name g) +:+ " "
  +:+ Join (GM_Username <$> List.filter (λ m, GM_Group m =s Group_Name g) members) "," +:+ newline.

Definition groupsCommand (args : list string) : prog console (result unit) :=
  match args with
  | [] => fails (Msg "groups requires list, add, delete, or members")
  | op :: rest =>
    if op =s "list" then
      let? gs := store ListGroups in
      let? members := store ListGroupMembers in
      print_lines (group_text members) gs
    else if (op =s "add") || (op =s "delete") then
      match rest with
      | [name] =>
        let? _ := store (if op =s "add" then AddGroup name else DeleteGroup name) in
        auditLocal ("admin.group." +:+ op) [("group", JString name)]
      | _ => fails (Msg ("usage: groups " +:+ op +:+ " GROUP"))
      end
    else if op =s "members" then
      match rest with
      | [what; group; user] =>
        if negb (what =s "add") && negb (what =s "remove")
        then fails (Msg "usage: groups members add|remove GROUP USER")
        else
          let? _ := store (SetGroupMember group user (what =s "add")) in
          auditLocal ("admin.group.member." +:+ what) [("group", JString group); ("username", JString user)]
      | _ => fails (Msg "usage: groups members add|remove GROUP USER")
      end
    else fails (Msg ("unknown groups operation " +:+ Quote op))
  end.

(** ** targets *)

Definition fingerprintLine (line : string) : string :=
  match ParseHostKey line with Ok k => FingerprintSHA256 k | Err _ => "invalid" end.

Definition target_text (t : Target) : string :=
  pad_right 24 (Target_Name t) +:+ " " +:+ Target_RemoteUsername t +:+ "@" +:+ Target_Host t +:+ ":"
  +:+ Itoa (Target_Port t) +:+ " " +:+ pad_right 11 (Target_CredentialKind t) +:+ " "
  +:+ pad_right 8 (if Target_Enabled t then "enabled" else "disabled") +:+ " "
  +:+ fingerprintLine (Target_HostPublicKey t) +:+ newline.

(** [io.LimitReader(in, 1024*1024)]: what is beyond is not read, an error that
    comes there neither. *)
Definition input_limit : Z := 1024 * 1024.

Definition readSecret : string * option error :=
  match cli_in e with
  | Terminal password err => (password, err)
  | Stream data err =>
    let '(b, err) := if len data <? input_limit then (data, err)
                     else (take_str (Z.to_nat input_limit) data, None) in
    (TrimRight_ascii b [chr 0x0D; chr 0x0A], err)
  end.

Definition readCredential (kind keyFile : string) : result Payload :=
  if kind =s CredentialPassword then
    match readSecret with
    | (p, None) => Ok (password_payload p)
    | (_, Some err) => Err err
    end
  else if kind =s CredentialPrivateKey then
    if keyFile =s "" then Err (Msg "--key-file is required for private_key authentication")
    else match cli_ReadFile e keyFile with
    | Err err => Err err
    | Ok b =>
      match ParsePrivateKey b with
      | Ok _ => Ok (key_payload b "")
      | Err _ =>
        match readSecret with
        | (_, Some err) => Err err
        | (pass, None) =>
          match ParsePrivateKeyWithPassphrase b pass with
          | Err err => Err (Wrap "parse private key" err)
          | Ok _ => Ok (key_payload b pass)
          end
        end
      end
    end
  else if kind =s CredentialAgent then
    if keyFile =s "" then Err (Msg "--key-file is required and must contain the forwarded-agent public key")
    else match cli_ReadFile e keyFile with
    | Err err => Err err
    | Ok b =>
      match ParseAuthorizedKey b with
      | Err err => Err (Wrap "parse forwarded-agent public key" err)
      | Ok (key, _, rest) =>
        if negb (len (TrimSpace rest) =? 0)
        then Err (Wrap "parse forwarded-agent public key" (Msg "file must contain exactly one public key"))
        else Ok (agent_payload (canonical_key key))
      end
    end
  else Err (Msg "auth must be password, private_key, or forwarded_agent").

Definition obtainHostKey (address file : string) (accept : bool) : prog console (result SshKey) :=
  if negb (file =s "") then Ret (let! k := readPublicKey file in Ok k.1.1)
  else
    let '(dialled, observed, handshake) := cli_probe e address in
    match ScanHostKey dialled observed handshake with
    | Err err => fails err
    | Ok k =>
      let* _ := print ("Observed host key: " +:+ Key_Type k +:+ " " +:+ FingerprintSHA256 k +:+ newline) in
      if negb accept
      then fails (Msg "host key was not stored; verify the fingerprint out-of-band and repeat with --accept-host-key")
      else Ret (Ok k)
    end.

Definition target_add_flags : flag_set :=
  [("name", StringFlag ""); ("host", StringFlag ""); ("port", IntFlag 22); ("remote-user", StringFlag "");
   ("auth", StringFlag ""); ("key-file", StringFlag ""); ("host-key-file", StringFlag "");
   ("accept-host-key", BoolFlag false)].

(** [secrets.Load(cfg.MasterKeyPath)] and [cipher.Encrypt] *)
Definition sealed_for (id : Z) (kind : string) (payload : Payload) : result (string * string) :=
  let! key := Secrets.Load (cli_Lstat e (MasterKeyPath cfg)) in
  Secrets.Encrypt key (cli_rand e) id kind payload.

(** From the credential on: what fails removes the target. *)
Definition credential_of_new (id : Z) (kind keyFile : string) : prog console (result unit) :=
  let? payload := lift (readCredential kind keyFile) in
  let? sealed := lift (sealed_for id kind payload) in
  store (SetTargetCredential id sealed.1 sealed.2).

Definition targetAdd (args : list string) : prog console (result unit) :=
  let? p := lift (Parse target_add_flags args) in
  let fs := p.1 in
  let name := flag_string "name" fs in
  let host := flag_string "host" fs in
  let remote := flag_string "remote-user" fs in
  let kind := flag_string "auth" fs in
  if (name =s "") || (host =s "") || (remote =s "") || (kind =s "")
  then fails (Msg "--name, --host, --remote-user, and --auth are required")
  else
    let? hostKey := obtainHostKey (JoinHostPort host (Itoa (flag_int "port" fs)))
                      (flag_string "host-key-file" fs) (flag_bool "accept-host-key" fs) in
    let? t := store (AddTarget (mkNewTarget name host (flag_int "port" fs) remote kind (Key_Type hostKey)
                                  (canonical_key hostKey) None)) in
    let* stored := credential_of_new (Target_ID t) kind (flag_string "key-file" fs) in
    match stored with
    | Err err => let* _ := store (DeleteTarget (Target_Name t)) in fails err
    | Ok _ =>
      auditLocal "admin.target.add"
        [("credential_kind", JString kind); ("host_key", JString (FingerprintSHA256 hostKey));
         ("target", JString (Target_Name t))]
    end.

Definition target_edit_flags (t : Target) : flag_set :=
  [("host", StringFlag (Target_Host t)); ("port", IntFlag (Target_Port t));
   ("remote-user", StringFlag (Target_RemoteUsername t))].

Definition targetEdit (args : list string) : prog console (result unit) :=
  match args with
  | [] => fails (Msg "usage: targets edit NAME [--host H --port P --remote-user U]")
  | name :: rest =>
    let? t := store (TargetByName name) in
    let? p := lift (Parse (target_edit_flags t) rest) in
    let? _ := store (UpdateTarget (Target_Name t) (flag_string "host" p.1) (flag_int "port" p.1)
                       (flag_string "remote-user" p.1)) in
    auditLocal "admin.target.edit" [("target", JString (Target_Name t))]
  end.

Definition credential_flags (t : Target) : flag_set :=
  [("auth", StringFlag (Target_CredentialKind t)); ("key-file", StringFlag "")].

Definition targetCredential (name : string) (args : list string) : prog console (result unit) :=
  let? t := store (TargetByName name) in
  let? p := lift (Parse (credential_flags t) args) in
  let kind := flag_string "auth" p.1 in
  let? payload := lift (readCredential kind (flag_string "key-file" p.1)) in
  let? sealed := lift (sealed_for (Target_ID t) kind payload) in
  let? _ := store (SetTargetCredentialKind (Target_ID t) kind sealed.1 sealed.2) in
  auditLocal "admin.target.credential.replace" [("credential_kind", JString kind); ("target", JString name)].

Definition host_key_flags : flag_set := [("host-key-file", StringFlag ""); ("accept-host-key", BoolFlag false)].

Definition targetHostKey (args : list string) : prog console (result unit) :=
  let usage := Msg "usage: targets host-key scan|replace NAME [--host-key-file FILE --accept-host-key]" in
  match args with
  | op :: name :: rest =>
    if negb (op =s "scan") && negb (op =s "replace") then fails usage
    else
      let? t := store (TargetByName name) in
      let? p := lift (Parse host_key_flags rest) in
      let file := flag_string "host-key-file" p.1 in
      let accept := flag_bool "accept-host-key" p.1 in
      let? k := obtainHostKey (JoinHostPort (Target_Host t) (Itoa (Target_Port t))) file
                  ((op =s "scan") || accept) in
      let* _ := print ("Pinned:   " +:+ fingerprintLine (Target_HostPublicKey t) +:+ newline +:+
                       "Observed: " +:+ FingerprintSHA256 k +:+ newline) in
      if op =s "scan" then Ret (Ok tt)
      else if negb accept && (file =s "") then fails (Msg "--accept-host-key is required")
      else
        let? _ := store (SetTargetHostKey name (Key_Type k) (canonical_key k)) in
        auditLocal "admin.target.host_key.replace"
          [("fingerprint", JString (FingerprintSHA256 k)); ("target", JString name)]
  | _ => fails usage
  end.

Definition targetsCommand (args : list string) : prog console (result unit) :=
  match args with
  | [] => fails (Msg "targets requires list, add, edit, enable, disable, delete, credential, or host-key")
  | op :: rest =>
    if op =s "list" then let? ts := store ListTargets in print_lines target_text ts
    else if op =s "add" then targetAdd rest
    else if op =s "edit" then targetEdit rest
    else if (op =s "enable") || (op =s "disable") then
      match rest with
      | [name] =>
        let? _ := store (SetTargetEnabled name (op =s "enable")) in
        auditLocal ("admin.target." +:+ op) [("target", JString name)]
      | _ => fails (Msg ("usage: targets " +:+ op +:+ " NAME"))
      end
    else if op =s "delete" then
      match rest with
      | [name] =>
        let? _ := store (DeleteTarget name) in
        auditLocal "admin.target.delete" [("target", JString name)]
      | _ => fails (Msg "usage: targets delete NAME")
      end
    else if op =s "credential" then
      match rest with
      | what :: name :: rest =>
        if negb (what =s "replace")
        then fails (Msg "usage: targets credential replace NAME [--auth kind] [--key-file path]")
        else targetCredential name rest
      | _ => fails (Msg "usage: targets credential replace NAME [--auth kind] [--key-file path]")
      end
    else if op =s "host-key" then targetHostKey rest
    else fails (Msg ("unknown targets operation " +:+ Quote op))
  end.

(** ** grants *)

Definition grant_text (g : Grant) : string :=
  pad_right 24 (Grant_Target g) +:+ " " +:+ pad_right 8 (Grant_Kind g) +:+ " " +:+ Grant_Principal g +:+ newline.

Definition grants_flags : flag_set := [("target", StringFlag ""); ("user", StringFlag ""); ("group", StringFlag "")].

Definition grantsCommand (args : list string) : prog console (result unit) :=
  match args with
  | [] => fails (Msg "grants requires list, add, or remove")
  | op :: rest =>
    if op =s "list" then let? gs := store ListGrants in print_lines grant_text gs
    else if negb (op =s "add") && negb (op =s "remove") then fails (Msg "grants requires list, add, or remove")
    else
      let? p := lift (Parse grants_flags rest) in
      let target := flag_string "target" p.1 in
      let user := flag_string "user" p.1 in
      let group := flag_string "group" p.1 in
      if (target =s "") || Bool.eqb (user =s "") (group =s "")
      then fails (Msg "--target and exactly one of --user or --group are required")
      else
        let kind := if negb (group =s "") then "group" else "user" in
        let principal := if negb (group =s "") then group else user in
        let? _ := store (SetGrant target kind principal (op =s "add")) in
        auditLocal ("admin.grant." +:+ op)
          [("kind", JString kind); ("principal", JString principal); ("target", JString target)]
  end.

(** ** audit *)

(** [json.Encoder.Encode] of an event: its fields in the order of the struct *)
Definition encode_ref (r : option Z) : string := match r with Some id => Itoa id | None => "null" end.

Definition encode_field (name value : string) : string := quote_json name +:+ ":" +:+ value.

Definition encode_event (ev : AuditEvent) : string :=
  "{" +:+ Join
    [encode_field "ID" (Itoa (Audit_ID ev));
     encode_field "At" (quote_json (rfc3339_text (Audit_At ev)));
     encode_field "ActorUserID" (encode_ref (Audit_ActorUserID ev));
     encode_field "ClaimedUsername" (quote_json (Audit_ClaimedUsername ev));
     encode_field "SourceAddress" (quote_json (Audit_SourceAddress ev));
     encode_field "EventType" (quote_json (Audit_EventType ev));
     encode_field "TargetID" (encode_ref (Audit_TargetID ev));
     encode_field "Outcome" (quote_json (Audit_Outcome ev));
     encode_field "Details" (quote_json (Audit_Details ev))] ","
  +:+ "}" +:+ newline.

(** [enc.Encode(event)]: the text, when it can be written *)
Definition Encode (ev : AuditEvent) : prog console (result unit) :=
  atomic (λ c, match cli_write e (con_out c) (encode_event ev) with
               | Ok _ => (Ok tt, MkConsole (con_db c) (con_out c +:+ encode_event ev))
               | Err err => (Err err, c)
               end).

(** [for _, event := range events { if e = enc.Encode(event); e != nil { return e } }; return nil] *)
Fixpoint encode_events (events : list AuditEvent) : prog console (result unit) :=
  match events with
  | [] => Ret (Ok tt)
  | ev :: events => let? _ := Encode ev in encode_events events
  end.

Definition audit_list_flags : flag_set := [("limit", IntFlag 100)].
Definition audit_prune_flags : flag_set := [("before", StringFlag "")].

Definition audit_list (args : list string) : prog console (result unit) :=
  let? p := lift (Parse audit_list_flags args) in
  let? events := store (ListAudit (flag_int "limit" p.1)) in
  encode_events events.

Definition audit_prune (args : list string) : prog console (result unit) :=
  let? p := lift (Parse audit_prune_flags args) in
  match time_Parse RFC3339 (flag_string "before" p.1) with
  | None => fails (Msg "--before must be an RFC3339 timestamp")
  | Some t =>
    let? n := store (PruneAudit t) in
    let* _ := print ("Pruned " +:+ Itoa n +:+ " audit events." +:+ newline) in
    Ret (Ok tt)
  end.

Definition auditCommand (args : list string) : prog console (result unit) :=
  match args with
  | [] => audit_list []
  | op :: rest =>
    if op =s "list" then audit_list rest
    else if op =s "prune" then audit_prune rest
    else fails (Msg ("unknown audit operation " +:+ Quote op))
  end.

(** [run] never comes here without a word. *)
Definition adminCommand (op : string) (rest : list string) : prog console (result unit) :=
  if op =s "users" then usersCommand rest
  else if op =s "groups" then groupsCommand rest
  else if op =s "targets" then targetsCommand rest
  else if op =s "grants" then grantsCommand rest
  else if op =s "audit" then auditCommand rest
  else fails (Msg ("unknown command " +:+ Quote op)).

End commands.
