(* ===== verification/CommandsProps.v ===== *)
(** * What the administrator's commands do to the database

    A command changes the database as a whole or not at all; what it changes it
    records; and a host key is pinned only when it was confirmed. *)

From S2P Require Import Prelude GoStrings Json GoTime Effects SshKeys Net Sql Schema Names StoreUsers Paths.
From S2P Require Import StoreOIDC StoreTargets StoreAccess StoreAudit StoreWf StoreCalls.
From S2P Require Import StoreWhole Auth Config Downstream Secrets MenuCommands MenuSamples Flags Commands.

(** ** The effect of a command *)

(** The type of the event that records a change *)
Definition event_of (c : call) : option string :=
  match c with
  | AddUser_call _ _ => Some "admin.user.add"
  | SetUserEnabled_call _ b => Some (if b then "admin.user.enable" else "admin.user.disable")
  | DeleteUser_call _ => Some "admin.user.delete"
  | SetUserRole_call _ _ => Some "admin.user.set_role"
  | RemoveUserTOTP_call _ => Some "admin.user.totp.remove"
  | AddGatewayKey_call _ _ _ _ => Some "admin.gateway_key.add"
  | RemoveGatewayKey_call _ _ => Some "admin.gateway_key.remove"
  | AddGroup_call _ => Some "admin.group.add"
  | DeleteGroup_call _ => Some "admin.group.delete"
  | SetGroupMember_call _ _ b => Some (if b then "admin.group.member.add" else "admin.group.member.remove")
  | SetTargetEnabled_call _ b => Some (if b then "admin.target.enable" else "admin.target.disable")
  | DeleteTarget_call _ => Some "admin.target.delete"
  | UpdateTarget_call _ _ _ _ => Some "admin.target.edit"
  | SetTargetCredentialKind_call _ _ _ _ => Some "admin.target.credential.replace"
  | SetGrant_call _ _ _ b => Some (if b then "admin.grant.add" else "admin.grant.remove")
  | _ => None
  end.

Section effects.
Context `{UnicodeTables, RowidsLaws, TimeParser, KeyFormats, Aead, PayloadCodec, PrintTables}.
Context (cfg : Config) (e : cli_env).

(** The words of the command line *)
Context (words : list string).

(** The row of a command's audit event, and the log with it *)
Definition local_row (type : string) (details : list (string * jvalue)) (d : db) : audit_row :=
  Audit_row (new_rowid (ae_id <$> d.(audit_events))) (CURRENT_TIMESTAMP d) None "local-admin" "local" type None
    "success" (jsonString details).
Definition logged (type : string) (details : list (string * jvalue)) (d : db) : db :=
  set_audit_events (λ t, t ++ [local_row type details d]) d.

(** A host key from the file that was named, or seen at the address and accepted *)
Definition confirmed (address file : string) (accept : bool) (k : SshKey) : Prop :=
  (file ≠ "" ∧ ∃ line fp, readPublicKey e file = Ok (k, line, fp)) ∨
  (file = "" ∧ accept = true ∧
   let '(dialled, observed, handshake) := cli_probe e address in ScanHostKey dialled observed handshake = Ok k).

(** The target that the flags of [targets add] describe *)
Definition target_of_flags (fs : flag_set) (k : SshKey) : NewTarget :=
  mkNewTarget (flag_string "name" fs) (flag_string "host" fs) (flag_int "port" fs) (flag_string "remote-user" fs)
    (flag_string "auth" fs) (Key_Type k) (canonical_key k) None.

(** Nothing; old events deleted; one change and its event; a host key replaced;
    a target added with its credential, sealed for it *)
Inductive command_effect (d : db) : db → Prop :=
  | nothing_changed : command_effect d d
  | events_pruned t : command_effect d (final (PruneAudit t) d)
  | change_logged c type details d1 :
      event_of c = Some type → run (exec c) d = (Ok tt, d1) →
      command_effect d (logged type details d1)
  | host_key_replaced name rest fs more t k details d1 :
      words = "targets" :: "host-key" :: "replace" :: name :: rest → Parse host_key_flags rest = Ok (fs, more) →
      t ∈ d.(targets) → t_name t = name →
      confirmed (JoinHostPort (t_host t) (Itoa (t_port t))) (flag_string "host-key-file" fs)
        (flag_bool "accept-host-key" fs) k →
      run (SetTargetHostKey name (Key_Type k) (canonical_key k)) d = (Ok tt, d1) →
      command_effect d (logged "admin.target.host_key.replace" details d1)
  | target_added rest fs more k sealed payload details :
      words = "targets" :: "add" :: rest → Parse target_add_flags rest = Ok (fs, more) →
      let n := target_of_flags fs k in
      (∀ t, t ∈ d.(targets) → t_name t ≠ NT_Name n) →
      confirmed (JoinHostPort (NT_Host n) (Itoa (NT_Port n))) (flag_string "host-key-file" fs)
        (flag_bool "accept-host-key" fs) k →
      readCredential e (NT_CredentialKind n) (flag_string "key-file" fs) = Ok payload →
      sealed_for cfg e (new_rowid (t_id <$> d.(targets))) (NT_CredentialKind n) payload = Ok sealed →
      command_effect d (logged "admin.target.add" details (set_targets (insert_row (sealed_row n sealed d)) d)).

(** [settled d]: a command that fails leaves the database, and one that succeeds
    has an effect. *)
Definition settled (d : db) (r : result unit) (d' : db) : Prop :=
  match r with Err _ => d' = d | Ok _ => command_effect d d' end.

(** The program ends from the database with a value and a database of [Q],
    whatever was printed before. *)
Definition ends {A} (p : prog console (result A)) (d : db) (Q : result A → db → Prop) : Prop :=
  ∀ out, Q (value p (MkConsole d out)) (con_db (final p (MkConsole d out))).

Lemma run_store {A} (p : prog db A) d out :
  run (store p) (MkConsole d out) = (value p d, MkConsole (final p d) out).
Proof. unfold store. rewrite run_zoom; [done|done|done|by intros []]. Qed.

Lemma ends_ret {A} (r : result A) d (Q : result A → db → Prop) : Q r d → ends (Ret r) d Q.
Proof. by intros HQ out. Qed.

Lemma ends_lift {A B} (r : result A) (k : A → prog console (result B)) d (Q : result B → db → Prop) :
  (∀ err, Q (Err err) d) → (∀ a, r = Ok a → ends (k a) d Q) → ends (let? a := lift r in k a) d Q.
Proof.
  intros He Hk. unfold ends, bind_ok, lift. cbn. destruct r as [a|err]; [by apply Hk|]. intros out. apply He.
Qed.

Lemma ends_read {A B} (q : prog db (result A)) (k : A → prog console (result B)) d (Q : result B → db → Prop) :
  reads q → (∀ err, Q (Err err) d) → (∀ a, value q d = Ok a → ends (k a) d Q) →
  ends (let? a := store q in k a) d Q.
Proof.
  intros Hq He Hk out. unfold value, final. rewrite run_bind_ok, run_store, Hq.
  destruct (value q d) as [a|err]; [by apply Hk|apply He].
Qed.

Lemma ends_print {B} text (k : prog console (result B)) d (Q : result B → db → Prop) :
  ends k d Q → ends (let* _ := print text in k) d Q.
Proof.
  intros Hk out. unfold value, final. rewrite run_bind. apply (Hk (out +:+ text)).
Qed.

Lemma ends_lines {A} (line : A → string) xs d : ends (print_lines line xs) d (settled d).
Proof. induction xs as [|x xs IH]; [by apply ends_ret, nothing_changed|]. by apply ends_print. Qed.

Lemma ends_encoded events d : ends (encode_events e events) d (settled d).
Proof.
  induction events as [|ev events IH]; [by apply ends_ret, nothing_changed|]. intros out. cbn [encode_events].
  unfold value, final. rewrite run_bind_ok. cbn [run Encode atomic con_out con_db].
  destruct (cli_write e out (encode_event ev)); [apply IH|done].
Qed.

Lemma audit_local_run type details d out :
  Forall (λ kv : string * jvalue, marshallable kv.2) details →
  run (auditLocal type details) (MkConsole d out) = (Ok tt, MkConsole (logged type details d) out).
Proof.
  intros Hd. unfold auditLocal. rewrite run_store. unfold value, final, Audit, with_defaults, event, jsonString.
  cbn [Audit_Details Audit_Outcome Audit_ActorUserID Audit_TargetID Audit_ID Audit_At
       Audit_ClaimedUsername Audit_SourceAddress Audit_EventType String.eqb].
  change (marshal_map details =s "") with false. cbv iota. rewrite Unmarshal_marshal by done. done.
Qed.

(** A change of the store, then its event *)
Lemma ends_logged {A} (p : prog db (result A)) type details d :
  whole_at p d → (∀ a, Forall (λ kv : string * jvalue, marshallable kv.2) (details a)) →
  (∀ a, value p d = Ok a → command_effect d (logged (type a) (details a) (final p d))) →
  ends (let? a := store p in auditLocal (type a) (details a)) d (settled d).
Proof.
  intros Hw Hm He out. unfold value, final. rewrite run_bind_ok, run_store. unfold whole_at in Hw.
  unfold value, final in *. destruct (run p d) as [[a|err] d'] eqn:E; cbn [fst snd] in *.
  - rewrite audit_local_run by done. by apply He.
  - done.
Qed.

Lemma ends_change c type details d :
  whole_at (exec c) d → Forall (λ kv : string * jvalue, marshallable kv.2) details → event_of c = Some type →
  ends (let? _ := store (exec c) in auditLocal type details) d (settled d).
Proof.
  intros Hw Hm Ht. apply (ends_logged (exec c) (λ _, type) (λ _, details)); [done|done|].
  intros [] Hv. apply change_logged with c; [done|]. unfold value in Hv. unfold final.
  destruct (run (exec c) d). by cbn in *; subst.
Qed.

Lemma ends_host_key {B} address file accept (k : SshKey → prog console (result B)) d (Q : result B → db → Prop) :
  (∀ err, Q (Err err) d) → (∀ key, confirmed address file accept key → ends (k key) d Q) →
  ends (let? key := obtainHostKey e address file accept in k key) d Q.
Proof.
  intros He Hk. unfold obtainHostKey. destruct (file =s "") eqn:Ef; cbn [negb].
  - apply String.eqb_eq in Ef as ->. destruct (cli_probe e address) as [[dialled observed] handshake] eqn:Ep.
    destruct (ScanHostKey _ _ _) as [key|err] eqn:Es; [|intros out; apply He].
    intros out. unfold bind_ok at 1 2. unfold value, final. rewrite !run_bind. unfold value, final. rewrite !run_bind.
    unfold value, final. cbn [run print atomic fst snd]. destruct accept; cbn [negb run fails fst snd].
    + apply Hk. right. by rewrite Ep.
    + apply He.
  - apply String.eqb_neq in Ef. intros out. destruct (readPublicKey e file) as [[[key line] fp]|err] eqn:E; cbn.
    + apply Hk. left. eauto.
    + apply He.
Qed.

(** ** The commands *)

Definition settles (p : prog console (result unit)) : Prop := ∀ d, wf_db d → ends p d (settled d).

Lemma fails_ok err : settles (fails err).
Proof. intros d _. by apply ends_ret. Qed.

Lemma lines_ok {A} (q : prog db (result (list A))) line :
  reads q → settles (let? xs := store q in print_lines line xs).
Proof. intros Hq d _. apply ends_read; [done|done|]. intros xs _. apply ends_lines. Qed.

Lemma change_ok c type details :
  (∀ d, whole_at (exec c) d) → event_of c = Some type →
  Forall (λ kv : string * jvalue, marshallable kv.2) details →
  settles (let? _ := store (exec c) in auditLocal type details).
Proof. intros Hw Ht Hm d _. by apply ends_change. Qed.

Lemma parsed_ok fs args k :
  (∀ p, Parse fs args = Ok p → settles (k p)) → settles (let? p := lift (Parse fs args) in k p).
Proof. intros Hk d Hd. apply ends_lift; [done|]. intros p Hp. by apply Hk. Qed.

Lemma reads_ok {A} (q : prog db (result A)) k :
  reads q → (∀ a, settles (k a)) → settles (let? a := store q in k a).
Proof. intros Hq Hk d Hd. apply ends_read; [done|done|]. intros a _. by apply Hk. Qed.

Lemma if_ok (b : bool) p q : settles p → settles q → settles (if b then p else q).
Proof. by destruct b. Qed.

Lemma done_with_value {A} (p : prog db (result A)) d :
  run (done_with p) d = (match value p d with Ok _ => Ok tt | Err err => Err err end, final p d).
Proof. unfold done_with, value, final. rewrite run_bind_ok. by destruct (run p d) as [[] ?]. Qed.

Lemma users_add_ok args : settles (users_add args).
Proof.
  destruct args as [|name rest]; [apply fails_ok|]. apply parsed_ok. intros p _. apply if_ok; [apply fails_ok|].
  intros d Hd.
  apply (ends_logged _ (λ _, "admin.user.add")
           (λ u, [("role", JString (User_Role u)); ("username", JString (User_Username u))]));
    [apply AddUser_whole|by repeat constructor|].
  intros u Hu. apply change_logged with (AddUser_call name (flag_string "role" p.1)); [done|].
  cbn [exec]. by rewrite done_with_value, Hu.
Qed.

Lemma users_enable_ok op args : (op =s "enable") || (op =s "disable") = true → settles (users_enable op args).
Proof.
  intros Hop. destruct args as [|name []]; [apply fails_ok| |apply fails_ok].
  apply (change_ok (SetUserEnabled_call name (op =s "enable"))); [intros; apply SetUserEnabled_whole| |by repeat constructor].
  apply orb_true_iff in Hop as [Hop|Hop]; apply String.eqb_eq in Hop as ->; reflexivity.
Qed.

Lemma users_delete_ok args : settles (users_delete args).
Proof.
  destruct args as [|name []]; [apply fails_ok| |apply fails_ok].
  apply (change_ok (DeleteUser_call name)); [intros; apply DeleteUser_whole|done|by repeat constructor].
Qed.

Lemma users_set_role_ok args : settles (users_set_role args).
Proof.
  destruct args as [|name [|role []]]; try apply fails_ok.
  apply (change_ok (SetUserRole_call name role)); [intros; apply SetUserRole_whole|done|by repeat constructor].
Qed.

Lemma users_totp_ok args : settles (users_totp args).
Proof.
  destruct args as [|op [|name []]]; try apply fails_ok. apply if_ok; [apply fails_ok|].
  apply reads_ok; [done|]. intros u.
  apply (change_ok (RemoveUserTOTP_call (User_ID u))); [intros; apply RemoveUserTOTP_whole|done|by repeat constructor].
Qed.

Lemma list_keys_reads user : reads (ListGatewayKeys user).
Proof. by apply reads_bind_ok. Qed.

Lemma userKeysCommand_ok args : settles (userKeysCommand e args).
Proof.
  destruct args as [|op [|user rest]]; try apply fails_ok. apply if_ok; [apply lines_ok, list_keys_reads|].
  apply if_ok.
  - apply parsed_ok. intros p _. apply if_ok; [apply fails_ok|]. intros d Hd. apply ends_lift; [done|].
    intros k _. apply (ends_change (AddGatewayKey_call user k.2 k.1.2 (flag_string "label" p.1)));
      [apply AddGatewayKey_whole|by repeat constructor|done].
  - apply if_ok; [|apply fails_ok]. destruct rest as [|fp []]; try apply fails_ok.
    apply (change_ok (RemoveGatewayKey_call user fp)); [intros; apply RemoveGatewayKey_whole|done|by repeat constructor].
Qed.

Lemma usersCommand_ok args : settles (usersCommand e args).
Proof.
  destruct args as [|op rest]; [apply fails_ok|]. cbn [usersCommand].
  apply if_ok; [by apply lines_ok|]. apply if_ok; [apply users_add_ok|].
  destruct (_ || _) eqn:Hop; [by apply users_enable_ok|].
  apply if_ok; [apply users_delete_ok|]. apply if_ok; [apply users_set_role_ok|].
  apply if_ok; [apply userKeysCommand_ok|]. apply if_ok; [apply users_totp_ok|apply fails_ok].
Qed.

Lemma groupsCommand_ok args : settles (groupsCommand args).
Proof.
  destruct args as [|op rest]; [apply fails_ok|]. cbn [groupsCommand].
  apply if_ok; [apply reads_ok; [done|]; intros gs; apply reads_ok; [done|]; intros ms d _; apply ends_lines|].
  destruct (_ || _) eqn:Hop.
  - destruct rest as [|name []]; try apply fails_ok. destruct (op =s "add") eqn:Ea.
    + apply String.eqb_eq in Ea as ->.
      apply (change_ok (AddGroup_call name)); [intros; apply AddGroup_whole|done|by repeat constructor].
    + apply String.eqb_eq in Hop as ->.
      apply (change_ok (DeleteGroup_call name)); [intros; apply DeleteGroup_whole|done|by repeat constructor].
  - apply if_ok; [|apply fails_ok]. destruct rest as [|what [|group [|user []]]]; try apply fails_ok.
    destruct (negb _ && negb _) eqn:Ew; [apply fails_ok|].
    apply (change_ok (SetGroupMember_call group user (what =s "add"))); [intros; apply SetGroupMember_whole| |by repeat constructor].
    apply andb_false_iff in Ew as [Ew|Ew]; apply negb_false_iff, String.eqb_eq in Ew as ->; reflexivity.
Qed.

Lemma credential_run n kind keyFile d out :
  let id := t_id (target_row_of n d) in
  let added := set_targets (insert_row (target_row_of n d)) d in
  run (credential_of_new cfg e id kind keyFile) (MkConsole added out) =
    match (let! payload := readCredential e kind keyFile in sealed_for cfg e id kind payload) with
    | Ok sealed => (Ok tt, MkConsole (set_targets (insert_row (sealed_row n sealed d)) d) out)
    | Err err => (Err err, MkConsole added out)
    end.
Proof.
  intros id added. unfold credential_of_new, lift. rewrite run_bind_ok. cbn [run].
  destruct (readCredential _ _ _) as [payload|err]; cbn [rbind]; [|done].
  rewrite run_bind_ok. cbn [run]. destruct (sealed_for _ _ _ _ _) as [sealed|err]; [|done].
  rewrite run_store. unfold value, final, id, added. by rewrite store_credential.
Qed.

Lemma targetAdd_ok args : words = "targets" :: "add" :: args → settles (targetAdd cfg e args).
Proof.
  intros Hw. apply parsed_ok. intros [fs rest] Hp. cbn [fst]. apply if_ok; [apply fails_ok|].
  intros d Hd. apply ends_host_key; [done|]. intros k Hk out.
  change (mkNewTarget _ _ _ _ _ _ _ _) with (target_of_flags fs k). set (n := target_of_flags fs k). unfold value, final. rewrite run_bind_ok, run_store. unfold value, final.
  destruct (AddTarget_run n d) as [[err E]|[Hn E]]; rewrite E; cbn [fst snd]; [done|].
  change (Target_ID (target_of_row (target_row_of n d))) with (t_id (target_row_of n d)).
  change (Target_Name (target_of_row (target_row_of n d))) with (NT_Name n).
  rewrite run_bind. unfold value, final. rewrite credential_run.
  destruct (readCredential _ _ _) as [payload|err] eqn:Ep; cbn [rbind];
    [destruct (sealed_for _ _ _ _ _) as [sealed|err] eqn:Es|]; cbn [fst snd].
  - rewrite audit_local_run by (by repeat constructor).
    eapply target_added; [exact Hw|exact Hp| |exact Hk|exact Ep|exact Es].
    intros t Ht. by apply String.eqb_neq, Hn.
  - rewrite run_bind. unfold value, final. rewrite run_store. cbn [run fails fst snd con_db settled].
    by apply delete_added.
  - rewrite run_bind. unfold value, final. rewrite run_store. cbn [run fails fst snd con_db settled].
    by apply delete_added.
Qed.

Lemma targetEdit_ok args : settles (targetEdit args).
Proof.
  destruct args as [|name rest]; [apply fails_ok|]. apply reads_ok; [done|]. intros t.
  apply parsed_ok. intros p _.
  apply (change_ok (UpdateTarget_call (Target_Name t) (flag_string "host" p.1) (flag_int "port" p.1)
                      (flag_string "remote-user" p.1))); [intros; apply UpdateTarget_whole|done|by repeat constructor].
Qed.

Lemma lift_ok {A} (r : result A) k : (∀ a, r = Ok a → settles (k a)) → settles (let? a := lift r in k a).
Proof. intros Hk d Hd. apply ends_lift; [done|]. intros a Ha. by apply Hk. Qed.

Lemma targetCredential_ok name args : settles (targetCredential cfg e name args).
Proof.
  apply reads_ok; [done|]. intros t. apply parsed_ok. intros p _. apply lift_ok. intros payload _.
  apply lift_ok. intros sealed _.
  apply (change_ok (SetTargetCredentialKind_call (Target_ID t) (flag_string "auth" p.1) sealed.1 sealed.2));
    [intros; apply SetTargetCredentialKind_whole|done|by repeat constructor].
Qed.

Lemma targetHostKey_ok args : words = "targets" :: "host-key" :: args → settles (targetHostKey e args).
Proof.
  intros Hw. destruct args as [|op [|name rest]]; try apply fails_ok.
  cbn [targetHostKey]. destruct (negb _ && negb _) eqn:Hop; [apply fails_ok|].
  intros d Hd. apply ends_read; [done|done|]. intros t Ht. apply ends_lift; [done|]. intros [fs more] Hp.
  cbn [fst]. apply ends_host_key; [done|]. intros k Hk. apply ends_print.
  destruct (op =s "scan") eqn:Eo; [by apply ends_ret, nothing_changed|]. cbn [orb negb andb] in Hk, Hop.
  apply negb_false_iff, String.eqb_eq in Hop as ->.
  destruct (_ && _); [by apply ends_ret|].
  apply (ends_logged _ (λ _, "admin.target.host_key.replace")
           (λ _, [("fingerprint", JString (FingerprintSHA256 k)); ("target", JString name)]));
    [apply SetTargetHostKey_whole|by repeat constructor|].
  intros [] Hv. unfold value, TargetByName in Ht. cbn in Ht.
  destruct (query_row _ _) as [row|] eqn:E; [|discriminate]. injection Ht as <-.
  apply query_row_Some in E as [Hin Hname]. apply String.eqb_eq in Hname.
  eapply host_key_replaced; [exact Hw|exact Hp|exact Hin|exact Hname|exact Hk|].
  unfold value in Hv. unfold final.
  by destruct (run (SetTargetHostKey _ _ _) d); cbn in *; subst.
Qed.

Lemma targetsCommand_ok args : words = "targets" :: args → settles (targetsCommand cfg e args).
Proof.
  intros Hw. destruct args as [|op rest]; [apply fails_ok|]. cbn [targetsCommand].
  apply if_ok; [by apply lines_ok|].
  destruct (op =s "add") eqn:Ea; [apply String.eqb_eq in Ea as ->; by apply targetAdd_ok|]. apply if_ok; [apply targetEdit_ok|].
  destruct (_ || _) eqn:Hop.
  { destruct rest as [|name []]; try apply fails_ok.
    apply (change_ok (SetTargetEnabled_call name (op =s "enable"))); [intros; apply SetTargetEnabled_whole| |by repeat constructor].
    apply orb_true_iff in Hop as [Hop|Hop]; apply String.eqb_eq in Hop as ->; reflexivity. }
  apply if_ok.
  { destruct rest as [|name []]; try apply fails_ok.
    apply (change_ok (DeleteTarget_call name)); [intros; apply DeleteTarget_whole|done|by repeat constructor]. }
  apply if_ok.
  { destruct rest as [|what [|name rest]]; try apply fails_ok. apply if_ok; [apply fails_ok|apply targetCredential_ok]. }
  destruct (op =s "host-key") eqn:Eh; [apply String.eqb_eq in Eh as ->; by apply targetHostKey_ok|apply fails_ok].
Qed.

Lemma grantsCommand_ok args : settles (grantsCommand args).
Proof.
  destruct args as [|op rest]; [apply fails_ok|]. cbn [grantsCommand].
  apply if_ok; [by apply lines_ok|].
  destruct (negb _ && negb _) eqn:Hop; [apply fails_ok|]. apply parsed_ok. intros p _.
  apply if_ok; [apply fails_ok|].
  apply (change_ok (SetGrant_call _ _ _ (op =s "add"))); [intros; apply SetGrant_whole| |by repeat constructor].
  apply andb_false_iff in Hop as [Hop|Hop]; apply negb_false_iff, String.eqb_eq in Hop as ->; reflexivity.
Qed.

Lemma auditCommand_ok args : settles (auditCommand e args).
Proof.
  assert (∀ l, settles (audit_list e l)) as Hl.
  { intros l. apply parsed_ok. intros p _. apply reads_ok; [done|]. intros events d _. apply ends_encoded. }
  destruct args as [|op rest]; [apply Hl|]. cbn [auditCommand]. apply if_ok; [apply Hl|].
  apply if_ok; [|apply fails_ok]. apply parsed_ok. intros p _. destruct (time_Parse _ _) as [t|]; [|apply fails_ok].
  intros d Hd out. unfold value, final. rewrite run_bind_ok, run_store. unfold value. cbn [run PruneAudit atomic fst].
  unfold delete_audit_before. cbn [fst]. apply (events_pruned d t).
Qed.

Lemma adminCommand_ok op args : words = op :: args → settles (adminCommand cfg e op args).
Proof.
  intros Hw. unfold adminCommand. apply if_ok; [apply usersCommand_ok|]. apply if_ok; [apply groupsCommand_ok|].
  destruct (op =s "targets") eqn:Et; [apply String.eqb_eq in Et as ->; by apply targetsCommand_ok|].
  apply if_ok; [apply grantsCommand_ok|]. apply if_ok; [apply auditCommand_ok|apply fails_ok].
Qed.

(** ** What is pinned *)

(** The host key that a row pins *)
Definition pin (t : target_row) : string * string := (t_host_key_algorithm t, t_host_public_key t).
Definition pins_from (d d' : db) : Prop :=
  ∀ t, t ∈ d'.(targets) → ∃ t0, t0 ∈ d.(targets) ∧ pin t0 = pin t.

Lemma pins_same d d1 d2 : d2.(targets) = d1.(targets) → pins_from d d1 → pins_from d d2.
Proof. unfold pins_from. by intros ->. Qed.

Lemma pins_update d d1 d2 p f :
  d2.(targets) = update_rows p f d1.(targets) → (∀ t, pin (f t) = pin t) → pins_from d d1 → pins_from d d2.
Proof.
  unfold pins_from. intros -> Hf Hd t Ht. apply elem_of_update in Ht as (t1 & Ht1 & ->).
  destruct (p t1); [rewrite Hf|]; by apply Hd.
Qed.

Lemma pins_delete d d1 d2 p : d2.(targets) = delete_rows p d1.(targets) → pins_from d d1 → pins_from d d2.
Proof. unfold pins_from. intros -> Hd t Ht. apply elem_of_delete in Ht as [Ht _]. by apply Hd. Qed.

Lemma exec_keeps_pins c type d : event_of c = Some type → keeps (pins_from d) (exec c).
Proof.
  intros Hc. destruct c; try discriminate Hc.
  all: cbn [exec]; unfold_store; keeps_tac.
  all: apply keeps_atomic; intros d1 Hd1.
  all: unfold_statements; unfold set_grant_table; split_matches; try done; cbn [snd].
  all: first [by apply (pins_same d d1) | eapply pins_update; [reflexivity|by intros []|done]
             |eapply pins_delete; [reflexivity|done]].
Qed.

Lemma pins_self d : pins_from d d.
Proof. intros t Ht. by exists t. Qed.

Lemma logged_targets type details d : (logged type details d).(targets) = d.(targets).
Proof. done. Qed.

End effects.

Section properties.
Context `{UnicodeTables, RowidsLaws, TimeParser, KeyFormats, Aead, PayloadCodec, PrintTables}.

(** C23: a command of the administrator changes the database as a whole or not
    at all.  When it fails - a flag that does not parse, a file that cannot be
    read, a constraint, a credential that cannot be sealed - the database is what
    it was; when it succeeds, nothing was changed (a listing, a scan), or old
    events were deleted, or there was one change of the store, or a target was
    added with its credential, and exactly one event, of the kind of the change
    and with [local-admin] as its author, was appended to the log. *)
Theorem commands_change_all_or_nothing cfg e op args d out : wf_db d →
  match run (adminCommand cfg e op args) (MkConsole d out) with
  | (Ok _, c) => command_effect cfg e (op :: args) d (con_db c)
  | (Err _, c) => con_db c = d
  end.
Proof.
  intros Hd. pose proof (adminCommand_ok cfg e (op :: args) op args eq_refl d Hd out) as Hs.
  unfold value, final in Hs. by destruct (run _ _) as [[] c].
Qed.

(** C24: a host key is pinned only when it was confirmed.  After a command, every
    target has a host key that some target had before; or the command was
    [targets add] or [targets host-key replace], and the key is the one in the
    file of [--host-key-file], or, without that flag, the one that the target's
    own address presented while [--accept-host-key] was given. *)
Theorem pinned_keys_are_confirmed cfg e op args d out : wf_db d →
  ∀ t, t ∈ (con_db (final (adminCommand cfg e op args) (MkConsole d out))).(targets) →
  (∃ t0, t0 ∈ d.(targets) ∧ pin t0 = pin t) ∨
  ∃ flags rest fs more k, Parse flags rest = Ok (fs, more) ∧ pin t = (Key_Type k, canonical_key k) ∧
    (flags = target_add_flags ∧ op :: args = "targets" :: "add" :: rest ∨
     flags = host_key_flags ∧ op :: args = "targets" :: "host-key" :: "replace" :: t_name t :: rest) ∧
    confirmed e (JoinHostPort (t_host t) (Itoa (t_port t))) (flag_string "host-key-file" fs)
      (flag_bool "accept-host-key" fs) k.
Proof.
  intros Hd t. pose proof (adminCommand_ok cfg e (op :: args) op args eq_refl d Hd out) as Hs.
  unfold settled in Hs. destruct (value _ _); [|rewrite Hs; intros Ht; left; by apply pins_self].
  destruct Hs as [|t0|c type details d1 Hc E|name rest fs more t0 k details d1 Hw Hp Hin Hname Hk E
                  |rest fs more k sealed payload details Hw Hp n Hn Hk Hpay Hseal].
  - left. by apply pins_self.
  - intros Ht. left. by apply pins_self.
  - intros Ht. left. rewrite logged_targets in Ht.
    pose proof (keeps_final _ _ d (exec_keeps_pins c type d Hc) (pins_self d)) as Hf.
    unfold final in Hf. rewrite E in Hf. by apply Hf.
  - rewrite logged_targets. unfold SetTargetHostKey in E. rewrite run_bind in E. unfold final in E.
    cbn [run atomic update_target_host_key snd] in E. injection E as _ <-. cbn [targets set_targets].
    intros Ht. apply elem_of_update in Ht as (t1 & Ht1 & ->).
    destruct (t_name t1 =s name) eqn:En; [|left; by exists t1]. right. apply String.eqb_eq in En.
    assert (t1 = t0) as -> by (eapply (unique_on_eq t_name); [apply Hd|done|done|congruence]).
    exists host_key_flags, rest, fs, more, k. split_and!; [done|done|right; split; [done|by rewrite En]|exact Hk].
  - rewrite logged_targets. cbn [targets set_targets]. intros Ht. apply elem_of_insert in Ht as [Ht| ->].
    + left. by exists t.
    + right. exists target_add_flags, rest, fs, more, k. split_and!; [done|done|by left|exact Hk].
Qed.

(** ** What the flags say *)




End properties.

(** ** A session at the shell *)

(** A cipher and a codec that are quick to evaluate; nothing is opened here. *)
Definition shell_aead : Aead := {|
  Seal := λ key nonce plain ad, "sealed " +:+ plain +:+ " for " +:+ ad;
  Open := λ _ _ _ _, None |}.
Definition shell_codec : PayloadCodec := {|
  payload_Marshal := λ p, Password p +:+ PrivateKey p;
  payload_Unmarshal := λ _, None |}.

#[local] Existing Instances ascii_tables max_rowids max_rowids_laws sqlite_parser menu_formats shell_aead shell_codec
  ascii_print.

(** Two files: a host key, and a master key only its owner can read *)
Definition shell_env (entropy : result string) : cli_env := {|
  cli_ReadFile := λ path, if path =s "host.pub" then Ok "ssh-ed25519 AAAAhost" else Err (Ext "no such file");
  cli_Lstat := λ path, if path =s MasterKeyPath Default
                       then Ok (MkFile true 0x180 (Ok "0123456789abcdef0123456789abcdef"))
                       else Err (Ext "no such file");
  cli_in := Stream ("hunter2" +:+ newline) None;
  cli_rand := entropy;
  cli_probe := λ _, (Ok tt, Some (MkKey "ssh-ed25519" "AAAAseen"), Err (Ext "host key observed"));
  cli_write := λ _ _, Ok tt |}.

Definition add_words (more : list string) : list string :=
  ["add"; "--name"; "web2"; "--host=10.0.0.3"; "--remote-user"; "root"; "--auth"; "password"] ++ more.

Definition shell_run (entropy : result string) (args : list string) : result unit * console :=
  run (adminCommand Default (shell_env entropy) "targets" args) (MkConsole sample_db "").

(** Without confirmation the scanned key is printed and not stored; without
    entropy the row that was added is gone; with both there is a new target. *)
Example unconfirmed_key :
  shell_run (Ok "nonce") (add_words []) =
  (Err (Msg "host key was not stored; verify the fingerprint out-of-band and repeat with --accept-host-key"),
   MkConsole sample_db ("Observed host key: ssh-ed25519 SHA256:AAAAseen" +:+ newline)).
Proof. vm_compute. reflexivity. Qed.

Lemma commands_change_all_or_nothing_witness :
  (shell_run (Err (Ext "entropy")) (add_words ["--host-key-file"; "host.pub"])).1 = Err (Ext "entropy") ∧
  con_db (shell_run (Err (Ext "entropy")) (add_words ["--host-key-file"; "host.pub"])).2 = sample_db.
Proof.
  pose proof (commands_change_all_or_nothing Default (shell_env (Err (Ext "entropy"))) "targets"
    (add_words ["--host-key-file"; "host.pub"]) sample_db "" sample_db_wf) as Hc.
  fold (shell_run (Err (Ext "entropy")) (add_words ["--host-key-file"; "host.pub"])) in Hc.
  assert ((shell_run (Err (Ext "entropy")) (add_words ["--host-key-file"; "host.pub"])).1 = Err (Ext "entropy")) as E
    by (vm_compute; reflexivity).
  split; [exact E|]. destruct (shell_run _ _) as [r c]. cbn [fst snd] in *. rewrite E in Hc. exact Hc.
Defined.



Definition shell_db (entropy : result string) (args : list string) : db :=
  con_db (final (adminCommand Default (shell_env entropy) "targets" args) (MkConsole sample_db "")).

Lemma pinned_keys_are_confirmed_witness :
  ∃ t, t ∈ (shell_db (Ok "nonce") (add_words ["--accept-host-key"])).(targets) ∧
    t_name t = "web2" ∧
    ∃ flags rest fs more k, Parse flags rest = Ok (fs, more) ∧ pin t = (Key_Type k, canonical_key k) ∧
      (flags = target_add_flags ∧ "targets" :: add_words ["--accept-host-key"] = "targets" :: "add" :: rest ∨
       flags = host_key_flags ∧
       "targets" :: add_words ["--accept-host-key"] = "targets" :: "host-key" :: "replace" :: t_name t :: rest) ∧
      confirmed (shell_env (Ok "nonce")) (JoinHostPort (t_host t) (Itoa (t_port t)))
        (flag_string "host-key-file" fs) (flag_bool "accept-host-key" fs) k.
Proof.
  destruct (query_row (λ t, t_name t =s "web2") (shell_db (Ok "nonce") (add_words ["--accept-host-key"])).(targets))
    as [t|] eqn:E; [|exfalso; revert E; vm_compute; discriminate].
  apply query_row_Some in E as [Ht Hn]. apply String.eqb_eq in Hn. exists t. split; [exact Ht|]. split; [exact Hn|].
  destruct (pinned_keys_are_confirmed Default (shell_env (Ok "nonce")) "targets" (add_words ["--accept-host-key"])
              sample_db "" sample_db_wf t Ht) as [(t0 & Ht0 & Hp)|Hk]; [exfalso|exact Hk].
  assert (forallb (λ t, negb (t_name t =s "web2") || forallb (λ t0, negb (bool_decide (pin t0 = pin t))) sample_db.(targets))
            (shell_db (Ok "nonce") (add_words ["--accept-host-key"])).(targets) = true) as Hall by (vm_compute; reflexivity).
  rewrite forallb_true in Hall. specialize (Hall t Ht). rewrite Hn in Hall.
  change (negb ("web2" =s "web2")) with false in Hall. cbn [orb] in Hall.
  rewrite forallb_true in Hall. specialize (Hall t0 Ht0). by rewrite bool_decide_true in Hall.
Defined.
