(* ===== verification/Setup.v ===== *)
(** * Setting a gateway up and starting it ([cmd/sshgatew/main.go])

    [run], [init] and [serve], with the files they write ([secrets.Generate],
    [config.Write], the host key, [store.Open]) and the start of the server
    ([gateway.New]), as programs on the machine of [Host.v].  An in-memory
    database and the writes of loggers and diagnostics are not modelled. *)

From S2P Require Import Prelude GoStrings Json GoTime Effects Paths SshKeys Net Sql Schema Names Migrations Host.
From S2P Require Import StoreUsers StoreAudit Auth Config OidcDevice Secrets MenuCommands Flags Commands.

(** [toml.Marshal], and [Decode] of a strict decoder over a configuration; for a
    duration the library calls its [MarshalText] and [UnmarshalText]. *)
Class TomlCodec := {
  toml_Marshal : (Z → string) → Config → result string;
  toml_Decode : (string → result Z) → string → Config → result Config }.

(** [ed25519.GenerateKey] from 32 bytes of [rand.Reader], as its public key, and
    the PEM text of [gossh.MarshalPrivateKey] *)
Class HostKeys := {
  generated_key : string → SshKey;
  MarshalPrivateKey : string → string → result string }.

(** [url.URL{Scheme: "file", Path: path}] with a query, as text *)
Class FileUrls := { file_url : string → string → string }.

(** The texts of a configuration are valid UTF-8. *)
Definition config_utf8 (c : Config) : bool :=
  forallb ValidString
    ([ListenAddress c; DatabasePath c; MasterKeyPath c; HostKeyPath c; LogLevel c; LogFormat c;
      IssuerURL (OIDC c); ClientID (OIDC c); ClientSecret (OIDC c); UsernameClaim (OIDC c)] ++ Scopes (OIDC c)).

Definition config_durations (c : Config) : list Z := [IdleTimeout c; DownstreamTimeout c; LoginTimeout (OIDC c)].

(** What the formats promise: a configuration whose durations are read back is
    read back as a whole, and so is a generated key. *)
Class SetupLaws `{TomlCodec, HostKeys, KeyFormats} := {
  decode_marshal : ∀ text read c b d, config_utf8 c = true →
    (∀ t, t ∈ config_durations c → read (text t) = Ok t) →
    toml_Marshal text c = Ok b → toml_Decode read b d = Ok c;
  parse_generated : ∀ seed comment pem, MarshalPrivateKey seed comment = Ok pem →
    ParsePrivateKey pem = Ok (MkSigner (generated_key seed)) }.

Lemma written_is_read `{SetupLaws} c b d :
  config_utf8 c = true → forallb in_int64 (config_durations c) = true →
  toml_Marshal MarshalText c = Ok b → toml_Decode UnmarshalText b d = Ok c.
Proof.
  intros Hu Hd. apply decode_marshal; [done|]. intros t Ht. rewrite forallb_true in Hd.
  apply UnmarshalText_MarshalText, Hd, Ht.
Qed.

(** [gateway.Server] as [New] leaves it: the fields the configuration gives *)
Record Server := MkServer {
  Srv_cfg : Config;
  Srv_cipher : string;
  Srv_Addr : string;
  Srv_HostKey : SshKey;
  Srv_connector_Timeout : Z;
  Srv_IdleTimeout : Z;
  Srv_Version : string;
  Srv_oidc : option Options;
}.

(** How [serve] ends: [ListenAndServe] returns, or a signal comes and [Shutdown]
    returns *)
Inductive serve_end := Stopped (r : result unit) | Signalled (r : result unit).

Inductive log_level := LevelDebug | LevelInfo | LevelWarn | LevelError.

(** The level and whether the handler writes text *)
Definition logger_of (cfg : Config) : log_level * bool :=
  (if LogLevel cfg =s "debug" then LevelDebug
   else if LogLevel cfg =s "warn" then LevelWarn
   else if LogLevel cfg =s "error" then LevelError
   else LevelInfo,
   LogFormat cfg =s "text").

(** [fmt.Errorf("text: %w", err)] *)
Definition wrap {S A} (text : string) (p : prog S (result A)) : prog S (result A) :=
  let* r := p in Ret (match r with Ok a => Ok a | Err err => Err (Wrap text err) end).

(** [_ = p] *)
Definition ignore {S A} (p : prog S A) : prog S (result unit) := let* _ := p in Ret (Ok tt).

(** [defer last()] *)
Definition finally {S A B} (p : prog S A) (last : prog S B) : prog S A :=
  let* r := p in let* _ := last in Ret r.

Definition fail {A} (e : error) : prog host (result A) := Ret (Err e).

(** The database as a version-7 file holds it *)
Definition saved (c : db) (d : disk) : disk :=
  Disk (dk_versions d) (Some c.(users)) (Some c.(gateway_keys)) (Some c.(groups_table)) (Some c.(group_members))
    (Some (Targets14 c.(targets))) (Some (Grants6 c.(user_target_grants))) (Some (Grants6 c.(group_target_grants)))
    (Some c.(audit_events)) (Some c.(ssh_identities)) (Some c.(user_totp)) (Some c.(target_forward_rules))
    (Some c.(oidc_identities)).

Section setup.
Context `{UnicodeTables, Rowids, TimeParser, SqliteTexts, DriverTexts, NetText}.
Context `{KeyFormats, Aead, PayloadCodec, PrintTables, TomlCodec, HostKeys, FileUrls}.
Context (m : machine).

(** ** Writing a new file: [OpenFile], [Write] and [Sync], then the deferred
    [Close] *)

Definition write_new (path : string) (perm : Z) (b : string) : prog host (result unit) :=
  let? _ := createNew m path perm in
  finally (let? _ := write m path b in sync m path) (close m path).

Definition Generate (path : string) : prog host (result unit) :=
  let? _ := mkdirAll m (Dir path) 0x1E8 in
  let? b := randomBytes m (Z.to_nat KeySize) in
  write_new path 0x180 b.

Definition Write (path : string) (c : Config) : prog host (result unit) :=
  let? _ := lift (Validate c) in
  let? b := lift (toml_Marshal MarshalText c) in
  let? _ := mkdirAll m (Dir path) 0x1E8 in
  write_new path 0x1A0 b.

Definition generateHostKey (path : string) : prog host (result unit) :=
  let? seed := randomBytes m 32 in
  let? pem := lift (MarshalPrivateKey seed "SSHGateW host key") in
  write_new path 0x180 pem.

Definition hostFingerprint (path : string) : prog host string :=
  let* b := readFile m path in
  Ret (match b with
       | Err _ => "unknown"
       | Ok b =>
         match ParsePrivateKey b with
         | Err _ => "unknown"
         | Ok s => FingerprintSHA256 (Signer_PublicKey s)
         end
       end).

(** ** Reading them *)

Definition loadConfig (env : environment) (path : string) : prog host (result Config) :=
  let* b := readFile m path in Ret (Config.Load (toml_Decode UnmarshalText) env b).

(** [os.Lstat] of a file and its content *)
Definition file_info (path : string) : prog host (result FileInfo) :=
  let* a := stat m path in
  match a with
  | NotExist => Ret (Err (path_error "lstat" path "no such file or directory"))
  | LstatError err => Ret (Err err)
  | Found regular perm => let* b := readFile m path in Ret (Ok (MkFile regular perm b))
  end.

Definition loadMasterKey (path : string) : prog host (result string) :=
  let* info := file_info path in Ret (Secrets.Load info).

(** ** The database: [store.Open] of [Migrations.v] with the file of the machine *)

Definition sql_answer (h : host) (path : string) (c : open_call) : result unit :=
  match m_fault m (h_calls h) (SysSql c) with
  | Some err => Err err
  | None =>
    match c with
    | Pragma _ => let! _ := disk_at m (h_files h) path in Ok tt
    | _ => Ok tt
    end
  end.

(** What a call did to the files: one that failed may have done it too. *)
Definition took_effect (h : host) (path : string) (c : open_call) : bool :=
  match m_fault m (h_calls h) (SysSql c) with
  | Some _ => (0 <? m_short m (h_calls h))%nat && is_ok (disk_at m (h_files h) path)
  | None => is_ok (sql_answer h path c)
  end.

Definition open_with (path : string) (a : lstat_answer) (h : host) : result unit * host :=
  let e := MkOpenEnv (λ _, a) file_url (sql_answer h path) in
  let d := match disk_at m (h_files h) path with Ok d => d | Err _ => empty_disk end in
  let '((r, trace), d') := run (Migrations.Open e path) d in
  (r, MkHost (fold_left (sql_effect m path d') (List.filter (took_effect h path) trace) (h_files h))
        (rev (SysSql <$> trace) ++ h_calls h) (h_out h)).

Definition openStore (path : string) : prog host (result unit) :=
  let* a := stat m path in atomic (open_with path a).

Definition closeStore (path : string) : prog host (result unit) :=
  sys m (SysSql CloseHandle) (λ fs, (Ok tt, sql_effect m path empty_disk fs CloseHandle)).

(** A call of the store, of a handle that is open *)
Definition query_store {A : Type} (path : string) (p : prog db (result A)) : prog host (result A) :=
  sys m SysQuery (λ fs,
    match look_at m fs path with
    | Something (Regular _ _ _ (Database d)) =>
      let '(r, c) := run p (disk_content (m_now m) d) in
      (r, alter (set_disk (saved c d)) (place_of m path) fs)
    | _ => (Err db_error, fs)
    end).

(** ** init *)

Definition init_flags : flag_set :=
  [("admin", StringFlag ""); ("authorized-key", StringFlag ""); ("data-dir", StringFlag "/var/lib/sshgatew");
   ("listen", StringFlag "0.0.0.0:2222")].

(** The loop that refuses to overwrite *)
Fixpoint none_exists (paths : list string) : prog host (result unit) :=
  match paths with
  | [] => Ret (Ok tt)
  | p :: paths =>
    let* a := stat m p in
    match a with
    | Found _ _ => fail (Msg ("refusing to overwrite existing " +:+ p))
    | NotExist => none_exists paths
    | LstatError err => fail err
    end
  end.

(** [created], and the deferred removal of it all *)
Definition created (configPath : string) (cfg : Config) : list string :=
  [MasterKeyPath cfg; HostKeyPath cfg; configPath; DatabasePath cfg; wal (DatabasePath cfg);
   shm (DatabasePath cfg)].

Fixpoint remove_all (paths : list string) : prog host unit :=
  match paths with
  | [] => Ret tt
  | p :: paths => let* _ := remove m p in remove_all paths
  end.

Definition removing_on_failure (paths : list string) (p : prog host (result unit)) : prog host (result unit) :=
  let* r := p in
  match r with
  | Ok _ => Ret (Ok tt)
  | Err err => let* _ := remove_all paths in fail err
  end.

(** The administrator, with the database open *)
Definition first_user (configPath : string) (cfg : Config) (admin : string)
    (key : SshKey * string * string) : prog host (result unit) :=
  let database := DatabasePath cfg in
  let? u := query_store database (AddUser admin RoleAdmin) in
  let? _ := query_store database (AddGatewayKey (User_Username u) key.2 key.1.2 "bootstrap") in
  let? _ := ignore (query_store database
              (Audit (event (Some (User_ID u)) "local-init" "local" "system.init" None "success"
                        (jsonString [("version", JInt 1)])))) in
  let* fingerprint := hostFingerprint (HostKeyPath cfg) in
  let* _ := say ("Initialized SSHGateW." +:+ newline +:+ "Config: " +:+ configPath +:+ newline
                 +:+ "Database: " +:+ database +:+ newline +:+ "Gateway host key: " +:+ fingerprint
                 +:+ newline +:+ "Administrator key: " +:+ key.2 +:+ newline) in
  Ret (Ok tt).

Definition init_files (configPath dataDir : string) (cfg : Config) : prog host (result unit) :=
  let? _ := mkdirAll m dataDir 0x1E8 in
  let? _ := wrap "create master key" (Generate (MasterKeyPath cfg)) in
  let? _ := wrap "create host key" (generateHostKey (HostKeyPath cfg)) in
  let? _ := wrap "write config" (Write configPath cfg) in
  openStore (DatabasePath cfg).

Definition initialize (configPath dataDir admin : string) (cfg : Config)
    (key : SshKey * string * string) : prog host (result unit) :=
  let? _ := none_exists [configPath; DatabasePath cfg; MasterKeyPath cfg; HostKeyPath cfg] in
  removing_on_failure (created configPath cfg)
    (let? _ := init_files configPath dataDir cfg in
     finally (first_user configPath cfg admin key) (closeStore (DatabasePath cfg))).

Definition initCommand (configPath : string) (args : list string) : prog host (result unit) :=
  let? p := lift (Parse init_flags args) in
  let admin := flag_string "admin" p.1 in
  let keyPath := flag_string "authorized-key" p.1 in
  let dataDir := flag_string "data-dir" p.1 in
  if (admin =s "") || (keyPath =s "") then fail (Msg "--admin and --authorized-key are required")
  else
    let? _ := lift (ValidateUsername admin) in
    let? key := (let* b := readFile m keyPath in Ret (public_key_in b)) in
    let cfg := with_listen (ForDataDir dataDir) (flag_string "listen" p.1) in
    let? _ := lift (Validate cfg) in
    initialize configPath dataDir admin cfg key.

(** ** serve *)

Definition oidc_options (c : OIDCConfig) : Options :=
  New (MkOptions (IssuerURL c) (ClientID c) (ClientSecret c) (UsernameClaim c) (Scopes c)).

Definition new_server (cfg : Config) (cipher : string) : prog host (result Server) :=
  let? b := wrap "read gateway host key" (readFile m (HostKeyPath cfg)) in
  let* a := stat m (HostKeyPath cfg) in
  match a with
  | NotExist => fail (path_error "lstat" (HostKeyPath cfg) "no such file or directory")
  | LstatError err => fail err
  | Found regular perm =>
    if negb regular then fail (Msg "gateway host key must be a regular file")
    else if too_open perm
    then fail (Msg ("gateway host key permissions " +:+ octal4 perm +:+ " are too open; require 0600"))
    else match ParsePrivateKey b with
    | Err err => fail (Wrap "parse gateway host key" err)
    | Ok signer =>
      Ret (Ok (MkServer cfg cipher (ListenAddress cfg) (Signer_PublicKey signer) (DownstreamTimeout cfg)
                 (IdleTimeout cfg) "SSHGateW_0.10"
                 (if Enabled (OIDC cfg) then Some (oidc_options (OIDC cfg)) else None)))
    end
  end.

(** From the start of [serve] to [ListenAndServe] *)
Definition start_server (cfg : Config) : prog host (result Server) :=
  let? cipher := loadMasterKey (MasterKeyPath cfg) in
  new_server cfg cipher.

Definition serve (cfg : Config) (ended : serve_end) : prog host (result unit) :=
  let? _ := start_server cfg in
  Ret (match ended with Stopped r | Signalled r => r end).

(** ** run *)

(** A step of an administrator's command on the open database and the output *)
Definition console_of (path : string) (h : host) : console :=
  MkConsole (match look_at m (h_files h) path with
             | Something (Regular _ _ _ (Database d)) => disk_content (m_now m) d
             | _ => disk_content (m_now m) empty_disk
             end) (h_out h).

Definition put_console (path : string) (c : console) (h : host) : host :=
  MkHost (match look_at m (h_files h) path with
          | Something (Regular _ _ _ (Database d)) =>
            alter (set_disk (saved (con_db c) d)) (place_of m path) (h_files h)
          | _ => h_files h
          end) (h_calls h) (con_out c).

(** What a command finds, as the files are when it starts *)
Definition cli_of (input : stdin) (rand : result string)
    (probe : string → result unit * option SshKey * result unit) (write : string → string → result unit)
    (h : host) : cli_env :=
  MkCliEnv (λ path, value (readFile m path) h) (λ path, value (file_info path) h) input rand probe write.

Definition global_flags : flag_set :=
  [("config", StringFlag "/etc/sshgatew/config.toml"); ("version", BoolFlag false)].

Definition usage_text : string :=
  Join ["SSHGateW - an authenticated SSH gateway";
        "";
        "Usage:";
        "  sudo ./sshgatew install";
        "  sudo ./sshgatew install --admin USER --authorized-key FILE --yes";
        "  sshgatew [--config path] init --admin USER --authorized-key FILE [--data-dir DIR]";
        "  sshgatew [--config path] serve";
        "  sshgatew [--config path] users|groups|targets|grants|audit ...";
        "";
        "Run a command without enough arguments to see its specific usage.";
        ""] newline.

(** [os.Args], the environment, the standard input and the world [run] is given;
    [rc_install] is [installCommand]. *)
Record run_env := MkRunEnv {
  rc_version : string;
  rc_env : environment;
  rc_in : stdin;
  rc_rand : result string;
  rc_probe : string → result unit * option SshKey * result unit;
  rc_write : string → string → result unit;
  rc_ended : serve_end;
  rc_install : string → list string → prog host (result unit);
}.

Definition with_store (rc : run_env) (cfg : Config) (op : string) (rest : list string) :
    prog host (result unit) :=
  if op =s "serve" then serve cfg (rc_ended rc)
  else
    let* e := query (cli_of (rc_in rc) (rc_rand rc) (rc_probe rc) (rc_write rc)) in
    zoom (console_of (DatabasePath cfg)) (put_console (DatabasePath cfg)) (adminCommand cfg e op rest).

Definition run_args (rc : run_env) (args : list string) : prog host (result unit) :=
  let? p := lift (Parse global_flags args) in
  let configPath := flag_string "config" p.1 in
  if flag_bool "version" p.1 then ignore (say (rc_version rc +:+ newline))
  else match p.2 with
  | [] => ignore (say usage_text)
  | op :: rest =>
    if op =s "init" then initCommand configPath rest
    else if op =s "install" then rc_install rc configPath rest
    else
      let? cfg := loadConfig (rc_env rc) configPath in
      let? _ := wrap "open database" (openStore (DatabasePath cfg)) in
      finally (with_store rc cfg op rest) (closeStore (DatabasePath cfg))
  end.

(** [main]: the exit code and what is written to the error output *)
Definition exit_of (r : result unit) : Z * string :=
  match r with
  | Ok _ => (0, "")
  | Err err => (1, "error: " +:+ error_text err +:+ newline)
  end.

End setup.
