(* ===== verification/SetupProps.v ===== *)
(** * What setting up does and leaves alone *)

From S2P Require Import Prelude GoStrings GoTime Effects Paths SshKeys Net Sql Schema Names Migrations Host.
From S2P Require Import HostFacts StoreUsers StoreAudit Auth Config OidcDevice Secrets MenuCommands Flags Commands.
From S2P Require Import Setup.

Section setup.
Context `{UnicodeTables, Rowids, TimeParser, SqliteTexts, DriverTexts, NetText}.
Context `{KeyFormats, Aead, PayloadCodec, PrintTables, TomlCodec, HostKeys, FileUrls}.
Context (m : machine).

(** ** The files init may touch *)

Lemma contained_lift {A : Type} (owned : list place) (r : result A) : contained owned (lift r).
Proof. done. Qed.

Lemma wrap_contained {A : Type} (owned : list place) text (p : prog host (result A)) :
  contained owned p → contained owned (wrap text p).
Proof. intros Hp. apply contained_bind; [done|]. auto with host. Qed.

Lemma ignore_contained {A : Type} (owned : list place) (p : prog host A) : contained owned p → contained owned (ignore p).
Proof. intros Hp. apply contained_bind; [done|]. auto with host. Qed.

Lemma finally_contained {A B : Type} (owned : list place) (p : prog host A) (q : prog host B) :
  contained owned p → contained owned q → contained owned (finally p q).
Proof. intros Hp Hq. apply contained_bind; [done|]. intros r. apply contained_bind; auto with host. Qed.

Lemma write_new_contained (owned : list place) path perm b :
  path = "" ∨ place_of m path ∈ owned → contained owned (write_new m path perm b).
Proof.
  intros [->|Hp].
  - apply (guarantees_bind _ _ (λ r, is_ok r = false)); [|by intros [|]].
    intros h Hh. cbn. split; [destruct (m_fault _ _ _); by apply kept_refl|]. by destruct (m_fault _ _ _).
  - apply contained_bind_ok; [auto with host|]. intros _. apply finally_contained; [|auto with host].
    apply contained_bind_ok; auto with host.
Qed.

Lemma openStore_contained (owned : list place) path :
  place_of m path ∈ owned → place_of m (wal path) ∈ owned → place_of m (shm path) ∈ owned →
  contained owned (openStore m path).
Proof.
  intros Hp Hw Hs. apply contained_bind; [auto with host|]. intros a. apply contained_atomic. intros h Ht.
  unfold open_with. destruct (run _ _) as [[r trace] d']. by apply sql_effects_kept.
Qed.

Lemma closeStore_contained (owned : list place) path :
  place_of m path ∈ owned → place_of m (wal path) ∈ owned → place_of m (shm path) ∈ owned →
  contained owned (closeStore m path).
Proof. intros Hp Hw Hs. apply contained_sys. intros fs Ht. by apply sql_effect_kept. Qed.

Lemma query_store_contained {A : Type} (owned : list place) path (p : prog db (result A)) :
  place_of m path ∈ owned → contained owned (query_store m path p).
Proof.
  intros Hp. apply contained_sys. intros fs Ht. destruct (look_at m fs path) as [| |[perm uid gid [b|d]| |]]; auto with host.
  destruct (run p _) as [r c]. apply kept_alter; [done|done|]. intros n. apply is_directory_set_disk.
Qed.

#[local] Hint Resolve contained_lift wrap_contained ignore_contained finally_contained write_new_contained
  openStore_contained closeStore_contained query_store_contained : host.

(** The places of [created] *)
Definition created_places (configPath : string) (cfg : Config) : list place :=
  place_of m <$> List.filter (λ p, negb (p =s "")) (created configPath cfg).

Definition logs (database : string) : list place := [place_of m (wal database); place_of m (shm database)].

Lemma created_place configPath cfg path :
  In path (created configPath cfg) → path = "" ∨ place_of m path ∈ created_places configPath cfg.
Proof.
  intros Hp. destruct (String.eqb_spec path ""); [by left|]. right. apply list_elem_of_fmap. exists path. split; [done|].
  apply list_elem_of_In, filter_In. split; [done|]. by apply negb_true_iff, String.eqb_neq.
Qed.

Lemma init_body_contained configPath dataDir admin cfg key :
  DatabasePath cfg ≠ "" →
  contained (created_places configPath cfg)
    (let? _ := init_files m configPath dataDir cfg in
     finally (first_user m configPath cfg admin key) (closeStore m (DatabasePath cfg))).
Proof.
  intros Hd. set (owned := created_places configPath cfg).
  assert (∀ path, In path (created configPath cfg) → path = "" ∨ place_of m path ∈ owned) as Hc
    by apply created_place.
  assert (place_of m (DatabasePath cfg) ∈ owned) as Hp.
  { destruct (Hc (DatabasePath cfg)); [|done|done]. cbn. tauto. }
  assert (place_of m (wal (DatabasePath cfg)) ∈ owned ∧ place_of m (shm (DatabasePath cfg)) ∈ owned) as [Hw Hs].
  { split; [destruct (Hc (wal (DatabasePath cfg))) as [E|]|destruct (Hc (shm (DatabasePath cfg))) as [E|]]; try done;
      try (cbn; tauto); by destruct (DatabasePath cfg). }
  apply contained_bind_ok.
  - unfold init_files. repeat (apply contained_bind_ok; [|intros _]); auto with host.
    + apply wrap_contained. apply contained_bind_ok; [auto with host|]. intros _.
      apply contained_bind_ok; [auto with host|]. intros b. apply write_new_contained, Hc. cbn. tauto.
    + apply wrap_contained. apply contained_bind_ok; [auto with host|]. intros b.
      apply contained_bind_ok; [auto with host|]. intros pem. apply write_new_contained, Hc. cbn. tauto.
    + apply wrap_contained. apply contained_bind_ok; [auto with host|]. intros _.
      apply contained_bind_ok; [auto with host|]. intros b. apply contained_bind_ok; [auto with host|]. intros _.
      apply write_new_contained, Hc. cbn. tauto.
  - intros _. apply finally_contained; [|auto with host]. unfold first_user.
    apply contained_bind_ok; [auto with host|]. intros u. apply contained_bind_ok; [auto with host|]. intros _.
    apply contained_bind_ok; [auto with host|]. intros _. apply contained_bind.
    + apply contained_bind; auto with host.
    + intros f. apply contained_bind; auto with host.
Qed.

(** ** The removal *)

Lemma remove_all_contained configPath cfg paths :
  (∀ p, In p paths → In p (created configPath cfg)) →
  contained (created_places configPath cfg) (remove_all m paths).
Proof.
  induction paths as [|p paths IH]; [done|]. intros Hp. cbn [remove_all]. apply contained_bind.
  - apply remove_contained, created_place, Hp. by left.
  - intros _. apply IH. intros q Hq. apply Hp. by right.
Qed.

Lemma remove_all_removes paths h p n :
  (∀ calls path, m_fault m calls (SysRemove path) = None) → tree (h_files h) →
  h_files (final (remove_all m paths) h) !! p = Some n → is_directory n = false →
  h_files h !! p = Some n ∧ p ∉ place_of m <$> List.filter (λ p, negb (p =s "")) paths.
Proof.
  intros Hf. revert h. induction paths as [|q paths IH]; intros h Ht Hn Hd; [split; [done|apply not_elem_of_nil]|].
  cbn [remove_all] in Hn. unfold final in Hn. rewrite run_bind in Hn.
  pose proof (contained_final [place_of m q] (remove m q) h
    (remove_contained m _ q (or_intror (list_elem_of_here _ _))) Ht) as [Ho Ht'].
  destruct (IH (final (remove m q) h) Ht' Hn Hd) as [Hp Hnot].
  assert (h_files h !! p = Some n ∧ (q ≠ "" → p ≠ place_of m q)) as [Hold Hq].
  { unfold final, remove, sys in Hp. cbn in Hp. rewrite Hf in Hp. unfold on_found in Hp.
    destruct (look_at m (h_files h) q) as [| |n'] eqn:El; cbn in Hp.
    - split; [done|]. intros Hq ->. unfold look_at in El. apply String.eqb_neq in Hq. rewrite Hq in El.
      pose proof (tree_nothing _ _ Ht (or_introl El)) as [Hnone _]%entry_none. congruence.
    - split; [done|]. intros Hq ->. unfold look_at in El. apply String.eqb_neq in Hq. rewrite Hq in El.
      pose proof (tree_nothing _ _ Ht (or_intror El)) as [Hnone _]%entry_none. congruence.
    - destruct (is_directory n' && _) eqn:E; cbn in Hp.
      + split; [done|]. intros _ ->. apply andb_true_iff in E as [E _]. apply look_at_entry in El.
        unfold entry in El. rewrite Hp in El. simplify_eq. congruence.
      + apply lookup_delete_Some in Hp as [Hne Hp]. split; [done|]. by intros _ ->. }
  split; [done|]. cbn. destruct (String.eqb_spec q "") as [->|Hne]; cbn; [done|].
  apply not_elem_of_cons. split; [by apply Hq|done].
Qed.

(** ** init *)

Lemma none_exists_run paths h :
  h_files (final (none_exists m paths) h) = h_files h ∧
  (value (none_exists m paths) h = Ok tt → Forall (λ p, look_at m (h_files h) p = Nothing) paths).
Proof.
  revert h. induction paths as [|p paths IH]; intros h; [done|]. unfold final, value in *. cbn [none_exists].
  rewrite run_bind. unfold value, final, stat, sys. cbn.
  destruct (m_fault m (h_calls h) (SysStat p)); cbn; [done|].
  unfold answer_of. destruct (look_at m (h_files h) p) eqn:E; cbn; try done.
  destruct (IH (logged (SysStat p) (h_files h) h)) as [Hf Hv]. split; [done|]. intros Hr. constructor; auto.
Qed.

(** What holds of a run of [initialize] *)
Lemma initialize_run configPath dataDir admin cfg key h :
  tree (h_files h) → DatabasePath cfg ≠ "" →
  let '(r, h') := run (initialize m configPath dataDir admin cfg key) h in
  (∀ p n, h_files h !! p = Some n → p ∉ logs (DatabasePath cfg) → h_files h' !! p = Some n) ∧
  (is_ok r = false → (∀ calls path, m_fault m calls (SysRemove path) = None) →
   ∀ p n, h_files h' !! p = Some n → is_directory n = false → h_files h !! p = Some n).
Proof.
  intros Ht Hd. unfold initialize. rewrite run_bind_ok.
  destruct (none_exists_run [configPath; DatabasePath cfg; MasterKeyPath cfg; HostKeyPath cfg] h) as [Hf Hv].
  unfold value, final in Hf, Hv. destruct (run (none_exists _ _) h) as [[[]|e] h1]; cbn in Hf, Hv; [|by rewrite Hf].
  specialize (Hv eq_refl). rewrite <- Hf in Ht, Hv |- *. clear Hf.
  assert (∀ p n, h_files h1 !! p = Some n → p ∉ logs (DatabasePath cfg) → p ∉ created_places configPath cfg) as Hfresh.
  { intros p n Hn Hl (path & -> & Hin)%list_elem_of_fmap. apply list_elem_of_In, filter_In in Hin as [Hin Hne].
    apply negb_true_iff, String.eqb_neq in Hne.
    assert (look_at m (h_files h1) path = Nothing) as He.
    { rewrite !Forall_cons in Hv. destruct Hv as (? & ? & ? & ? & _). cbn in Hin.
      unfold logs in Hl. rewrite !not_elem_of_cons in Hl. intuition congruence. }
    unfold look_at in He. apply String.eqb_neq in Hne. rewrite Hne in He.
    pose proof (tree_nothing _ _ Ht (or_introl He)) as [Hnone _]%entry_none. congruence. }
  unfold removing_on_failure. rewrite run_bind.
  set (body := bind_ok (init_files _ _ _ _) _).
  pose proof (contained_final _ body h1 (init_body_contained configPath dataDir admin cfg key Hd) Ht) as [Ho Ht2].
  destruct (value body h1) as [[]|e].
  - cbn. split; [|discriminate]. intros p n Hn Hl. destruct (Ho p (Hfresh p n Hn Hl)) as [->|[Hno _]]; [done|congruence].
  - rewrite run_bind. cbn [run fail].
    pose proof (contained_final _ (remove_all m (created configPath cfg)) (final body h1)
      (remove_all_contained configPath cfg _ (λ p H, H)) Ht2) as [Ho' Ht3].
    split.
    + intros p n Hn Hl. pose proof (Hfresh p n Hn Hl) as Hp.
      destruct (outside_trans _ _ _ _ Ho Ho' p Hp) as [->|[Hno _]]; [done|congruence].
    + intros _ Hr p n Hn Hdir. destruct (remove_all_removes _ _ p n Hr Ht2 Hn Hdir) as [Hn2 Hp].
      destruct (Ho p Hp) as [<-|[_ (n' & Hn' & Hdir')]]; [done|congruence].
Qed.

(** The value [initCommand] reads of a flag, its configuration and its database *)
Definition init_flag (name : string) (args : list string) : string :=
  match Parse init_flags args with Ok p => flag_string name p.1 | Err _ => "" end.

Definition init_config (args : list string) : Config :=
  with_listen (ForDataDir (init_flag "data-dir" args)) (init_flag "listen" args).

Definition init_database (args : list string) : string := DatabasePath (init_config args).

Lemma readFile_run path h : h_files (final (readFile m path) h) = h_files h.
Proof.
  unfold final, readFile, sys. cbn. destruct (m_fault _ _ _); [done|].
  unfold on_found. by destruct (look_at m (h_files h) path) as [| |[]].
Qed.

(** [initCommand] has not touched a file before [initialize]. *)
Lemma initCommand_run configPath args h :
  let '(r, h') := run (initCommand m configPath args) h in
  (is_ok r = false ∧ h_files h' = h_files h) ∨
  ∃ key h1, h_files h1 = h_files h ∧ DatabasePath (init_config args) ≠ "" ∧
    public_key_in (value (readFile m (init_flag "authorized-key" args)) h) = Ok key ∧
    run (initialize m configPath (init_flag "data-dir" args) (init_flag "admin" args) (init_config args) key) h1 = (r, h').
Proof.
  unfold initCommand, init_config, init_flag. rewrite run_bind_ok. cbn [lift run].
  destruct (Parse init_flags args) as [p|e]; [|by left]. destruct (_ || _); [by left|].
  rewrite run_bind_ok. cbn [lift run]. destruct (ValidateUsername _); [|by left]. rewrite run_bind_ok, run_bind. cbn [run].
  pose proof (readFile_run (flag_string "authorized-key" p.1) h) as Hf.
  destruct (public_key_in _) as [key|] eqn:Ek; [|by left]. rewrite run_bind_ok. cbn [lift run].
  destruct (Validate _) as [[]|] eqn:Ev; [|by left]. destruct (run (initialize _ _ _ _ _ _) _) as [r h'] eqn:Er.
  right. exists key, (final (readFile m (flag_string "authorized-key" p.1)) h). split_and!; [exact Hf| |reflexivity|exact Er].
  unfold Validate in Ev. destruct (SplitHostPort _); [|discriminate]. cbn in Ev.
  intros Hd. cbn in Hd. by rewrite Hd in Ev.
Qed.

(** Whatever fails, init changes and removes no file and no directory that is
    there when it starts; it does not look at the database's log files, which
    SQLite or its own cleanup may replace. *)
Theorem init_overwrites_nothing configPath args h p n :
  tree (h_files h) → h_files h !! p = Some n → p ∉ logs (init_database args) →
  h_files (final (initCommand m configPath args) h) !! p = Some n.
Proof.
  intros Ht Hn Hl. pose proof (initCommand_run configPath args h) as Hr. unfold final.
  destruct (run (initCommand _ _ _) h) as [r h']. destruct Hr as [[_ Hf]|Hr]; [cbn; by rewrite Hf|].
  destruct Hr as (key & h1 & Hf & Hd & _ & Hr).
  pose proof (initialize_run configPath (init_flag "data-dir" args) (init_flag "admin" args) (init_config args) key h1) as Hi.
  rewrite Hr, Hf in Hi. destruct Hi as [Hi _]; [done|done|]. by apply Hi.
Qed.

(** C28: an init that fails, at whatever point, leaves no file that was not there
    when it started - no key, no configuration, no database, no log - as long as
    files can be removed; of what it made only directories stay. *)
Theorem failed_init_leaves_nothing configPath args h err p n :
  tree (h_files h) → (∀ calls path, m_fault m calls (SysRemove path) = None) →
  value (initCommand m configPath args) h = Err err →
  h_files (final (initCommand m configPath args) h) !! p = Some n → is_directory n = false →
  h_files h !! p = Some n.
Proof.
  intros Ht Hrm Hv Hn Hdir. pose proof (initCommand_run configPath args h) as Hr. unfold value, final in *.
  destruct (run (initCommand _ _ _) h) as [r h']. cbn in Hv, Hn. subst r.
  destruct Hr as [[_ Hf]|Hr]; [by rewrite <- Hf|].
  destruct Hr as (key & h1 & Hf & Hd & _ & Hr).
  pose proof (initialize_run configPath (init_flag "data-dir" args) (init_flag "admin" args) (init_config args) key h1) as Hi.
  rewrite Hr, Hf in Hi. destruct Hi as [_ Hi]; [done|done|]. by apply (Hi eq_refl Hrm p n).
Qed.

End setup.
