(* ===== verification/Startup.v ===== *)
(** * An initialised gateway starts

    After an init that succeeded, [serve] reads its files back, opens its
    database and comes to listen, and the administrator's key is accepted. *)

From S2P Require Import Prelude GoStrings Json GoTime Effects Paths SshKeys Net Sql Schema Names Migrations Host.
From S2P Require Import HostFacts StoreUsers StoreAudit StoreWf StoreCalls Auth AuthProps Config OidcDevice Secrets.
From S2P Require Import MenuCommands Flags Commands MigrationProps Setup SetupProps.

(** The machine when no call fails *)
Definition without_faults (m : machine) : machine :=
  MkMachine (m_cwd m) (m_umask m) (m_uid m) (m_gid m) (m_now m) (λ _ _, None) (m_short m) (m_random m) (m_image m).

(** ** Runs that succeed *)

Lemma bind_ok_inv {S A B : Type} (p : prog S (result A)) (k : A → prog S (result B)) s b s' :
  run (bind_ok p k) s = (Ok b, s') → ∃ a s1, run p s = (Ok a, s1) ∧ run (k a) s1 = (Ok b, s').
Proof. rewrite run_bind_ok. destruct (run p s) as [[a|e] s1]; [by eauto|done]. Qed.

Lemma wrap_inv {S A : Type} text (p : prog S (result A)) s a s' :
  run (wrap text p) s = (Ok a, s') → run p s = (Ok a, s').
Proof.
  unfold wrap. rewrite run_bind. unfold value, final. cbn. destruct (run p s) as [[x|e] s1]; cbn; congruence.
Qed.

Lemma finally_inv {S A B : Type} (p : prog S A) (q : prog S B) s a s' :
  run (finally p q) s = (a, s') → ∃ s1, run p s = (a, s1) ∧ s' = final q s1.
Proof.
  unfold finally. rewrite run_bind, run_bind. unfold value, final. cbn. destruct (run p s) as [x s1]. intros [= <- <-].
  by exists s1.
Qed.

Lemma lift_inv {S A : Type} (r : result A) (s : S) a s' : run (lift r) s = (Ok a, s') → r = Ok a ∧ s' = s.
Proof. cbn. by intros [= -> ->]. Qed.

Section runs.
Context (m : machine).

Lemma sys_inv {A : Type} (c : syscall) (f : files → result A * files) (h : host) a (h' : host) :
  run (sys m c f) h = (Ok a, h') → f (h_files h) = (Ok a, h_files h').
Proof.
  cbn. destruct (m_fault m (h_calls h) c); [done|]. destruct (f (h_files h)) as [r fs]. by intros [= -> <-].
Qed.

Lemma contained_entry {A : Type} (owned : list place) (p : prog host A) h q n :
  contained owned p → tree (h_files h) → q ∉ owned → h_files h !! q = Some n →
  h_files (final p h) !! q = Some n.
Proof.
  intros Hp Ht Hq Hn. destruct (contained_final owned p h Hp Ht) as [Ho _].
  destruct (Ho q Hq) as [->|[Hno _]]; [done|congruence].
Qed.

Lemma fresh_place fs p : parent_error fs p = None → look fs p = Nothing → fs !! p = None.
Proof.
  unfold parent_error. destruct p as [|x p _] using rev_ind.
  - unfold look. cbn. by destruct (entry fs []).
  - rewrite removelast_snoc, look_snoc. destruct (look fs p) as [| |d]; try done.
    destruct (is_directory d); [|done]. by destruct (fs !! (p ++ [x])).
Qed.

Lemma write_new_inv path perm b h h' : run (write_new m path perm b) h = (Ok tt, h') →
  path ≠ "" ∧ h_files h !! place_of m path = None ∧
  h_files h' = <[place_of m path := Regular (masked m perm) (m_uid m) (m_gid m) (Bytes b)]> (h_files h).
Proof.
  intros ([] & h1 & Hc & Hw)%bind_ok_inv. apply sys_inv in Hc.
  destruct (String.eqb_spec path ""); [done|]. split; [done|]. cbn in Hc.
  destruct (parent_error (h_files h) (place_of m path)) eqn:Ep; [done|].
  destruct (look (h_files h) (place_of m path)) eqn:El; try done. injection Hc as Hc.
  split; [by apply fresh_place|].
  apply finally_inv in Hw as (h2 & (u & h3 & Hw & Hs)%bind_ok_inv & ->).
  assert (h_files (final (close m path) h2) = h_files h2) as ->.
  { unfold final, close, sys. cbn. by destruct (m_fault _ _ _). }
  apply sys_inv in Hs. injection Hs as <-. unfold write in Hw. cbn in Hw.
  destruct (m_fault _ _ _); [done|]. injection Hw as Hu <-. cbn. rewrite <- Hc.
  by rewrite alter_insert_eq.
Qed.

(** What is read of a file, when nothing fails *)
Lemma read_entry path h perm uid gid c :
  tree (h_files h) → path ≠ "" → h_files h !! place_of m path = Some (Regular perm uid gid c) →
  look_at m (h_files h) path = Something (Regular perm uid gid c).
Proof.
  intros Ht Hne He. unfold look_at. apply String.eqb_neq in Hne. rewrite Hne. apply tree_look; [done|].
  unfold entry. by rewrite He.
Qed.

End runs.

Lemma private_perm m perm : Z.land perm 0x3F = 0 → too_open (masked m perm) = false.
Proof.
  intros Hp. unfold too_open, masked. rewrite <- Z.land_assoc, (Z.land_comm (Z.lnot _)), Z.land_assoc, Hp. done.
Qed.

(** ** The database of an init *)

Definition new_disk : disk :=
  Disk (Some [1; 2; 3; 4; 5; 6; 7]) (Some []) (Some []) (Some []) (Some []) (Some (Targets14 [])) (Some (Grants6 []))
    (Some (Grants6 [])) (Some []) (Some []) (Some []) (Some []) (Some []).

Section database.
Context `{UnicodeTables, Rowids, TimeParser, SqliteTexts, DriverTexts, NetText}.
Context `{KeyFormats, Aead, PayloadCodec, PrintTables, TomlCodec, HostKeys, FileUrls}.
Context (m : machine).

Lemma migrate_new : run migrate empty_disk = (Ok tt, new_disk).
Proof. reflexivity. Qed.

Lemma migrate_saved c : run migrate (saved c new_disk) = (Ok tt, saved c new_disk).
Proof. reflexivity. Qed.

Lemma touch_keeps perm path fs q n : fs !! q = Some n → touch m perm path fs !! q = Some n.
Proof.
  intros Hq. unfold touch. destruct (parent_error _ _) eqn:Ep; [done|]. destruct (look _ _) eqn:El; try done.
  rewrite lookup_insert_ne; [done|]. intros <-. pose proof (fresh_place _ _ Ep El). congruence.
Qed.

Lemma pragma_effect path d fs text perm uid gid c :
  touch m 0x1A4 path fs !! place_of m path = Some (Regular perm uid gid c) →
  sql_effect m path d fs (Pragma text) !! place_of m path = Some (Regular perm uid gid (Database d)).
Proof.
  intros Ht. cbn. rewrite lookup_alter_eq. by rewrite (touch_keeps _ _ _ _ _ (touch_keeps _ _ _ _ _ Ht)).
Qed.

(** The three PRAGMAs and the chmod *)
Lemma setup_effect path d fs dsn perm uid gid c :
  touch m 0x1A4 path fs !! place_of m path = Some (Regular perm uid gid c) →
  fold_left (sql_effect m path d) (SqlOpen dsn :: (Pragma <$> setup_pragmas) ++ [Chmod path 0x180]) fs
    !! place_of m path = Some (Regular 0x180 uid gid (Database d)).
Proof.
  intros Ht. apply (pragma_effect path d fs "PRAGMA foreign_keys=ON") in Ht.
  apply (touch_keeps 0x1A4 path), (pragma_effect path d _ "PRAGMA journal_mode=WAL") in Ht.
  apply (touch_keeps 0x1A4 path), (pragma_effect path d _ "PRAGMA busy_timeout=5000") in Ht.
  cbn [fold_left app fmap list_fmap setup_pragmas]. cbn [sql_effect] in Ht |- *. rewrite lookup_alter_eq, Ht. done.
Qed.

Definition opened_trace (path : string) : list open_call :=
  SqlOpen (file_url path dsn_query) :: (Pragma <$> setup_pragmas) ++ [Chmod path 0x180].

(** [Open] when every call succeeds *)
Lemma Open_run e path d d' :
  path ≠ memory → check_file path (oe_lstat e path) = Ok tt → oe_file_url e = file_url →
  (∀ c, In c (opened_trace path) → oe_answer e c = Ok tt) → run migrate d = (Ok tt, d') →
  run (Migrations.Open e path) d = ((Ok tt, opened_trace path), d').
Proof.
  intros Hm Hc Hu Ha Hr. unfold Migrations.Open, prepare, dsn_of. rewrite Hc. unfold setup_calls.
  apply String.eqb_neq in Hm. rewrite Hm, Hu. unfold opened_trace in *.
  rewrite Ha by (by left). cbn [open_calls app fmap list_fmap setup_pragmas].
  rewrite !Ha by (cbn; tauto). rewrite run_bind. unfold value, final. by rewrite Hr.
Qed.

Lemma Open_inv e path d d' trace :
  path ≠ memory → oe_file_url e = file_url → run (Migrations.Open e path) d = ((Ok tt, trace), d') →
  check_file path (oe_lstat e path) = Ok tt ∧ (∀ c, In c (opened_trace path) → oe_answer e c = Ok tt) ∧
  run migrate d = (Ok tt, d') ∧ trace = opened_trace path.
Proof.
  intros Hm Hu. unfold Migrations.Open, prepare, dsn_of, setup_calls. apply String.eqb_neq in Hm. rewrite Hm, Hu.
  destruct (check_file path _) as [[]|] eqn:Hc; [|done]. unfold opened_trace.
  destruct (oe_answer e (SqlOpen _)) as [[]|] eqn:E0; [|done].
  cbn [open_calls app fmap list_fmap setup_pragmas].
  destruct (oe_answer e (Pragma "PRAGMA foreign_keys=ON")) as [[]|] eqn:E1; [|done].
  destruct (oe_answer e (Pragma "PRAGMA journal_mode=WAL")) as [[]|] eqn:E2; [|done].
  destruct (oe_answer e (Pragma "PRAGMA busy_timeout=5000")) as [[]|] eqn:E3; [|done].
  destruct (oe_answer e (Chmod _ _)) as [[]|] eqn:E4; [|done]. rewrite run_bind. unfold value, final.
  destruct (run migrate d) as [[[]|] d1] eqn:Er; cbn; [|done]. intros [= <- <-]. split_and!; [done| |done|done].
  intros c. cbn. intros [<-|[<-|[<-|[<-|[<-|[]]]]]]; done.
Qed.

Lemma opened_trace_effects h path :
  (∀ c, In c (opened_trace path) → sql_answer m h path c = Ok tt) →
  List.filter (took_effect m h path) (opened_trace path) = opened_trace path.
Proof.
  intros Ha. apply forallb_filter_id, forallb_forall. intros c Hc. specialize (Ha c Hc). unfold took_effect.
  rewrite Ha. unfold sql_answer in Ha. by destruct (m_fault m (h_calls h) (SysSql c)).
Qed.

Lemma stat_files path h : h_files (final (stat m path) h) = h_files h.
Proof. unfold final, stat, sys. cbn. by destruct (m_fault _ _ _). Qed.

(** [store.Open] makes the database where nothing was. *)
Lemma openStore_new path h h' :
  path ≠ memory → path ≠ "" → tree (h_files h) → (∀ n, h_files h !! place_of m path = Some n → is_regular n = false) →
  run (openStore m path) h = (Ok tt, h') →
  ∃ uid gid, h_files h' !! place_of m path = Some (Regular 0x180 uid gid (Database new_disk)).
Proof.
  intros Hm Hne Ht Hn Ho. unfold openStore in Ho. rewrite run_bind in Ho. cbn [run atomic] in Ho.
  pose proof (stat_files path h) as Hf. set (h1 := final (stat m path) h) in *. rewrite <- Hf in Ht, Hn.
  assert (value (stat m path) h = answer_of m (h_files h1) path ∨ ∃ e, value (stat m path) h = LstatError e) as Ha.
  { rewrite Hf. unfold value, stat, sys. cbn. destruct (m_fault _ _ _); cbn; eauto. }
  destruct (open_with m path _ h1) as [r h2] eqn:E. cbn in Ho. injection Ho as -> ->.
  unfold open_with in E. destruct (run (Migrations.Open _ _) _) as [[r trace] d'] eqn:Er. injection E as -> <-.
  apply Open_inv in Er as (Hc & Hans & Hmig & ->); [|done|done]. cbn [oe_lstat oe_answer] in Hc, Hans.
  apply String.eqb_neq in Hm. unfold check_file in Hc. rewrite Hm in Hc.
  destruct Ha as [Ha|[e Ha]]; rewrite Ha in Hc; [|done]. unfold answer_of in Hc.
  destruct (look_at m (h_files h1) path) as [| |n] eqn:El; try done.
  2: { exfalso. apply look_at_entry in El. destruct (is_regular n) eqn:Er; [|done]. unfold entry in El.
       destruct (h_files h1 !! place_of m path) as [n'|] eqn:En; [specialize (Hn _ eq_refl); congruence|].
       destruct (place_of m path); [|done]. by injection El as <-. }
  assert (parent_error (h_files h1) (place_of m path) = None) as Hp.
  { specialize (Hans (Pragma "PRAGMA foreign_keys=ON") ltac:(cbn; tauto)). unfold sql_answer in Hans.
    destruct (m_fault _ _ _); [done|]. unfold disk_at in Hans. rewrite El in Hans.
    by destruct (parent_error (h_files h1) (place_of m path)). }
  unfold disk_at in Hmig. rewrite El, Hp, migrate_new in Hmig. injection Hmig as <-.
  cbn [h_files]. rewrite opened_trace_effects by done. eexists _, _. eapply setup_effect. unfold touch.
  unfold look_at in El. apply String.eqb_neq in Hne. rewrite Hne in El. rewrite Hp, El. by rewrite lookup_insert_eq.
Qed.

(** [store.Open] of the database of an init, when nothing fails *)
Lemma openStore_again path h uid gid c :
  (∀ calls call, m_fault m calls call = None) → path ≠ memory → path ≠ "" → tree (h_files h) →
  h_files h !! place_of m path = Some (Regular 0x180 uid gid (Database (saved c new_disk))) →
  value (openStore m path) h = Ok tt ∧
  h_files (final (openStore m path) h) !! place_of m path = Some (Regular 0x180 uid gid (Database (saved c new_disk))).
Proof.
  intros Hf Hm Hne Ht Hn. cut (∃ h2, run (openStore m path) h = (Ok tt, h2) ∧
    h_files h2 !! place_of m path = Some (Regular 0x180 uid gid (Database (saved c new_disk)))).
  { intros (h2 & Hr & Hh). unfold value, final. by rewrite Hr. }
  unfold openStore. rewrite run_bind. cbn [run atomic].
  assert (value (stat m path) h = Found true 0x180) as Ha.
  { unfold value, stat, sys. cbn. rewrite Hf. cbn. unfold answer_of. by rewrite (read_entry _ _ _ _ _ _ _ Ht Hne Hn). }
  pose proof (stat_files path h) as Hs. rewrite Ha. set (h1 := final (stat m path) h) in *. rewrite <- Hs in Ht, Hn.
  pose proof (read_entry _ _ _ _ _ _ _ Ht Hne Hn) as Hl. unfold open_with. unfold disk_at at 1. rewrite Hl. cbn [disk_of].
  assert (∀ call, In call (opened_trace path) → sql_answer m h1 path call = Ok tt) as Hans.
  { intros call _. unfold sql_answer. rewrite Hf. destruct call; try done. unfold disk_at. by rewrite Hl. }
  rewrite (Open_run _ _ _ (saved c new_disk)); [|done| |done|done|apply migrate_saved].
  2: { cbn [oe_lstat]. unfold check_file. apply String.eqb_neq in Hm. by rewrite Hm. }
  rewrite opened_trace_effects by done. eexists. split; [reflexivity|]. cbn [h_files].
  apply (setup_effect path (saved c new_disk) _ (file_url path dsn_query) 0x180 _ _ (Database (saved c new_disk))).
  by apply touch_keeps.
Qed.

(** ** The first user *)

Lemma query_store_inv {A : Type} path (p : prog db (result A)) h a h' perm uid gid d :
  tree (h_files h) → path ≠ "" → h_files h !! place_of m path = Some (Regular perm uid gid (Database d)) →
  run (query_store m path p) h = (Ok a, h') →
  ∃ c, run p (disk_content (m_now m) d) = (Ok a, c) ∧ tree (h_files h') ∧
    h_files h' !! place_of m path = Some (Regular perm uid gid (Database (saved c d))).
Proof.
  intros Ht Hne Hn Hr. assert (tree (h_files h')) as Ht'.
  { pose proof (contained_final [place_of m path] _ h (query_store_contained m _ path p (list_elem_of_here _ _)) Ht) as Hk.
    unfold final in Hk. rewrite Hr in Hk. apply Hk. }
  apply sys_inv in Hr. rewrite (read_entry _ _ _ _ _ _ _ Ht Hne Hn) in Hr.
  destruct (run p _) as [r c]. injection Hr as -> Hf. exists c. split_and!; [done|done|].
  by rewrite <- Hf, lookup_alter_eq, Hn.
Qed.

(** The log of a call whose result does not matter *)
Lemma ignored_audit path e h r h' perm uid gid d :
  tree (h_files h) → path ≠ "" → h_files h !! place_of m path = Some (Regular perm uid gid (Database d)) →
  run (ignore (query_store m path (Audit e))) h = (r, h') →
  tree (h_files h') ∧ (h_files h' !! place_of m path = Some (Regular perm uid gid (Database d)) ∨
    h_files h' !! place_of m path =
      Some (Regular perm uid gid (Database (saved (log_event e (disk_content (m_now m) d)) d)))).
Proof.
  intros Ht Hne Hn Hr. unfold ignore in Hr. rewrite run_bind in Hr. cbn [run] in Hr. injection Hr as _ <-.
  pose proof (contained_final [place_of m path] _ h (query_store_contained m _ path (Audit e) (list_elem_of_here _ _)) Ht)
    as [_ Ht'].
  split; [done|]. unfold final, query_store, sys. cbn [run atomic]. destruct (m_fault _ _ _); cbn [snd logged h_files]; [by left|].
  rewrite (read_entry _ _ _ _ _ _ _ Ht Hne Hn). pose proof (run_audit e (Ret tt) (disk_content (m_now m) d)) as Ha.
  rewrite run_bind in Ha. cbn [run] in Ha. injection Ha as Ha. unfold final in Ha.
  destruct (run (Audit e) _) as [r' c]. cbn in Ha |- *. rewrite lookup_alter_eq, Hn. right. by rewrite Ha.
Qed.

(** A database with one user, an administrator, and one key *)
Definition one_admin (name fp : string) (c : db) : Prop :=
  ∃ u k, c.(users) = [u] ∧ c.(gateway_keys) = [k] ∧ c.(user_totp) = [] ∧ u_username u = name ∧
    u_role u = RoleAdmin ∧ u_enabled u = true ∧ k_user_id k = u_id u ∧ k_fingerprint k = fp.

Lemma AddUser_first admin now v c :
  run (AddUser admin RoleAdmin) (disk_content now new_disk) = (Ok v, c) →
  validateName admin "username" = Ok (User_Username v) ∧ c.(gateway_keys) = [] ∧ c.(user_totp) = [] ∧
  ∃ u, c.(users) = [u] ∧ u_username u = User_Username v ∧ u_role u = RoleAdmin ∧ u_enabled u = true.
Proof.
  intros (name & d1 & [Hn ->]%lift_inv & Hr)%bind_ok_inv. cbn in Hr.
  unfold insert_user, exists_row in Hr. cbn in Hr. unfold query_row, select, insert_row in Hr. cbn in Hr. rewrite Z.eqb_refl in Hr. cbn in Hr.
  injection Hr as <- <-. rewrite Hn. cbn. split_and!; [done..|]. by eexists.
Qed.

Lemma AddGatewayKey_first name fp text label c c' u r :
  c.(users) = [u] → c.(gateway_keys) = [] → c.(user_totp) = [] → u_username u = name → u_role u = RoleAdmin →
  u_enabled u = true → run (AddGatewayKey name fp text label) c = (Ok r, c') →
  ToLower name = name ∧ one_admin name fp c'.
Proof.
  intros Hu Hk Ht En Er Ee Hr. unfold AddGatewayKey in Hr. rewrite run_bind_ok, UserByName_run in Hr.
  rewrite Hu in Hr. unfold query_row, select in Hr. cbn [List.filter head] in Hr.
  destruct (String.eqb_spec (u_username u) (ToLower name)) as [E|]; [|done].
  cbn [head scanUser] in Hr. rewrite run_bind in Hr. unfold value, final, query in Hr.
  cbn [run fst snd] in Hr. unfold exists_row in Hr at 1. rewrite Hk in Hr. cbn -[insert_gateway_key] in Hr.
  unfold insert_gateway_key, user_exists, exists_row in Hr. rewrite Hk in Hr. rewrite Hu in Hr. cbn in Hr.
  rewrite Z.eqb_refl in Hr. cbn in Hr. injection Hr as _ <-. split; [congruence|].
  eexists u, _. cbn. rewrite Hk. by split_and!.
Qed.

Lemma first_user_db configPath cfg admin key h h' uid gid :
  tree (h_files h) → DatabasePath cfg ≠ "" →
  h_files h !! place_of m (DatabasePath cfg) = Some (Regular 0x180 uid gid (Database new_disk)) →
  run (first_user m configPath cfg admin key) h = (Ok tt, h') →
  ∃ name c, validateName admin "username" = Ok name ∧ ToLower name = name ∧ one_admin name key.2 c ∧
    h_files h' !! place_of m (DatabasePath cfg) = Some (Regular 0x180 uid gid (Database (saved c new_disk))).
Proof.
  intros Ht Hne Hn (v & h1 & Hr1 & (u2 & h2 & Hr2 & (u3 & h3 & Hr3 & Hr4)%bind_ok_inv)%bind_ok_inv)%bind_ok_inv.
  destruct (query_store_inv _ _ _ _ _ _ _ _ _ Ht Hne Hn Hr1) as (c1 & Hc1 & Ht1 & Hn1).
  destruct (query_store_inv _ _ _ _ _ _ _ _ _ Ht1 Hne Hn1 Hr2) as (c2 & Hc2 & Ht2 & Hn2).
  destruct (ignored_audit _ _ _ _ _ _ _ _ _ Ht2 Hne Hn2 Hr3) as (Ht3 & Hn3).
  apply AddUser_first in Hc1 as (Hname & Hk & Htotp & u & Hu & Eu & Er & Ee).
  destruct (AddGatewayKey_first (User_Username v) key.2 key.1.2 "bootstrap" (disk_content (m_now m) (saved c1 new_disk)) c2 u u2) as [Hl Ho];
    [exact Hu|exact Hk|exact Htotp|done|done|done|exact Hc2|].
  assert (h_files h' = h_files h3) as ->.
  { rewrite run_bind in Hr4. cbn -[hostFingerprint] in Hr4. injection Hr4 as <-. cbn -[hostFingerprint].
    unfold final, hostFingerprint. rewrite run_bind. apply readFile_run. }
  destruct Hn3 as [Hn3|Hn3].
  - by exists (User_Username v), c2.
  - eexists (User_Username v), _. split_and!; [done|done| |exact Hn3]. unfold one_admin.
    set (e := event _ _ _ _ _ _ _). destruct (log_event_tables e (disk_content (m_now m) (saved c2 (saved c1 new_disk))))
      as (-> & -> & -> & _). exact Ho.
Qed.

(** The key of the only user is accepted. *)
Lemma one_admin_enters name fp c now source :
  nameRE name = true → ToLower name = name → one_admin name fp c →
  value (publicKeyCallback name source fp) (disk_content now (saved c new_disk)) =
    Granted (authPermissions name "" "publickey").
Proof.
  intros Hre Hl (u & k & Hu & Hk & Ht & En & Er & Ee & Ek & Ef).
  assert (splitRoutedUsername name = Ok (name, "")) as Hs.
  { unfold splitRoutedUsername. rewrite split_byte_none, Hl; [done|].
    assert (∀ t, sforall name_tail t = true → mem_byte "+" t = false) as Htail.
    { induction t as [|x t IH]; [done|]. cbn [sforall mem_byte]. intros [Hx Htl]%andb_true_iff. rewrite IH by done.
      rewrite orb_false_r. apply Ascii.eqb_neq. by intros <-. }
    destruct name as [|x t]; [done|]. cbn in Hre. rewrite !andb_true_iff in Hre. destruct Hre as [[Hx Htl] _].
    cbn [mem_byte]. rewrite Htail by done. rewrite orb_false_r. apply Ascii.eqb_neq. by intros <-. }
  set (d := disk_content now (saved c new_disk)).
  change (users c) with (users d) in Hu. change (gateway_keys c) with (gateway_keys d) in Hk.
  change (user_totp c) with (user_totp d) in Ht. clearbody d.
  assert (run (AuthenticateKey name fp) d = (Ok (user_of_row d u), d)) as Ha.
  { unfold AuthenticateKey, query. cbn [run]. unfold query_row, select. rewrite Hu. cbn [List.filter].
    assert (authenticates d (ToLower name) fp u = true) as ->; [|done].
    unfold authenticates, exists_row. rewrite Hk, Hl, En, Ee, String.eqb_refl. cbn.
    by rewrite Ek, Ef, Z.eqb_refl, String.eqb_refl. }
  unfold value, publicKeyCallback. rewrite Hs, run_bind. unfold value, final. rewrite Ha. cbn [fst snd is_ok nullableUserID].
  rewrite run_audit. cbn [user_of_row User_TOTPEnabled]. unfold has_totp, exists_row. by rewrite Ht.
Qed.

End database.

(** ** The files of an init *)

Section files.
Context `{UnicodeTables, Rowids, TimeParser, SqliteTexts, DriverTexts, NetText}.
Context `{KeyFormats, Aead, PayloadCodec, PrintTables, TomlCodec, HostKeys, FileUrls}.
Context (m : machine).

Definition grown (fs fs' : files) : Prop := ∀ q n, fs !! q = Some n → fs' !! q = Some n.

(** What a successful step of init does to the files: it keeps those there are. *)
Lemma contained_grown {A : Type} (p : prog host A) h a h' :
  contained [] p → tree (h_files h) → run p h = (a, h') → grown (h_files h) (h_files h') ∧ tree (h_files h').
Proof.
  intros Hp Ht Hr. split.
  - intros q n Hq. pose proof (contained_entry [] p h q n Hp Ht (not_elem_of_nil _) Hq) as He. unfold final in He.
    by rewrite Hr in He.
  - pose proof (contained_final [] p h Hp Ht) as [_ Hk]. unfold final in Hk. by rewrite Hr in Hk.
Qed.

(** A file that was made *)
Definition made (path : string) (perm : Z) (b : string) (fs : files) : Prop :=
  path ≠ "" ∧ fs !! place_of m path = Some (Regular (masked m perm) (m_uid m) (m_gid m) (Bytes b)).

Lemma made_grown path perm b fs fs' : grown fs fs' → made path perm b fs → made path perm b fs'.
Proof. intros Hg [Hne Hm]. split; [done|]. by apply Hg. Qed.

Lemma write_new_made path perm b h h' : tree (h_files h) → run (write_new m path perm b) h = (Ok tt, h') →
  grown (h_files h) (h_files h') ∧ tree (h_files h') ∧ made path perm b (h_files h').
Proof.
  intros Ht Hr. pose proof (write_new_inv _ _ _ _ _ _ Hr) as (Hne & Hno & Hf). split_and!.
  - rewrite Hf. intros q n Hq. rewrite lookup_insert_ne; [done|]. intros <-. congruence.
  - pose proof (contained_final [place_of m path] _ h (write_new_contained m _ path perm b (or_intror (list_elem_of_here _ _))) Ht)
      as [_ Hk]. unfold final in Hk. by rewrite Hr in Hk.
  - split; [done|]. by rewrite Hf, lookup_insert_eq.
Qed.

Lemma randomBytes_inv n h b h' : run (randomBytes m n) h = (Ok b, h') → b = m_random m (h_calls h) n.
Proof. cbn. destruct (m_fault _ _ _); [done|]. by intros [= <- _]. Qed.

Lemma Generate_made path h h' : (∀ calls n, len (m_random m calls n) = Z.of_nat n) → tree (h_files h) →
  run (Generate m path) h = (Ok tt, h') →
  ∃ b, grown (h_files h) (h_files h') ∧ tree (h_files h') ∧ len b = KeySize ∧ made path 0x180 b (h_files h').
Proof.
  intros Hrand Ht (u & h1 & R1 & (b & h2 & R2 & R3)%bind_ok_inv)%bind_ok_inv.
  destruct (contained_grown _ _ _ _ (mkdirAll_contained _ _ _ _) Ht R1) as [G1 Ht1].
  destruct (contained_grown _ _ _ _ (randomBytes_contained _ _ _) Ht1 R2) as [G2 Ht2].
  destruct (write_new_made _ _ _ _ _ Ht2 R3) as (G3 & Ht3 & Hm).
  exists b. split_and!; [by intros q n Hq%G1%G2%G3|done| |done]. apply randomBytes_inv in R2 as ->. by rewrite Hrand.
Qed.

Lemma generateHostKey_made path h h' : tree (h_files h) → run (generateHostKey m path) h = (Ok tt, h') →
  ∃ seed pem, grown (h_files h) (h_files h') ∧ tree (h_files h') ∧
    MarshalPrivateKey seed "SSHGateW host key" = Ok pem ∧ made path 0x180 pem (h_files h').
Proof.
  intros Ht (seed & h1 & R1 & (pem & h2 & [R2 ->]%lift_inv & R3)%bind_ok_inv)%bind_ok_inv.
  destruct (contained_grown _ _ _ _ (randomBytes_contained _ _ _) Ht R1) as [G1 Ht1].
  destruct (write_new_made _ _ _ _ _ Ht1 R3) as (G3 & Ht3 & Hm).
  exists seed, pem. by split_and!; [intros q n Hq%G1%G3|..].
Qed.

Lemma Write_made path c h h' : tree (h_files h) → run (Write m path c) h = (Ok tt, h') →
  ∃ b, grown (h_files h) (h_files h') ∧ tree (h_files h') ∧ Validate c = Ok tt ∧ toml_Marshal MarshalText c = Ok b ∧
    made path 0x1A0 b (h_files h').
Proof.
  intros Ht ([] & h1 & [Hv ->]%lift_inv & (b & h2 & [Hb ->]%lift_inv & (u & h3 & R3 & R4)%bind_ok_inv)%bind_ok_inv)%bind_ok_inv.
  destruct (contained_grown _ _ _ _ (mkdirAll_contained _ _ _ _) Ht R3) as [G3 Ht3].
  destruct (write_new_made _ _ _ _ _ Ht3 R4) as (G4 & Ht4 & Hm).
  exists b. by split_and!; [intros q n Hq%G3%G4|..].
Qed.

(** The places of a data directory's files are different. *)
Lemma data_dir_places dir : ∃ base,
  place_of m (JoinPath dir "sshgatew.db") = base ++ ["sshgatew.db"] ∧
  place_of m (JoinPath dir "master.key") = base ++ ["master.key"] ∧
  place_of m (JoinPath dir "ssh_host_ed25519_key") = base ++ ["ssh_host_ed25519_key"] ∧
  place_of m (wal (JoinPath dir "sshgatew.db")) = base ++ ["sshgatew.db-wal"] ∧
  place_of m (shm (JoinPath dir "sshgatew.db")) = base ++ ["sshgatew.db-shm"] ∧
  JoinPath dir "sshgatew.db" ≠ "" ∧ JoinPath dir "sshgatew.db" ≠ memory.
Proof.
  destruct (JoinPath_prefix dir) as (pre & Hpre & Hj). destruct (place_of_prefix m pre Hpre) as [base Hb].
  exists base. rewrite !Hj by done. unfold wal, shm. rewrite !append_assoc. cbn [String.append].
  split_and!; try (by apply Hb); destruct Hpre as [->|[q ->]]; try done.
  - by destruct q.
  - intros E. apply (f_equal (mem_byte "/")) in E. revert E. clear. induction q as [|x q IH]; [done|].
    cbn [String.append mem_byte]. destruct (Ascii.eqb "/" x); [done|exact IH].
Qed.

Lemma untouch_ne path fs q : q ≠ place_of m path → untouch m path fs !! q = fs !! q.
Proof.
  intros Hq. unfold untouch. destruct (fs !! place_of m path) as [[]|]; try done. by apply lookup_delete_ne.
Qed.

Lemma closeStore_entry path h q : q ∉ logs m path → h_files (final (closeStore m path) h) !! q = h_files h !! q.
Proof.
  unfold logs. rewrite !not_elem_of_cons. intros (Hw & Hs & _). unfold final, closeStore, sys. cbn [run atomic].
  destruct (m_fault _ _ _); [done|]. cbn. by rewrite !untouch_ne.
Qed.

Lemma closeStore_tree path h : tree (h_files h) → tree (h_files (final (closeStore m path) h)).
Proof.
  intros Ht. apply (contained_final [place_of m path; place_of m (wal path); place_of m (shm path)] _ h); [|done].
  apply closeStore_contained; rewrite !elem_of_cons; tauto.
Qed.

Lemma Generate_contained (owned : list place) path : place_of m path ∈ owned → contained owned (Generate m path).
Proof.
  intros Hp. apply contained_bind_ok; [auto with host|]. intros _. apply contained_bind_ok; [auto with host|].
  intros b. apply write_new_contained. by right.
Qed.

Lemma generateHostKey_contained (owned : list place) path :
  place_of m path ∈ owned → contained owned (generateHostKey m path).
Proof.
  intros Hp. apply contained_bind_ok; [auto with host|]. intros seed. apply contained_bind_ok; [done|].
  intros b. apply write_new_contained. by right.
Qed.

Lemma Write_contained (owned : list place) path c : place_of m path ∈ owned → contained owned (Write m path c).
Proof.
  intros Hp. apply contained_bind_ok; [done|]. intros _. apply contained_bind_ok; [done|]. intros b.
  apply contained_bind_ok; [auto with host|]. intros _. apply write_new_contained. by right.
Qed.

(** A program that succeeded, and a frame of it *)
Lemma contained_run {A : Type} (owned : list place) (p : prog host A) h a h' :
  contained owned p → tree (h_files h) → run p h = (a, h') → outside owned (h_files h) (h_files h') ∧ tree (h_files h').
Proof. intros Hp Ht Hr. pose proof (contained_final owned p h Hp Ht) as Hk. unfold final in Hk. by rewrite Hr in Hk. Qed.

(** The two keys and the configuration *)
Definition own_places (configPath : string) (cfg : Config) : list place :=
  place_of m <$> [MasterKeyPath cfg; HostKeyPath cfg; configPath].

Definition own_files (configPath : string) (cfg : Config) (fs : files) : Prop :=
  (∃ b, len b = KeySize ∧ made (MasterKeyPath cfg) 0x180 b fs) ∧
  (∃ seed pem, MarshalPrivateKey seed "SSHGateW host key" = Ok pem ∧ made (HostKeyPath cfg) 0x180 pem fs) ∧
  (∃ b, Validate cfg = Ok tt ∧ toml_Marshal MarshalText cfg = Ok b ∧ made configPath 0x1A0 b fs).

Lemma own_files_kept configPath cfg fs fs' :
  (∀ q n, q ∈ own_places configPath cfg → fs !! q = Some n → fs' !! q = Some n) →
  own_files configPath cfg fs → own_files configPath cfg fs'.
Proof.
  intros Hk ((b & Hb & Hne & Hm) & (seed & pem & Hp & Hne' & Hh) & (t & Hv & Ht & Hne2 & Hc)).
  split_and!; [exists b|exists seed, pem|exists t]; split_and!; try done;
    (split; [done|]); apply Hk; try done; unfold own_places; cbn; rewrite !elem_of_cons; tauto.
Qed.

(** The steps of [init_files] before the database *)
Lemma own_files_run configPath dir cfg h k h' :
  (∀ calls n, len (m_random m calls n) = Z.of_nat n) → tree (h_files h) →
  run (let? _ := mkdirAll m dir 0x1E8 in
       let? _ := wrap "create master key" (Generate m (MasterKeyPath cfg)) in
       let? _ := wrap "create host key" (generateHostKey m (HostKeyPath cfg)) in
       let? _ := wrap "write config" (Write m configPath cfg) in k) h = (Ok tt, h') →
  ∃ h4, tree (h_files h4) ∧ outside (own_places configPath cfg) (h_files h) (h_files h4) ∧
    own_files configPath cfg (h_files h4) ∧ run k h4 = (Ok tt, h').
Proof.
  intros Hrand Ht Hr. set (own := own_places configPath cfg).
  assert (∀ path, In path [MasterKeyPath cfg; HostKeyPath cfg; configPath] → place_of m path ∈ own) as Hown.
  { intros path Hp. by apply list_elem_of_fmap_2, list_elem_of_In. }
  apply bind_ok_inv in Hr as (u1 & h1 & R1 & Hr). apply bind_ok_inv in Hr as (u2 & h2 & R2 & Hr).
  apply bind_ok_inv in Hr as (u3 & h3 & R3 & Hr). apply bind_ok_inv in Hr as (u4 & h4 & R4 & R5).
  apply wrap_inv in R2, R3, R4. destruct u2, u3, u4.
  destruct (contained_run own _ _ _ _ (mkdirAll_contained _ _ _ _) Ht R1) as [O1 Ht1].
  destruct (Generate_made _ _ _ Hrand Ht1 R2) as (b & _ & Ht2 & Hb & M2).
  destruct (contained_run own _ _ _ _ (Generate_contained _ _ (Hown (MasterKeyPath cfg) ltac:(cbn; tauto))) Ht1 R2) as [O2 _].
  destruct (generateHostKey_made _ _ _ Ht2 R3) as (seed & pem & G3 & Ht3 & Hpem & M3).
  destruct (contained_run own _ _ _ _ (generateHostKey_contained _ _ (Hown (HostKeyPath cfg) ltac:(cbn; tauto))) Ht2 R3) as [O3 _].
  destruct (Write_made _ _ _ _ Ht3 R4) as (text & G4 & Ht4 & Hv & Htext & M4).
  destruct (contained_run own _ _ _ _ (Write_contained _ _ cfg (Hown configPath ltac:(cbn; tauto))) Ht3 R4) as [O4 _].
  exists h4. split_and!; [done| | |exact R5].
  - eapply outside_trans; [exact O1|]. eapply outside_trans; [exact O2|]. by eapply outside_trans; [exact O3|].
  - split_and!; [exists b|exists seed, pem|exists text]; split_and!; try done.
    + by eapply made_grown, made_grown, M2.
    + by eapply made_grown, M3.
Qed.

Definition db_places (path : string) : list place := place_of m path :: logs m path.

Lemma openStore_places path : contained (db_places path) (openStore m path).
Proof. apply openStore_contained; unfold db_places, logs; rewrite !elem_of_cons; tauto. Qed.

Lemma init_files_run configPath dir cfg h h' :
  (∀ calls n, len (m_random m calls n) = Z.of_nat n) → tree (h_files h) →
  (∀ q, q ∈ own_places configPath cfg → q ∉ db_places (DatabasePath cfg)) →
  DatabasePath cfg ≠ "" → DatabasePath cfg ≠ memory →
  look_at m (h_files h) (DatabasePath cfg) = Nothing → run (init_files m configPath dir cfg) h = (Ok tt, h') →
  tree (h_files h') ∧ own_files configPath cfg (h_files h') ∧
  ∃ uid gid, h_files h' !! place_of m (DatabasePath cfg) = Some (Regular 0x180 uid gid (Database new_disk)).
Proof.
  intros Hrand Ht Hapart Hne Hmem Hno Hr.
  apply (own_files_run _ _ _ _ _ _ Hrand Ht) in Hr as (h4 & Ht4 & O4 & Hown & R5).
  set (db := DatabasePath cfg) in *.
  assert (∀ n, h_files h4 !! place_of m db = Some n → is_regular n = false) as Hreg.
  { intros n Hn. assert (h_files h !! place_of m db = None) as Hnone.
    { unfold look_at in Hno. apply String.eqb_neq in Hne. rewrite Hne in Hno.
      by apply entry_none, tree_nothing; [|left]. }
    assert (place_of m db ∉ own_places configPath cfg) as Hdb.
    { intros Hin. apply (Hapart _ Hin). unfold db_places. rewrite elem_of_cons. by left. }
    destruct (O4 _ Hdb) as [E|[_ (d & E & Hd)]]; [congruence|]. rewrite Hn in E. simplify_eq. by destruct d. }
  destruct (contained_run _ _ _ _ _ (openStore_places db) Ht4 R5) as [O5 Ht5].
  split_and!; [done| |exact (openStore_new m db h4 h' Hmem Hne Ht4 Hreg R5)]. eapply own_files_kept; [|exact Hown]. intros q n Hq Hn.
  destruct (O5 q (Hapart q Hq)) as [->|[E _]]; [done|congruence].
Qed.

(** The places of the files init makes are apart, if the configuration is not in
    the place of the database or its log. *)
Lemma init_places configPath dir listen :
  place_of m configPath ∉ db_places (DatabasePath (ForDataDir dir)) →
  let cfg := with_listen (ForDataDir dir) listen in
  (∀ q, q ∈ own_places configPath cfg → q ∉ db_places (DatabasePath cfg)) ∧ DatabasePath cfg ≠ "" ∧
  DatabasePath cfg ≠ memory.
Proof.
  destruct (data_dir_places dir) as (base & Pd & Pm & Ph & Pw & Ps & Hne & Hmem). cbn [with_listen ForDataDir DatabasePath MasterKeyPath HostKeyPath].
  intros Hc. split_and!; [|done|done]. intros q. unfold own_places.
  cbn [fmap list_fmap with_listen ForDataDir MasterKeyPath HostKeyPath]. rewrite !elem_of_cons.
  assert (∀ x y, x ≠ y → base ++ [x] ≠ base ++ [y]) as Happ by by intros x y Hxy [_ [=]]%app_inj_tail.
  unfold db_places, logs in *. rewrite Pd, Pw, Ps in *.
  intros [->|[->|[->|[]%not_elem_of_nil]]]; [rewrite Pm|rewrite Ph|done];
    rewrite !not_elem_of_cons; split_and!; try (by apply Happ); apply not_elem_of_nil.
Qed.

Lemma removing_inv paths p h h' : run (removing_on_failure m paths p) h = (Ok tt, h') → run p h = (Ok tt, h').
Proof.
  unfold removing_on_failure. rewrite run_bind. unfold value, final. destruct (run p h) as [[[]|e] h1]; cbn [fst snd].
  - by intros [= <-].
  - rewrite run_bind. done.
Qed.

Lemma first_user_contained (owned : list place) configPath cfg admin key :
  place_of m (DatabasePath cfg) ∈ owned → contained owned (first_user m configPath cfg admin key).
Proof.
  intros Hp. unfold first_user.
  apply contained_bind_ok; [by apply query_store_contained|]. intros u.
  apply contained_bind_ok; [by apply query_store_contained|]. intros _.
  apply contained_bind_ok; [by apply ignore_contained, query_store_contained|]. intros _. apply contained_bind.
  - apply contained_bind; auto with host.
  - intros f. apply contained_bind; auto with host.
Qed.

(** The files after an init that succeeded *)
Definition initialized (configPath : string) (cfg : Config) (name fp : string) (fs : files) : Prop :=
  tree fs ∧ own_files configPath cfg fs ∧
  ∃ uid gid c, one_admin name fp c ∧
    fs !! place_of m (DatabasePath cfg) = Some (Regular 0x180 uid gid (Database (saved c new_disk))).

Lemma initialize_ok configPath dir admin listen key h h' :
  let cfg := with_listen (ForDataDir dir) listen in
  (∀ calls n, len (m_random m calls n) = Z.of_nat n) → tree (h_files h) →
  place_of m configPath ∉ db_places (DatabasePath cfg) →
  run (initialize m configPath dir admin cfg key) h = (Ok tt, h') →
  ∃ name, validateName admin "username" = Ok name ∧ ToLower name = name ∧ initialized configPath cfg name key.2 (h_files h').
Proof.
  intros cfg Hrand Ht Hc Hr. destruct (init_places configPath dir listen Hc) as (Hapart & Hne & Hmem). fold cfg in Hapart, Hne, Hmem.
  apply bind_ok_inv in Hr as ([] & h1 & R0 & Hr%removing_inv).
  destruct (none_exists_run m [configPath; DatabasePath cfg; MasterKeyPath cfg; HostKeyPath cfg] h) as [Hf Hv].
  unfold value, final in Hf, Hv. rewrite R0 in Hf, Hv. cbn [fst snd] in Hf, Hv. specialize (Hv eq_refl).
  rewrite !Forall_cons in Hv. destruct Hv as (_ & Hno & _). rewrite <- Hf in Ht, Hno.
  apply bind_ok_inv in Hr as ([] & h2 & R1 & (h3 & R2 & ->)%finally_inv).
  destruct (init_files_run configPath dir cfg h1 h2 Hrand Ht Hapart Hne Hmem Hno R1) as (Ht2 & Hown2 & uid & gid & Hdb2).
  destruct (first_user_db m configPath cfg admin key h2 h3 uid gid Ht2 Hne Hdb2 R2) as (name & c & Hn & Hl & Ho & Hdb3).
  assert (place_of m (DatabasePath cfg) ∈ db_places (DatabasePath cfg)) as Hin by (unfold db_places; rewrite elem_of_cons; by left).
  destruct (contained_run _ _ _ _ _ (first_user_contained _ configPath cfg admin key Hin) Ht2 R2) as [O3 Ht3].
  exists name. split_and!; [done|done|]. split_and!.
  - by apply closeStore_tree.
  - eapply own_files_kept; [|exact Hown2]. intros q n Hq Hqn. rewrite closeStore_entry.
    + destruct (O3 q (Hapart q Hq)) as [->|[E _]]; [done|congruence].
    + intros Hl'. apply (Hapart q Hq). unfold db_places. rewrite elem_of_cons. by right.
  - exists uid, gid, c. split; [done|]. rewrite closeStore_entry; [done|].
    destruct (data_dir_places dir) as (base & Pd & _ & _ & Pw & Ps & _). unfold logs, cfg.
    cbn [with_listen ForDataDir DatabasePath]. rewrite Pd, Pw, Ps, !not_elem_of_cons. split_and!; [by intros [_ [=]]%app_inj_tail..|]. apply not_elem_of_nil.
Qed.

End files.

(** ** Starting *)

Section start.
Context `{UnicodeTables, Rowids, TimeParser, SqliteTexts, DriverTexts, NetText}.
Context `{KeyFormats, Aead, PayloadCodec, PrintTables, TomlCodec, HostKeys, FileUrls, !SetupLaws}.
Context (m : machine) (sound : ∀ calls c, m_fault m calls c = None).

Lemma read_made path perm b h : tree (h_files h) → made m path perm b (h_files h) →
  run (readFile m path) h = (Ok b, logged (SysRead path) (h_files h) h).
Proof.
  intros Ht [Hne Hm]. cbn. rewrite sound. unfold on_found. by rewrite (read_entry _ _ _ _ _ _ _ Ht Hne Hm).
Qed.

Lemma stat_made path perm b h : tree (h_files h) → made m path perm b (h_files h) →
  run (stat m path) h = (Found true (masked m perm), logged (SysStat path) (h_files h) h).
Proof.
  intros Ht [Hne Hm]. unfold stat. rewrite run_bind. unfold value, final. cbn. rewrite sound. cbn.
  unfold answer_of. by rewrite (read_entry _ _ _ _ _ _ _ Ht Hne Hm).
Qed.

(** No OIDC variable is set. *)
Definition plain_environment (env : environment) : Prop := ∀ name, nonEmptyEnvironment env name = None.

Lemma config_loads env configPath cfg h :
  tree (h_files h) → plain_environment env → config_utf8 cfg = true → forallb in_int64 (config_durations cfg) = true →
  own_files m configPath cfg (h_files h) →
  value (loadConfig m env configPath) h = Ok cfg ∧ h_files (final (loadConfig m env configPath) h) = h_files h.
Proof.
  intros Ht He Hu Hd (_ & _ & b & Hv & Hb & Hm). unfold value, final, loadConfig. rewrite run_bind. unfold value, final.
  rewrite (read_made _ _ _ _ Ht Hm). cbn [fst snd run]. split; [|done]. unfold Config.Load.
  rewrite (written_is_read _ _ _ Hu Hd Hb). unfold applyOIDCEnvironment, override. rewrite !He. cbn.
  replace (with_oidc cfg (OIDC cfg)) with cfg by by destruct cfg. by rewrite Hv.
Qed.

Lemma start_runs configPath cfg h :
  tree (h_files h) → own_files m configPath cfg (h_files h) →
  ∃ srv, value (start_server m cfg) h = Ok srv ∧ Srv_cfg srv = cfg.
Proof.
  intros Ht ((b & Hb & Hmk) & (seed & pem & Hpem & Hhk) & _). unfold value, start_server. rewrite run_bind_ok.
  assert (run (loadMasterKey m (MasterKeyPath cfg)) h =
    (Ok b, logged (SysRead (MasterKeyPath cfg)) (h_files h) (logged (SysStat (MasterKeyPath cfg)) (h_files h) h))) as ->.
  { unfold loadMasterKey, file_info. rewrite run_bind. unfold value, final. rewrite run_bind. unfold value, final.
    rewrite (stat_made _ _ _ _ Ht Hmk). cbn [fst snd]. rewrite run_bind. unfold value, final.
    rewrite (read_made _ _ b (logged (SysStat (MasterKeyPath cfg)) (h_files h) h) Ht Hmk).
    cbn [fst snd run]. unfold Secrets.Load. cbn [IsRegular Perm Content negb].
    rewrite private_perm by done. by rewrite Hb. }
  set (h1 := logged _ _ (logged _ _ h)). unfold new_server. rewrite run_bind_ok. unfold wrap. rewrite run_bind.
  unfold value, final. rewrite (read_made (HostKeyPath cfg) _ pem h1 Ht Hhk). cbn [fst snd run]. rewrite run_bind.
  unfold value, final. set (h2 := logged _ _ h1). rewrite (stat_made (HostKeyPath cfg) _ pem h2 Ht Hhk). cbn [fst snd negb]. rewrite private_perm by done.
  rewrite (parse_generated _ _ _ Hpem). cbn. by eexists.
Qed.

(** [serve] ends the way its server ends. *)
Definition ended_with (e : serve_end) : result unit := match e with Stopped r | Signalled r => r end.

Lemma serve_runs rc configPath cfg name fp h :
  plain_environment (rc_env rc) → config_utf8 cfg = true → forallb in_int64 (config_durations cfg) = true →
  DatabasePath cfg ≠ "" → DatabasePath cfg ≠ memory →
  (∀ q, q ∈ own_places m configPath cfg → q ∉ db_places m (DatabasePath cfg)) →
  initialized m configPath cfg name fp (h_files h) →
  value (run_args m rc ["--config"; configPath; "serve"]) h = ended_with (rc_ended rc).
Proof.
  intros He Hu Hd Hne Hmem Hapart (Ht & Hown & uid & gid & c & _ & Hdb). unfold value, run_args. rewrite run_bind_ok.
  cbn [lift run Parse]. cbn -[openStore loadConfig finally with_store closeStore]. rewrite run_bind_ok.
  destruct (config_loads (rc_env rc) configPath cfg h Ht He Hu Hd Hown) as [Hv Hf]. unfold value, final in Hv, Hf.
  destruct (run (loadConfig _ _ _) h) as [r h1]. cbn [fst snd] in Hv, Hf. subst r. rewrite <- Hf in Ht, Hown, Hdb.
  rewrite run_bind_ok. unfold wrap. rewrite run_bind. unfold value, final.
  destruct (openStore_again m _ h1 _ _ c sound Hmem Hne Ht Hdb) as [Hv _]. unfold value in Hv.
  destruct (run (openStore _ _) h1) as [r h2] eqn:Ho. cbn [fst snd run] in Hv |- *. subst r.
  destruct (contained_run _ _ _ _ _ (openStore_places m _) Ht Ho) as [O2 Ht2].
  assert (own_files m configPath cfg (h_files h2)) as Hown2.
  { eapply own_files_kept; [|exact Hown]. intros q n Hq Hn.
    destruct (O2 q (Hapart q Hq)) as [->|[E _]]; [done|congruence]. }
  destruct (start_runs configPath cfg h2 Ht2 Hown2) as (srv & Hs & _). unfold value in Hs.
  unfold finally. rewrite run_bind, run_bind. cbn [run fst]. unfold value.
  change (with_store m rc cfg "serve" []) with (serve m cfg (rc_ended rc)). unfold serve. rewrite run_bind_ok. destruct (run (start_server m cfg) h2) as [r h3]. cbn [fst] in Hs. by subst r.
Qed.

End start.

(** ** From init to serve *)

Section theorem.
Context `{UnicodeTables, Rowids, TimeParser, SqliteTexts, DriverTexts, NetText}.
Context `{KeyFormats, Aead, PayloadCodec, PrintTables, TomlCodec, HostKeys, FileUrls, !SetupLaws}.

Lemma validated_name v kind name : validateName v kind = Ok name → nameRE name = true.
Proof. unfold validateName. destruct (nameRE _) eqn:E; [|done]. by intros [= <-]. Qed.

(** C27: after an init that succeeded - whatever calls could have failed during it -
    the gateway starts: [serve], in an environment without OIDC variables and with
    no call that fails, reads the configuration, the master key and the host key
    back, opens the database and ends only as its server does; and in that database
    the administrator of the command line is let in with the key of the file, from
    anywhere, under the name the store keeps.  The random source gives as many bytes
    as it is asked for, the configuration's texts are valid UTF-8, and it is not kept
    in the place of the database. *)
Theorem initialized_gateway_starts m configPath args rc h :
  (∀ calls n, len (m_random m calls n) = Z.of_nat n) → tree (h_files h) → config_utf8 (init_config args) = true →
  place_of m configPath ∉ db_places m (init_database args) → plain_environment (rc_env rc) →
  value (initCommand m configPath args) h = Ok tt →
  let h' := final (initCommand m configPath args) h in
  value (run_args (without_faults m) rc ["--config"; configPath; "serve"]) h' = ended_with (rc_ended rc) ∧
  ∃ name key uid gid d,
    validateName (init_flag "admin" args) "username" = Ok name ∧
    public_key_in (value (readFile m (init_flag "authorized-key" args)) h) = Ok key ∧
    h_files h' !! place_of m (init_database args) = Some (Regular 0x180 uid gid (Database d)) ∧
    ∀ source, value (publicKeyCallback name source key.2) (disk_content (m_now m) d) =
      Granted (authPermissions name "" "publickey").
Proof.
  intros Hrand Ht Hu Hc He Hv h'. pose proof (initCommand_run m configPath args h) as Hr. unfold value in Hv.
  destruct (run (initCommand m configPath args) h) as [r h1] eqn:Ei. cbn [fst] in Hv. subst r.
  assert (h' = h1) as -> by (unfold h', final; by rewrite Ei).
  destruct Hr as [[Hr _]|(key & h0 & Hf & Hne & Hkey & Hr)]; [done|]. rewrite <- Hf in Ht.
  destruct (initialize_ok m configPath _ _ (init_flag "listen" args) key h0 h1 Hrand Ht Hc Hr) as (name & Hn & Hl & Hi).
  destruct (init_places m configPath _ (init_flag "listen" args) Hc) as (Hapart & _ & Hmem). split.
  - eapply (serve_runs (without_faults m)); [done|exact He|exact Hu|by vm_compute|exact Hne|exact Hmem|exact Hapart|exact Hi].
  - destruct Hi as (_ & _ & uid & gid & c & Ho & Hd). exists name, key, uid, gid, (saved c new_disk).
    split_and!; [done|done|exact Hd|]. intros source. apply one_admin_enters; [by eapply validated_name|done|done].
Qed.

End theorem.
