(* ===== verification/Install.v ===== *)
(** * The installer ([cmd/sshgatew/install.go])

    [install]: the questions, the service account, the files and the service,
    as a program on the machine of [Host.v].  What the operating system answers -
    the account database, the tools that are run, the name of a temporary file -
    are the fields of [installRuntime]. *)

From S2P Require Import Prelude GoStrings Json GoTime Effects Paths SshKeys Net Sql Schema Names Migrations Host.
From S2P Require Import StoreUsers Auth Config Secrets MenuCommands Flags Commands Setup.

Record installPaths := MkInstallPaths {
  ip_config : string;
  ip_dataDir : string;
  ip_binary : string;
  ip_unit : string;
}.

(** [user.Lookup] *)
Inductive lookup_answer :=
  | UserFound (uid gid : string)
  | UnknownUser
  | LookupError (e : error).

(** The answers after the calls made so far: a tool that fails has an error and
    an output. *)
Record installRuntime := MkInstallRuntime {
  rt_euid : Z;
  rt_executable : result string;
  rt_lookupUser : list syscall → string → lookup_answer;
  rt_run : list syscall → string → list string → option (error * string);
  rt_temp : list syscall → string → string → string;
}.

Definition productionPaths (configPath : string) : installPaths :=
  MkInstallPaths configPath "/var/lib/sshgatew" "/usr/local/bin/sshgatew" "/etc/systemd/system/sshgatew.service".

Definition systemdUnit (binary configPath dataDir : string) : string :=
  Join ["[Unit]";
        "Description=SSHGateW SSH credential gateway";
        "After=network-online.target";
        "Wants=network-online.target";
        "";
        "[Service]";
        "Type=simple";
        "User=sshgatew";
        "Group=sshgatew";
        "ExecStart=" +:+ binary +:+ " --config " +:+ configPath +:+ " serve";
        "Restart=on-failure";
        "RestartSec=3s";
        "TimeoutStopSec=15s";
        "LimitNOFILE=8192";
        "";
        "NoNewPrivileges=true";
        "PrivateTmp=true";
        "PrivateDevices=true";
        "ProtectSystem=strict";
        "ProtectHome=true";
        "ReadWritePaths=" +:+ dataDir;
        "RestrictAddressFamilies=AF_UNIX AF_INET AF_INET6";
        "RestrictSUIDSGID=true";
        "LockPersonality=true";
        "MemoryDenyWriteExecute=true";
        "CapabilityBoundingSet=";
        "AmbientCapabilities=";
        "";
        "[Install]";
        "WantedBy=multi-user.target";
        ""] newline.

(** ** The standard input: what is left of it, and the error at its end if that
    is not [io.EOF] *)
Definition reader : Type := string * option error.

(** [reader.ReadString('\n')]: the line and what is left; the error counts when
    no newline came before it. *)
Fixpoint read_until (data : string) (line : string) : option (string * string) :=
  match data with
  | EmptyString => None
  | String c rest =>
    if Ascii.eqb c (chr 0x0A) then Some (line +:+ str1 c, rest) else read_until rest (line +:+ str1 c)
  end.

Definition ReadString (r : reader) : result (string * reader) :=
  match read_until r.1 "" with
  | Some (line, rest) => Ok (line, (rest, r.2))
  | None => match r.2 with Some err => Err err | None => Ok (r.1, ("", None)) end
  end.

Section install.
Context `{UnicodeTables, Rowids, TimeParser, SqliteTexts, DriverTexts, NetText}.
Context `{KeyFormats, Aead, PayloadCodec, PrintTables, TomlCodec, HostKeys, FileUrls}.
Context (m : machine) (rt : installRuntime).

(** ** The runtime *)

Definition lookupUser (name : string) : prog host lookup_answer :=
  let* a := query (λ h, rt_lookupUser rt (h_calls h) name) in
  let* r := sys m (SysLookupUser name) (λ fs, (Ok a, fs)) in
  Ret (match r with Ok a => a | Err err => LookupError err end).

Definition run_tool (name : string) (args : list string) : prog host (result unit) :=
  let* failed := query (λ h, rt_run rt (h_calls h) name args) in
  sys m (SysRun name args) (λ fs,
    (match failed with
     | None => Ok tt
     | Some (err, output) =>
       Err (Msg (name +:+ " " +:+ Join args " " +:+ ": " +:+ error_text err +:+ ": " +:+ TrimSpace output))
     end, fs)).

(** [os.CreateTemp] *)
Definition createTemp (dir pattern : string) : prog host (result string) :=
  let* path := query (λ h, rt_temp rt (h_calls h) dir pattern) in
  let? _ := createNew m path 0x180 in
  Ret (Ok path).

Definition opens (path : string) : prog host (result unit) :=
  sys m (SysRead path) (λ fs, on_found m "open" path fs (λ _, (Ok tt, fs))).

(** ** Files that are replaced as a whole *)

(** [closeErr := f.Close(); if err == nil { err = closeErr }] *)
Definition closing (path : string) (p : prog host (result unit)) : prog host (result unit) :=
  let* r := p in
  let* c := close m path in
  Ret (match r with Ok _ => c | Err err => Err err end).

(** What is written, then its mode and [Sync] *)
Definition completing (temp : string) (mode : Z) (body : prog host (result unit)) : prog host (result unit) :=
  closing temp
    (let? _ := body in
     let? _ := chmod m temp mode in
     sync m temp).

(** A temporary file beside the destination takes its place when it is complete. *)
Definition replacing (destination : string) (mode : Z) (body : string → prog host (result unit)) :
    prog host (result unit) :=
  let? temp := createTemp (Dir destination) ".sshgatew-install-*" in
  finally
    (let? _ := completing temp mode (body temp) in
     rename m temp destination)
    (remove m temp).

Definition atomicWrite (destination content : string) (mode : Z) : prog host (result unit) :=
  replacing destination mode (λ temp, write m temp content).

(** [os.SameFile] of what two paths name *)
Definition same_file (source destination : string) (a b : lstat_answer) : bool :=
  match a, b with
  | Found _ _, Found _ _ => bool_decide (place_of m source = place_of m destination)
  | _, _ => false
  end.

Definition copy_executable (source destination : string) : prog host (result unit) :=
  let? _ := opens source in
  replacing destination 0x1ED (λ temp, let? b := readFile m source in write m temp b).

Definition installCurrentExecutable (destination : string) : prog host (result unit) :=
  let? source := lift (rt_executable rt) in
  let* a := stat m source in
  let* b := match a with Found _ _ => stat m destination | _ => Ret NotExist end in
  if same_file source destination a b then chmod m destination 0x1ED
  else copy_executable source destination.

(** ** The service account *)

Definition ensureServiceUser : prog host (result unit) :=
  let* a := lookupUser "sshgatew" in
  match a with
  | UserFound _ _ => Ret (Ok tt)
  | LookupError err => fail (Wrap "look up sshgatew service account" err)
  | UnknownUser =>
    run_tool "useradd"
      ["--system"; "--home-dir"; "/var/lib/sshgatew"; "--shell"; "/usr/sbin/nologin"; "sshgatew"]
  end.

Definition atoi (s : string) : result Z :=
  match Atoi s with
  | Some z => Ok z
  | None => Err (Ext ("strconv.Atoi: parsing " +:+ Quote s +:+ ": invalid syntax"))
  end.

(** The ids of the account; never root's *)
Definition service_ids : prog host (result (Z * Z)) :=
  let* a := lookupUser "sshgatew" in
  match a with
  | UnknownUser => fail (Wrap "look up sshgatew service account" (Ext "user: unknown user sshgatew"))
  | LookupError err => fail (Wrap "look up sshgatew service account" err)
  | UserFound uid gid =>
    let? uid := lift (atoi uid) in
    if uid =? 0
    then fail (Msg "refusing to run SSHGateW with a service account that resolves to UID 0")
    else
      let? gid := lift (atoi gid) in
      Ret (Ok (uid, gid))
  end.

(** ** The installation *)

Fixpoint not_installed (paths : list string) : prog host (result unit) :=
  match paths with
  | [] => Ret (Ok tt)
  | p :: paths =>
    let* a := stat m p in
    match a with
    | Found _ _ => fail (Msg ("SSHGateW is already initialized at " +:+ p +:+ "; refusing to overwrite it"))
    | NotExist => not_installed paths
    | LstatError err => fail err
    end
  end.

(** [gossh.ParseAuthorizedKey] of exactly one key *)
Definition single_key (text : string) (wrong : string) : result (SshKey * string) :=
  match ParseAuthorizedKey text with
  | Err err => Err (Wrap "parse administrator public key" err)
  | Ok (key, comment, rest) =>
    if negb (len (TrimSpace rest) =? 0) then Err (Wrap "parse administrator public key" (Msg wrong))
    else Ok (key, comment)
  end.

(** The checks before anything is changed *)
Definition install_checks (paths : installPaths) (admin listen publicKey : string) : prog host (result unit) :=
  if negb (rt_euid rt =? 0) then fail (Msg "installation must run as root; use sudo ./sshgatew install")
  else
    let? _ := lift (ValidateUsername admin) in
    let? _ := lift (Validate (with_listen (ForDataDir (ip_dataDir paths)) listen)) in
    let? _ := lift (single_key publicKey "expected exactly one administrator public key") in
    not_installed [ip_config paths; JoinPath (ip_dataDir paths) "sshgatew.db"].

(** The directories and the program *)
Definition install_places (paths : installPaths) (uid gid : Z) : prog host (result unit) :=
  let? _ := mkdirAll m (ip_dataDir paths) 0x1E8 in
  let? _ := mkdirAll m (Dir (ip_config paths)) 0x1E8 in
  let? _ := chmod m (Dir (ip_config paths)) 0x1E8 in
  let? _ := mkdirAll m (Dir (ip_binary paths)) 0x1ED in
  let? _ := mkdirAll m (Dir (ip_unit paths)) 0x1ED in
  let? _ := chown m (ip_dataDir paths) uid gid in
  let? _ := chmod m (ip_dataDir paths) 0x1E8 in
  installCurrentExecutable (ip_binary paths).

(** What a program prints, kept from the output *)
Definition collected {A : Type} (p : prog host A) : prog host (A * string) :=
  let* out := atomic (λ h, (h_out h, MkHost (h_files h) (h_calls h) "")) in
  let* a := p in
  atomic (λ h, ((a, h_out h), MkHost (h_files h) (h_calls h) out)).

Definition initialize_with (paths : installPaths) (admin listen keyPath : string) : prog host (result string) :=
  let* r := collected (initCommand m (ip_config paths)
    ["--admin"; admin; "--authorized-key"; keyPath; "--data-dir"; ip_dataDir paths; "--listen"; listen]) in
  Ret (match r with (Ok _, text) => Ok text | (Err err, _) => Err (Wrap "initialize SSHGateW" err) end).

Fixpoint chown_all (paths : list string) (uid gid : Z) : prog host (result unit) :=
  match paths with
  | [] => Ret (Ok tt)
  | p :: paths => let? _ := chown m p uid gid in chown_all paths uid gid
  end.

(** The owners and the unit *)
Definition install_service (paths : installPaths) (uid gid : Z) (start : bool) : prog host (result unit) :=
  let dir := ip_dataDir paths in
  let? _ := chown_all [dir; JoinPath dir "sshgatew.db"; JoinPath dir "master.key";
                       JoinPath dir "ssh_host_ed25519_key"] uid gid in
  let? _ := chown m (Dir (ip_config paths)) 0 gid in
  let? _ := chown m (ip_config paths) 0 gid in
  let? _ := chmod m (ip_config paths) 0x1A0 in
  let? _ := atomicWrite (ip_unit paths) (systemdUnit (ip_binary paths) (ip_config paths) dir) 0x1A4 in
  let? _ := run_tool "systemctl" ["daemon-reload"] in
  run_tool "systemctl" (if start then ["enable"; "--now"; "sshgatew.service"] else ["enable"; "sshgatew.service"]).

Definition done_text (listen admin : string) (start : bool) : string :=
  let port := match SplitHostPort listen with Ok hp => hp.2 | Err _ => "" end in
  newline +:+ "Installation complete." +:+ newline
  +:+ "Service: " +:+ (if start then "enabled and running" else "enabled, not started") +:+ newline
  +:+ "Connect: ssh -p " +:+ port +:+ " " +:+ admin +:+ "@<gateway-host>" +:+ newline.

Definition with_key_file (publicKey : string) (body : string → prog host (result unit)) : prog host (result unit) :=
  let? keyPath := createTemp "" "sshgatew-admin-key-*.pub" in
  finally
    (let? _ := closing keyPath (let? _ := chmod m keyPath 0x180 in write m keyPath publicKey) in
     body keyPath)
    (remove m keyPath).

Definition performInstall (paths : installPaths) (admin listen publicKey : string) (start : bool) :
    prog host (result unit) :=
  let? _ := install_checks paths admin listen publicKey in
  let? _ := ensureServiceUser in
  let? ids := service_ids in
  let? _ := install_places paths ids.1 ids.2 in
  with_key_file publicKey (λ keyPath,
    let? initOutput := initialize_with paths admin listen keyPath in
    let? _ := install_service paths ids.1 ids.2 start in
    let* _ := say initOutput in
    let* _ := say (done_text listen admin start) in
    Ret (Ok tt)).

(** ** The command *)

Definition promptDefault (r : reader) (label value : string) : prog host (result (string * reader)) :=
  let* _ := say (label +:+ " [" +:+ value +:+ "]: ") in
  Ret (let! line := ReadString r in
       let text := TrimSpace line.1 in
       Ok (if negb (text =s "") then text else value, line.2)).

Definition loadInstallPublicKey (value : string) : prog host (result string) :=
  let value := TrimSpace value in
  if value =s "" then fail (Msg "an administrator public key is required")
  else
    let? b := (if negb (ContainsAny value (" " +:+ tab)) then wrap "read administrator public key" (readFile m value)
               else Ret (Ok value)) in
    Ret (let! key := single_key b "expected exactly one public key" in
         Ok (canonical_key key.1 +:+ (if negb (key.2 =s "") then " " +:+ key.2 else "") +:+ newline)).

Definition install_flags : flag_set :=
  [("admin", StringFlag "admin"); ("authorized-key", StringFlag ""); ("listen", StringFlag "0.0.0.0:2222");
   ("no-start", BoolFlag false); ("yes", BoolFlag false)].

(** The administrator's name and the address, asked for *)
Definition ask_names (interactive : bool) (admin listen : string) (r : reader) :
    prog host (result (string * string * reader)) :=
  if negb interactive then Ret (Ok (admin, listen, r))
  else
    let? a := promptDefault r "Administrator username" admin in
    let? l := promptDefault a.2 "Listen address" listen in
    Ret (Ok (a.1, l.1, l.2)).

Definition ask_key (value : string) (r : reader) : prog host (result (string * reader)) :=
  if negb (value =s "") then Ret (Ok (value, r))
  else
    let* _ := say "Administrator public key (paste one OpenSSH public key): " in
    Ret (let! line := ReadString r in Ok (TrimSpace line.1, line.2)).

Definition ask_consent (interactive yes : bool) (version admin listen : string) (r : reader) : prog host (result unit) :=
  if negb (interactive && negb yes) then Ret (Ok tt)
  else
    let* _ := say (newline +:+ "Install SSHGateW " +:+ version +:+ " on " +:+ listen +:+ " for administrator "
                   +:+ admin +:+ "? [y/N]: ") in
    Ret (let! line := ReadString r in
         let answer := ToLower (TrimSpace line.1) in
         if negb (answer =s "y") && negb (answer =s "yes") then Err (Msg "installation cancelled") else Ok tt).

Definition installCommand (version : string) (input : reader) (configPath : string) (args : list string) :
    prog host (result unit) :=
  match Parse install_flags args with
  | Err err => if bool_decide (err = ErrHelp) then Ret (Ok tt) else fail err
  | Ok p =>
    let interactive := (length args =? 0)%nat in
    let? names := ask_names interactive (flag_string "admin" p.1) (flag_string "listen" p.1) input in
    let admin := names.1.1 in
    let listen := names.1.2 in
    let? value := ask_key (flag_string "authorized-key" p.1) names.2 in
    let? key := loadInstallPublicKey value.1 in
    let? _ := ask_consent interactive (flag_bool "yes" p.1) version admin listen value.2 in
    performInstall (productionPaths configPath) admin listen key (negb (flag_bool "no-start" p.1))
  end.

End install.
