(* ===== verification/InstallProps.v ===== *)
(** * What an installation does *)

From S2P Require Import Prelude GoStrings Json GoTime Effects Paths SshKeys Net Sql Schema Names Migrations Host.
From S2P Require Import HostFacts StoreUsers Auth Config Secrets MenuCommands Flags Commands Setup SetupProps Startup.
From S2P Require Import Install.

(** ** Every state of a run *)

Fixpoint states {S A : Type} (p : prog S A) (s : S) : list S :=
  s :: match p with Ret _ => [] | Step f k => let '(x, s') := f s in states (k x) s' end.

Lemma states_bind {S A B : Type} (P : S → Prop) (p : prog S A) (k : A → prog S B) s :
  Forall P (states p s) → Forall P (states (k (value p s)) (final p s)) → Forall P (states (bind p k) s).
Proof.
  unfold value, final. revert s. induction p as [a|X f h IH]; intros s; cbn; [done|].
  rewrite !Forall_cons. destruct (f s) as [x s']. intros [Hs Hp] Hk. split; [done|]. by apply IH.
Qed.

Lemma states_final {S A : Type} (P : S → Prop) (p : prog S A) s : Forall P (states p s) → P (final p s).
Proof.
  unfold final. revert s. induction p as [a|X f h IH]; intros s Hp; cbn in *; apply Forall_cons in Hp as [Hs Hp]; [done|].
  destruct (f s) as [x s']. by apply IH.
Qed.

Lemma states_bind_ok {S A B : Type} (P : S → Prop) (p : prog S (result A)) (k : A → prog S (result B)) s :
  Forall P (states p s) → (∀ a s', run p s = (Ok a, s') → Forall P (states (k a) s')) →
  Forall P (states (bind_ok p k) s).
Proof.
  intros Hp Hk. apply states_bind; [done|]. pose proof (states_final P p s Hp) as Hs. unfold value, final in *.
  destruct (run p s) as [[a|e] s'] eqn:E; cbn [fst snd] in *; [by apply Hk|]. by repeat constructor.
Qed.

Lemma states_atomic {S X : Type} (P : S → Prop) (f : S → X * S) s :
  P s → P (final (atomic f) s) → Forall P (states (atomic f) s).
Proof. unfold final. cbn. intros Hs Hf. destruct (f s) as [x s']. by repeat constructor. Qed.

(** ** Programs that leave a place as it is *)

Definition still {A : Type} (q : place) (p : prog host A) : Prop :=
  guarantees (λ _, True) (λ h h', h_files h' !! q = h_files h !! q) (λ _, True) p.

Lemma still_states {A : Type} (q : place) (p : prog host A) h :
  still q p → Forall (λ h', h_files h' !! q = h_files h !! q) (states p h).
Proof.
  unfold still. revert h. induction p as [a|X f k IH]; intros h Hp; cbn in *; [by repeat constructor|].
  destruct (Hp h Logic.I) as [Hf Hk]. constructor; [done|]. destruct (f h) as [x h']; cbn in *.
  specialize (IH x h' Hk). eapply Forall_impl; [exact IH|]. cbn. intros h2 E. congruence.
Qed.

Lemma still_run {A : Type} (q : place) (p : prog host A) h a h' :
  still q p → run p h = (a, h') → h_files h' !! q = h_files h !! q.
Proof.
  unfold still. revert h. induction p as [b|X f k IH]; intros h Hp Hr; cbn in *; [by injection Hr as _ <-|].
  destruct (Hp h Logic.I) as [Hf Hk]. destruct (f h) as [x h1]; cbn in *. rewrite <- Hf. by eapply IH.
Qed.

Lemma still_ret {A : Type} (q : place) (a : A) : still q (Ret a).
Proof. done. Qed.

Lemma still_bind {A B : Type} (q : place) (p : prog host A) (k : A → prog host B) :
  still q p → (∀ a, still q (k a)) → still q (bind p k).
Proof. intros Hp Hk. eapply guarantees_bind; [exact Hp|]. intros a _. apply Hk. Qed.

Lemma still_bind_ok {A B : Type} (q : place) (p : prog host (result A)) (k : A → prog host (result B)) :
  still q p → (∀ a, still q (k a)) → still q (bind_ok p k).
Proof. intros Hp Hk. apply still_bind; [done|]. by intros [a|e]. Qed.

Lemma still_query {X : Type} (q : place) (f : host → X) : still q (query f).
Proof. by split. Qed.

Lemma still_sys {A : Type} (q : place) (m : machine) (c : syscall) (f : files → result A * files) :
  (∀ fs, (f fs).2 !! q = fs !! q) → still q (sys m c f).
Proof.
  intros Hf h _. split; [|done]. destruct (m_fault m (h_calls h) c); cbn; [done|].
  specialize (Hf (h_files h)). by destruct (f (h_files h)).
Qed.

Lemma still_finally {A B : Type} (q : place) (p : prog host A) (l : prog host B) :
  still q p → still q l → still q (finally p l).
Proof. intros Hp Hl. apply still_bind; [done|]. intros a. by apply still_bind. Qed.

Create HintDb still.
#[export] Hint Resolve still_ret still_query : still.

(** [still_tac] goes through a program to its calls. *)
Ltac still_tac :=
  repeat match goal with
  | |- still _ (bind _ _) => apply still_bind; [|intros]
  | |- still _ (bind_ok _ _) => apply still_bind_ok; [|intros]
  | |- still _ (finally _ _) => apply still_finally
  | |- still _ (lift _) => apply still_ret
  | |- still _ (fail _) => apply still_ret
  | |- still _ (match ?x with _ => _ end) => destruct x
  end; auto with still.

Section calls.
Context (m : machine) (q : place).

Lemma on_found_still {A : Type} (op path : string) (fs : files) (f : node → result A * files) :
  (∀ n, (f n).2 !! q = fs !! q) → (on_found m op path fs f).2 !! q = fs !! q.
Proof. intros Hf. unfold on_found. by destruct (look_at m fs path). Qed.

Lemma stat_still path : still q (stat m path).
Proof. apply still_bind; [|auto with still]. by apply still_sys. Qed.

Lemma readFile_still path : still q (readFile m path).
Proof. apply still_sys. intros fs. by apply on_found_still. Qed.

Lemma opens_still path : still q (opens m path).
Proof. apply still_sys. intros fs. by apply on_found_still. Qed.

Lemma createNew_still path perm : q ≠ place_of m path → still q (createNew m path perm).
Proof.
  intros Hq. apply still_sys. intros fs. cbn. destruct (path =s ""); [done|].
  destruct (parent_error _ _); [done|]. destruct (look _ _); try done. cbn. by rewrite lookup_insert_ne.
Qed.

Lemma write_still path b : q ≠ place_of m path → still q (write m path b).
Proof. intros Hq h _. split; [|done]. cbn. destruct (m_fault _ _ _); cbn; by rewrite lookup_alter_ne. Qed.

Lemma sync_still path : still q (sync m path).
Proof. by apply still_sys. Qed.

Lemma close_still path : still q (close m path).
Proof. by apply still_sys. Qed.

Lemma chmod_still path perm : q ≠ place_of m path → still q (chmod m path perm).
Proof. intros Hq. apply still_sys. intros fs. apply on_found_still. intros n. cbn. by rewrite lookup_alter_ne. Qed.

Lemma chown_still path uid gid : q ≠ place_of m path → still q (chown m path uid gid).
Proof. intros Hq. apply still_sys. intros fs. apply on_found_still. intros n. cbn. by rewrite lookup_alter_ne. Qed.

Lemma remove_still path : q ≠ place_of m path → still q (remove m path).
Proof.
  intros Hq. apply still_sys. intros fs. apply on_found_still. intros n. destruct (_ && _); [done|]. cbn.
  by rewrite lookup_delete_ne.
Qed.

Lemma rename_still from to : q ≠ place_of m from → q ≠ place_of m to → still q (rename m from to).
Proof.
  intros Hf Ht. apply still_sys. intros fs. apply on_found_still. intros n. destruct (to =s ""); [done|].
  destruct (parent_error _ _); [done|].
  assert ((<[place_of m to:=n]> (delete (place_of m from) fs)) !! q = fs !! q) as He
    by by rewrite lookup_insert_ne, lookup_delete_ne.
  by destruct (look_at m fs to) as [| |[]].
Qed.

Lemma say_still text : still q (say text).
Proof. intros h _. done. Qed.

End calls.

#[export] Hint Resolve stat_still readFile_still opens_still createNew_still write_still sync_still close_still
  chmod_still chown_still remove_still rename_still say_still : still.

(** ** What a successful call leaves *)

Lemma write_inv (m : machine) path b h r h' : run (write m path b) h = (Ok r, h') →
  h_files h' = alter (set_bytes b) (place_of m path) (h_files h).
Proof. cbn. destruct (m_fault _ _ _); [done|]. by intros [= <- <-]. Qed.

Lemma on_found_inv {A : Type} (m : machine) (op path : string) (fs : files) (f : node → result A * files) a fs' :
  on_found m op path fs f = (Ok a, fs') → ∃ n, look_at m fs path = Something n ∧ f n = (Ok a, fs').
Proof. unfold on_found. destruct (look_at m fs path) as [| |n]; [done|done|]. by exists n. Qed.

Lemma chmod_inv (m : machine) path perm h r h' : run (chmod m path perm) h = (Ok r, h') →
  h_files h' = alter (set_perm perm) (place_of m path) (h_files h).
Proof. intros (n & _ & [= _ E])%sys_inv%on_found_inv. by rewrite E. Qed.

Lemma chown_inv (m : machine) path uid gid h r h' : run (chown m path uid gid) h = (Ok r, h') →
  h_files h' = alter (set_owner uid gid) (place_of m path) (h_files h).
Proof. intros (n & _ & [= _ E])%sys_inv%on_found_inv. by rewrite E. Qed.

Lemma rename_inv (m : machine) from to h r h' : run (rename m from to) h = (Ok r, h') →
  ∃ n, entry (h_files h) (place_of m from) = Some n ∧ parent_error (h_files h) (place_of m to) = None ∧
    (∀ d, look (h_files h) (place_of m to) = Something d → is_directory d = false) ∧
    h_files h' = <[place_of m to := n]> (delete (place_of m from) (h_files h)).
Proof.
  intros (n & Hn & Hr)%sys_inv%on_found_inv. apply look_at_entry in Hn. exists n. unfold look_at in Hr.
  destruct (to =s ""); [done|]. destruct (parent_error _ _); [done|].
  destruct (look (h_files h) (place_of m to)) as [| |[]]; try done; injection Hr as _ <-; split_and!; try done;
    intros d [= <-]; done.
Qed.

(** A file that was moved leaves a tree. *)
Lemma rename_tree (m : machine) from to h r h' n : run (rename m from to) h = (Ok r, h') →
  entry (h_files h) (place_of m from) = Some n → is_directory n = false → tree (h_files h) → tree (h_files h').
Proof.
  intros (n' & He & Hpar & Hto & Hf)%rename_inv Hn Hdir Ht. rewrite Hn in He. injection He as <-. rewrite Hf.
  assert (tree (delete (place_of m from) (h_files h))) as Htd.
  { apply tree_delete; [done|]. intros x. by eapply tree_file. }
  apply tree_replace; [done| |].
  - apply parent_error_none in Hpar as (d & Hd & Hdd). exists d. split; [|done]. unfold entry in *.
    rewrite lookup_delete_ne; [done|]. intros E. rewrite <- E in Hd. unfold entry in Hn. rewrite Hn in Hd. congruence.
  - intros x. apply lookup_delete_None. right. destruct (h_files h !! (place_of m to ++ [x])) as [c|] eqn:Ec; [|done].
    destruct (Ht _ _ _ Ec) as (d & Hd & Hdd). pose proof (Hto d (tree_look _ _ _ Ht Hd)). congruence.
Qed.

Lemma rename_fails (m : machine) from to h e h' : run (rename m from to) h = (Err e, h') → h_files h' = h_files h.
Proof.
  unfold rename, sys. cbn. destruct (m_fault _ _ _); [by intros [= _ <-]|]. unfold on_found.
  destruct (look_at m (h_files h) from) as [| |n]; [by intros [= _ <-]..|]. destruct (to =s ""); [by intros [= _ <-]|].
  destruct (parent_error _ _); [by intros [= _ <-]|].
  destruct (look_at m (h_files h) to) as [| |[]]; intros Hr; by simplify_eq.
Qed.

Lemma createNew_inv (m : machine) path perm h r h' : run (createNew m path perm) h = (Ok r, h') →
  path ≠ "" ∧ h_files h !! place_of m path = None ∧
  h_files h' = <[place_of m path := Regular (masked m perm) (m_uid m) (m_gid m) (Bytes "")]> (h_files h).
Proof.
  intros Hc%sys_inv. destruct (String.eqb_spec path ""); [done|]. cbn in Hc.
  destruct (parent_error _ _) eqn:Ep; [done|]. destruct (look _ _) eqn:El; try done. injection Hc as _ <-.
  split_and!; [done|by apply fresh_place|done].
Qed.

Section replace.
Context `{UnicodeTables, Rowids, TimeParser, SqliteTexts, DriverTexts, NetText}.
Context `{KeyFormats, Aead, PayloadCodec, PrintTables, TomlCodec, HostKeys, FileUrls}.
Context (m : machine) (rt : installRuntime).

Definition temp_of (h : host) (destination : string) : string :=
  rt_temp rt (h_calls h) (Dir destination) ".sshgatew-install-*".

(** The file at the destination is complete. *)
Definition replaced (destination : string) (mode : Z) (content : string) (fs : files) : Prop :=
  ∃ uid gid, fs !! place_of m destination = Some (Regular mode uid gid (Bytes content)).

(** A body that fills an empty file with [content], when the other files are as
    in [fs] *)
Definition fills (fs : files) (temp content : string) (body : prog host (result unit)) : Prop :=
  (∀ q, q ≠ place_of m temp → still q body) ∧
  ∀ h1 h2 perm uid gid, (∀ q, q ≠ place_of m temp → h_files h1 !! q = fs !! q) →
    h_files h1 !! place_of m temp = Some (Regular perm uid gid (Bytes "")) → run body h1 = (Ok tt, h2) →
    h_files h2 !! place_of m temp = Some (Regular perm uid gid (Bytes content)).

Lemma createTemp_inv dir pattern h temp h' : run (createTemp m rt dir pattern) h = (Ok temp, h') →
  temp = rt_temp rt (h_calls h) dir pattern ∧
  h_files h' = <[place_of m temp := Regular (masked m 0x180) (m_uid m) (m_gid m) (Bytes "")]> (h_files h) ∧
  h_files h !! place_of m temp = None.
Proof.
  unfold createTemp. rewrite run_bind. unfold value, final, query. cbn [run fst snd].
  intros ([] & h1 & Hc & [= <- <-])%bind_ok_inv. apply createNew_inv in Hc as (_ & Hno & Hf). done.
Qed.

Lemma createTemp_tree dir pattern h r h' :
  tree (h_files h) → run (createTemp m rt dir pattern) h = (Ok r, h') → tree (h_files h').
Proof.
  intros Ht Hr. unfold createTemp in Hr. rewrite run_bind in Hr. apply bind_ok_inv in Hr as (u & h1 & Hc & [= _ <-]).
  by apply (contained_run _ _ _ _ _ (createNew_contained m [place_of m _] _ _ (or_intror (list_elem_of_here _ _))) Ht Hc).
Qed.

Lemma closing_inv path p h h' : run (closing m path p) h = (Ok tt, h') →
  ∃ h1, run p h = (Ok tt, h1) ∧ h_files h' = h_files h1.
Proof.
  unfold closing. rewrite run_bind. unfold value, final. destruct (run p h) as [[[]|e] h1]; cbn [fst snd].
  - rewrite run_bind. unfold value, final. cbn [run]. intros [= E1 E2]. exists h1. split; [done|]. rewrite <- E2.
    unfold close, sys. cbn. by destruct (m_fault _ _ _).
  - by rewrite run_bind.
Qed.

Lemma closing_still q path p : still q p → still q (closing m path p).
Proof. intros Hp. unfold closing. still_tac. Qed.

Lemma completing_still q temp mode body : q ≠ place_of m temp → still q body → still q (completing m temp mode body).
Proof. intros Hq Hb. apply closing_still. still_tac. Qed.

Lemma completing_inv fs temp mode content body h h' perm uid gid :
  fills fs temp content body → (∀ q, q ≠ place_of m temp → h_files h !! q = fs !! q) →
  h_files h !! place_of m temp = Some (Regular perm uid gid (Bytes "")) →
  run (completing m temp mode body) h = (Ok tt, h') →
  h_files h' !! place_of m temp = Some (Regular mode uid gid (Bytes content)).
Proof.
  intros [_ Hfill] Hfs Hn (h1 & Hr & ->)%closing_inv. apply bind_ok_inv in Hr as ([] & h2 & Hb & Hr).
  apply bind_ok_inv in Hr as (u & h3 & Hc & Hs). pose proof (Hfill _ _ _ _ _ Hfs Hn Hb) as Hfull.
  apply chmod_inv in Hc. apply sys_inv in Hs. injection Hs as Hs. rewrite <- Hs, Hc, lookup_alter_eq, Hfull. done.
Qed.

(** Every state of a replacement *)
Lemma replacing_states destination mode body content h :
  place_of m (temp_of h destination) ≠ place_of m destination →
  fills (h_files h) (temp_of h destination) content (body (temp_of h destination)) →
  Forall (λ h', h_files h' !! place_of m destination = h_files h !! place_of m destination ∨
                replaced destination mode content (h_files h'))
    (states (replacing m rt destination mode body) h).
Proof.
  intros Hne Hfill. set (temp := temp_of h destination) in *. set (P := λ h' : host, _).
  assert (∀ A (p : prog host A) h1, P h1 → still (place_of m destination) p → Forall P (states p h1)) as Hstill.
  { intros A p h1 Hp Hs. eapply Forall_impl; [by apply still_states|]. cbn. intros h2 E.
    destruct Hp as [Hp|(uid & gid & Hp)]; [left; congruence|right; exists uid, gid; congruence]. }
  assert (P h) as Hh by by left. unfold replacing. apply states_bind_ok.
  { unfold createTemp. apply states_bind; [by repeat constructor|]. unfold value, final, query. cbn [run fst snd].
    apply Hstill; [done|]. still_tac. }
  intros t h1 Hc. apply createTemp_inv in Hc as (-> & Hf & Hno).
  change (rt_temp rt (h_calls h) (Dir destination) ".sshgatew-install-*") with temp in *.
  assert (P h1) as H1' by (left; by rewrite Hf, lookup_insert_ne).
  assert (∀ q, q ≠ place_of m temp → h_files h1 !! q = h_files h !! q) as Hsame.
  { intros q Hq. by rewrite Hf, lookup_insert_ne. }
  assert (place_of m destination ≠ place_of m temp) as Hne' by (intros E; by apply Hne).
  assert (still (place_of m destination) (completing m temp mode (body temp))) as Hbody
    by by apply completing_still, Hfill.
  set (p := bind_ok (completing m temp mode (body temp)) (λ _, rename m temp destination)).
  assert (Forall P (states p h1)) as Hp.
  { apply states_bind_ok; [by apply Hstill|]. intros [] h2 Hr.
    assert (h_files h1 !! place_of m temp = Some (Regular (masked m 0x180) (m_uid m) (m_gid m) (Bytes ""))) as Hn
      by by rewrite Hf, lookup_insert_eq.
    pose proof (completing_inv _ _ _ _ _ _ _ _ _ _ Hfill Hsame Hn Hr) as Hn2.
    assert (P h2) as H2' by (left; rewrite <- (Hsame _ Hne'); by eapply still_run).
    apply states_atomic; [done|]. change (P (final (rename m temp destination) h2)). unfold final.
    destruct (run (rename m temp destination) h2) as [[[]|e] h3] eqn:Er; cbn [snd].
    - apply rename_inv in Er as (n & He & _ & _ & Hf3). right. unfold entry in He. rewrite Hn2 in He. simplify_eq.
      eexists _, _. by rewrite Hf3, lookup_insert_eq.
    - apply rename_fails in Er. unfold P. by rewrite Er. }
  unfold finally. apply states_bind; [exact Hp|]. apply Hstill; [by apply states_final|]. still_tac.
Qed.

(** A replacement that succeeded *)
Lemma replacing_run destination mode body content h h' :
  place_of m (temp_of h destination) ≠ place_of m destination → tree (h_files h) →
  fills (h_files h) (temp_of h destination) content (body (temp_of h destination)) →
  contained [place_of m (temp_of h destination)] (body (temp_of h destination)) →
  run (replacing m rt destination mode body) h = (Ok tt, h') →
  replaced destination mode content (h_files h') ∧ tree (h_files h') ∧
  ∀ q, q ≠ place_of m destination → q ≠ place_of m (temp_of h destination) → h_files h' !! q = h_files h !! q.
Proof.
  intros Hne Ht Hfill Hcont Hr. set (temp := temp_of h destination) in *.
  assert (place_of m destination ≠ place_of m temp) as Hne' by (intros E; by apply Hne).
  apply bind_ok_inv in Hr as (t & h1 & Hc & Hr). pose proof Hc as Hc'. apply createTemp_inv in Hc' as (-> & Hf & Hno).
  change (rt_temp rt (h_calls h) (Dir destination) ".sshgatew-install-*") with temp in *.
  assert (∀ q, q ≠ place_of m temp → h_files h1 !! q = h_files h !! q) as Hsame.
  { intros q Hq. by rewrite Hf, lookup_insert_ne. }
  pose proof (createTemp_tree _ _ _ _ _ Ht Hc) as Ht1.
  apply finally_inv in Hr as (h3 & (u & h2 & Hr & Hren)%bind_ok_inv & ->). destruct u.
  assert (h_files h1 !! place_of m temp = Some (Regular (masked m 0x180) (m_uid m) (m_gid m) (Bytes ""))) as Hn
    by by rewrite Hf, lookup_insert_eq.
  pose proof (completing_inv _ _ _ _ _ _ _ _ _ _ Hfill Hsame Hn Hr) as Hn2.
  assert (tree (h_files h2)) as Ht2.
  { eapply (contained_run [place_of m temp]); [|exact Ht1|exact Hr]. unfold completing, closing.
    apply contained_bind; [apply contained_bind_ok; [done|]; intros _; apply contained_bind_ok; auto with host|].
    - apply chmod_contained. apply list_elem_of_here.
    - intros r. apply contained_bind; auto with host. }
  pose proof (rename_inv _ _ _ _ _ _ Hren) as (n & He & Hpar & _ & Hf3). unfold entry in He. rewrite Hn2 in He. simplify_eq.
  assert (tree (h_files h3)) as Ht3.
  { eapply rename_tree; [exact Hren| | |exact Ht2]; [unfold entry; by rewrite Hn2|done]. }
  assert (∀ q, q ≠ place_of m temp → h_files (final (remove m temp) h3) !! q = h_files h3 !! q) as Hrem.
  { intros q Hq. eapply still_run; [by apply remove_still|]. by apply surjective_pairing. }
  split_and!.
  - eexists _, _. by rewrite Hrem, Hf3, lookup_insert_eq.
  - apply (contained_final [place_of m temp] _ h3); [|done]. apply remove_contained. right. apply list_elem_of_here.
  - intros q Hqd Hqt. rewrite Hrem, Hf3, lookup_insert_ne, lookup_delete_ne by (try done; by apply not_eq_sym).
    assert (still q (completing m temp mode (body temp))) as Hs by by apply completing_still, Hfill.
    rewrite (still_run _ _ _ _ _ Hs Hr). by apply Hsame.
Qed.

(** ** What fills the temporary file *)

Lemma write_fills fs temp content : fills fs temp content (write m temp content).
Proof.
  split; [intros q Hq; by apply write_still|]. intros h1 h2 perm uid gid _ Hn Hr. apply write_inv in Hr.
  by rewrite Hr, lookup_alter_eq, Hn.
Qed.

Lemma copy_fills fs temp source perm uid gid c :
  fs !! place_of m source = Some (Regular perm uid gid c) → place_of m source ≠ place_of m temp →
  fills fs temp (content_bytes m c) (let? b := readFile m source in write m temp b).
Proof.
  intros Hs Hne. split; [intros q Hq; still_tac|]. intros h1 h2 p u g Hsame Hn Hr.
  apply bind_ok_inv in Hr as (b & h3 & Hb & Hw). pose proof (readFile_run m source h1) as Hf3. unfold final in Hf3.
  rewrite Hb in Hf3. cbn [snd] in Hf3. apply sys_inv in Hb. apply on_found_inv in Hb as (n & Hl & Hb).
  apply look_at_entry in Hl. unfold entry in Hl. rewrite (Hsame _ Hne), Hs in Hl. simplify_eq.
  apply write_inv in Hw. by rewrite Hw, lookup_alter_eq, Hf3, Hn.
Qed.

(** No temporary file's name is at one of these places. *)
Definition temps_apart (reserved : list place) : Prop :=
  ∀ calls dir pattern, place_of m (rt_temp rt calls dir pattern) ∉ reserved.

(** The destination is as it was, or complete. *)
Definition old_or_complete (destination : string) (mode : Z) (content : string) (h h' : host) : Prop :=
  h_files h' !! place_of m destination = h_files h !! place_of m destination ∨
  replaced destination mode content (h_files h').

(** C30: a file the installer writes is replaced as a whole.  Wherever
    [atomicWrite] or the copy of the program is stopped - after any call, whatever
    failed - the destination is as it was before or has the new content and mode,
    complete; and when it reports success it is complete. *)
Theorem replaced_as_a_whole destination mode content source perm uid gid c h h' :
  temps_apart [place_of m destination; place_of m source] → tree (h_files h) →
  h_files h !! place_of m source = Some (Regular perm uid gid c) →
  (h' ∈ states (atomicWrite m rt destination content mode) h → old_or_complete destination mode content h h') ∧
  (run (atomicWrite m rt destination content mode) h = (Ok tt, h') → replaced destination mode content (h_files h')) ∧
  (h' ∈ states (copy_executable m rt source destination) h →
   old_or_complete destination 0x1ED (content_bytes m c) h h') ∧
  (run (copy_executable m rt source destination) h = (Ok tt, h') →
   replaced destination 0x1ED (content_bytes m c) (h_files h')).
Proof.
  intros Htemps Ht Hs. assert (∀ h1, place_of m (temp_of h1 destination) ≠ place_of m destination ∧
    place_of m source ≠ place_of m (temp_of h1 destination)) as Ha.
  { intros h1. specialize (Htemps (h_calls h1) (Dir destination) ".sshgatew-install-*").
    rewrite !not_elem_of_cons in Htemps. destruct Htemps as (? & ? & _). split; [done|by apply not_eq_sym]. }
  assert (∀ h1, h_files h1 = h_files h → fills (h_files h1) (temp_of h1 destination) (content_bytes m c)
    (let? b := readFile m source in write m (temp_of h1 destination) b)) as Hcopy.
  { intros h1 E. rewrite E. eapply copy_fills; [exact Hs|apply Ha]. }
  assert (∀ r h1, run (opens m source) h = (r, h1) → h_files h1 = h_files h) as Hopens.
  { intros r h1. cbn. destruct (m_fault _ _ _); [by intros [= _ <-]|]. unfold on_found.
    by destruct (look_at m (h_files h) source); intros [= _ <-]. }
  split_and!.
  - intros Hin. unfold atomicWrite in Hin. pose proof (replacing_states destination mode (λ temp, write m temp content)
      content h (proj1 (Ha h)) (write_fills _ _ _)) as Hall. rewrite Forall_forall in Hall. by apply Hall.
  - intros Hr. apply (replacing_run destination mode (λ temp, write m temp content) content h h');
      [apply Ha|exact Ht|apply write_fills| |exact Hr].
    apply write_contained, list_elem_of_here.
  - intros Hin. unfold copy_executable in Hin.
    assert (Forall (old_or_complete destination 0x1ED (content_bytes m c) h) (states (copy_executable m rt source destination) h))
      as Hall; [|rewrite Forall_forall in Hall; by apply Hall].
    apply states_bind_ok.
    + eapply Forall_impl; [apply (still_states (place_of m destination)); auto with still|]. intros h1 E. by left.
    + intros u h1 Ho. apply Hopens in Ho. unfold old_or_complete. rewrite <- Ho.
      apply (replacing_states _ _ (λ temp, let? b := readFile m source in write m temp b)); [apply Ha|by apply Hcopy].
  - intros Hr. apply bind_ok_inv in Hr as (u & h1 & Ho & Hr). apply Hopens in Ho.
    apply (replacing_run destination 0x1ED (λ temp, let? b := readFile m source in write m temp b)
             (content_bytes m c) h1 h'); [apply Ha|by rewrite Ho|by apply Hcopy| |exact Hr].
    apply contained_bind_ok; [auto with host|]. intros b. apply write_contained, list_elem_of_here.
Qed.

(** ** What is checked first *)

Lemma not_installed_run paths h :
  h_files (final (not_installed m paths) h) = h_files h ∧
  (∃ calls, h_calls (final (not_installed m paths) h) = calls ++ h_calls h ∧
     Forall (λ c, ∃ p, c = SysStat p) calls) ∧
  (value (not_installed m paths) h = Ok tt → Forall (λ p, look_at m (h_files h) p = Nothing) paths).
Proof.
  revert h. induction paths as [|p paths IH]; intros h; [split_and!; [done|by exists []|done]|].
  unfold final, value in *. cbn [not_installed]. rewrite run_bind. unfold value, final, stat, sys. cbn.
  assert (∃ calls, SysStat p :: h_calls h = calls ++ h_calls h ∧ Forall (λ c, ∃ p, c = SysStat p) calls) as Hone.
  { exists [SysStat p]. split; [done|]. constructor; [by exists p|done]. }
  destruct (m_fault m (h_calls h) (SysStat p)); cbn; [by split_and!|].
  unfold answer_of. destruct (look_at m (h_files h) p) eqn:E; cbn; try by split_and!.
  destruct (IH (logged (SysStat p) (h_files h) h)) as (Hf & (calls & Hcalls & Hall) & Hv). split_and!; [done| |].
  - exists (calls ++ [SysStat p]). rewrite Hcalls. split; [by rewrite <- (assoc_L app)|].
    apply Forall_app. split; [done|]. constructor; [by exists p|done].
  - intros Hr. constructor; auto.
Qed.

Lemma install_checks_run paths admin listen key h :
  h_files (final (install_checks m rt paths admin listen key) h) = h_files h ∧
  (∃ calls, h_calls (final (install_checks m rt paths admin listen key) h) = calls ++ h_calls h ∧
     Forall (λ c, ∃ p, c = SysStat p) calls) ∧
  (value (install_checks m rt paths admin listen key) h = Ok tt → rt_euid rt = 0 ∧
     Forall (λ p, look_at m (h_files h) p = Nothing)
       [ip_config paths; JoinPath (ip_dataDir paths) "sshgatew.db"]).
Proof.
  assert (∃ calls, h_calls h = calls ++ h_calls h ∧ Forall (λ c, ∃ p, c = SysStat p) calls) as Hnone by by exists [].
  unfold install_checks, final, value. destruct (rt_euid rt =? 0) eqn:Eu; cbn [negb]; [|cbn [fst snd run]; by split_and!].
  rewrite run_bind_ok. cbn [lift run]. destruct (ValidateUsername _); [|cbn [fst snd run]; by split_and!].
  rewrite run_bind_ok. cbn [lift run]. destruct (Validate _); [|cbn [fst snd run]; by split_and!].
  rewrite run_bind_ok. cbn [lift run]. destruct (single_key _ _); [|cbn [fst snd run]; by split_and!].
  destruct (not_installed_run [ip_config paths; JoinPath (ip_dataDir paths) "sshgatew.db"] h) as (Hf & Hc & Hv).
  split_and!; [done|done|]. intros Hr. split; [by apply Z.eqb_eq|by apply Hv].
Qed.

(** An installation that is not made by root, or where the configuration or
    the database of an installation is there already, fails and has changed
    nothing: no file, no account, no service; all it did was to look. *)
Theorem install_refuses_existing paths admin listen key start h :
  rt_euid rt ≠ 0 ∨ (∃ n, look_at m (h_files h) (ip_config paths) = Something n) ∨
    (∃ n, look_at m (h_files h) (JoinPath (ip_dataDir paths) "sshgatew.db") = Something n) →
  let '(r, h') := run (performInstall m rt paths admin listen key start) h in
  is_ok r = false ∧ h_files h' = h_files h ∧
  ∃ calls, h_calls h' = calls ++ h_calls h ∧ Forall (λ c, ∃ p, c = SysStat p) calls.
Proof.
  intros Hbad. unfold performInstall. rewrite run_bind_ok.
  destruct (install_checks_run paths admin listen key h) as (Hf & Hc & Hv). unfold final, value in *.
  destruct (run (install_checks _ _ _ _ _ _) h) as [[[]|e] h1]; cbn [fst snd] in *; [|done]. exfalso.
  destruct (Hv eq_refl) as [Hu Hall]. rewrite !Forall_cons in Hall. destruct Hall as (E1 & E2 & _).
  destruct Hbad as [Hb|[[n Hn]|[n Hn]]]; [done|congruence|congruence].
Qed.

End replace.
