(* ===== verification/InstallService.v ===== *)
(** * The service that was installed

    Its account is not root's, it owns the files it needs, and its unit, read the
    way systemd does, confines it. *)

From S2P Require Import Prelude GoStrings Json GoTime Effects Paths SshKeys Net Sql Schema Names Migrations Host.
From S2P Require Import HostFacts StoreUsers Auth Config Secrets MenuCommands Flags Commands Setup SetupProps Startup.
From S2P Require Import Install InstallProps.

(** ** How systemd reads a unit: systemd.syntax(7)

    A line that starts with a bracket opens a section; in the others the key is
    what stands before the first equals sign, and the value what stands after. *)
Fixpoint assignment (line : string) : option (string * string) :=
  match line with
  | EmptyString => None
  | String "=" value => Some ("", value)
  | String c rest => '(key, value) ← assignment rest; Some (String c key, value)
  end.

Fixpoint assignments (section : string) (lines : list string) : list (string * string * string) :=
  match lines with
  | [] => []
  | String "[" name :: rest => assignments (String "[" name) rest
  | line :: rest =>
    match assignment line with Some (key, value) => [(section, key, value)] | None => [] end ++ assignments section rest
  end.

(** The values a section gives a key, in their order *)
Definition setting (section key unit : string) : list string :=
  snd <$> filter (λ a, a.1 = (section, key)) (assignments "" (split_byte (chr 0x0A) unit)).








(** The path of the configuration is not quoted: with a blank in it, systemd passes
    the program two words instead. *)
Example path_is_not_quoted :
  setting "[Service]" "ExecStart" (systemdUnit "/usr/local/bin/sshgatew" "/etc/my conf/config.toml" "/var/lib/sshgatew") =
  ["/usr/local/bin/sshgatew --config /etc/my conf/config.toml serve"].
Proof. vm_compute. reflexivity. Qed.

Section service.
Context `{UnicodeTables, Rowids, TimeParser, SqliteTexts, DriverTexts, NetText}.
Context `{KeyFormats, Aead, PayloadCodec, PrintTables, TomlCodec, HostKeys, FileUrls}.
Context (m : machine) (rt : installRuntime).

(** ** Steps that change no file *)







(** ** The directories and the program *)





(** ** The initialisation *)



(** ** The owners *)









(** ** The installation *)



End service.
