(* ===== verification/SetupSamples.v ===== *)
(** * A machine to set up on

    Small formats, a machine with two directories and the administrator's public
    key, and what init, serve and install do on it. *)

From S2P Require Import Prelude GoStrings StringFacts Json GoTime Effects Paths SshKeys Net Sql Schema Names Migrations Host.
From S2P Require Import HostFacts StoreUsers StoreAudit Sessions Auth Config OidcDevice Secrets MenuCommands MenuSamples.
From S2P Require Import Flags Commands CommandsProps MigrationProps Setup SetupProps Startup.
From S2P Require Import Install InstallProps InstallService.

(** [tree], as a check *)
Definition tree_check (fs : files) : bool :=
  forallb (λ '(p, _), match p with
                      | [] => true
                      | _ => match entry fs (removelast p) with Some d => is_directory d | None => false end
                      end) (map_to_list fs).

Lemma tree_check_sound fs : tree_check fs = true → tree fs.
Proof.
  unfold tree_check. rewrite forallb_true. intros Hc p x n Hn. apply elem_of_map_to_list in Hn.
  specialize (Hc _ Hn). cbn in Hc. destruct (p ++ [x]) eqn:E; [by destruct p|]. rewrite <- E, removelast_snoc in Hc.
  destruct (entry fs p) as [d|]; [by exists d|done].
Qed.

#[export] Instance config_eq_dec : EqDecision Config.
Proof.
  assert (EqDecision limits) by solve_decision. assert (EqDecision OIDCConfig) by solve_decision. solve_decision.
Defined.

(** Key files that start with a word, and a configuration written by its listen
    address alone *)
Definition setup_formats : KeyFormats := {|
  ParseAuthorizedKey := λ s, if HasPrefix s "ssh-" then Ok (MkKey "ssh-ed25519" (TrimSpace s), "", "")
                             else Err (Ext "ssh: no key found");
  MarshalAuthorizedKey := λ k, Key_Marshal k +:+ newline;
  FingerprintSHA256 := λ k, "SHA256:" +:+ Key_Marshal k;
  ParsePrivateKey := λ b, if HasPrefix b "PRIVATE " then Ok (MkSigner (MkKey "ssh-ed25519" (drop_str 8 b)))
                          else Err (Ext "ssh: no key found");
  ParsePrivateKeyWithPassphrase := λ _ _, Err (Ext "ssh: no key found");
  PassphraseMissing := λ _, false |}.

Definition listening (listen : string) : Config := with_listen (ForDataDir "/var/lib/sshgatew") listen.

Definition setup_toml : TomlCodec := {|
  toml_Marshal := λ _ c, if decide (c = listening (ListenAddress c)) then Ok ("listen_address=" +:+ ListenAddress c)
                       else Err (Ext "toml: unsupported");
  toml_Decode := λ _ b _, Ok (listening (drop_str 15 b)) |}.

Definition setup_keys : HostKeys := {|
  generated_key := λ seed, MkKey "ssh-ed25519" seed;
  MarshalPrivateKey := λ seed _, Ok ("PRIVATE " +:+ seed) |}.

Definition setup_urls : FileUrls := {| file_url := λ path query, "file://" +:+ path +:+ "?" +:+ query |}.

#[local] Existing Instances ascii_tables max_rowids max_rowids_laws sqlite_parser sample_texts menu_texts simple_net
  setup_formats shell_aead shell_codec ascii_print setup_toml setup_keys setup_urls.

#[local] Instance setup_laws : SetupLaws.
Proof.
  split.
  - intros text read c b d _ _. cbn. destruct (decide _) as [E|]; [|done]. intros [= <-]. cbn. by rewrite <- E.
  - intros seed comment pem E. apply (f_equal (λ r, match r with Ok b => b | Err _ => pem end)) in E. change ("PRIVATE " +:+ seed = pem) in E. subst pem. unfold ParsePrivateKey, setup_formats.
    by rewrite (prefix_append "PRIVATE " seed).
Qed.

Fixpoint fill (n : nat) : string := match n with O => "" | S n => String "r" (fill n) end.

#[export] Instance open_call_eq_dec : EqDecision open_call.
Proof. solve_decision. Defined.
#[export] Instance syscall_eq_dec : EqDecision syscall.
Proof. solve_decision. Defined.

(** A machine, and one where the calls of [bad] fail *)
Definition box (bad : list syscall) : machine :=
  MkMachine "/root" 0x12 0 0 noon (λ _ c, if decide (c ∈ bad) then Some (Ext "input/output error") else None)
    (λ _, 0%nat) (λ _ n, fill n) (λ _, "SQLite format 3").

Lemma box_random bad calls n : len (m_random (box bad) calls n) = Z.of_nat n.
Proof.
  unfold box. cbn [m_random]. induction n as [|n IH]; [reflexivity|]. cbn [fill].
  rewrite Nat2Z.inj_succ, <- IH. unfold len. cbn [String.length]. lia.
Qed.

Definition bare_host : host :=
  MkHost (list_to_map
    [(["var"], Directory 0x1ED 0 0); (["root"], Directory 0x1C0 0 0); (["etc"], Directory 0x1ED 0 0);
     (["root"; "admin.pub"], Regular 0x1A4 0 0 (Bytes "ssh-ed25519 AAAAadmin"))]) [] "".

Definition init_words : list string :=
  ["--admin"; "Root"; "--authorized-key"; "admin.pub"; "--data-dir=/var/lib/sshgatew"; "--listen"; "0.0.0.0:2222"].

Definition init_run (bad : list syscall) : result unit * host :=
  run (initCommand (box bad) "/etc/sshgatew/config.toml" init_words) bare_host.

(** What is where afterwards: the permissions of what was made *)
Definition listing (h : host) : list (string * Z) :=
  (λ '(p, n), (path_text p, node_perm n)) <$> map_to_list (h_files h).

Example initialised :
  (init_run []).1 = Ok tt ∧ listing (init_run []).2 ≡ₚ
  [("/etc", 0x1ED); ("/etc/sshgatew", 0x1E8); ("/etc/sshgatew/config.toml", 0x1A0); ("/root", 0x1C0);
   ("/root/admin.pub", 0x1A4); ("/var", 0x1ED); ("/var/lib", 0x1E8); ("/var/lib/sshgatew", 0x1E8);
   ("/var/lib/sshgatew/master.key", 0x180); ("/var/lib/sshgatew/ssh_host_ed25519_key", 0x180);
   ("/var/lib/sshgatew/sshgatew.db", 0x180)].
Proof. split; [vm_compute; reflexivity|]. apply (bool_decide_unpack _). vm_compute. exact I. Qed.

Lemma bare_tree : tree (h_files bare_host).
Proof. apply tree_check_sound. vm_compute. reflexivity. Qed.

Lemma init_overwrites_nothing_witness :
  h_files (final (initCommand (box []) "/etc/sshgatew/config.toml" init_words) bare_host) !! ["root"; "admin.pub"] =
    Some (Regular 0x1A4 0 0 (Bytes "ssh-ed25519 AAAAadmin")).
Proof.
  apply (init_overwrites_nothing (box []) "/etc/sshgatew/config.toml" init_words bare_host); [apply bare_tree| |].
  - vm_compute. reflexivity.
  - apply (bool_decide_unpack _). vm_compute. exact I.
Defined.

(** The configuration is written, and the call that adds the user fails. *)
Lemma failed_init_leaves_nothing_witness :
  value (initCommand (box [SysQuery]) "/etc/sshgatew/config.toml" init_words) bare_host = Err (Ext "input/output error") ∧
  h_files (final (initCommand (box [SysQuery]) "/etc/sshgatew/config.toml" init_words) bare_host)
    !! ["etc"; "sshgatew"; "config.toml"] = None.
Proof.
  assert (value (initCommand (box [SysQuery]) "/etc/sshgatew/config.toml" init_words) bare_host =
    Err (Ext "input/output error")) as Hv by (vm_compute; reflexivity).
  split; [exact Hv|].
  destruct (h_files (final (initCommand (box [SysQuery]) "/etc/sshgatew/config.toml" init_words) bare_host)
    !! ["etc"; "sshgatew"; "config.toml"]) as [n|] eqn:En; [exfalso|reflexivity].
  assert (h_files bare_host !! ["etc"; "sshgatew"; "config.toml"] = Some n) as Hn.
  { refine (failed_init_leaves_nothing (box [SysQuery]) "/etc/sshgatew/config.toml" init_words bare_host _
      ["etc"; "sshgatew"; "config.toml"] n bare_tree _ Hv En _).
    - intros calls path. vm_compute. reflexivity.
    - revert En. vm_compute. discriminate. }
  revert Hn. vm_compute. discriminate.
Defined.

Definition idle_env : run_env :=
  MkRunEnv "v1.0.0" (λ _, None) (Stream "" None) (Ok "") (λ _, (Ok tt, None, Ok tt)) (λ _ _, Ok tt) (Signalled (Ok tt))
    (λ _ _, Ret (Ok tt)).

Lemma initialized_gateway_starts_witness :
  value (run_args (without_faults (box [])) idle_env ["--config"; "/etc/sshgatew/config.toml"; "serve"])
    (final (initCommand (box []) "/etc/sshgatew/config.toml" init_words) bare_host) = Ok tt ∧
  ∃ d, h_files (final (initCommand (box []) "/etc/sshgatew/config.toml" init_words) bare_host)
         !! ["var"; "lib"; "sshgatew"; "sshgatew.db"] = Some (Regular 0x180 0 0 (Database d)) ∧
    value (publicKeyCallback "root" "10.0.0.9:50000" "SHA256:ssh-ed25519 AAAAadmin") (disk_content noon d) =
      Granted (authPermissions "root" "" "publickey").
Proof.
  destruct (initialized_gateway_starts (box []) "/etc/sshgatew/config.toml" init_words idle_env bare_host)
    as (Hs & name & key & uid & gid & d & Hn & Hk & Hd & Hl).
  - intros calls n. apply box_random.
  - apply bare_tree.
  - vm_compute. reflexivity.
  - apply (bool_decide_unpack _). vm_compute. exact I.
  - intros name. reflexivity.
  - vm_compute. reflexivity.
  - split; [exact Hs|]. exists d.
    assert (name = "root") as -> by (revert Hn; vm_compute; congruence).
    assert (key.2 = "SHA256:ssh-ed25519 AAAAadmin") as Ek.
    { apply (f_equal (λ r, match r with Ok k => k.2 | Err _ => "" end)) in Hk. rewrite <- Hk. vm_compute. reflexivity. }
    split; [|rewrite <- Ek; apply Hl].
    assert (uid = 0 ∧ gid = 0) as [-> ->] by (revert Hd; vm_compute; intros [= <- <- _]; split; reflexivity).
    exact Hd.
Defined.

(** ** An installation

    A machine without the service's account, and what the installer does on it. *)

#[local] Existing Instances ascii_tables max_rowids max_rowids_laws sqlite_parser sample_texts menu_texts simple_net
  setup_formats shell_aead shell_codec ascii_print setup_toml setup_keys setup_urls.

(** [useradd] adds the account. *)
Definition is_useradd (c : syscall) : bool := match c with SysRun name _ => name =s "useradd" | _ => false end.

Definition sample_runtime (euid : Z) : installRuntime :=
  MkInstallRuntime euid (Ok "/root/sshgatew")
    (λ calls _, if existsb is_useradd calls then UserFound "997" "996" else UnknownUser) (λ _ _ _, None)
    (λ _ dir pattern, if dir =s "" then "/tmp/admin-key.pub" else dir +:+ "/.sshgatew-install-1").

Definition server_host : host :=
  MkHost (list_to_map
    (map (λ p, (p, Directory 0x1ED 0 0))
       [["root"]; ["tmp"]; ["usr"]; ["usr"; "local"]; ["usr"; "local"; "bin"]; ["etc"]; ["etc"; "systemd"];
        ["etc"; "systemd"; "system"]; ["var"]; ["var"; "lib"]]
     ++ [(["root"; "sshgatew"], Regular 0x1ED 1000 1000 (Bytes "ELF"))])) [] "".

Definition install_run (bad : list syscall) : result unit * host :=
  run (installCommand (box bad) (sample_runtime 0) "v1" ("ssh-ed25519 AAAAadmin" +:+ newline, None)
         "/etc/sshgatew/config.toml" ["--yes"]) server_host.

Definition owners (h : host) : list (string * Z * option (Z * Z)) :=
  (λ '(p, n), (path_text p, node_perm n,
    match n with Regular _ u g _ | Directory _ u g => Some (u, g) | Special => None end)) <$> map_to_list (h_files h).

Example installed_files :
  (install_run []).1 = Ok tt ∧
  List.filter (λ '(p, _, _), existsb (HasPrefix p)
      ["/var/lib/sshgatew"; "/etc/sshgatew"; "/etc/systemd/system/sshgatew"; "/usr/local/bin/"])
     (owners (install_run []).2) ≡ₚ
  [("/usr/local/bin/sshgatew", 0x1ED, Some (0, 0));
   ("/etc/sshgatew", 0x1E8, Some (0, 996)); ("/etc/sshgatew/config.toml", 0x1A0, Some (0, 996));
   ("/etc/systemd/system/sshgatew.service", 0x1A4, Some (0, 0));
   ("/var/lib/sshgatew", 0x1E8, Some (997, 996)); ("/var/lib/sshgatew/master.key", 0x180, Some (997, 996));
   ("/var/lib/sshgatew/ssh_host_ed25519_key", 0x180, Some (997, 996));
   ("/var/lib/sshgatew/sshgatew.db", 0x180, Some (997, 996))].
Proof. split; [vm_compute; reflexivity|]. apply (bool_decide_unpack _). vm_compute. exact I. Qed.

(** The service cannot be enabled: what was installed stays, and the installer
    will not go on with it. *)
Example unfinished_installation :
  let bad := [SysRun "systemctl" ["enable"; "--now"; "sshgatew.service"]] in
  (install_run bad).1 = Err (Ext "input/output error") ∧
  (run (installCommand (box []) (sample_runtime 0) "v1" ("ssh-ed25519 AAAAadmin" +:+ newline, None)
         "/etc/sshgatew/config.toml" ["--yes"]) (install_run bad).2).1 =
    Err (Msg "SSHGateW is already initialized at /etc/sshgatew/config.toml; refusing to overwrite it").
Proof. vm_compute. split; reflexivity. Qed.

(** Arguments are consent: with any, nothing is asked, with or without [--yes]. *)
Example consent_is_not_asked :
  (run (installCommand (box []) (sample_runtime 0) "v1" ("ssh-ed25519 AAAAadmin" +:+ newline, None)
         "/etc/sshgatew/config.toml" ["--no-start"]) server_host).1 = Ok tt ∧
  (run (installCommand (box []) (sample_runtime 0) "v1" (newline +:+ newline +:+ "ssh-ed25519 AAAAadmin" +:+ newline, None)
         "/etc/sshgatew/config.toml" []) server_host).1 = Err (Msg "installation cancelled").
Proof. vm_compute. split; reflexivity. Qed.

Lemma server_tree : tree (h_files server_host).
Proof. apply tree_check_sound. vm_compute. reflexivity. Qed.

Lemma sample_temps euid reserved :
  (∀ dir : string, place_of (box []) (dir +:+ "/.sshgatew-install-1") ∉ reserved) →
  place_of (box []) "/tmp/admin-key.pub" ∉ reserved → temps_apart (box []) (sample_runtime euid) reserved.
Proof. intros H1 H2 calls dir pattern. cbn [rt_temp sample_runtime]. destruct (dir =s ""); [exact H2|apply H1]. Qed.

(** A temporary file's name ends a path. *)
Lemma temp_place dir : ∃ base, place_of (box []) (dir +:+ "/.sshgatew-install-1") = base ++ [".sshgatew-install-1"].
Proof.
  destruct (place_of_prefix (box []) (dir +:+ "/") (or_intror (ex_intro _ dir eq_refl))) as [base Hb].
  exists base. rewrite <- Hb by reflexivity. by rewrite append_assoc.
Qed.

Lemma temp_elsewhere dir reserved : Forall (λ p, last p ≠ Some ".sshgatew-install-1") reserved →
  place_of (box []) (dir +:+ "/.sshgatew-install-1") ∉ reserved.
Proof.
  destruct (temp_place dir) as [base ->]. intros Hl Hin. rewrite Forall_forall in Hl. apply (Hl _ Hin). by rewrite last_snoc.
Qed.

(** Stopped before the rename, and finished *)
Lemma replaced_as_a_whole_witness :
  let write_unit := atomicWrite (box []) (sample_runtime 0) "/usr/local/bin/sshgatew" "new" 0x1ED in
  (∃ h', states write_unit server_host !! 5%nat = Some h' ∧
     old_or_complete (box []) "/usr/local/bin/sshgatew" 0x1ED "new" server_host h') ∧
  replaced (box []) "/usr/local/bin/sshgatew" 0x1ED "new" (h_files (final write_unit server_host)).
Proof.
  intros write_unit.
  assert (temps_apart (box []) (sample_runtime 0) [place_of (box []) "/usr/local/bin/sshgatew"; place_of (box []) "/root/sshgatew"])
    as Htemps.
  { apply sample_temps; [intros dir; apply temp_elsewhere; repeat constructor; vm_compute; discriminate|].
    apply (bool_decide_unpack _). vm_compute. exact I. }
  pose proof (replaced_as_a_whole (box []) (sample_runtime 0) "/usr/local/bin/sshgatew" 0x1ED "new" "/root/sshgatew" 0x1ED 1000 1000
    (Bytes "ELF") server_host) as Hall.
  split.
  - destruct (states write_unit server_host !! 5%nat) as [h'|] eqn:E; [|exfalso; revert E; vm_compute; discriminate].
    exists h'. split; [reflexivity|]. apply (Hall h'); [exact Htemps|apply server_tree|vm_compute; reflexivity|].
    apply list_elem_of_lookup_2 with 5%nat. exact E.
  - apply (Hall (final write_unit server_host)); [exact Htemps|apply server_tree|vm_compute; reflexivity|].
    unfold final. assert ((run write_unit server_host).1 = Ok tt) as E by (vm_compute; reflexivity).
    fold write_unit. destruct (run write_unit server_host) as [r h']. cbn [fst snd] in *. by rewrite E.
Defined.

Lemma install_refuses_existing_witness :
  let '(r, h') := run (performInstall (box []) (sample_runtime 1000) (productionPaths "/etc/sshgatew/config.toml") "admin"
                         "0.0.0.0:2222" "ssh-ed25519 AAAAadmin" true) server_host in
  is_ok r = false ∧ h_files h' = h_files server_host ∧
  ∃ calls, h_calls h' = calls ++ h_calls server_host ∧ Forall (λ c, ∃ p, c = SysStat p) calls.
Proof.
  apply (install_refuses_existing (box []) (sample_runtime 1000) (productionPaths "/etc/sshgatew/config.toml")).
  left. vm_compute. discriminate.
Defined.


